(** * BigARTM batch processor: a shallow embedding and its properties

    The development follows [src/artm/core/processor.cc] (the bag-of-words
    processor) and [src/artm/core/processor_transaction_helpers.cc] (the
    transaction processor).

    Numbers are modelled the way the C++ code has them: [int] as [Z],
    [float] as IEEE-754 binary32 and [double] as binary64, both through
    the executable specification of [SpecFloat] (round to nearest even,
    signed zeros, infinities, one NaN).  Protobuf messages are records,
    repeated fields are lists, [std::map] is a [gmap]. *)

From Stdlib Require Import ZArith List Bool String Lia QArith Qabs.
From Stdlib Require Import Floats.SpecFloat.
From stdpp Require Import base option list gmap strings.

Open Scope Z_scope.

(* ================================================================== *)
(** * Part I: the model                                                *)
(* ================================================================== *)

(** ** IEEE-754 arithmetic *)

(** [double]: binary64. *)
Module Float64.
Definition prec : Z := 53.
Definition emax : Z := 1024.
Definition t : Type := spec_float.
Definition zero : t := S754_zero false.
Definition add : t -> t -> t := SFadd prec emax.
Definition mul : t -> t -> t := SFmul prec emax.
Definition div : t -> t -> t := SFdiv prec emax.
Definition abs : t -> t := SFabs.
Definition ltb : t -> t -> bool := SFltb.
Definition eqb : t -> t -> bool := SFeqb.
(** [static_cast<double>(int)] *)
Definition of_int (z : Z) : t := binary_normalize prec emax z 0 false.
(** The literal [1e-16]. *)
Definition lit_1e_16 : t := S754_finite false 8112963841460668 (-106).
(** The literal [1e-100]. *)
Definition lit_1e_100 : t := S754_finite false 7880401239278896 (-385).
End Float64.

(** [float]: binary32. *)
Module Float32.
Definition prec : Z := 24.
Definition emax : Z := 128.
Definition t : Type := spec_float.
Definition zero : t := S754_zero false.
Definition one : t := S754_finite false 8388608 (-23).
Definition nan : t := S754_nan.
Definition add : t -> t -> t := SFadd prec emax.
Definition mul : t -> t -> t := SFmul prec emax.
Definition div : t -> t -> t := SFdiv prec emax.
Definition ltb : t -> t -> bool := SFltb.
Definition leb : t -> t -> bool := SFleb.
Definition eqb : t -> t -> bool := SFeqb.
(** [static_cast<float>(int)], also the implicit conversion in
    [float op int]. *)
Definition of_int (z : Z) : t := binary_normalize prec emax z 0 false.
(** The implicit widening [float -> double] is exact; the value is
    put in the canonical binary64 form. *)
Definition to_double (x : t) : Float64.t :=
  match x with
  | S754_finite s m e => binary_round Float64.prec Float64.emax s m e
  | _ => x
  end.
(** The narrowing [double -> float] rounds to nearest even. *)
Definition of_double (x : Float64.t) : t :=
  match x with
  | S754_finite s m e => binary_round prec emax s m e
  | _ => x
  end.
(** The literal [1e-16f]. *)
Definition lit_1e_16f : t := S754_finite false 15111573 (-77).
Definition is_nan (x : t) : bool :=
  match x with S754_nan => true | _ => false end.
Definition is_finite (x : t) : bool :=
  match x with S754_zero _ | S754_finite _ _ _ => true | _ => false end.
(** The exact rational value of a finite number (0 for the others). *)
Definition to_Q (x : t) : Q :=
  match x with
  | S754_finite s m e =>
      let v := match e with
               | Z0 => inject_Z (Zpos m)
               | Zpos p => inject_Z (Zpos m * 2 ^ Zpos p)
               | Zneg p => Qmake (Zpos m) (2 ^ p)
               end in
      if s then Qopp v else v
  | _ => 0%Q
  end.
End Float32.

Abbreviation float := Float32.t.
Abbreviation double := Float64.t.

(** ** Repeated fields and counting loops *)

(** [field(i)] of a protobuf repeated field, [v[i]] of a vector.  The
    source does not define an access out of range; the model returns
    [d] there. *)
Definition rget {A : Type} (l : list A) (i : Z) (d : A) : A :=
  if i <? 0 then d else nth (Z.to_nat i) l d.

(** [v[i] = x]; out of range the model leaves the vector as it is. *)
Definition rset {A : Type} (l : list A) (i : Z) (x : A) : list A :=
  if i <? 0 then l else <[Z.to_nat i := x]> l.

(** [field_size()] *)
Definition rsize {A : Type} (l : list A) : Z := Z.of_nat (length l).

(** The indices of [for (int i = 0; i < n; ++i)]. *)
Definition Zrange (n : Z) : list Z := map Z.of_nat (seq 0 (Z.to_nat n)).

(** The indices of [for (int i = lo; i < hi; ++i)]. *)
Definition Zrange_from (lo hi : Z) : list Z :=
  map (fun k => lo + Z.of_nat k) (seq 0 (Z.to_nat (hi - lo))).

(** [repeated_field_index_of(field, value)]: the index of the first
    occurrence, [-1] when there is none. *)
Fixpoint repeated_field_index_of_from {A : Type} `{EqDecision A}
    (pos : Z) (l : list A) (v : A) : Z :=
  match l with
  | [] => -1
  | x :: l' => if decide (x = v) then pos
               else repeated_field_index_of_from (pos + 1) l' v
  end.

Definition repeated_field_index_of {A : Type} `{EqDecision A}
    (l : list A) (v : A) : Z :=
  repeated_field_index_of_from 0 l v.

(** ** The matrices of [processor.cc] *)

(** [DenseMatrix<float>]: a flat buffer with its orientation. *)
Record DenseMatrix : Type := mkDense {
  no_rows : Z;
  no_columns : Z;
  store_by_rows : bool;
  get_data : list float
}.

(** The constructor allocates [no_rows * no_columns] cells when both
    are positive and no buffer otherwise; the cells are not initialised
    by the source, the model starts them at zero. *)
Definition DenseMatrix_new (rows cols : Z) (by_rows : bool) : DenseMatrix :=
  mkDense rows cols by_rows
    (if (0 <? rows) && (0 <? cols)
     then replicate (Z.to_nat (rows * cols)) Float32.zero
     else []).

Definition InitializeZeros (M : DenseMatrix) : DenseMatrix :=
  mkDense (no_rows M) (no_columns M) (store_by_rows M)
    (replicate (length (get_data M)) Float32.zero).

(** The offset behind [operator()(index_row, index_col)]. *)
Definition dense_offset (M : DenseMatrix) (index_row index_col : Z) : Z :=
  if store_by_rows M then index_row * no_columns M + index_col
  else index_col * no_rows M + index_row.

Definition dense_get (M : DenseMatrix) (index_row index_col : Z) : float :=
  rget (get_data M) (dense_offset M index_row index_col) Float32.zero.

Definition dense_set (M : DenseMatrix) (index_row index_col : Z) (v : float)
    : DenseMatrix :=
  mkDense (no_rows M) (no_columns M) (store_by_rows M)
    (rset (get_data M) (dense_offset M index_row index_col) v).

(** [CsrMatrix<float>] *)
Record CsrMatrix : Type := mkCsr {
  csr_m : Z;
  csr_n : Z;
  csr_nnz : Z;
  csr_val : list float;
  csr_row_ptr : list Z;
  csr_col_ind : list Z
}.

(** The constructor that takes the three vectors and the column count. *)
Definition CsrMatrix_of (n : Z) (val : list float) (row_ptr col_ind : list Z)
    : CsrMatrix :=
  mkCsr (rsize row_ptr - 1) n (rsize val) val row_ptr col_ind.

(** [ApplyByElement<0>]: element-wise product over
    [first.no_rows * first.no_columns] cells. *)
Definition ApplyByElement_0 (result first second : DenseMatrix) : DenseMatrix :=
  let size := no_rows first * no_columns first in
  mkDense (no_rows result) (no_columns result) (store_by_rows result)
    (fold_left
       (fun data i =>
          rset data i (Float32.mul (rget (get_data first) i Float32.zero)
                                   (rget (get_data second) i Float32.zero)))
       (Zrange size) (get_data result)).

(** One cell of [ApplyByElement<1>]. *)
Definition safe_div (first second : float) : float :=
  if Float32.eqb first Float32.zero || Float32.eqb second Float32.zero
  then Float32.zero
  else Float32.div first second.

(** [ApplyByElement<1>]: element-wise guarded quotient. *)
Definition ApplyByElement_1 (result first second : DenseMatrix) : DenseMatrix :=
  let size := no_rows first * no_columns first in
  mkDense (no_rows result) (no_columns result) (store_by_rows result)
    (fold_left
       (fun data i =>
          rset data i (safe_div (rget (get_data first) i Float32.zero)
                                (rget (get_data second) i Float32.zero)))
       (Zrange size) (get_data result)).

(** ** Messages of the bag-of-words processor *)

Record Field : Type := mkField {
  field_token_id : list Z;
  field_token_count : list Z
}.

Record Item : Type := mkItem {
  item_id : Z;
  item_field : list Field
}.

Record Batch : Type := mkBatch {
  batch_token : list string;
  batch_class_id : list string;
  batch_item : list Item
}.

Record Mask : Type := mkMask { mask_value : list bool }.

Record DataLoaderCacheEntry : Type := mkCacheEntry {
  ce_batch_uuid : string;
  ce_model_name : string;
  ce_topic_name : list string;
  ce_item_id : list Z;
  ce_theta : list (list float);
  ce_filename : option string
}.

Record ProcessorInput : Type := mkProcessorInput {
  pi_batch : Batch;
  pi_batch_uuid : string;
  pi_stream_name : list string;
  pi_stream_mask : list Mask;
  pi_cached_theta : list DataLoaderCacheEntry
}.

Record ModelConfig : Type := mkModelConfig {
  mc_name : string;
  mc_topics_count : Z;
  mc_topic_name : list string;
  mc_enabled : bool;
  mc_inner_iterations_count : Z;
  mc_use_sparse_bow : bool;
  mc_reuse_theta : bool;
  mc_use_random_theta : bool;
  mc_stream_name : string;
  mc_class_id : list string;
  mc_class_weight : list float;
  mc_regularizer_name : list string;
  mc_regularizer_tau : list double;
  mc_score_name : list string
}.

Inductive OperationType : Type :=
  | CreateIfNotExist
  | IncrementValue.

Record ModelIncrement : Type := mkModelIncrement {
  mi_model_name : string;
  mi_topics_count : Z;
  mi_topic_name : list string;
  mi_batch_uuid : list string;
  mi_token : list string;
  mi_class_id : list string;
  mi_token_increment : list (list float);
  mi_operation_type : list OperationType;
  mi_cache : list DataLoaderCacheEntry;
  mi_score_name : list string;
  mi_score : list string
}.

(** [Token(class_id, keyword)] *)
Record Token : Type := mkToken {
  token_class_id : string;
  token_keyword : string
}.

Definition empty_Item : Item := mkItem 0 [].
Definition empty_Mask : Mask := mkMask [].
Definition empty_CacheEntry : DataLoaderCacheEntry :=
  mkCacheEntry EmptyString EmptyString [] [] [] None.

(** [batch.item(i)], [part.stream_mask(i)], [mask.value(i)], ... *)
Definition batch_item_at (b : Batch) (i : Z) : Item := rget (batch_item b) i empty_Item.
Definition mask_value_at (m : Mask) (i : Z) : bool := rget (mask_value m) i false.
Definition stream_mask_at (p : ProcessorInput) (i : Z) : Mask :=
  rget (pi_stream_mask p) i empty_Mask.
Definition batch_token_obj (b : Batch) (token_index : Z) : Token :=
  mkToken (rget (batch_class_id b) token_index EmptyString)
          (rget (batch_token b) token_index EmptyString).

(** ** The collaborators, by their interfaces *)

(** The read-only topic model snapshot. *)
Record TopicModel : Type := mkTopicModel {
  tm_has_token : Token -> bool;
  tm_topic_size : Z;
  tm_topic_name : list string;
  (** [GetTopicWeightIterator(token)[topic_index]] *)
  tm_topic_weight : Token -> Z -> float
}.

(** [RegularizerInterface::RegularizeTheta(item, &theta_next, topic_name,
    inner_iter, tau)]: the return value and the vector it leaves behind. *)
Record RegularizerInterface : Type := mkRegularizer {
  RegularizeTheta :
    Item -> list float -> list string -> Z -> double -> bool * list float
}.

(** A [Score] message is kept in its serialised form. *)
Definition Score : Type := string.

Record ScoreCalculatorInterface : Type := mkScoreCalculator {
  is_cumulative : bool;
  CreateScore : Score;
  sc_stream_name : string;
  AppendScore : Item -> list Token -> TopicModel -> list float -> Score -> Score
}.

Record MasterComponentConfig : Type := mkMasterConfig {
  cfg_cache_theta : bool;
  cfg_disk_cache_path : option string;
  cfg_merger_queue_max_size : Z
}.

Record InstanceSchema : Type := mkSchema {
  GetModelNames : list string;
  schema_model_config : string -> ModelConfig;
  schema_regularizer : string -> option RegularizerInterface;
  schema_score_calculator : string -> option ScoreCalculatorInterface;
  schema_config : MasterComponentConfig
}.

Inductive BlasOrder : Type := RowMajor | ColMajor.
Inductive BlasTranspose : Type := NoTrans | Trans.

(** [util::Blas]: the table of kernels the processor calls through.  A
    pointer argument is a buffer and an offset into it; a kernel that
    writes returns the written buffer. *)
Record Blas : Type := mkBlas {
  sdot : Z -> list float -> Z -> Z -> list float -> Z -> Z -> float;
  saxpy : Z -> float -> list float -> Z -> Z -> list float -> Z -> Z -> list float;
  sgemm : BlasOrder -> BlasTranspose -> BlasTranspose -> Z -> Z -> Z ->
          float -> list float -> Z -> list float -> Z ->
          float -> list float -> Z -> list float;
  scsr2csc : Z -> Z -> Z -> list float -> list Z -> list Z ->
             list float * list Z * list Z
}.

(** The exceptions the processor throws. *)
Inductive Exception : Type :=
  | InternalError (what : string)
  | ArgumentOutOfRangeException (what : string) (argument : string).

(** ** The stream iterator *)

Record StreamIterator : Type := mkStreamIterator {
  items_count_ : Z;
  item_index_ : Z;
  stream_flags_ : option Mask;
  processor_input_ : ProcessorInput
}.

Definition StreamIterator_new (processor_input : ProcessorInput) : StreamIterator :=
  mkStreamIterator (rsize (batch_item (pi_batch processor_input))) (-1) None
                   processor_input.

Definition Current (it : StreamIterator) : option Item :=
  if item_index_ it >=? items_count_ it then None
  else Some (batch_item_at (pi_batch (processor_input_ it)) (item_index_ it)).

Definition advance (it : StreamIterator) : StreamIterator :=
  mkStreamIterator (items_count_ it) (item_index_ it + 1) (stream_flags_ it)
                   (processor_input_ it).

(** Whether the loop of [Next] breaks at the current index. *)
Definition Next_stops (it : StreamIterator) : bool :=
  (item_index_ it >=? items_count_ it) ||
  match stream_flags_ it with
  | None => true
  | Some flags => mask_value_at flags (item_index_ it)
  end.

(** The [for (;;)] of [Next]: one round increments the index and
    breaks or goes round again. *)
Fixpoint Next_loop (rounds : nat) (it : StreamIterator) : StreamIterator :=
  let it' := advance it in
  if Next_stops it' then it'
  else match rounds with
       | O => it'
       | S rounds' => Next_loop rounds' it'
       end.

(** [Next]: the loop cannot go round more often than there are items
    left, the state after it and the item it returns. *)
Definition Next (it : StreamIterator) : StreamIterator * option Item :=
  let it' := Next_loop (Z.to_nat (items_count_ it - item_index_ it)) it in
  (it', Current it').

(** [InStream(const std::string& stream_name)] *)
Definition InStream (it : StreamIterator) (stream_name : string) : bool :=
  if item_index_ it >=? items_count_ it then false
  else
    let index_of_stream :=
      repeated_field_index_of (pi_stream_name (processor_input_ it)) stream_name in
    if index_of_stream =? -1 then true
    else mask_value_at (stream_mask_at (processor_input_ it) index_of_stream)
                       (item_index_ it).

(** [InStream(int stream_index)] *)
Definition InStream_index (it : StreamIterator) (stream_index : Z) : bool :=
  if stream_index =? -1 then true
  else if item_index_ it >=? items_count_ it then false
  else mask_value_at (stream_mask_at (processor_input_ it) stream_index)
                     (item_index_ it).

(** ** Batch preparation *)

(** [std::map::insert] and [emplace]: a key that is present keeps its
    value. *)
Definition map_insert_new (m : gmap string float) (k : string) (v : float)
    : gmap string float :=
  match m !! k with
  | Some _ => m
  | None => <[k := v]> m
  end.

(** The rows [add_token_increment] / [add_operation_type] give a token. *)
Definition increment_row (topic_size : Z) (known : bool)
    : list float * OperationType :=
  if known
  then (fold_left (fun counters _ => counters ++ [Float32.zero])
                  (Zrange topic_size) [],
        IncrementValue)
  else ([], CreateIfNotExist).

Definition InitializeModelIncrement (part : ProcessorInput)
    (model_config : ModelConfig) (topic_model : TopicModel) : ModelIncrement :=
  let batch := pi_batch part in
  let topic_size := mc_topics_count model_config in
  let start :=
    mkModelIncrement (mc_name model_config) topic_size
                     (tm_topic_name topic_model) [pi_batch_uuid part]
                     [] [] [] [] [] [] [] in
  fold_left
    (fun mi token_index =>
       let token := batch_token_obj batch token_index in
       let row := increment_row topic_size (tm_has_token topic_model token) in
       mkModelIncrement (mi_model_name mi) (mi_topics_count mi)
         (mi_topic_name mi) (mi_batch_uuid mi)
         (mi_token mi ++ [token_keyword token])
         (mi_class_id mi ++ [token_class_id token])
         (mi_token_increment mi ++ [fst row])
         (mi_operation_type mi ++ [snd row])
         (mi_cache mi) (mi_score_name mi) (mi_score mi))
    (Zrange (rsize (batch_token batch))) start.

(** [InitializeTheta]; [GenerateFloat n] is the [n]-th draw of the
    process-wide random source and [rnd] counts the draws made. *)
Definition InitializeTheta (GenerateFloat : nat -> float) (rnd : nat)
    (batch : Batch) (model_config : ModelConfig)
    (cache : option DataLoaderCacheEntry) : DenseMatrix * nat :=
  let topic_size := mc_topics_count model_config in
  let item_size := rsize (batch_item batch) in
  let Theta :=
    InitializeZeros
      (if mc_use_sparse_bow model_config
       then DenseMatrix_new topic_size item_size false
       else DenseMatrix_new topic_size item_size true) in
  fold_left
    (fun (st : DenseMatrix * nat) item_index =>
       let index_of_item :=
         match cache with
         | Some c =>
             if mc_reuse_theta model_config
             then repeated_field_index_of (ce_item_id c)
                    (item_id (batch_item_at batch item_index))
             else -1
         | None => -1
         end in
       if negb (index_of_item =? -1) && mc_reuse_theta model_config then
         let old_thetas :=
           rget (ce_theta (default empty_CacheEntry cache)) index_of_item [] in
         fold_left
           (fun (st : DenseMatrix * nat) topic_index =>
              (dense_set (fst st) topic_index item_index
                         (rget old_thetas topic_index Float32.zero),
               snd st))
           (Zrange topic_size) st
       else
         let default_theta := Float32.div Float32.one (Float32.of_int topic_size) in
         fold_left
           (fun (st : DenseMatrix * nat) iTopic =>
              if mc_use_random_theta model_config
              then (dense_set (fst st) iTopic item_index (GenerateFloat (snd st)),
                    S (snd st))
              else (dense_set (fst st) iTopic item_index default_theta, snd st))
           (Zrange topic_size) st)
    (Zrange item_size) (Theta, rnd).

(** The cell [InitializePhi] stores for a model weight: the comparison
    with the [double] literal [1e-16] is made in [double]. *)
Definition phi_value (value : float) : float :=
  if Float64.ltb (Float32.to_double value) Float64.lit_1e_16
  then Float32.zero else value.

(** [InitializePhi]: [None] stands for the null pointer returned when
    no token of the batch is known to the model. *)
Definition InitializePhi (batch : Batch) (model_config : ModelConfig)
    (topic_model : TopicModel) : option DenseMatrix :=
  let topic_size := tm_topic_size topic_model in
  let token_size := rsize (batch_token batch) in
  let phi_matrix := InitializeZeros (DenseMatrix_new token_size topic_size true) in
  let '(phi_is_empty, phi_matrix) :=
    fold_left
      (fun (st : bool * DenseMatrix) token_index =>
         let token := batch_token_obj batch token_index in
         if tm_has_token topic_model token then
           (false,
            fold_left
              (fun phi topic_index =>
                 dense_set phi token_index topic_index
                   (phi_value (tm_topic_weight topic_model token topic_index)))
              (Zrange topic_size) (snd st))
         else st)
      (Zrange token_size) (true, phi_matrix) in
  if phi_is_empty then None else Some phi_matrix.

(** ** Theta regularization and normalization *)

(** The regularizers of the config applied in turn to [theta_next]; a
    name the schema does not know is skipped, and whatever a regularizer
    leaves in the vector stays there, whether it reports success or not. *)
Definition apply_regularizers (inner_iter : Z) (item : Item)
    (model_config : ModelConfig) (schema : InstanceSchema)
    (theta_next : list float) : list float :=
  fold_left
    (fun theta_next tau_index =>
       let reg_name := rget (mc_regularizer_name model_config) tau_index EmptyString in
       match schema_regularizer schema reg_name with
       | Some regularizer =>
           let tau := rget (mc_regularizer_tau model_config) tau_index Float64.zero in
           snd (RegularizeTheta regularizer item theta_next
                  (mc_topic_name model_config) inner_iter tau)
       | None => theta_next
       end)
    (Zrange (rsize (mc_regularizer_name model_config))) theta_next.

(** [if (theta_next[i] < 0) theta_next[i] = 0] over the whole vector. *)
Definition clip_negative (theta_next : list float) : list float :=
  fold_left
    (fun theta_next i =>
       if Float32.ltb (rget theta_next i Float32.zero) Float32.zero
       then rset theta_next i Float32.zero
       else theta_next)
    (Zrange (rsize theta_next)) theta_next.

(** [sum += theta_next[topic_index]] over the topics. *)
Definition column_sum (topic_size : Z) (theta_next : list float) : float :=
  fold_left
    (fun sum topic_index => Float32.add sum (rget theta_next topic_index Float32.zero))
    (Zrange topic_size) Float32.zero.

(** The value written back for one topic. *)
Definition normalized_value (sum : float) (x : float) : float :=
  let val := if Float32.ltb Float32.zero sum then Float32.div x sum
             else Float32.zero in
  if Float32.ltb val Float32.lit_1e_16f then Float32.zero else val.

(** The body of the loop over the items. *)
Definition RegularizeAndNormalizeTheta_item (inner_iter : Z)
    (model_config : ModelConfig) (schema : InstanceSchema)
    (Theta : DenseMatrix) (item_index : Z) (item : Item) : DenseMatrix :=
  let topic_size := mc_topics_count model_config in
  let theta_next :=
    fold_left
      (fun theta_next topic_index =>
         theta_next ++ [dense_get Theta topic_index item_index])
      (Zrange topic_size) [] in
  let theta_next := apply_regularizers inner_iter item model_config schema theta_next in
  let theta_next := clip_negative theta_next in
  let sum := column_sum topic_size theta_next in
  fold_left
    (fun Theta topic_index =>
       dense_set Theta topic_index item_index
         (normalized_value sum (rget theta_next topic_index Float32.zero)))
    (Zrange topic_size) Theta.

Definition RegularizeAndNormalizeTheta (inner_iter : Z) (batch : Batch)
    (model_config : ModelConfig) (schema : InstanceSchema)
    (Theta : DenseMatrix) : DenseMatrix :=
  snd (fold_left
         (fun (st : Z * DenseMatrix) item =>
            let item_index := fst st + 1 in
            (item_index,
             RegularizeAndNormalizeTheta_item inner_iter model_config schema
               (snd st) item_index item))
         (batch_item batch) (-1, Theta)).

(** ** The document-word counts *)

(** The weight map of [InitializeSparseNdw]. *)
Definition class_id_to_weight (model_config : ModelConfig) : gmap string float :=
  fold_left
    (fun m i =>
       map_insert_new m (rget (mc_class_id model_config) i EmptyString)
                        (rget (mc_class_weight model_config) i Float32.zero))
    (Zrange (rsize (mc_class_id model_config))) ∅.

(** The weight of the class of a batch token. *)
Definition token_class_weight (batch : Batch) (model_config : ModelConfig)
    (token_id : Z) : float :=
  if negb (rsize (mc_class_id model_config) =? 0) then
    let class_id := rget (batch_class_id batch) token_id EmptyString in
    match class_id_to_weight model_config !! class_id with
    | None => Float32.zero
    | Some w => w
    end
  else Float32.one.

(** The three vectors under construction: [n_dw_val], [n_dw_row_ptr],
    [n_dw_col_ind]. *)
Definition ndw_vectors : Type := (list float * list Z * list Z)%type.

Definition sparse_ndw_field (batch : Batch) (model_config : ModelConfig)
    (st : ndw_vectors) (field : Field) : ndw_vectors :=
  fold_left
    (fun (st : ndw_vectors) token_index =>
       let '(n_dw_val, n_dw_row_ptr, n_dw_col_ind) := st in
       let token_id := rget (field_token_id field) token_index 0 in
       let class_weight := token_class_weight batch model_config token_id in
       let token_count :=
         Float32.of_int (rget (field_token_count field) token_index 0) in
       (n_dw_val ++ [Float32.mul class_weight token_count],
        n_dw_row_ptr,
        n_dw_col_ind ++ [token_id]))
    (Zrange (rsize (field_token_id field))) st.

Definition sparse_ndw_vectors (batch : Batch) (model_config : ModelConfig)
    : ndw_vectors :=
  let '(n_dw_val, n_dw_row_ptr, n_dw_col_ind) :=
    fold_left
      (fun (st : ndw_vectors) item_index =>
         let '(n_dw_val, n_dw_row_ptr, n_dw_col_ind) := st in
         let current_item := batch_item_at batch item_index in
         fold_left (sparse_ndw_field batch model_config)
                   (item_field current_item)
                   (n_dw_val, n_dw_row_ptr ++ [rsize n_dw_val], n_dw_col_ind))
      (Zrange (rsize (batch_item batch))) ([], [], []) in
  (n_dw_val, n_dw_row_ptr ++ [rsize n_dw_val], n_dw_col_ind).

Definition InitializeSparseNdw (batch : Batch) (model_config : ModelConfig)
    : CsrMatrix :=
  let '(n_dw_val, n_dw_row_ptr, n_dw_col_ind) :=
    sparse_ndw_vectors batch model_config in
  CsrMatrix_of (rsize (batch_token batch)) n_dw_val n_dw_row_ptr n_dw_col_ind.

Definition dense_ndw_field (item_index : Z) (n_dw : DenseMatrix) (field : Field)
    : DenseMatrix :=
  fold_left
    (fun n_dw token_index =>
       let token_id := rget (field_token_id field) token_index 0 in
       let token_count := rget (field_token_count field) token_index 0 in
       dense_set n_dw token_id item_index
         (Float32.add (dense_get n_dw token_id item_index)
                      (Float32.of_int token_count)))
    (Zrange (rsize (field_token_id field))) n_dw.

Definition InitializeDenseNdw (batch : Batch) : DenseMatrix :=
  let n_dw :=
    InitializeZeros
      (DenseMatrix_new (rsize (batch_token batch)) (rsize (batch_item batch)) true) in
  fold_left
    (fun n_dw item_index =>
       let current_item := batch_item_at batch item_index in
       fold_left (dense_ndw_field item_index) (item_field current_item) n_dw)
    (Zrange (no_columns n_dw)) n_dw.

(** ** The EM inner loop, sparse bag of words *)

(** The address [&M(index_row, 0)] or [&M(0, index_col)] handed to a
    kernel is the buffer of [M] with the offset of that cell. *)

(** The body of the loop over the non-zeros of one document row. *)
Definition sparse_ntd_entry (blas : Blas) (sparse_ndw : CsrMatrix)
    (phi_matrix theta_matrix : DenseMatrix) (d : Z)
    (n_td : DenseMatrix) (i : Z) : DenseMatrix :=
  let topics_count := no_columns phi_matrix in
  let w := rget (csr_col_ind sparse_ndw) i 0 in
  let p_dw_val :=
    sdot blas topics_count
         (get_data phi_matrix) (dense_offset phi_matrix w 0) 1
         (get_data theta_matrix) (dense_offset theta_matrix 0 d) 1 in
  if Float32.eqb p_dw_val Float32.zero then n_td
  else
    mkDense (no_rows n_td) (no_columns n_td) (store_by_rows n_td)
      (saxpy blas topics_count
             (Float32.div (rget (csr_val sparse_ndw) i Float32.zero) p_dw_val)
             (get_data phi_matrix) (dense_offset phi_matrix w 0) 1
             (get_data n_td) (dense_offset n_td 0 d) 1).

(** One inner iteration of [CalculateNwtSparse]. *)
Definition sparse_inner_iteration (model_config : ModelConfig) (batch : Batch)
    (schema : InstanceSchema) (sparse_ndw : CsrMatrix) (phi_matrix : DenseMatrix)
    (blas : Blas) (theta_matrix : DenseMatrix) (inner_iter : Z) : DenseMatrix :=
  let n_td :=
    InitializeZeros
      (DenseMatrix_new (no_rows theta_matrix) (no_columns theta_matrix) false) in
  let docs_count := no_columns theta_matrix in
  let n_td :=
    fold_left
      (fun n_td d =>
         fold_left (sparse_ntd_entry blas sparse_ndw phi_matrix theta_matrix d)
           (Zrange_from (rget (csr_row_ptr sparse_ndw) d 0)
                        (rget (csr_row_ptr sparse_ndw) (d + 1) 0))
           n_td)
      (Zrange docs_count) n_td in
  let theta_matrix := ApplyByElement_0 theta_matrix theta_matrix n_td in
  RegularizeAndNormalizeTheta inner_iter batch model_config schema theta_matrix.

(** [CsrMatrix::Transpose] *)
Definition Transpose (blas : Blas) (A : CsrMatrix) : CsrMatrix :=
  let '(val, col_ind, row_ptr_new) :=
    scsr2csc blas (csr_m A) (csr_n A) (csr_nnz A)
             (csr_val A) (csr_row_ptr A) (csr_col_ind A) in
  mkCsr (csr_n A) (csr_m A) (csr_nnz A) val row_ptr_new col_ind.

(** The body of the loops that accumulate [n_wt]; the two branches of
    the source differ only in the test of the mask. *)
Definition sparse_nwt_entry (blas : Blas) (mask : option Mask)
    (sparse_nwd : CsrMatrix) (phi_matrix theta_matrix : DenseMatrix) (w : Z)
    (n_wt : DenseMatrix) (i : Z) : DenseMatrix :=
  let topics_count := no_columns phi_matrix in
  let d := rget (csr_col_ind sparse_nwd) i 0 in
  let masked_out :=
    match mask with
    | Some m => negb (mask_value_at m d)
    | None => false
    end in
  if masked_out then n_wt
  else
    let p_wd_val :=
      sdot blas topics_count
           (get_data phi_matrix) (dense_offset phi_matrix w 0) 1
           (get_data theta_matrix) (dense_offset theta_matrix 0 d) 1 in
    if Float32.eqb p_wd_val Float32.zero then n_wt
    else
      mkDense (no_rows n_wt) (no_columns n_wt) (store_by_rows n_wt)
        (saxpy blas topics_count
               (Float32.div (rget (csr_val sparse_nwd) i Float32.zero) p_wd_val)
               (get_data theta_matrix) (dense_offset theta_matrix 0 d) 1
               (get_data n_wt) (dense_offset n_wt w 0) 1).

(** [CalculateNwtSparse]: the increment it returns and the [Theta] it
    leaves in [*theta_matrix]. *)
Definition CalculateNwtSparse (model_config : ModelConfig) (batch : Batch)
    (mask : option Mask) (schema : InstanceSchema) (sparse_ndw : CsrMatrix)
    (phi_matrix theta_matrix : DenseMatrix) (blas : Blas)
    : DenseMatrix * DenseMatrix :=
  let n_wt :=
    InitializeZeros
      (DenseMatrix_new (no_rows phi_matrix) (no_columns phi_matrix) true) in
  let theta_matrix :=
    fold_left
      (sparse_inner_iteration model_config batch schema sparse_ndw phi_matrix blas)
      (Zrange (mc_inner_iterations_count model_config)) theta_matrix in
  let tokens_count := no_rows phi_matrix in
  let sparse_nwd := Transpose blas sparse_ndw in
  let n_wt :=
    fold_left
      (fun n_wt w =>
         fold_left (sparse_nwt_entry blas mask sparse_nwd phi_matrix theta_matrix w)
           (Zrange_from (rget (csr_row_ptr sparse_nwd) w 0)
                        (rget (csr_row_ptr sparse_nwd) (w + 1) 0))
           n_wt)
      (Zrange tokens_count) n_wt in
  (ApplyByElement_0 n_wt n_wt phi_matrix, theta_matrix).

(** ** The EM inner loop, dense bag of words *)

(** [Z = Phi * Theta], then [Z = n_dw ./ Z]. *)
Definition dense_Z (blas : Blas) (dense_ndw phi_matrix theta_matrix Zmat : DenseMatrix)
    : DenseMatrix :=
  let Zmat :=
    mkDense (no_rows Zmat) (no_columns Zmat) (store_by_rows Zmat)
      (sgemm blas RowMajor NoTrans NoTrans
             (no_rows phi_matrix) (no_columns theta_matrix) (no_columns phi_matrix)
             Float32.one (get_data phi_matrix) (no_columns phi_matrix)
             (get_data theta_matrix) (no_columns theta_matrix)
             Float32.zero (get_data Zmat) (no_columns theta_matrix)) in
  ApplyByElement_1 Zmat dense_ndw Zmat.

(** One inner iteration of [CalculateNwtDense] on the pair [(Z, Theta)]. *)
Definition dense_inner_iteration (model_config : ModelConfig) (batch : Batch)
    (schema : InstanceSchema) (dense_ndw phi_matrix : DenseMatrix) (blas : Blas)
    (st : DenseMatrix * DenseMatrix) (inner_iter : Z) : DenseMatrix * DenseMatrix :=
  let '(Zmat, theta_matrix) := st in
  let Zmat := dense_Z blas dense_ndw phi_matrix theta_matrix Zmat in
  let prod_trans_phi_Z :=
    DenseMatrix_new (no_columns phi_matrix) (no_columns Zmat) true in
  let prod_trans_phi_Z :=
    mkDense (no_rows prod_trans_phi_Z) (no_columns prod_trans_phi_Z) true
      (sgemm blas RowMajor Trans NoTrans
             (no_columns phi_matrix) (no_columns Zmat) (no_rows phi_matrix)
             Float32.one (get_data phi_matrix) (no_columns phi_matrix)
             (get_data Zmat) (no_columns Zmat)
             Float32.zero (get_data prod_trans_phi_Z) (no_columns Zmat)) in
  let theta_matrix := ApplyByElement_0 theta_matrix theta_matrix prod_trans_phi_Z in
  (Zmat,
   RegularizeAndNormalizeTheta inner_iter batch model_config schema theta_matrix).

(** The columns of [Z] and [Theta] the mask keeps, packed to the left. *)
Definition dense_masked (mask : Mask) (Zmat theta_matrix : DenseMatrix)
    : DenseMatrix * DenseMatrix :=
  let true_value_count :=
    fold_left
      (fun count i => if mask_value_at mask i then count + 1 else count)
      (Zrange (rsize (mask_value mask))) 0 in
  let masked_Z := DenseMatrix_new (no_rows Zmat) true_value_count true in
  let masked_Theta := DenseMatrix_new (no_rows theta_matrix) true_value_count true in
  let '(masked_Z, masked_Theta, _) :=
    fold_left
      (fun (st : DenseMatrix * DenseMatrix * Z) i =>
         let '(masked_Z, masked_Theta, real_index) := st in
         if mask_value_at mask i then
           (fold_left
              (fun masked_Z j => dense_set masked_Z j real_index (dense_get Zmat j i))
              (Zrange (no_rows Zmat)) masked_Z,
            fold_left
              (fun masked_Theta j =>
                 dense_set masked_Theta j real_index (dense_get theta_matrix j i))
              (Zrange (no_rows theta_matrix)) masked_Theta,
            real_index + 1)
         else st)
      (Zrange (rsize (mask_value mask))) (masked_Z, masked_Theta, 0) in
  (masked_Z, masked_Theta).

(** [prod_Z_Theta = Z * Theta'], then [n_wt = prod_Z_Theta .* Phi]. *)
Definition dense_nwt (blas : Blas) (Zmat theta_matrix phi_matrix n_wt : DenseMatrix)
    : DenseMatrix :=
  let prod_Z_Theta := DenseMatrix_new (no_rows Zmat) (no_rows theta_matrix) true in
  let prod_Z_Theta :=
    mkDense (no_rows prod_Z_Theta) (no_columns prod_Z_Theta) true
      (sgemm blas RowMajor NoTrans Trans
             (no_rows Zmat) (no_rows theta_matrix) (no_columns Zmat)
             Float32.one (get_data Zmat) (no_columns Zmat)
             (get_data theta_matrix) (no_columns theta_matrix)
             Float32.zero (get_data prod_Z_Theta) (no_rows theta_matrix)) in
  ApplyByElement_0 n_wt prod_Z_Theta phi_matrix.

(** [CalculateNwtDense]: the increment it returns and the [Theta] it
    leaves in [*theta_matrix]. *)
Definition CalculateNwtDense (model_config : ModelConfig) (batch : Batch)
    (mask : option Mask) (schema : InstanceSchema)
    (dense_ndw phi_matrix theta_matrix : DenseMatrix) (blas : Blas)
    : DenseMatrix * DenseMatrix :=
  let n_wt :=
    InitializeZeros
      (DenseMatrix_new (no_rows phi_matrix) (no_columns phi_matrix) true) in
  let Zmat := DenseMatrix_new (no_rows phi_matrix) (no_columns theta_matrix) true in
  let '(Zmat, theta_matrix) :=
    fold_left
      (dense_inner_iteration model_config batch schema dense_ndw phi_matrix blas)
      (Zrange (mc_inner_iterations_count model_config)) (Zmat, theta_matrix) in
  let Zmat := dense_Z blas dense_ndw phi_matrix theta_matrix Zmat in
  match mask with
  | Some m =>
      let '(masked_Z, masked_Theta) := dense_masked m Zmat theta_matrix in
      (dense_nwt blas masked_Z masked_Theta phi_matrix n_wt, theta_matrix)
  | None =>
      (dense_nwt blas Zmat theta_matrix phi_matrix n_wt, theta_matrix)
  end.

(** ** The processor *)

Record GetThetaMatrixArgs : Type := mkGetThetaMatrixArgs {
  args_model_name : string;
  args_topic_name : list string;
  args_clean_cache : bool
}.

Record ThetaMatrix : Type := mkThetaMatrix {
  thm_model_name : string;
  thm_item_id : list Z;
  thm_item_weights : list (list float);
  thm_topic_name : list string
}.

(** What the processor reaches outside itself: the merger's snapshots,
    the schema holder, the BLAS binding, the random sources, the disk
    and the helper that fills a [ThetaMatrix].  One batch is processed
    against one state of them. *)
Record Environment : Type := mkEnvironment {
  GetLatestTopicModel : string -> option TopicModel;
  schema_get : InstanceSchema;
  env_blas : Blas;
  (** the [n]-th draw of [ThreadSafeRandom::GenerateFloat] *)
  GenerateFloat : nat -> float;
  (** the [n]-th identifier of [boost::uuids::random_generator] *)
  random_uuid : nat -> string;
  (** [BatchHelpers::SaveMessage]: [false] when it throws *)
  SaveMessage : string -> string -> DataLoaderCacheEntry -> bool;
  PopulateThetaMatrixFromCacheEntry :
    DataLoaderCacheEntry -> GetThetaMatrixArgs -> ThetaMatrix -> ThetaMatrix
}.

Definition FindCacheEntry (part : ProcessorInput) (model_config : ModelConfig)
    : option DataLoaderCacheEntry :=
  find (fun c =>
          bool_decide (ce_batch_uuid c = pi_batch_uuid part) &&
          bool_decide (ce_model_name c = mc_name model_config))
       (pi_cached_theta part).

(** How a call ends: it returns, or it throws. *)
Inductive Result (A : Type) : Type :=
  | Returns (a : A)
  | Throws (e : Exception).
Arguments Returns {A} a.
Arguments Throws {A} e.

(** The rows [(item_id, Theta column)] of a cache entry. *)
Definition theta_columns (batch : Batch) (topic_size : Z) (theta_matrix : DenseMatrix)
    : list Z * list (list float) :=
  fold_left
    (fun (st : list Z * list (list float)) item_index =>
       (fst st ++ [item_id (batch_item_at batch item_index)],
        snd st ++ [fold_left
                     (fun weights topic_index =>
                        weights ++ [dense_get theta_matrix topic_index item_index])
                     (Zrange topic_size) []]))
    (Zrange (rsize (batch_item batch))) ([], []).

(** [Processor::FindThetaMatrix]: the [ThetaMatrix] left in [*result]
    and the number of random draws made, or the exception thrown. *)
Definition FindThetaMatrix (env : Environment) (rnd : nat) (batch : Batch)
    (args : GetThetaMatrixArgs) (result : ThetaMatrix)
    : Result (ThetaMatrix * nat) :=
  let blas := env_blas env in
  let model_name := args_model_name args in
  match GetLatestTopicModel env model_name with
  | None =>
      Throws (ArgumentOutOfRangeException "Unable to find topic model" model_name)
  | Some topic_model =>
      let schema := schema_get env in
      let model_config := schema_model_config schema model_name in
      if negb (rsize (mc_class_id model_config) =? rsize (mc_class_weight model_config))
      then Throws (InternalError "model.class_id_size() != model.class_weight_size()")
      else
        let topic_size := tm_topic_size topic_model in
        if negb (topic_size =? mc_topics_count model_config)
        then Throws (InternalError
          "Topics count mismatch between model config and physical model representation")
        else
          let use_sparse_bow := mc_use_sparse_bow model_config in
          let '(theta_matrix, rnd) :=
            InitializeTheta (GenerateFloat env) rnd batch model_config None in
          match InitializePhi batch model_config topic_model with
          | None => Returns (result, rnd)
          | Some phi_matrix =>
              let '(n_wt, theta_matrix) :=
                if use_sparse_bow then
                  CalculateNwtSparse model_config batch None schema
                    (InitializeSparseNdw batch model_config)
                    phi_matrix theta_matrix blas
                else
                  CalculateNwtDense model_config batch None schema
                    (InitializeDenseNdw batch)
                    phi_matrix theta_matrix blas in
              let '(ids, thetas) := theta_columns batch topic_size theta_matrix in
              let cache_entry :=
                mkCacheEntry EmptyString model_name (tm_topic_name topic_model)
                             ids thetas None in
              Returns (PopulateThetaMatrixFromCacheEntry env cache_entry args result, rnd)
          end
  end.

(** The loop that copies [n_wt] into the increment; it stops at the
    first row whose length is neither zero nor [topic_size]. *)
Fixpoint copy_nwt_rows (n_wt : DenseMatrix) (topic_size : Z)
    (token_indices : list Z) (model_increment : ModelIncrement)
    : ModelIncrement * option Exception :=
  match token_indices with
  | [] => (model_increment, None)
  | token_index :: rest =>
      let hat_n_wt_cur := rget (mi_token_increment model_increment) token_index [] in
      if rsize hat_n_wt_cur =? 0 then
        copy_nwt_rows n_wt topic_size rest model_increment
      else if negb (rsize hat_n_wt_cur =? topic_size) then
        (model_increment, Some (InternalError "hat_n_wt_cur->value_size() != topic_size"))
      else
        match rget (mi_operation_type model_increment) token_index CreateIfNotExist with
        | IncrementValue =>
            let hat_n_wt_cur :=
              fold_left
                (fun row topic_index =>
                   rset row topic_index (dense_get n_wt token_index topic_index))
                (Zrange topic_size) hat_n_wt_cur in
            copy_nwt_rows n_wt topic_size rest
              (mkModelIncrement
                 (mi_model_name model_increment) (mi_topics_count model_increment)
                 (mi_topic_name model_increment) (mi_batch_uuid model_increment)
                 (mi_token model_increment) (mi_class_id model_increment)
                 (rset (mi_token_increment model_increment) token_index hat_n_wt_cur)
                 (mi_operation_type model_increment)
                 (mi_cache model_increment) (mi_score_name model_increment)
                 (mi_score model_increment))
        | CreateIfNotExist =>
            copy_nwt_rows n_wt topic_size rest model_increment
        end
  end.

(** The theta cache entry of a model on a batch, written to disk when
    the schema names a disk cache; [uuids] counts the identifiers drawn. *)
Definition export_theta_cache (env : Environment) (uuids : nat)
    (part : ProcessorInput) (model_name : string) (topic_size : Z)
    (theta_matrix : DenseMatrix) (model_increment : ModelIncrement)
    : ModelIncrement * nat :=
  let schema := schema_get env in
  if cfg_cache_theta (schema_config schema) then
    let '(ids, thetas) := theta_columns (pi_batch part) topic_size theta_matrix in
    let new_cache_entry :=
      mkCacheEntry (pi_batch_uuid part) model_name (mi_topic_name model_increment)
                   ids thetas None in
    let '(new_cache_entry, uuids) :=
      match cfg_disk_cache_path (schema_config schema) with
      | Some disk_cache_path =>
          let file := String.append (random_uuid env uuids) ".cache" in
          if SaveMessage env file disk_cache_path new_cache_entry
          then (mkCacheEntry (pi_batch_uuid part) model_name
                  (mi_topic_name model_increment) [] []
                  (Some (String.append disk_cache_path (String.append "/" file))),
                S uuids)
          else (new_cache_entry, S uuids)
      | None => (new_cache_entry, uuids)
      end in
    (mkModelIncrement
       (mi_model_name model_increment) (mi_topics_count model_increment)
       (mi_topic_name model_increment) (mi_batch_uuid model_increment)
       (mi_token model_increment) (mi_class_id model_increment)
       (mi_token_increment model_increment) (mi_operation_type model_increment)
       (mi_cache model_increment ++ [new_cache_entry])
       (mi_score_name model_increment) (mi_score model_increment),
     uuids)
  else (model_increment, uuids).

(** [std::map<ScoreName, std::shared_ptr<Score>>]: kept sorted by name,
    an insertion under a name that is present changes nothing. *)
Fixpoint score_container_insert (name : string) (score : Score)
    (container : list (string * Score)) : list (string * Score) :=
  match container with
  | [] => [(name, score)]
  | (n, s) :: rest =>
      match String.compare name n with
      | Lt => (name, score) :: (n, s) :: rest
      | Eq => (n, s) :: rest
      | Gt => (n, s) :: score_container_insert name score rest
      end
  end.

(** The cumulative scores the config asks for. *)
Definition create_scores (schema : InstanceSchema) (model_config : ModelConfig)
    : list (string * Score) :=
  fold_left
    (fun container score_index =>
       let score_name := rget (mc_score_name model_config) score_index EmptyString in
       match schema_score_calculator schema score_name with
       | None => container
       | Some score_calc =>
           if negb (is_cumulative score_calc) then container
           else score_container_insert score_name (CreateScore score_calc) container
       end)
    (Zrange (rsize (mc_score_name model_config))) [].

(** The scores of one item, for the item the iterator is on. *)
Definition append_scores (schema : InstanceSchema) (topic_model : TopicModel)
    (token_dict : list Token) (topic_size : Z) (theta_matrix : DenseMatrix)
    (iter : StreamIterator) (item : Item) (container : list (string * Score))
    : list (string * Score) :=
  map (fun '(score_name, score) =>
         match schema_score_calculator schema score_name with
         | None => (score_name, score)
         | Some score_calc =>
             if negb (InStream iter (sc_stream_name score_calc))
             then (score_name, score)
             else
               let item_index := item_index_ iter in
               let theta_vec :=
                 fold_left
                   (fun theta_vec topic_index =>
                      theta_vec ++ [dense_get theta_matrix topic_index item_index])
                   (Zrange topic_size) [] in
               (score_name,
                AppendScore score_calc item token_dict topic_model theta_vec score)
         end)
      container.

(** [while (iter.Next() != nullptr)]: a round per item the iterator
    stops at. *)
Fixpoint score_items (rounds : nat) (schema : InstanceSchema)
    (topic_model : TopicModel) (token_dict : list Token) (topic_size : Z)
    (theta_matrix : DenseMatrix) (iter : StreamIterator)
    (container : list (string * Score)) : list (string * Score) :=
  match rounds with
  | O => container
  | S rounds' =>
      let '(iter, current) := Next iter in
      match current with
      | None => container
      | Some item =>
          score_items rounds' schema topic_model token_dict topic_size theta_matrix
            iter
            (append_scores schema topic_model token_dict topic_size theta_matrix
                           iter item container)
      end
  end.

(** What the worker carries from batch to batch: the draws made from the
    random sources and the increments it has pushed onto the merger
    queue, oldest first. *)
Record WorkerState : Type := mkWorkerState {
  ws_rnd : nat;
  ws_uuids : nat;
  ws_pushed : list ModelIncrement
}.

(** The locals of one batch that the lambda captures by reference. *)
Record BatchLocals : Type := mkBatchLocals {
  bl_sparse_ndw : option CsrMatrix;
  bl_dense_ndw : option DenseMatrix
}.

(** How the processing of a model or of a batch ends. *)
Inductive Outcome : Type :=
  | Completed
  | Thrown (e : Exception)
  | AssertionFailed.

(** [merger_queue_->push(model_increment)], the call the
    [call_on_destruction] guard makes when the lambda is left. *)
Definition push (model_increment : ModelIncrement) (ws : WorkerState) : WorkerState :=
  mkWorkerState (ws_rnd ws) (ws_uuids ws) (ws_pushed ws ++ [model_increment]).

Definition empty_CsrMatrix : CsrMatrix := mkCsr 0 0 0 [] [] [].
Definition empty_DenseMatrix : DenseMatrix := mkDense 0 0 true [].

(** The lambda [ThreadFunction] runs for each model name. *)
Definition process_model (env : Environment) (part : ProcessorInput)
    (st : BatchLocals * WorkerState) (model_name : string)
    : BatchLocals * WorkerState * Outcome :=
  let '(locals, ws) := st in
  let batch := pi_batch part in
  let schema := schema_get env in
  let blas := env_blas env in
  let model_config := schema_model_config schema model_name in
  if negb (mc_enabled model_config) then (locals, ws, Completed)
  else if negb (rsize (mc_class_id model_config) =? rsize (mc_class_weight model_config))
  then (locals, ws,
        Thrown (InternalError "model.class_id_size() != model.class_weight_size()"))
  else
    match GetLatestTopicModel env model_name with
    | None => (locals, ws, AssertionFailed)
    | Some topic_model =>
        let topic_size := tm_topic_size topic_model in
        if negb (topic_size =? mc_topics_count model_config)
        then (locals, ws, Thrown (InternalError
          "Topics count mismatch between model config and physical model representation"))
        else
          let sparse_ndw :=
            if mc_use_sparse_bow model_config
            then Some (InitializeSparseNdw batch model_config)
            else bl_sparse_ndw locals in
          let dense_ndw :=
            if negb (mc_use_sparse_bow model_config)
            then match bl_dense_ndw locals with
                 | None => Some (InitializeDenseNdw batch)
                 | Some n_dw => Some n_dw
                 end
            else bl_dense_ndw locals in
          let locals := mkBatchLocals sparse_ndw dense_ndw in
          let cache := FindCacheEntry part model_config in
          let '(theta_matrix, rnd) :=
            InitializeTheta (GenerateFloat env) (ws_rnd ws) batch model_config cache in
          let ws := mkWorkerState rnd (ws_uuids ws) (ws_pushed ws) in
          let model_increment := InitializeModelIncrement part model_config topic_model in
          match InitializePhi batch model_config topic_model with
          | None => (locals, push model_increment ws, Completed)
          | Some phi_matrix =>
              let model_stream_index :=
                repeated_field_index_of (pi_stream_name part)
                                        (mc_stream_name model_config) in
              let stream_mask :=
                if negb (model_stream_index =? -1)
                then Some (stream_mask_at part model_stream_index)
                else None in
              let '(n_wt, theta_matrix) :=
                if mc_use_sparse_bow model_config then
                  CalculateNwtSparse model_config batch stream_mask schema
                    (default empty_CsrMatrix sparse_ndw) phi_matrix theta_matrix blas
                else
                  CalculateNwtDense model_config batch stream_mask schema
                    (default empty_DenseMatrix dense_ndw) phi_matrix theta_matrix blas in
              match copy_nwt_rows n_wt topic_size (Zrange (no_rows n_wt)) model_increment with
              | (model_increment, Some e) =>
                  (locals, push model_increment ws, Thrown e)
              | (model_increment, None) =>
                  let '(model_increment, uuids) :=
                    export_theta_cache env (ws_uuids ws) part model_name topic_size
                                       theta_matrix model_increment in
                  let ws := mkWorkerState (ws_rnd ws) uuids (ws_pushed ws) in
                  let score_container := create_scores schema model_config in
                  let token_dict :=
                    fold_left
                      (fun token_dict token_index =>
                         token_dict ++ [batch_token_obj batch token_index])
                      (Zrange (rsize (batch_token batch))) [] in
                  let iter := StreamIterator_new part in
                  let score_container :=
                    score_items (S (length (batch_item batch))) schema topic_model
                                token_dict topic_size theta_matrix iter score_container in
                  let model_increment :=
                    fold_left
                      (fun mi '(score_name, score) =>
                         mkModelIncrement
                           (mi_model_name mi) (mi_topics_count mi) (mi_topic_name mi)
                           (mi_batch_uuid mi) (mi_token mi) (mi_class_id mi)
                           (mi_token_increment mi) (mi_operation_type mi) (mi_cache mi)
                           (mi_score_name mi ++ [score_name]) (mi_score mi ++ [score]))
                      score_container model_increment in
                  (locals, push model_increment ws, Completed)
              end
          end
    end.

(** [std::for_each] over the model names: an exception leaves it. *)
Fixpoint for_each_model (env : Environment) (part : ProcessorInput)
    (model_names : list string) (st : BatchLocals * WorkerState)
    : BatchLocals * WorkerState * Outcome :=
  match model_names with
  | [] => (st, Completed)
  | model_name :: rest =>
      match process_model env part st model_name with
      | (locals, ws, Completed) => for_each_model env part rest (locals, ws)
      | (locals, ws, failure) => (locals, ws, failure)
      end
  end.

(** What [ThreadFunction] does with one [ProcessorInput] it has popped.
    The wait for room on the merger queue that follows the loop over the
    models depends on the consumer of that queue and is left out; the
    pushes have been made by then. *)
Definition process_batch (env : Environment) (part : ProcessorInput)
    (ws : WorkerState) : WorkerState * Outcome :=
  let batch := pi_batch part in
  if negb (rsize (batch_class_id batch) =? rsize (batch_token batch))
  then (ws, Thrown (InternalError "batch.class_id_size() != batch.token_size()"))
  else
    let schema := schema_get env in
    let model_names := GetModelNames schema in
    let '(_, ws, outcome) :=
      for_each_model env part model_names (mkBatchLocals None None, ws) in
    (ws, outcome).

(** The loop of [ThreadFunction] over the inputs it pops, in order; an
    exception ends the thread. *)
Fixpoint ThreadFunction (env : Environment) (parts : list ProcessorInput)
    (ws : WorkerState) : WorkerState * Outcome :=
  match parts with
  | [] => (ws, Completed)
  | part :: rest =>
      match process_batch env part ws with
      | (ws, Completed) => ThreadFunction env rest ws
      | (ws, failure) => (ws, failure)
      end
  end.

(** ** The transaction processor
    ([processor_transaction_helpers.cc]) *)

Module Transactions.

(** The messages in the form this file reads them. *)
Record Item : Type := mkItem {
  item_token_id : list Z;
  item_token_weight : list float;
  item_transaction_start_index : list Z;
  item_transaction_typename_id : list Z
}.

Record Batch : Type := mkBatch {
  batch_token : list string;
  batch_class_id : list string;
  batch_item : list Item;
  batch_transaction_typename : list string
}.

Record ProcessBatchesArgs : Type := mkArgs {
  opt_for_avx : bool;
  num_document_passes : Z;
  args_transaction_typename : list string;
  args_transaction_weight : list float
}.

(** [PhiMatrix], by the accessors the helper uses. *)
Record PhiMatrix : Type := mkPhiMatrix {
  topic_size : Z;
  token_index : string * string -> Z;
  phi_get : Z -> Z -> float
}.

(** [LocalThetaMatrix<float>]: the topics of an item are contiguous,
    [&M(0, d)] points at the column of item [d]. *)
Record LocalThetaMatrix : Type := mkLocalTheta {
  num_topics : Z;
  num_items : Z;
  ltm_data : list float
}.

Definition LocalThetaMatrix_new (topics items : Z) : LocalThetaMatrix :=
  mkLocalTheta topics items (replicate (Z.to_nat (topics * items)) Float32.zero).

Definition ltm_get (M : LocalThetaMatrix) (k d : Z) : float :=
  rget (ltm_data M) (d * num_topics M + k) Float32.zero.

Definition ltm_set (M : LocalThetaMatrix) (k d : Z) (v : float) : LocalThetaMatrix :=
  mkLocalTheta (num_topics M) (num_items M)
               (rset (ltm_data M) (d * num_topics M + k) v).

(** [RegularizeThetaAgentCollection::Apply(d, inner_iter, num_topics,
    theta_ptr, r_td)]: what it leaves behind the two pointers. *)
Definition ThetaAgents : Type :=
  Z -> Z -> Z -> list float -> list float -> list float * list float.

Definition kTransactionsEps : double := Float64.lit_1e_100.

(** Modelled from the spec: [isZero] is declared outside this file; the
    spec gives the test as [|p_dx| < 1e-100]. *)
Definition isZero (x eps : double) : bool := Float64.ltb (Float64.abs x) eps.

Definition empty_Item : Item := mkItem [] [] [] [].

Definition ComputePtdx (item : Item) (init_value : float)
    (start_index end_index topic_id : Z)
    (local_token_id_to_global_id : list Z) (p_wt : PhiMatrix) : double :=
  fold_left
    (fun pre_p_dx_val token_id =>
       let local_id := rget (item_token_id item) token_id 0 in
       Float64.mul pre_p_dx_val
         (Float32.to_double
            (phi_get p_wt (rget local_token_id_to_global_id local_id 0) topic_id)))
    (Zrange_from start_index end_index)
    (Float32.to_double init_value).

Definition local_to_global (batch : Batch) (p_wt : PhiMatrix) : list Z :=
  fold_left
    (fun ids local_id =>
       let global_id :=
         token_index p_wt (rget (batch_class_id batch) local_id EmptyString,
                           rget (batch_token batch) local_id EmptyString) in
       if global_id =? -1 then ids else rset ids local_id global_id)
    (Zrange (rsize (batch_token batch)))
    (replicate (length (batch_token batch)) (-1)).

Definition tt_name_to_weight (args : ProcessBatchesArgs) : gmap string float :=
  fold_left
    (fun m i =>
       map_insert_new m (rget (args_transaction_typename args) i EmptyString)
                        (rget (args_transaction_weight args) i Float32.zero))
    (Zrange (rsize (args_transaction_typename args))) ∅.

(** The weight of the type of transaction [t_index] of an item. *)
Definition transaction_tt_weight (args : ProcessBatchesArgs) (batch : Batch)
    (item : Item) (t_index : Z) : float :=
  let tt_name :=
    rget (batch_transaction_typename batch)
         (rget (item_transaction_typename_id item) t_index 0) EmptyString in
  if 0 <? rsize (args_transaction_typename args) then
    match tt_name_to_weight args !! tt_name with
    | None => Float32.zero
    | Some w => w
    end
  else Float32.one.

(** [helper_vector] and [p_dx_val] of a transaction, from the values
    [theta k] of the document. *)
Definition transaction_helper (item : Item) (p_wt : PhiMatrix) (ids : list Z)
    (theta : Z -> float) (start_index end_index : Z)
    (helper_vector : list double) : list double * double :=
  fold_left
    (fun (st : list double * double) k =>
       let h := ComputePtdx item (theta k) start_index end_index k ids p_wt in
       (rset (fst st) k h, Float64.add (snd st) h))
    (Zrange (topic_size p_wt)) (helper_vector, Float64.zero).

(** What one transaction does to [n_td] and to [helper_vector] in a
    pass over document [d]. *)
Definition ntd_transaction (args : ProcessBatchesArgs) (batch : Batch)
    (p_wt : PhiMatrix) (ids : list Z) (item : Item) (d : Z)
    (theta_matrix : LocalThetaMatrix)
    (st : LocalThetaMatrix * list double) (t_index : Z)
    : LocalThetaMatrix * list double :=
  let '(n_td, helper_vector) := st in
  let start_index := rget (item_transaction_start_index item) t_index 0 in
  let end_index := rget (item_transaction_start_index item) (t_index + 1) 0 in
  let n_kdx := Float32.to_double (rget (item_token_weight item) start_index Float32.zero) in
  let tt_weight := transaction_tt_weight args batch item t_index in
  let '(helper_vector, p_dx_val) :=
    transaction_helper item p_wt ids (fun k => ltm_get theta_matrix k d)
                       start_index end_index helper_vector in
  if isZero p_dx_val kTransactionsEps then (n_td, helper_vector)
  else
    (fold_left
       (fun n_td k =>
          ltm_set n_td k d
            (Float32.of_double
               (Float64.add (Float32.to_double (ltm_get n_td k d))
                  (Float64.div
                     (Float64.mul (Float64.mul (Float32.to_double tt_weight) n_kdx)
                                  (rget helper_vector k Float64.zero))
                     p_dx_val))))
       (Zrange (topic_size p_wt)) n_td,
     helper_vector).

(** The state of the inference loops: [*theta_matrix], [n_td],
    [helper_vector] and the calls made to the regularization agents,
    as [(d, inner_iter)], oldest first. *)
Record InferState : Type := mkInferState {
  is_theta : LocalThetaMatrix;
  is_n_td : LocalThetaMatrix;
  is_helper : list double;
  is_agent_calls : list (Z * Z)
}.

(** One pass [inner_iter] over document [d]. *)
Definition document_pass (args : ProcessBatchesArgs) (batch : Batch)
    (p_wt : PhiMatrix) (theta_agents : ThetaAgents) (ids : list Z) (d : Z)
    (st : InferState) (inner_iter : Z) : InferState :=
  let topics := topic_size p_wt in
  let item := rget (batch_item batch) d empty_Item in
  let n_td :=
    fold_left (fun n_td k => ltm_set n_td k d Float32.zero)
              (Zrange topics) (is_n_td st) in
  let '(n_td, helper_vector) :=
    fold_left
      (ntd_transaction args batch p_wt ids item d (is_theta st))
      (Zrange (rsize (item_transaction_start_index item) - 1))
      (n_td, is_helper st) in
  let theta_matrix :=
    fold_left (fun theta k => ltm_set theta k d (ltm_get n_td k d))
              (Zrange topics) (is_theta st) in
  let r_td := replicate (Z.to_nat topics) Float32.zero in
  let theta_column :=
    map (fun k => ltm_get theta_matrix k d) (Zrange topics) in
  let theta_column := fst (theta_agents d inner_iter topics theta_column r_td) in
  let theta_matrix :=
    fold_left
      (fun theta k => ltm_set theta k d (rget theta_column k Float32.zero))
      (Zrange topics) theta_matrix in
  mkInferState theta_matrix n_td helper_vector
               (is_agent_calls st ++ [(d, inner_iter)]).

(** The passes over document [d]:
    [for (inner_iter = 0; inner_iter <= num_document_passes; ++inner_iter)]. *)
Definition infer_document (args : ProcessBatchesArgs) (batch : Batch)
    (p_wt : PhiMatrix) (theta_agents : ThetaAgents) (ids : list Z)
    (st : InferState) (d : Z) : InferState :=
  fold_left (document_pass args batch p_wt theta_agents ids d)
            (Zrange_from 0 (num_document_passes args + 1)) st.

(** The first loop over the documents. *)
Definition infer_theta (args : ProcessBatchesArgs) (batch : Batch)
    (p_wt : PhiMatrix) (theta_agents : ThetaAgents)
    (theta_matrix : LocalThetaMatrix) : InferState :=
  let topics := topic_size p_wt in
  let docs_count := num_items theta_matrix in
  fold_left
    (infer_document args batch p_wt theta_agents (local_to_global batch p_wt))
    (Zrange docs_count)
    (mkInferState theta_matrix
                  (LocalThetaMatrix_new topics docs_count)
                  (replicate (Z.to_nat topics) Float64.zero)
                  []).

(** The vector [values] the second loop stores for a transaction. *)
Definition nwt_values (batch_weight : float) (tt_weight : float) (n_kdx : double)
    (helper_vector : list double) (p_dx_val : double) (topics : Z) : list float :=
  fold_left
    (fun values k =>
       rset values k
         (Float32.of_double
            (Float64.div
               (Float64.mul
                  (Float64.mul
                     (Float64.mul (Float32.to_double tt_weight)
                                  (rget helper_vector k Float64.zero))
                     n_kdx)
                  (Float32.to_double batch_weight))
               p_dx_val)))
    (Zrange topics) (replicate (Z.to_nat topics) Float32.zero).

(** What one transaction stores through [nwt_writer]: [(global_id,
    values)] for each of its tokens. *)
Definition nwt_transaction (args : ProcessBatchesArgs) (batch : Batch)
    (batch_weight : float) (p_wt : PhiMatrix) (ids : list Z) (item : Item) (d : Z)
    (theta_matrix : LocalThetaMatrix)
    (st : list (Z * list float) * list double) (t_index : Z)
    : list (Z * list float) * list double :=
  let '(stored, helper_vector) := st in
  let start_index := rget (item_transaction_start_index item) t_index 0 in
  let end_index := rget (item_transaction_start_index item) (t_index + 1) 0 in
  let n_kdx := Float32.to_double (rget (item_token_weight item) start_index Float32.zero) in
  let tt_weight := transaction_tt_weight args batch item t_index in
  let '(helper_vector, p_dx_val) :=
    transaction_helper item p_wt ids (fun k => ltm_get theta_matrix k d)
                       start_index end_index helper_vector in
  let values :=
    nwt_values batch_weight tt_weight n_kdx helper_vector p_dx_val (topic_size p_wt) in
  (fold_left
     (fun stored token_id =>
        let global_id := rget ids (rget (item_token_id item) token_id 0) 0 in
        stored ++ [(global_id, values)])
     (Zrange_from start_index end_index) stored,
   helper_vector).

(** [TransactionInferThetaAndUpdateNwtSparse]: the [Theta] it leaves,
    the calls it made to the agents and, when there is a writer, what
    it stored through it.  The theta cache entry it also fills is
    built by a helper outside this file and is left out. *)
Definition TransactionInferThetaAndUpdateNwtSparse (args : ProcessBatchesArgs)
    (batch : Batch) (batch_weight : float) (p_wt : PhiMatrix)
    (theta_agents : ThetaAgents) (theta_matrix : LocalThetaMatrix)
    (nwt_writer : bool)
    : LocalThetaMatrix * list (Z * Z) * list (Z * list float) :=
  let docs_count := num_items theta_matrix in
  let ids := local_to_global batch p_wt in
  let st := infer_theta args batch p_wt theta_agents theta_matrix in
  let theta_matrix := is_theta st in
  if negb nwt_writer then (theta_matrix, is_agent_calls st, [])
  else
    let '(stored, _) :=
      fold_left
        (fun (acc : list (Z * list float) * list double) d =>
           let item := rget (batch_item batch) d empty_Item in
           fold_left
             (nwt_transaction args batch batch_weight p_wt ids item d theta_matrix)
             (Zrange (rsize (item_transaction_start_index item) - 1))
             acc)
        (Zrange docs_count) ([], is_helper st) in
    (theta_matrix, is_agent_calls st, stored).

End Transactions.

(** ** A BLAS binding to run the model with *)

(** Modelled from the spec: the built-in BLAS binding lives outside the
    files at hand; the kernels below follow the reference contracts of
    [sdot], [saxpy], [sgemm] and [scsr2csc], accumulating left to right
    in single precision. *)
Module BuiltinBlas.

Definition at_ (x : list float) (i : Z) : float := rget x i Float32.zero.

Definition sdot (n : Z) (x : list float) (xoff incx : Z)
    (y : list float) (yoff incy : Z) : float :=
  fold_left
    (fun acc i =>
       Float32.add acc (Float32.mul (at_ x (xoff + i * incx)) (at_ y (yoff + i * incy))))
    (Zrange n) Float32.zero.

Definition saxpy (n : Z) (a : float) (x : list float) (xoff incx : Z)
    (y : list float) (yoff incy : Z) : list float :=
  fold_left
    (fun y i =>
       rset y (yoff + i * incy)
            (Float32.add (at_ y (yoff + i * incy))
                         (Float32.mul a (at_ x (xoff + i * incx)))))
    (Zrange n) y.

(** The cell [(i, j)] of a matrix with leading dimension [ld]. *)
Definition cell (order : BlasOrder) (trans : BlasTranspose) (ld i j : Z) : Z :=
  match order, trans with
  | RowMajor, NoTrans | ColMajor, Trans => i * ld + j
  | RowMajor, Trans | ColMajor, NoTrans => j * ld + i
  end.

Definition sgemm (order : BlasOrder) (transa transb : BlasTranspose)
    (m n k : Z) (alpha : float) (A : list float) (lda : Z)
    (B : list float) (ldb : Z) (beta : float) (C : list float) (ldc : Z)
    : list float :=
  fold_left
    (fun C i =>
       fold_left
         (fun C j =>
            let dot :=
              fold_left
                (fun acc l =>
                   Float32.add acc
                     (Float32.mul (at_ A (cell order transa lda i l))
                                  (at_ B (cell order transb ldb l j))))
                (Zrange k) Float32.zero in
            let c := cell order NoTrans ldc i j in
            rset C c
              (if Float32.eqb beta Float32.zero
               then Float32.mul alpha dot
               else Float32.add (Float32.mul alpha dot)
                                (Float32.mul beta (at_ C c))))
         (Zrange n) C)
    (Zrange m) C.

(** The non-zeros of a CSR matrix as [(row, column, value)], row by row. *)
Definition triples (m : Z) (val : list float) (row_ptr col_ind : list Z)
    : list (Z * Z * float) :=
  flat_map
    (fun i =>
       map (fun p => (i, rget col_ind p 0, at_ val p))
           (Zrange_from (rget row_ptr i 0) (rget row_ptr (i + 1) 0)))
    (Zrange m).

Definition scsr2csc (m n nnz : Z) (val : list float) (row_ptr col_ind : list Z)
    : list float * list Z * list Z :=
  let ts := triples m val row_ptr col_ind in
  fold_left
    (fun (st : list float * list Z * list Z) j =>
       let '(csc_val, csc_row_ind, csc_col_ptr) := st in
       let column := filter (fun t => snd (fst t) = j) ts in
       (csc_val ++ map snd column,
        csc_row_ind ++ map (fun t => fst (fst t)) column,
        csc_col_ptr ++ [rsize csc_val + rsize column]))
    (Zrange n) ([], [], [0]).

Definition builtin : Blas := mkBlas sdot saxpy sgemm scsr2csc.

End BuiltinBlas.

(** ** Sample inputs and the wording of the specification *)

(** A processor input to try the statements on: two items over two
    tokens and one named stream. *)
Definition sample_input : ProcessorInput :=
  mkProcessorInput
    (mkBatch ["a"; "b"]%string ["c"; "e"]%string
             [mkItem 1 [mkField [0; 1] [2; 1]]; mkItem 2 [mkField [1] [3]]])
    "uuid" ["train"]%string [mkMask [true; false]] [].

(** Its stream iterator with the cursor past the last item. *)
Definition sample_iterator_at_end : StreamIterator :=
  mkStreamIterator 2 2 None sample_input.

(** The weight a class has in two parallel arrays: that of its first
    listing. *)
Fixpoint listed_weight (class_ids : list string) (class_weights : list float)
    (c : string) : option float :=
  match class_ids, class_weights with
  | id :: class_ids', w :: class_weights' =>
      if decide (id = c) then Some w else listed_weight class_ids' class_weights' c
  | _, _ => None
  end.

(** The class weight as the specification words it: 1 for every class
    when the config enumerates none, the configured weight of a listed
    class, 0 for an unlisted one. *)
Definition spec_class_weight (model_config : ModelConfig) (c : string) : float :=
  match mc_class_id model_config with
  | [] => Float32.one
  | _ =>
      match listed_weight (mc_class_id model_config) (mc_class_weight model_config) c with
      | Some w => w
      | None => Float32.zero
      end
  end.

(** The [(token_id, token_count)] pairs of an item, field by field. *)
Definition item_pairs (item : Item) : list (Z * Z) :=
  flat_map (fun field => combine (field_token_id field) (field_token_count field))
           (item_field item).

(** The entries [(column, value)] of row [d] of a CSR matrix. *)
Definition csr_row (A : CsrMatrix) (d : Z) : list (Z * float) :=
  map (fun p => (rget (csr_col_ind A) p 0, rget (csr_val A) p Float32.zero))
      (Zrange_from (rget (csr_row_ptr A) d 0) (rget (csr_row_ptr A) (d + 1) 0)).

(** The entry the specification gives a pair. *)
Definition spec_sparse_entry (batch : Batch) (model_config : ModelConfig)
    (pair : Z * Z) : Z * float :=
  (fst pair,
   Float32.mul
     (spec_class_weight model_config (rget (batch_class_id batch) (fst pair) EmptyString))
     (Float32.of_int (snd pair))).

(** The parallel arrays of a batch have equal lengths and its token ids
    index its tokens. *)
Definition field_well_formed (token_size : Z) (field : Field) : bool :=
  (length (field_token_id field) =? length (field_token_count field))%nat &&
  forallb (fun token_id => (0 <=? token_id) && (token_id <? token_size))
          (field_token_id field).

Definition batch_well_formed (batch : Batch) : bool :=
  (length (batch_class_id batch) =? length (batch_token batch))%nat &&
  forallb (fun item => forallb (field_well_formed (rsize (batch_token batch)))
                               (item_field item))
          (batch_item batch).

(** A config with two weighted classes. *)
Definition sample_config : ModelConfig :=
  mkModelConfig "model" 2 ["t0"; "t1"]%string true 1 true false false "train"
                ["c"; "d"]%string [Float32.of_int 2; Float32.of_int 5] [] [] [].

(** The entries the specification gives an item. *)
Definition spec_sparse_row (batch : Batch) (model_config : ModelConfig) (item : Item)
    : list (Z * float) :=
  map (spec_sparse_entry batch model_config) (item_pairs item).

(** Where the rows of the items start in the vectors, from [base] on. *)
Fixpoint row_starts (batch : Batch) (model_config : ModelConfig) (base : Z)
    (items : list Item) : list Z :=
  match items with
  | [] => []
  | item :: rest =>
      base :: row_starts batch model_config
                (base + rsize (spec_sparse_row batch model_config item)) rest
  end.

(** A matrix whose buffer has the size its shape asks for. *)
Definition dense_wf (M : DenseMatrix) : Prop :=
  0 <= no_rows M /\ 0 <= no_columns M /\
  rsize (get_data M) = no_rows M * no_columns M.

(** Two matrices of one shape and orientation. *)
Definition same_shape (M M' : DenseMatrix) : Prop :=
  no_rows M' = no_rows M /\ no_columns M' = no_columns M /\
  store_by_rows M' = store_by_rows M /\
  length (get_data M') = length (get_data M).

(** The sum of integer counts the way the code accumulates it: in
    single precision, from zero, in order. *)
Definition float_sum (counts : list Z) : float :=
  fold_left (fun acc c => Float32.add acc (Float32.of_int c)) counts Float32.zero.

(** The counts of the occurrences of token [t] among the pairs of an
    item. *)
Definition occurrences (t : Z) (pairs : list (Z * Z)) : list Z :=
  map snd (filter (fun p => fst p = t) pairs).

(** The accumulation of the pairs of an item into column [j]. *)
Definition dense_ndw_pairs (j : Z) (pairs : list (Z * Z)) (n_dw : DenseMatrix)
    : DenseMatrix :=
  fold_left
    (fun n_dw p =>
       dense_set n_dw (fst p) j
         (Float32.add (dense_get n_dw (fst p) j) (Float32.of_int (snd p))))
    pairs n_dw.

(** The column of item [c] of [Theta], topic by topic. *)
Definition theta_column (Theta : DenseMatrix) (topic_size c : Z) : list float :=
  map (fun k => dense_get Theta k c) (Zrange topic_size).

(** The column of item [c] after the regularizers and the clipping of
    negatives, as [RegularizeAndNormalizeTheta] holds it in [theta_next]
    before it sums. *)
Definition regularized_column (inner_iter : Z) (model_config : ModelConfig)
    (schema : InstanceSchema) (Theta : DenseMatrix) (c : Z) (item : Item) : list float :=
  clip_negative
    (apply_regularizers inner_iter item model_config schema
       (theta_column Theta (mc_topics_count model_config) c)).

(** The exact sum of the entries of a column. *)
Definition exact_sum (column : list float) : Q :=
  fold_right Qplus 0%Q (map Float32.to_Q column).

Definition is_positive_zero (x : float) : bool :=
  match x with S754_zero false => true | _ => false end.

(** The invariant of a [Theta] column as the specification words it:
    every entry is at least 0, every entry below [1e-16] is exactly 0,
    and the entries sum to 1 within [1e-6] or are all 0. *)
Definition spec_column_invariant (column : list float) : bool :=
  forallb (fun v => Float32.leb Float32.zero v) column &&
  forallb (fun v => implb (Float32.ltb v Float32.lit_1e_16f) (is_positive_zero v)) column &&
  (Qle_bool (Qabs (exact_sum column - 1)) (1 # 1000000) ||
   forallb (fun v => Float32.eqb v Float32.zero) column).

(** A schema without regularizers and scores over one config. *)
Definition plain_schema (model_config : ModelConfig) : InstanceSchema :=
  mkSchema [mc_name model_config] (fun _ => model_config) (fun _ => None)
           (fun _ => None) (mkMasterConfig false None 10).

(** A batch of one item and a config of 101 topics; the [Theta] column
    of the item holds 1 and a hundred times [2^-24]. *)
Definition one_item_batch : Batch := mkBatch ["a"]%string ["c"]%string [mkItem 1 [mkField [0] [1]]].

Definition config_101 : ModelConfig :=
  mkModelConfig "model" 101 [] true 1 true false false "train" [] [] [] [] [].

Definition two_pow_minus_24 : float := S754_finite false 8388608 (-47).

Definition theta_101 : DenseMatrix :=
  mkDense 101 1 false (Float32.one :: replicate 100 two_pow_minus_24).

(** A [Theta] of two topics over the two items of the sample batch. *)
Definition sample_theta : DenseMatrix :=
  mkDense 2 2 false [Float32.of_int 3; Float32.one; Float32.zero; Float32.of_int (-2)].

(** A transaction batch to run the transaction processor on: one item
    made of one transaction over one token, whose row of [p_wt] is zero
    in the single topic of the model. *)
Definition zero_phi_batch : Transactions.Batch :=
  Transactions.mkBatch ["a"]%string ["c"]%string
    [Transactions.mkItem [0] [Float32.one] [0; 1] [0]] ["t"]%string.

Definition zero_phi_args : Transactions.ProcessBatchesArgs :=
  Transactions.mkArgs true 0 [] [].

Definition zero_phi : Transactions.PhiMatrix :=
  Transactions.mkPhiMatrix 1 (fun _ => 0) (fun _ _ => Float32.zero).

Definition one_by_one_theta : Transactions.LocalThetaMatrix :=
  Transactions.mkLocalTheta 1 1 [Float32.one].

(** Agents that leave [Theta] and [r_td] as they find them. *)
Definition idle_agents : Transactions.ThetaAgents :=
  fun _ _ _ theta_column r_td => (theta_column, r_td).

(** The same batch against a model that gives the token weight 1, and
    two documents passes asked for. *)
Definition unit_phi : Transactions.PhiMatrix :=
  Transactions.mkPhiMatrix 1 (fun _ => 0) (fun _ _ => Float32.one).

Definition two_passes_args : Transactions.ProcessBatchesArgs :=
  Transactions.mkArgs true 2 [] [].

(** The row and the operation of a token as the specification words
    them: [IncrementValue] with [topics_count] values for a token the
    snapshot has, [CreateIfNotExist] with no value for one it has not. *)
Definition token_row_ok (topics_count : Z) (known : bool) (row : list float)
    (op : OperationType) : Prop :=
  if known then op = IncrementValue /\ rsize row = topics_count
  else op = CreateIfNotExist /\ row = [].

Definition increment_rows_ok (part : ProcessorInput) (topics_count : Z)
    (topic_model : TopicModel) (mi : ModelIncrement) : Prop :=
  rsize (mi_token_increment mi) = rsize (batch_token (pi_batch part)) /\
  rsize (mi_operation_type mi) = rsize (batch_token (pi_batch part)) /\
  forall token_index, 0 <= token_index < rsize (batch_token (pi_batch part)) ->
    token_row_ok topics_count
      (tm_has_token topic_model (batch_token_obj (pi_batch part) token_index))
      (rget (mi_token_increment mi) token_index [])
      (rget (mi_operation_type mi) token_index CreateIfNotExist).

(** Two increments with one skeleton: the same model, topics, batch,
    tokens and operations, and rows of the same lengths. *)
Definition same_skeleton (mi mi' : ModelIncrement) : Prop :=
  mi_model_name mi' = mi_model_name mi /\
  mi_topics_count mi' = mi_topics_count mi /\
  mi_topic_name mi' = mi_topic_name mi /\
  mi_batch_uuid mi' = mi_batch_uuid mi /\
  mi_token mi' = mi_token mi /\
  mi_class_id mi' = mi_class_id mi /\
  mi_operation_type mi' = mi_operation_type mi /\
  map (@length float) (mi_token_increment mi') =
  map (@length float) (mi_token_increment mi).

(** An increment with no counts: every row is [CreateIfNotExist] and
    empty. *)
Definition no_counts (mi : ModelIncrement) : Prop :=
  Forall (fun op => op = CreateIfNotExist) (mi_operation_type mi) /\
  Forall (fun row => row = []) (mi_token_increment mi).

(** The increment the worker pushes for an enabled model on a batch: it
    has the skeleton [InitializeModelIncrement] builds from the latest
    snapshot, and it is that skeleton, without counts, when [Phi] is
    empty. *)
Definition pushed_for (env : Environment) (part : ProcessorInput)
    (model_name : string) (mi : ModelIncrement) : Prop :=
  exists topic_model,
    GetLatestTopicModel env model_name = Some topic_model /\
    same_skeleton
      (InitializeModelIncrement part (schema_model_config (schema_get env) model_name)
                                topic_model) mi /\
    (InitializePhi (pi_batch part) (schema_model_config (schema_get env) model_name)
                   topic_model = None ->
     mi = InitializeModelIncrement part (schema_model_config (schema_get env) model_name)
                                   topic_model /\
     no_counts mi).

(** The enabled models of the schema, in its order. *)
Definition enabled_models (env : Environment) : list string :=
  filter (fun model_name =>
            mc_enabled (schema_model_config (schema_get env) model_name) = true)
         (GetModelNames (schema_get env)).

(** A snapshot of two topics that knows token [a] of class [c] only. *)
Definition sample_topic_model : TopicModel :=
  mkTopicModel
    (fun token => String.eqb (token_class_id token) "c" &&
                  String.eqb (token_keyword token) "a")
    2 ["t0"; "t1"]%string
    (fun _ _ => Float32.div Float32.one (Float32.of_int 2)).

(** An environment over one config and one snapshot. *)
Definition env_of (model_config : ModelConfig) (topic_model : option TopicModel)
    : Environment :=
  mkEnvironment (fun _ => topic_model) (plain_schema model_config) BuiltinBlas.builtin
                (fun _ => Float32.one) (fun _ => "id"%string) (fun _ _ _ => true)
                (fun cache_entry _ _ =>
                   mkThetaMatrix (ce_model_name cache_entry) (ce_item_id cache_entry)
                                 (ce_theta cache_entry) (ce_topic_name cache_entry)).

Definition sample_env : Environment := env_of sample_config (Some sample_topic_model).

(** A snapshot of three topics, one more than [sample_config] counts. *)
Definition three_topic_model : TopicModel :=
  mkTopicModel (fun _ => true) 3 ["t0"; "t1"; "t2"]%string (fun _ _ => Float32.one).

Definition mismatched_env : Environment := env_of sample_config (Some three_topic_model).

(** A snapshot that knows no token. *)
Definition blank_topic_model : TopicModel :=
  mkTopicModel (fun _ => false) 2 ["t0"; "t1"]%string (fun _ _ => Float32.zero).

Definition fresh_worker : WorkerState := mkWorkerState 0 0 [].

Definition sample_args : GetThetaMatrixArgs := mkGetThetaMatrixArgs "model" [] false.

Definition empty_ThetaMatrix : ThetaMatrix := mkThetaMatrix EmptyString [] [] [].

(** The increment the worker pushes for the sample model on the sample
    batch. *)
Definition sample_pushed : ModelIncrement :=
  Eval vm_compute in
    match ws_pushed (snd (fst (process_model sample_env sample_input
                                 (mkBatchLocals None None, fresh_worker) "model"))) with
    | mi :: _ => mi
    | [] => mkModelIncrement EmptyString 0 [] [] [] [] [] [] [] [] []
    end.



(** The sum of a column accumulated in double precision, in order. *)
Definition double_sum (column : list float) : double :=
  fold_left (fun acc v => Float64.add acc (Float32.to_double v)) column Float64.zero.

(** [1.000001] in double precision. *)
Definition one_plus_1e_6 : double :=
  Float64.div (Float64.of_int 1000001) (Float64.of_int 1000000).

(** A config of 1000 topics and the [Theta] column [InitializeTheta]
    gives an item by default: [1/1000] in every topic. *)
Definition config_1000 : ModelConfig :=
  mkModelConfig "model" 1000 [] true 1 true false false "train" [] [] [] [] [].

Definition uniform_theta_1000 : DenseMatrix :=
  fst (InitializeTheta (fun _ => Float32.zero) O one_item_batch config_1000 None).

(** ** Notions for the further properties *)

(** The iterator with its cursor put at index [j]. *)
Definition cursor_at (it : StreamIterator) (j : Z) : StreamIterator :=
  mkStreamIterator (items_count_ it) j (stream_flags_ it) (processor_input_ it).

(** The stream mask [ThreadFunction] picks for a model: the mask listed
    under the stream name of the config, or none. *)
Definition model_stream_mask (part : ProcessorInput) (model_config : ModelConfig)
    : option Mask :=
  let model_stream_index :=
    repeated_field_index_of (pi_stream_name part) (mc_stream_name model_config) in
  if negb (model_stream_index =? -1)
  then Some (stream_mask_at part model_stream_index)
  else None.

(** Whether the accumulation of [n_wt] takes item [d] under a mask. *)
Definition mask_keeps (mask : option Mask) (d : Z) : bool :=
  match mask with
  | Some m => mask_value_at m d
  | None => true
  end.


(** A small matrix in each orientation. *)
Definition sample_row_major : DenseMatrix :=
  mkDense 2 3 true (map Float32.of_int [1; 2; 3; 4; 5; 6]).

Definition sample_column_major : DenseMatrix :=
  mkDense 2 3 false (map Float32.of_int [1; 2; 3; 4; 5; 6]).

(** The body of the loop of [InitializeTheta] over the items: the column
    of one item is filled, from the cache, from the random source or
    with the default. *)
Definition InitializeTheta_item (GenerateFloat : nat -> float) (batch : Batch)
    (model_config : ModelConfig) (cache : option DataLoaderCacheEntry)
    (st : DenseMatrix * nat) (item_index : Z) : DenseMatrix * nat :=
  let topic_size := mc_topics_count model_config in
  let index_of_item :=
    match cache with
    | Some c =>
        if mc_reuse_theta model_config
        then repeated_field_index_of (ce_item_id c)
               (item_id (batch_item_at batch item_index))
        else -1
    | None => -1
    end in
  if negb (index_of_item =? -1) && mc_reuse_theta model_config then
    let old_thetas :=
      rget (ce_theta (default empty_CacheEntry cache)) index_of_item [] in
    fold_left
      (fun (st : DenseMatrix * nat) topic_index =>
         (dense_set (fst st) topic_index item_index
                    (rget old_thetas topic_index Float32.zero),
          snd st))
      (Zrange topic_size) st
  else
    let default_theta := Float32.div Float32.one (Float32.of_int topic_size) in
    fold_left
      (fun (st : DenseMatrix * nat) iTopic =>
         if mc_use_random_theta model_config
         then (dense_set (fst st) iTopic item_index (GenerateFloat (snd st)),
               S (snd st))
         else (dense_set (fst st) iTopic item_index default_theta, snd st))
      (Zrange topic_size) st.

(** The entry of the theta cache the column of item [item_index] is
    taken from, [-1] when it is taken from none. *)
Definition cached_column_index (batch : Batch) (model_config : ModelConfig)
    (cache : option DataLoaderCacheEntry) (item_index : Z) : Z :=
  match cache with
  | Some c =>
      if mc_reuse_theta model_config
      then repeated_field_index_of (ce_item_id c)
             (item_id (batch_item_at batch item_index))
      else -1
  | None => -1
  end.

(** The number of items before [item_index] whose column is taken from
    no cache entry. *)
Definition fresh_items_before (batch : Batch) (model_config : ModelConfig)
    (cache : option DataLoaderCacheEntry) (item_index : Z) : nat :=
  length (filter (fun j => cached_column_index batch model_config cache j = -1)
                 (Zrange item_index)).

(** The cell [(topic_index, item_index)] of the initial [Theta], when
    [rnd] draws have been made before: the cached value, the next draw
    of the random source, or [1 / topic_size]. *)
Definition initial_theta_cell (GenerateFloat : nat -> float) (rnd : nat) (batch : Batch)
    (model_config : ModelConfig) (cache : option DataLoaderCacheEntry)
    (topic_index item_index : Z) : float :=
  let index_of_item := cached_column_index batch model_config cache item_index in
  if negb (index_of_item =? -1) then
    rget (rget (ce_theta (default empty_CacheEntry cache)) index_of_item [])
         topic_index Float32.zero
  else if mc_use_random_theta model_config then
    GenerateFloat
      (rnd + fresh_items_before batch model_config cache item_index *
             Z.to_nat (mc_topics_count model_config) + Z.to_nat topic_index)%nat
  else Float32.div Float32.one (Float32.of_int (mc_topics_count model_config)).

(** A config that asks for random initial values, and a random source
    that numbers its draws. *)
Definition random_config : ModelConfig :=
  mkModelConfig "model" 2 ["t0"; "t1"]%string true 1 true false true "train" [] [] [] [] [].

Definition counting_source (n : nat) : float := Float32.of_int (Z.of_nat n).

(** A config that reuses cached columns, and a cache entry with a column
    for item 2 of the sample batch. *)
Definition reusing_config : ModelConfig :=
  mkModelConfig "model" 2 ["t0"; "t1"]%string true 1 true true false "train" [] [] [] [] [].

Definition sample_cache_entry : DataLoaderCacheEntry :=
  mkCacheEntry "uuid" "model" ["t0"; "t1"]%string [7; 2]
    [[Float32.zero; Float32.one]; [Float32.one; Float32.zero]] None.

(** A schema and an environment that keep the theta cache in memory. *)
Definition caching_schema (model_config : ModelConfig) : InstanceSchema :=
  mkSchema [mc_name model_config] (fun _ => model_config) (fun _ => None)
           (fun _ => None) (mkMasterConfig true None 10).

Definition caching_env : Environment :=
  mkEnvironment (fun _ => Some sample_topic_model) (caching_schema reusing_config)
                BuiltinBlas.builtin (fun _ => Float32.one) (fun _ => "id"%string)
                (fun _ _ _ => true)
                (fun cache_entry _ _ =>
                   mkThetaMatrix (ce_model_name cache_entry) (ce_item_id cache_entry)
                                 (ce_theta cache_entry) (ce_topic_name cache_entry)).

Definition empty_ModelIncrement : ModelIncrement :=
  mkModelIncrement EmptyString 0 [] [] [] [] [] [] [] [] [].

(** Whether the snapshot has the token at [token_index] of the batch. *)
Definition token_known (batch : Batch) (topic_model : TopicModel) (token_index : Z) : bool :=
  tm_has_token topic_model (batch_token_obj batch token_index).

(** A snapshot with a weight below [1e-16] and a negative one. *)
Definition tiny_weights_model : TopicModel :=
  mkTopicModel
    (fun token => String.eqb (token_keyword token) "a")
    2 ["t0"; "t1"]%string
    (fun _ topic_index =>
       if topic_index =? 0 then S754_finite false 8388608 (-100)
       else Float32.of_int (-3)).

(** What the clipping of negatives leaves in a cell. *)
Definition clipped (x : float) : float :=
  if Float32.ltb x Float32.zero then Float32.zero else x.

(** A schema that knows no regularizer under the names of the config,
    and a config that names two. *)
Definition named_regularizers_config : ModelConfig :=
  mkModelConfig "model" 2 ["t0"; "t1"]%string true 1 true false false "train" [] []
                ["smooth"; "sparse"]%string [Float64.of_int 1; Float64.of_int 2] [].

(** A mask that keeps no item of the sample batch. *)
Definition mask_of_none : Mask := mkMask [false; false].

Definition sample_phi : DenseMatrix :=
  mkDense 2 2 true [Float32.one; Float32.zero; Float32.of_int 2; Float32.of_int 3].

(** A CSR matrix as the loops over its rows need it: a row pointer with
    one entry more than rows, starting at 0, never decreasing and ending
    at the number of non-zeros; a value and a column index per non-zero;
    every column index within the columns. *)
Definition csr_wf (A : CsrMatrix) : Prop :=
  0 <= csr_m A /\
  rsize (csr_row_ptr A) = csr_m A + 1 /\
  rget (csr_row_ptr A) 0 0 = 0 /\
  rget (csr_row_ptr A) (csr_m A) 0 = csr_nnz A /\
  (forall d, 0 <= d < csr_m A ->
     rget (csr_row_ptr A) d 0 <= rget (csr_row_ptr A) (d + 1) 0) /\
  rsize (csr_val A) = csr_nnz A /\
  rsize (csr_col_ind A) = csr_nnz A /\
  (forall p, 0 <= p < csr_nnz A -> 0 <= rget (csr_col_ind A) p 0 < csr_n A).

(** The ways the worker ends: it completes, one of its three checks of
    the batch and of the model throws, or the assertion on the topic
    model fails. *)
Definition worker_outcome (outcome : Outcome) : Prop :=
  outcome = Completed \/
  outcome = Thrown (InternalError "batch.class_id_size() != batch.token_size()") \/
  outcome = Thrown (InternalError "model.class_id_size() != model.class_weight_size()") \/
  outcome = Thrown (InternalError
    "Topics count mismatch between model config and physical model representation") \/
  outcome = AssertionFailed.

(** An [n_wt] over the tokens and topics of the sample batch. *)
Definition sample_n_wt : DenseMatrix :=
  mkDense 2 2 true (map Float32.of_int [10; 11; 12; 13]).

(** The order of [std::map<ScoreName, ...>]: [std::string]'s [operator<]. *)
Definition score_name_lt (a b : string) : Prop := String.compare a b = Lt.

(** A list of names in strictly increasing order: every name is below
    all the names after it. *)
Fixpoint strictly_increasing (names : list string) : Prop :=
  match names with
  | [] => True
  | n :: rest => Forall (score_name_lt n) rest /\ strictly_increasing rest
  end.

(** A score the config asks for and the worker accumulates: the config
    names it, the schema has a calculator under the name and the
    calculator is cumulative. *)
Definition cumulative_score (schema : InstanceSchema) (model_config : ModelConfig)
    (score_name : string) (score : Score) : Prop :=
  score_name ∈ mc_score_name model_config /\
  exists score_calc,
    schema_score_calculator schema score_name = Some score_calc /\
    is_cumulative score_calc = true /\
    score = CreateScore score_calc.

(** A calculator that counts the items it is given, and a schema with
    two calculators, one of them not cumulative. *)
Definition counting_calculator (cumulative : bool) : ScoreCalculatorInterface :=
  mkScoreCalculator cumulative "" "train"
    (fun _ _ _ _ score => String.append score "i").

Definition scoring_config : ModelConfig :=
  mkModelConfig "model" 2 ["t0"; "t1"]%string true 1 true false false "train" [] [] [] []
                ["perplexity"; "items"; "sparsity"; "items"]%string.

Definition scoring_schema : InstanceSchema :=
  mkSchema ["model"]%string (fun _ => scoring_config) (fun _ => None)
           (fun score_name =>
              if String.eqb score_name "perplexity" then Some (counting_calculator true)
              else if String.eqb score_name "items" then Some (counting_calculator true)
              else if String.eqb score_name "sparsity" then Some (counting_calculator false)
              else None)
           (mkMasterConfig false None 10).

Definition scoring_env : Environment :=
  mkEnvironment (fun _ => Some sample_topic_model) scoring_schema BuiltinBlas.builtin
                (fun _ => Float32.one) (fun _ => "id"%string) (fun _ _ _ => true)
                (fun cache_entry _ _ =>
                   mkThetaMatrix (ce_model_name cache_entry) (ce_item_id cache_entry)
                                 (ce_theta cache_entry) (ce_topic_name cache_entry)).

(** The increment the worker pushes for it on the sample batch. *)
Definition scored_increment : ModelIncrement :=
  Eval vm_compute in
    match ws_pushed (snd (fst (process_model scoring_env sample_input
                                 (mkBatchLocals None None, fresh_worker) "model"))) with
    | mi :: _ => mi
    | [] => empty_ModelIncrement
    end.

(** The weight of a transaction type as the arguments list it: 1 for
    every type when they list none, the weight of the first listing of
    the type, 0 for a type they do not list. *)
Definition listed_tt_weight (args : Transactions.ProcessBatchesArgs) (tt_name : string)
    : float :=
  match Transactions.args_transaction_typename args with
  | [] => Float32.one
  | _ =>
      match listed_weight (Transactions.args_transaction_typename args)
                          (Transactions.args_transaction_weight args) tt_name with
      | Some w => w
      | None => Float32.zero
      end
  end.

(** The number of tokens in the transactions of an item. *)
Definition transaction_tokens (item : Transactions.Item) : nat :=
  list_sum
    (map (fun t_index =>
            Z.to_nat (rget (Transactions.item_transaction_start_index item) (t_index + 1) 0 -
                      rget (Transactions.item_transaction_start_index item) t_index 0))
         (Zrange (rsize (Transactions.item_transaction_start_index item) - 1))).

(** Arguments that weigh two transaction types, one of them twice, and a
    batch of two documents over two tokens, the second unknown to the
    model. *)
Definition weighted_args : Transactions.ProcessBatchesArgs :=
  Transactions.mkArgs true 1 ["t"; "u"; "t"]%string
    [Float32.of_int 2; Float32.of_int 3; Float32.of_int 5].

Definition two_documents : Transactions.Batch :=
  Transactions.mkBatch ["a"; "b"]%string ["c"; "c"]%string
    [Transactions.mkItem [0; 1] [Float32.one; Float32.one] [0; 1; 2] [0; 1];
     Transactions.mkItem [0] [Float32.one] [0; 1] [0]]
    ["t"; "v"]%string.

Definition half_known_phi : Transactions.PhiMatrix :=
  Transactions.mkPhiMatrix 2
    (fun token => if String.eqb (snd token) "a" then 0 else -1)
    (fun _ _ => Float32.one).

Definition two_by_two_theta : Transactions.LocalThetaMatrix :=
  Transactions.mkLocalTheta 2 2 [Float32.one; Float32.one; Float32.one; Float32.one].

(** The items a mask keeps, in order. *)
Definition kept_items (mask : Mask) : list Z :=
  filter (fun i => mask_value_at mask i = true) (Zrange (rsize (mask_value mask))).

(** The loop of [dense_masked] over the mask for one matrix: the kept
    columns of [source] are written to [masked], packed from column
    [real_index] on. *)
Definition gather_columns (mask : Mask) (source : DenseMatrix) (indices : list Z)
    (st : DenseMatrix * Z) : DenseMatrix * Z :=
  fold_left
    (fun (st : DenseMatrix * Z) i =>
       if mask_value_at mask i then
         (fold_left
            (fun masked j => dense_set masked j (snd st) (dense_get source j i))
            (Zrange (no_rows source)) (fst st),
          snd st + 1)
       else st)
    indices st.

(** A matrix of three items over two tokens and a mask that keeps the
    first and the last item. *)
Definition mask_of_two : Mask := mkMask [true; false; true].

(** ** Notions for the rounding error of the normalization *)

(** A shift record stands for the quotient [N / D]: it holds the integer
    part, and its two bits place the remainder below, at or above the
    half of [D]. *)
Definition represents (mrs : shr_record) (N D : Z) : Prop :=
  0 < D /\ 0 <= N /\
  shr_m mrs = N / D /\
  shr_r mrs = (D <=? 2 * (N mod D)) /\
  shr_s mrs = negb (N mod D =? 0) && negb (2 * (N mod D) =? D).

(** The value of a finite binary32 number in units of [2^-149], the
    least positive binary32 number. *)
Definition scaled (x : float) : Z :=
  match x with
  | S754_finite s m e => (if s then -1 else 1) * (Z.pos m * 2 ^ (e + 149))
  | _ => 0
  end.

(** A zero or a positive finite number with at most 24 digits and an
    exponent of at least [-149]. *)
Definition nonneg_binary32 (x : float) : Prop :=
  match x with
  | S754_zero _ => True
  | S754_finite false m e => Z.pos m < 2 ^ 24 /\ -149 <= e
  | _ => False
  end.

(** The exact sum of a column in units of [2^-149]. *)
Definition scaled_sum (column : list float) : Z :=
  fold_right (fun x acc => scaled x + acc) 0 column.

(** A finite binary32 number in its canonical form, as the hardware
    holds it. *)
Definition finite_binary32 (x : float) : bool :=
  Float32.is_finite x && valid_binary Float32.prec Float32.emax x.

(** ** Notions for the theta cache across two passes *)

(** The [Theta] of a model on a batch as [ThreadFunction] holds it after
    the inner iterations, when it fills the theta cache: [locals] are the
    counts kept from the models before it, [rnd] the draws made so far. *)
Definition pass_theta (env : Environment) (part : ProcessorInput) (locals : BatchLocals)
    (rnd : nat) (model_name : string) (phi_matrix : DenseMatrix) : DenseMatrix :=
  let batch := pi_batch part in
  let schema := schema_get env in
  let model_config := schema_model_config schema model_name in
  let sparse_ndw :=
    if mc_use_sparse_bow model_config
    then Some (InitializeSparseNdw batch model_config)
    else bl_sparse_ndw locals in
  let dense_ndw :=
    if negb (mc_use_sparse_bow model_config)
    then match bl_dense_ndw locals with
         | None => Some (InitializeDenseNdw batch)
         | Some n_dw => Some n_dw
         end
    else bl_dense_ndw locals in
  let theta_matrix :=
    fst (InitializeTheta (GenerateFloat env) rnd batch model_config
           (FindCacheEntry part model_config)) in
  let stream_mask := model_stream_mask part model_config in
  snd (if mc_use_sparse_bow model_config then
         CalculateNwtSparse model_config batch stream_mask schema
           (default empty_CsrMatrix sparse_ndw) phi_matrix theta_matrix (env_blas env)
       else
         CalculateNwtDense model_config batch stream_mask schema
           (default empty_DenseMatrix dense_ndw) phi_matrix theta_matrix (env_blas env)).

(** Whether a cache entry is the one [FindCacheEntry] looks for. *)
Definition cache_entry_for (batch_uuid model_name : string) (c : DataLoaderCacheEntry)
    : Prop :=
  ce_batch_uuid c = batch_uuid /\ ce_model_name c = model_name.

(** The increment the worker pushes on the sample batch under the
    caching schema, and the [Phi] of that pass. *)
Definition cached_increment : ModelIncrement :=
  Eval vm_compute in
    match ws_pushed (snd (fst (process_model caching_env sample_input
                                 (mkBatchLocals None None, fresh_worker) "model"))) with
    | mi :: _ => mi
    | [] => empty_ModelIncrement
    end.

Definition cached_phi : DenseMatrix :=
  Eval vm_compute in
    default empty_DenseMatrix
            (InitializePhi (pi_batch sample_input) reusing_config sample_topic_model).

(** A later input for the sample batch: its cache lists an entry of
    another batch and one of another model, then the entry of the pushed
    increment, then an older entry of this batch and model. *)
Definition later_input : ProcessorInput :=
  mkProcessorInput (pi_batch sample_input) "uuid" ["train"]%string [mkMask [true; false]]
    ([mkCacheEntry "other" "model" ["t0"; "t1"]%string [1; 2]
        [[Float32.one; Float32.zero]; [Float32.one; Float32.zero]] None;
      mkCacheEntry "uuid" "other" ["t0"; "t1"]%string [1; 2]
        [[Float32.one; Float32.zero]; [Float32.one; Float32.zero]] None]
     ++ mi_cache cached_increment ++ [sample_cache_entry]).

(** A schema that lists the reusing config, whose name is [model],
    under the key [key]. *)
Definition keyed_env : Environment :=
  mkEnvironment (fun _ => Some sample_topic_model)
                (mkSchema ["key"]%string (fun _ => reusing_config) (fun _ => None)
                          (fun _ => None) (mkMasterConfig true None 10))
                BuiltinBlas.builtin (fun _ => Float32.one) (fun _ => "id"%string)
                (fun _ _ _ => true)
                (fun cache_entry _ _ =>
                   mkThetaMatrix (ce_model_name cache_entry) (ce_item_id cache_entry)
                                 (ce_theta cache_entry) (ce_topic_name cache_entry)).

(* ================================================================== *)
(** * Part II: properties                                              *)
(* ================================================================== *)

(** ** Counting loops and indexed access *)

Lemma Zrange_length (n : Z) : length (Zrange n) = Z.to_nat n.
Proof. unfold Zrange. by rewrite length_map, length_seq. Qed.

Lemma Zrange_nonpos (n : Z) : n <= 0 -> Zrange n = [].
Proof. intros Hn. unfold Zrange. by replace (Z.to_nat n) with O by lia. Qed.

Lemma Zrange_succ (n : Z) : 0 <= n -> Zrange (n + 1) = Zrange n ++ [n].
Proof.
  intros Hn. unfold Zrange.
  replace (Z.to_nat (n + 1)) with (S (Z.to_nat n)) by lia.
  rewrite seq_S, map_app. simpl. by rewrite Z2Nat.id.
Qed.

Lemma Zrange_of_nat (n : nat) : Zrange (Z.of_nat n) = map Z.of_nat (seq 0 n).
Proof. unfold Zrange. by rewrite Nat2Z.id. Qed.

Lemma elem_of_Zrange (n i : Z) : i ∈ Zrange n <-> 0 <= i < n.
Proof.
  unfold Zrange. rewrite list_elem_of_fmap. split.
  - intros (k & -> & Hk). apply elem_of_seq in Hk. lia.
  - intros Hi. exists (Z.to_nat i). split; [lia|]. apply elem_of_seq. lia.
Qed.

Lemma nth_Zrange (n : Z) (k : nat) (d : Z) :
  (k < Z.to_nat n)%nat -> nth k (Zrange n) d = Z.of_nat k.
Proof.
  intros Hk. unfold Zrange.
  rewrite (nth_indep _ d (Z.of_nat 0)) by (by rewrite length_map, length_seq).
  rewrite map_nth, seq_nth by done. done.
Qed.

Lemma rget_map_Zrange {A : Type} (h : Z -> A) (n i : Z) (d : A) :
  0 <= i < n -> rget (map h (Zrange n)) i d = h i.
Proof.
  intros Hi. unfold rget. destruct (Z.ltb_spec i 0); [lia|].
  rewrite (nth_indep _ d (h 0)) by (rewrite length_map, Zrange_length; lia).
  rewrite (map_nth h), nth_Zrange by lia. by rewrite Z2Nat.id.
Qed.

Lemma Zrange_from_length (lo hi : Z) : length (Zrange_from lo hi) = Z.to_nat (hi - lo).
Proof. unfold Zrange_from. by rewrite length_map, length_seq. Qed.

Lemma Zrange_from_0 (n : Z) : Zrange_from 0 n = Zrange n.
Proof.
  unfold Zrange_from, Zrange. rewrite Z.sub_0_r.
  apply map_ext. intros k. lia.
Qed.

Lemma rget_of_nat {A : Type} (l : list A) (k : nat) (d : A) :
  rget l (Z.of_nat k) d = nth k l d.
Proof.
  unfold rget. destruct (Z.ltb_spec (Z.of_nat k) 0); [lia|]. by rewrite Nat2Z.id.
Qed.

Lemma rget_app_l {A : Type} (l1 l2 : list A) (i : Z) (d : A) :
  0 <= i < rsize l1 -> rget (l1 ++ l2) i d = rget l1 i d.
Proof.
  unfold rget, rsize. intros Hi.
  destruct (Z.ltb_spec i 0); [lia|]. apply app_nth1. lia.
Qed.

Lemma rget_snoc {A : Type} (l : list A) (x d : A) : rget (l ++ [x]) (rsize l) d = x.
Proof.
  unfold rsize. rewrite rget_of_nat, app_nth2 by lia.
  by rewrite Nat.sub_diag.
Qed.

Lemma rset_length {A : Type} (l : list A) (i : Z) (x : A) :
  length (rset l i x) = length l.
Proof. unfold rset. destruct (i <? 0); [done|]. apply length_insert. Qed.

Lemma rget_rset_eq {A : Type} (l : list A) (i : Z) (x d : A) :
  0 <= i < rsize l -> rget (rset l i x) i d = x.
Proof.
  unfold rget, rset, rsize. intros Hi.
  destruct (Z.ltb_spec i 0); [lia|].
  apply nth_lookup_Some. apply list_lookup_insert_eq. lia.
Qed.

Lemma rget_rset_ne {A : Type} (l : list A) (i j : Z) (x d : A) :
  i <> j -> rget (rset l i x) j d = rget l j d.
Proof.
  unfold rget, rset. intros Hne.
  destruct (Z.ltb_spec j 0); [done|].
  destruct (Z.ltb_spec i 0); [done|].
  rewrite !nth_lookup. rewrite list_lookup_insert_ne; [done|lia].
Qed.

(** An invariant carried through a counting loop. *)
Lemma fold_left_invariant {A B : Type} (P : A -> Prop) (f : A -> B -> A)
    (l : list B) (a : A) :
  P a -> (forall a b, b ∈ l -> P a -> P (f a b)) -> P (fold_left f l a).
Proof.
  revert a. induction l as [|b l IH]; intros a Ha Hstep; simpl; [done|].
  apply IH.
  - apply Hstep; [left | done].
  - intros a' b' Hb'. apply Hstep. by right.
Qed.

(** A loop of [push_back]s builds the image of its indices. *)
Lemma fold_left_snoc_map {A B : Type} (g : B -> A) (l : list B) (acc : list A) :
  fold_left (fun acc b => acc ++ [g b]) l acc = acc ++ map g l.
Proof.
  revert acc. induction l as [|b l IH]; intros acc; simpl.
  - by rewrite app_nil_r.
  - rewrite IH. by rewrite <- app_assoc.
Qed.

(** ** The stream iterator *)

Lemma Next_loop_items_count (rounds : nat) (it : StreamIterator) :
  items_count_ (Next_loop rounds it) = items_count_ it.
Proof.
  revert it. induction rounds as [|rounds IH]; intros it; simpl;
    destruct (Next_stops (advance it)); try done.
  by rewrite IH.
Qed.

(** The loop of [Next] is given rounds enough: it ends on a break. *)
Lemma Next_loop_stops (rounds : nat) (it : StreamIterator) :
  items_count_ it - item_index_ it <= Z.of_nat rounds + 1 ->
  Next_stops (Next_loop rounds it) = true.
Proof.
  revert it. induction rounds as [|rounds IH]; intros it Hfuel; simpl.
  - destruct (Next_stops (advance it)) eqn:Hstop; [done|].
    unfold Next_stops in *. simpl in *.
    destruct (Z.geb_spec (item_index_ it + 1) (items_count_ it)); [done | lia].
  - destruct (Next_stops (advance it)) eqn:Hstop; [done|].
    apply IH. simpl. lia.
Qed.

Lemma Next_loop_index (rounds : nat) (it : StreamIterator) :
  item_index_ it < item_index_ (Next_loop rounds it).
Proof.
  revert it. induction rounds as [|rounds IH]; intros it; simpl;
    destruct (Next_stops (advance it)); simpl; try lia.
  specialize (IH (advance it)). simpl in IH. lia.
Qed.

(** [Next] returns null exactly when it leaves the cursor past the last
    item, and it always moves the cursor forward. *)
Lemma Next_null (it : StreamIterator) :
  snd (Next it) = None <->
  items_count_ (fst (Next it)) <= item_index_ (fst (Next it)).
Proof.
  unfold Next, Current. simpl.
  destruct (Z.geb_spec (item_index_ (Next_loop (Z.to_nat (items_count_ it - item_index_ it)) it))
                       (items_count_ (Next_loop (Z.to_nat (items_count_ it - item_index_ it)) it)));
    split; intros; try done; lia.
Qed.

(** [Next] always ends on a break of its loop: at the end of the items
    or at an item of the stream. *)
Lemma Next_breaks (it : StreamIterator) : Next_stops (fst (Next it)) = true.
Proof. unfold Next. simpl. apply Next_loop_stops. lia. Qed.

Lemma repeated_field_index_of_from_absent {A : Type} `{EqDecision A}
    (pos : Z) (l : list A) (v : A) :
  v ∉ l -> repeated_field_index_of_from pos l v = -1.
Proof.
  revert pos. induction l as [|x l IH]; intros pos Hv; simpl; [done|].
  apply not_elem_of_cons in Hv as [Hne Hv].
  destruct (decide (x = v)); [congruence|]. by apply IH.
Qed.


(** C10. Once the cursor of the stream iterator is past the last item,
    [Current] returns null and [InStream(name)] returns false for every
    stream name, and a further [Next] returns null again; this includes
    a name the [ProcessorInput] does not list, although for such a name
    [InStream] returns true while the cursor is at an item (index [i]
    below [items_count_]). *)
Theorem stream_iterator_past_the_end (it : StreamIterator) (absent : string) (i : Z) :
  items_count_ it <= item_index_ it ->
  i < items_count_ it ->
  absent ∉ pi_stream_name (processor_input_ it) ->
  Current it = None /\
  (forall stream_name, InStream it stream_name = false) /\
  snd (Next it) = None /\
  InStream (mkStreamIterator (items_count_ it) i (stream_flags_ it) (processor_input_ it))
           absent = true.
Proof.
  intros Hend Hi Habsent. repeat split.
  - unfold Current. destruct (Z.geb_spec (item_index_ it) (items_count_ it)); [done | lia].
  - intros stream_name. unfold InStream.
    destruct (Z.geb_spec (item_index_ it) (items_count_ it)); [done | lia].
  - apply Next_null. unfold Next. simpl.
    rewrite Next_loop_items_count.
    pose proof (Next_loop_index (Z.to_nat (items_count_ it - item_index_ it)) it). lia.
  - unfold InStream. simpl.
    destruct (Z.geb_spec i (items_count_ it)); [lia|].
    unfold repeated_field_index_of.
    by rewrite repeated_field_index_of_from_absent.
Qed.

Lemma stream_iterator_past_the_end_witness :
  Current sample_iterator_at_end = None /\
  (forall stream_name, InStream sample_iterator_at_end stream_name = false) /\
  snd (Next sample_iterator_at_end) = None /\
  InStream (mkStreamIterator 2 0 None sample_input) "test" = true.
Proof.
  apply (stream_iterator_past_the_end sample_iterator_at_end "test" 0).
  - simpl. lia.
  - simpl. lia.
  - simpl. intros H. apply list_elem_of_singleton in H. discriminate H.
Defined.

(** ** The stream mask and [Theta] *)

(** C6. For a fixed config, batch, [n_dw], [Phi] and initial [Theta], the
    [Theta] that [CalculateNwtSparse] and [CalculateNwtDense] leave behind
    is the same whatever stream mask is supplied, none included: the mask
    enters only the accumulation of [n_wt] after the inner iterations. *)
Theorem theta_independent_of_stream_mask (model_config : ModelConfig) (batch : Batch)
    (schema : InstanceSchema) (blas : Blas) (sparse_ndw : CsrMatrix)
    (dense_ndw phi_matrix theta_matrix : DenseMatrix) (mask1 mask2 : option Mask) :
  snd (CalculateNwtSparse model_config batch mask1 schema sparse_ndw
                          phi_matrix theta_matrix blas) =
  snd (CalculateNwtSparse model_config batch mask2 schema sparse_ndw
                          phi_matrix theta_matrix blas) /\
  snd (CalculateNwtDense model_config batch mask1 schema dense_ndw
                         phi_matrix theta_matrix blas) =
  snd (CalculateNwtDense model_config batch mask2 schema dense_ndw
                         phi_matrix theta_matrix blas).
Proof.
  split.
  - reflexivity.
  - unfold CalculateNwtDense.
    destruct (fold_left _ _ _) as [Zmat theta'].
    destruct mask1 as [m1|], mask2 as [m2|]; simpl;
      repeat match goal with
             | |- context [dense_masked ?m ?z ?t] => destruct (dense_masked m z t)
             end; reflexivity.
Qed.

(** ** The sparse document-word counts *)

Lemma map_nth_seq_shift {A B : Type} (h : A -> B) (l : list A) (d : A) :
  map (fun k => h (nth k l d)) (seq 0 (length l)) = map h l.
Proof.
  induction l as [|x l IH]; simpl; [done|].
  f_equal. rewrite <- seq_shift, map_map. exact IH.
Qed.

(** Reading a repeated field through its indices reads its elements in
    order. *)
Lemma map_Zrange_rget {A B : Type} (h : A -> B) (l : list A) (d : A) :
  map (fun i => h (rget l i d)) (Zrange (rsize l)) = map h l.
Proof.
  unfold rsize. rewrite Zrange_of_nat, map_map.
  rewrite <- (map_nth_seq_shift h l d).
  apply map_ext. intros k. by rewrite rget_of_nat.
Qed.

(** The same for two parallel repeated fields. *)
Lemma map_Zrange_rget2 {A B C : Type} (h : A -> B -> C) (l1 : list A) (l2 : list B)
    (d1 : A) (d2 : B) :
  length l1 = length l2 ->
  map (fun i => h (rget l1 i d1) (rget l2 i d2)) (Zrange (rsize l1)) =
  map (fun p => h (fst p) (snd p)) (combine l1 l2).
Proof.
  intros Hlen. unfold rsize. rewrite Zrange_of_nat, map_map.
  rewrite <- (map_nth_seq_shift (fun p => h (fst p) (snd p)) (combine l1 l2) (d1, d2)).
  rewrite length_combine, <- Hlen, Nat.min_id.
  apply map_ext_in. intros k Hk. apply in_seq in Hk.
  rewrite !rget_of_nat, combine_nth by done. done.
Qed.

Lemma fold_left_over_map {A B C : Type} (f : A -> C -> A) (h : B -> C)
    (l : list B) (a : A) :
  fold_left (fun a b => f a (h b)) l a = fold_left f (map h l) a.
Proof. revert a. induction l as [|b l IH]; intros a; simpl; [done | apply IH]. Qed.

(** The map built by [insert] keeps the first weight listed for a class. *)
Lemma fold_insert_new_lookup (kvs : list (string * float)) (m : gmap string float)
    (c : string) :
  fold_left (fun m p => map_insert_new m (fst p) (snd p)) kvs m !! c =
  match m !! c with
  | Some w => Some w
  | None => listed_weight (map fst kvs) (map snd kvs) c
  end.
Proof.
  revert m. induction kvs as [|[k v] kvs IH]; intros m; simpl.
  - by destruct (m !! c).
  - rewrite IH. unfold map_insert_new.
    destruct (m !! k) eqn:Hk.
    + destruct (m !! c) eqn:Hc; [done|].
      destruct (decide (k = c)); [congruence | done].
    + destruct (decide (k = c)) as [->|Hne].
      * by rewrite lookup_insert_eq, Hk.
      * by rewrite lookup_insert_ne.
Qed.

Lemma class_id_to_weight_lookup (model_config : ModelConfig) (c : string) :
  length (mc_class_id model_config) = length (mc_class_weight model_config) ->
  class_id_to_weight model_config !! c =
  listed_weight (mc_class_id model_config) (mc_class_weight model_config) c.
Proof.
  intros Hlen. unfold class_id_to_weight.
  rewrite (fold_left_over_map
             (fun m p => map_insert_new m (fst p) (snd p))
             (fun i => (rget (mc_class_id model_config) i EmptyString,
                        rget (mc_class_weight model_config) i Float32.zero))).
  rewrite (map_Zrange_rget2 (fun a b => (a, b))) by done.
  rewrite (map_ext _ id), map_id by (by intros []).
  rewrite fold_insert_new_lookup, lookup_empty.
  f_equal.
  - clear c. revert Hlen. generalize (mc_class_weight model_config).
    induction (mc_class_id model_config) as [|x l IH]; intros [|y l'] Hlen; simpl in *;
      try done. f_equal. apply IH. lia.
  - clear c. revert Hlen. generalize (mc_class_weight model_config).
    induction (mc_class_id model_config) as [|x l IH]; intros [|y l'] Hlen; simpl in *;
      try done. f_equal. apply IH. lia.
Qed.

(** The weight the code gives a token is the one the specification
    words. *)
Lemma token_class_weight_spec (batch : Batch) (model_config : ModelConfig) (token_id : Z) :
  length (mc_class_id model_config) = length (mc_class_weight model_config) ->
  token_class_weight batch model_config token_id =
  spec_class_weight model_config (rget (batch_class_id batch) token_id EmptyString).
Proof.
  intros Hlen. unfold token_class_weight, spec_class_weight.
  rewrite class_id_to_weight_lookup by done.
  unfold rsize. destruct (mc_class_id model_config) as [|x l]; simpl; done.
Qed.

Lemma rget_map {A B : Type} (f : A -> B) (l : list A) (i : Z) (d : A) :
  rget (map f l) i (f d) = f (rget l i d).
Proof. unfold rget. destruct (i <? 0); [done|]. apply map_nth. Qed.

(** Reading the middle part of a vector through its index range. *)
Lemma map_rget_slice {A B : Type} (h : A -> B) (l1 l2 l3 : list A) (d : A) :
  map (fun p => h (rget (l1 ++ l2 ++ l3) p d))
      (Zrange_from (rsize l1) (rsize l1 + rsize l2)) = map h l2.
Proof.
  unfold Zrange_from, rsize.
  replace (Z.to_nat (Z.of_nat (length l1) + Z.of_nat (length l2) - Z.of_nat (length l1)))
    with (length l2) by lia.
  rewrite map_map, <- (map_nth_seq_shift h l2 d).
  apply map_ext_in. intros k Hk. apply in_seq in Hk.
  replace (Z.of_nat (length l1) + Z.of_nat k) with (Z.of_nat (length l1 + k)) by lia.
  rewrite rget_of_nat, app_nth2 by lia.
  replace (length l1 + k - length l1)%nat with k by lia.
  rewrite app_nth1 by lia. done.
Qed.

Lemma fold_left_Zrange_rget {A S : Type} (G : S -> A -> S) (l : list A) (d : A) (s : S) :
  fold_left (fun s i => G s (rget l i d)) (Zrange (rsize l)) s = fold_left G l s.
Proof.
  rewrite (fold_left_over_map G (fun i => rget l i d)).
  pose proof (map_Zrange_rget (fun x => x) l d) as Hmap. cbv beta in Hmap.
  by rewrite Hmap, map_id.
Qed.

Lemma sparse_ndw_field_entries (batch : Batch) (model_config : ModelConfig)
    (val : list float) (row_ptr col_ind : list Z) (field : Field) :
  length (mc_class_id model_config) = length (mc_class_weight model_config) ->
  length (field_token_id field) = length (field_token_count field) ->
  sparse_ndw_field batch model_config (val, row_ptr, col_ind) field =
  (val ++ map snd (map (spec_sparse_entry batch model_config)
                       (combine (field_token_id field) (field_token_count field))),
   row_ptr,
   col_ind ++ map fst (map (spec_sparse_entry batch model_config)
                           (combine (field_token_id field) (field_token_count field)))).
Proof.
  intros Hcfg Hlen. unfold sparse_ndw_field.
  rewrite !map_map.
  rewrite <- (map_Zrange_rget2
                (fun a b => snd (spec_sparse_entry batch model_config (a, b)))
                _ _ 0 0) by done.
  rewrite <- (map_Zrange_rget2
                (fun a b => fst (spec_sparse_entry batch model_config (a, b)))
                _ _ 0 0) by done.
  generalize (Zrange (rsize (field_token_id field))). intros l.
  revert val col_ind. induction l as [|i l IH]; intros val col_ind; simpl.
  - by rewrite !app_nil_r.
  - rewrite IH, <- !app_assoc. simpl.
    by rewrite token_class_weight_spec.
Qed.

Lemma sparse_ndw_fields_entries (batch : Batch) (model_config : ModelConfig)
    (fields : list Field) (val : list float) (row_ptr col_ind : list Z) :
  length (mc_class_id model_config) = length (mc_class_weight model_config) ->
  (forall field, field ∈ fields ->
     length (field_token_id field) = length (field_token_count field)) ->
  fold_left (sparse_ndw_field batch model_config) fields (val, row_ptr, col_ind) =
  (val ++ map snd (spec_sparse_row batch model_config (mkItem 0 fields)),
   row_ptr,
   col_ind ++ map fst (spec_sparse_row batch model_config (mkItem 0 fields))).
Proof.
  intros Hcfg. unfold spec_sparse_row, item_pairs. simpl.
  revert val col_ind. induction fields as [|f fields IH]; intros val col_ind Hlen; simpl.
  - by rewrite !app_nil_r.
  - rewrite sparse_ndw_field_entries; [|done|apply Hlen; left].
    rewrite IH by (intros f' Hf'; apply Hlen; by right).
    by rewrite !map_app, <- !app_assoc.
Qed.

Lemma spec_sparse_row_fields (batch : Batch) (model_config : ModelConfig) (item : Item) :
  spec_sparse_row batch model_config (mkItem 0 (item_field item)) =
  spec_sparse_row batch model_config item.
Proof. done. Qed.

(** The loop over the items, from any state of the three vectors. *)
Lemma sparse_ndw_items_entries (batch : Batch) (model_config : ModelConfig)
    (items : list Item) (val : list float) (row_ptr col_ind : list Z) :
  length (mc_class_id model_config) = length (mc_class_weight model_config) ->
  (forall item field, item ∈ items -> field ∈ item_field item ->
     length (field_token_id field) = length (field_token_count field)) ->
  fold_left
    (fun (st : ndw_vectors) current_item =>
       let '(n_dw_val, n_dw_row_ptr, n_dw_col_ind) := st in
       fold_left (sparse_ndw_field batch model_config) (item_field current_item)
                 (n_dw_val, n_dw_row_ptr ++ [rsize n_dw_val], n_dw_col_ind))
    items (val, row_ptr, col_ind) =
  (val ++ map snd (flat_map (spec_sparse_row batch model_config) items),
   row_ptr ++ row_starts batch model_config (rsize val) items,
   col_ind ++ map fst (flat_map (spec_sparse_row batch model_config) items)).
Proof.
  intros Hcfg. revert val row_ptr col_ind.
  induction items as [|item items IH]; intros val row_ptr col_ind Hlen; simpl.
  - by rewrite !app_nil_r.
  - rewrite sparse_ndw_fields_entries;
      [|done|intros f Hf; apply (Hlen item); [left | done]].
    rewrite spec_sparse_row_fields.
    rewrite IH by (intros it f Hit; apply Hlen; by right).
    rewrite !map_app, <- !app_assoc. simpl.
    unfold rsize. rewrite length_app, length_map.
    repeat f_equal. lia.
Qed.

Lemma sparse_ndw_vectors_entries (batch : Batch) (model_config : ModelConfig) :
  length (mc_class_id model_config) = length (mc_class_weight model_config) ->
  (forall item field, item ∈ batch_item batch -> field ∈ item_field item ->
     length (field_token_id field) = length (field_token_count field)) ->
  sparse_ndw_vectors batch model_config =
  (map snd (flat_map (spec_sparse_row batch model_config) (batch_item batch)),
   row_starts batch model_config 0 (batch_item batch) ++
     [rsize (flat_map (spec_sparse_row batch model_config) (batch_item batch))],
   map fst (flat_map (spec_sparse_row batch model_config) (batch_item batch))).
Proof.
  intros Hcfg Hlen. unfold sparse_ndw_vectors, batch_item_at.
  rewrite (fold_left_Zrange_rget
             (fun (st : ndw_vectors) current_item =>
                let '(n_dw_val, n_dw_row_ptr, n_dw_col_ind) := st in
                fold_left (sparse_ndw_field batch model_config) (item_field current_item)
                  (n_dw_val, n_dw_row_ptr ++ [rsize n_dw_val], n_dw_col_ind))).
  rewrite sparse_ndw_items_entries by done. simpl.
  unfold rsize. by rewrite length_map.
Qed.

(** The row pointer of item [d] counts the entries of the items before. *)
Lemma row_starts_rget (batch : Batch) (model_config : ModelConfig)
    (items : list Item) (base : Z) (d : nat) :
  (d <= length items)%nat ->
  rget (row_starts batch model_config base items ++
          [base + rsize (flat_map (spec_sparse_row batch model_config) items)])
       (Z.of_nat d) 0 =
  base + rsize (flat_map (spec_sparse_row batch model_config) (take d items)).
Proof.
  rewrite rget_of_nat. revert base d.
  induction items as [|item items IH]; intros base d Hd; simpl.
  - destruct d; simpl in *; [|lia]. unfold rsize. simpl. lia.
  - destruct d as [|d]; simpl in *; [unfold rsize; simpl; lia|].
    unfold rsize in *. rewrite !length_app.
    specialize (IH (base + Z.of_nat (length (spec_sparse_row batch model_config item))) d).
    replace (base + Z.of_nat (length (spec_sparse_row batch model_config item) +
                              length (flat_map (spec_sparse_row batch model_config) items)))
      with (base + Z.of_nat (length (spec_sparse_row batch model_config item)) +
            Z.of_nat (length (flat_map (spec_sparse_row batch model_config) items))) by lia.
    rewrite IH by lia. lia.
Qed.

Lemma rget_fst_snd {A B : Type} (l : list (A * B)) (p : Z) (a : A) (b : B) :
  (rget (map fst l) p a, rget (map snd l) p b) = rget l p (a, b).
Proof.
  unfold rget. destruct (p <? 0); [done|].
  pose proof (map_nth fst l (a, b) (Z.to_nat p)) as Hfst.
  pose proof (map_nth snd l (a, b) (Z.to_nat p)) as Hsnd.
  simpl in Hfst, Hsnd. rewrite Hfst, Hsnd. by destruct (nth (Z.to_nat p) l (a, b)).
Qed.

Lemma row_starts_length (batch : Batch) (model_config : ModelConfig) (base : Z)
    (items : list Item) :
  length (row_starts batch model_config base items) = length items.
Proof.
  revert base. induction items as [|item items IH]; intros base; simpl; [done|].
  f_equal. apply IH.
Qed.

Lemma batch_well_formed_fields (batch : Batch) :
  batch_well_formed batch = true ->
  forall item field, item ∈ batch_item batch -> field ∈ item_field item ->
    length (field_token_id field) = length (field_token_count field).
Proof.
  unfold batch_well_formed. intros Hwf item field Hitem Hfield.
  apply andb_prop in Hwf as [_ Hitems].
  rewrite forallb_forall in Hitems.
  specialize (Hitems item (proj1 (list_elem_of_In _ _) Hitem)).
  rewrite forallb_forall in Hitems.
  specialize (Hitems field (proj1 (list_elem_of_In _ _) Hfield)).
  unfold field_well_formed in Hitems.
  apply andb_prop in Hitems as [Hlen _]. by apply Nat.eqb_eq.
Qed.

(** C4. [InitializeSparseNdw] builds a CSR matrix with one row per item
    and one column per batch token; row [d] holds, for every
    [(token_id, token_count)] pair of every field of item [d], in order,
    the entry with column [token_id] and value [class_weight * token_count],
    where [class_weight] is 1 when the config enumerates no classes, the
    configured weight when the class of the token is listed and 0 when
    it is not. *)
Theorem build_sparse_ndw_entries (batch : Batch) (model_config : ModelConfig) (d : Z) :
  batch_well_formed batch = true ->
  length (mc_class_id model_config) = length (mc_class_weight model_config) ->
  0 <= d < rsize (batch_item batch) ->
  csr_m (InitializeSparseNdw batch model_config) = rsize (batch_item batch) /\
  csr_n (InitializeSparseNdw batch model_config) = rsize (batch_token batch) /\
  csr_row (InitializeSparseNdw batch model_config) d =
    map (spec_sparse_entry batch model_config) (item_pairs (batch_item_at batch d)).
Proof.
  intros Hwf Hcfg Hd.
  pose proof (batch_well_formed_fields batch Hwf) as Hfields.
  unfold InitializeSparseNdw. rewrite sparse_ndw_vectors_entries by done.
  set (E := spec_sparse_row batch model_config).
  unfold CsrMatrix_of, csr_row. simpl.
  pose proof (row_starts_length batch model_config 0 (batch_item batch)) as Hstarts.
  split; [|split].
  - unfold rsize in *. rewrite length_app, Hstarts. simpl. lia.
  - done.
  - unfold rsize in Hd.
    pose proof (row_starts_rget batch model_config (batch_item batch) 0 (Z.to_nat d)) as Hlo.
    pose proof (row_starts_rget batch model_config (batch_item batch) 0 (S (Z.to_nat d))) as Hhi.
    rewrite Z2Nat.id in Hlo by lia.
    replace (Z.of_nat (S (Z.to_nat d))) with (d + 1) in Hhi by lia.
    rewrite !Z.add_0_l in Hlo, Hhi. fold E in Hlo, Hhi.
    rewrite Hlo, Hhi by lia. clear Hlo Hhi.
    destruct (lookup_lt_is_Some_2 (batch_item batch) (Z.to_nat d)) as [item Hitem]; [lia|].
    rewrite (take_S_r _ _ _ Hitem), flat_map_app. simpl. rewrite app_nil_r.
    assert (Hat : batch_item_at batch d = item).
    { unfold batch_item_at, rget. destruct (Z.ltb_spec d 0); [lia|].
      by apply nth_lookup_Some. }
    rewrite Hat.
    assert (Hsplit : flat_map E (batch_item batch) =
                     flat_map E (take (Z.to_nat d) (batch_item batch)) ++ E item ++
                     flat_map E (drop (S (Z.to_nat d)) (batch_item batch))).
    { rewrite <- (take_drop_middle _ _ _ Hitem) at 1. by rewrite flat_map_app. }
    rewrite Hsplit.
    unfold rsize. rewrite length_app, Nat2Z.inj_add.
    rewrite (map_ext _ (fun p => rget (flat_map E (take (Z.to_nat d) (batch_item batch)) ++
                                       E item ++
                                       flat_map E (drop (S (Z.to_nat d)) (batch_item batch)))
                                      p (0, Float32.zero)))
      by (intros p; apply rget_fst_snd).
    pose proof (map_rget_slice (fun x => x)
                  (flat_map E (take (Z.to_nat d) (batch_item batch))) (E item)
                  (flat_map E (drop (S (Z.to_nat d)) (batch_item batch)))
                  (0, Float32.zero)) as Hslice.
    cbv beta in Hslice. unfold rsize in Hslice. rewrite Hslice, map_id. done.
Qed.

Lemma build_sparse_ndw_entries_witness :
  csr_m (InitializeSparseNdw (pi_batch sample_input) sample_config) = 2 /\
  csr_n (InitializeSparseNdw (pi_batch sample_input) sample_config) = 2 /\
  csr_row (InitializeSparseNdw (pi_batch sample_input) sample_config) 0 =
    map (spec_sparse_entry (pi_batch sample_input) sample_config)
        (item_pairs (batch_item_at (pi_batch sample_input) 0)).
Proof.
  apply (build_sparse_ndw_entries (pi_batch sample_input) sample_config 0).
  - reflexivity.
  - reflexivity.
  - unfold rsize. simpl. lia.
Defined.

(** The sample row: token [a] of class [c] weighs 2, token [b] of the
    unlisted class [e] weighs 0. *)
Example sample_sparse_row :
  csr_row (InitializeSparseNdw (pi_batch sample_input) sample_config) 0 =
  [(0, Float32.of_int 4); (1, Float32.zero)].
Proof. vm_compute. reflexivity. Qed.

(** ** Cells of a dense matrix *)

Lemma same_shape_refl (M : DenseMatrix) : same_shape M M.
Proof. by unfold same_shape. Qed.

Lemma same_shape_trans (M1 M2 M3 : DenseMatrix) :
  same_shape M1 M2 -> same_shape M2 M3 -> same_shape M1 M3.
Proof. unfold same_shape. intros (?&?&?&?) (?&?&?&?). repeat split; congruence. Qed.

Lemma same_shape_wf (M M' : DenseMatrix) : same_shape M M' -> dense_wf M -> dense_wf M'.
Proof.
  unfold same_shape, dense_wf, rsize. intros (Hr & Hc & _ & Hl) (? & ? & ?).
  rewrite Hr, Hc, Hl. done.
Qed.

Lemma dense_set_same_shape (M : DenseMatrix) (r c : Z) (v : float) :
  same_shape M (dense_set M r c v).
Proof. unfold same_shape, dense_set. simpl. by rewrite rset_length. Qed.

Lemma same_shape_offset (M M' : DenseMatrix) (r c : Z) :
  same_shape M M' -> dense_offset M' r c = dense_offset M r c.
Proof. unfold same_shape, dense_offset. intros (-> & -> & -> & _). done. Qed.

Lemma dense_offset_range (M : DenseMatrix) (r c : Z) :
  dense_wf M -> 0 <= r < no_rows M -> 0 <= c < no_columns M ->
  0 <= dense_offset M r c < rsize (get_data M).
Proof.
  unfold dense_wf, dense_offset. intros (? & ? & ->) Hr Hc.
  destruct (store_by_rows M); nia.
Qed.

Lemma dense_offset_inj (M : DenseMatrix) (r c r' c' : Z) :
  0 <= r < no_rows M -> 0 <= c < no_columns M ->
  0 <= r' < no_rows M -> 0 <= c' < no_columns M ->
  dense_offset M r c = dense_offset M r' c' -> r = r' /\ c = c'.
Proof.
  unfold dense_offset. intros Hr Hc Hr' Hc' Heq.
  destruct (store_by_rows M).
  - assert (r = r') by nia. subst. lia.
  - assert (c = c') by nia. subst. lia.
Qed.

Lemma dense_get_set_eq (M : DenseMatrix) (r c : Z) (v : float) :
  dense_wf M -> 0 <= r < no_rows M -> 0 <= c < no_columns M ->
  dense_get (dense_set M r c v) r c = v.
Proof.
  intros Hwf Hr Hc. unfold dense_get.
  rewrite (same_shape_offset M) by apply dense_set_same_shape.
  unfold dense_set. simpl. apply rget_rset_eq. by apply dense_offset_range.
Qed.

Lemma dense_get_set_ne (M : DenseMatrix) (r c r' c' : Z) (v : float) :
  0 <= r < no_rows M -> 0 <= c < no_columns M ->
  0 <= r' < no_rows M -> 0 <= c' < no_columns M ->
  (r, c) <> (r', c') ->
  dense_get (dense_set M r c v) r' c' = dense_get M r' c'.
Proof.
  intros Hr Hc Hr' Hc' Hne. unfold dense_get.
  rewrite (same_shape_offset M) by apply dense_set_same_shape.
  unfold dense_set. simpl. apply rget_rset_ne.
  intros Heq. apply dense_offset_inj in Heq as [-> ->]; done.
Qed.

Lemma rget_replicate_zero (n : nat) (i : Z) :
  rget (replicate n Float32.zero) i Float32.zero = Float32.zero.
Proof.
  unfold rget. destruct (i <? 0); [done|].
  rewrite nth_lookup. destruct (replicate n Float32.zero !! Z.to_nat i) eqn:Hl; [|done].
  apply lookup_replicate in Hl as [-> _]. done.
Qed.

Lemma DenseMatrix_new_wf (rows cols : Z) (by_rows : bool) :
  0 <= rows -> 0 <= cols -> dense_wf (DenseMatrix_new rows cols by_rows).
Proof.
  intros Hr Hc. unfold dense_wf, DenseMatrix_new, rsize. simpl.
  repeat split; try done.
  destruct (Z.ltb_spec 0 rows), (Z.ltb_spec 0 cols); simpl;
    rewrite ?length_replicate; nia.
Qed.

Lemma InitializeZeros_same_shape (M : DenseMatrix) : same_shape M (InitializeZeros M).
Proof. unfold same_shape, InitializeZeros. simpl. by rewrite length_replicate. Qed.

Lemma InitializeZeros_get (M : DenseMatrix) (r c : Z) :
  dense_get (InitializeZeros M) r c = Float32.zero.
Proof. unfold dense_get, InitializeZeros. simpl. apply rget_replicate_zero. Qed.

(** ** The dense document-word counts *)

Lemma fold_left_flat_map {A B S : Type} (f : S -> B -> S) (g : A -> list B)
    (l : list A) (s : S) :
  fold_left f (flat_map g l) s = fold_left (fun s x => fold_left f (g x) s) l s.
Proof.
  revert s. induction l as [|x l IH]; intros s; simpl; [done|].
  by rewrite fold_left_app, IH.
Qed.

Lemma dense_ndw_field_pairs (j : Z) (n_dw : DenseMatrix) (field : Field) :
  length (field_token_id field) = length (field_token_count field) ->
  dense_ndw_field j n_dw field =
  dense_ndw_pairs j (combine (field_token_id field) (field_token_count field)) n_dw.
Proof.
  intros Hlen. unfold dense_ndw_field, dense_ndw_pairs.
  rewrite (fold_left_over_map
             (fun n_dw p =>
                dense_set n_dw (fst p) j
                  (Float32.add (dense_get n_dw (fst p) j) (Float32.of_int (snd p))))
             (fun i => (rget (field_token_id field) i 0,
                        rget (field_token_count field) i 0))).
  rewrite (map_Zrange_rget2 (fun a b => (a, b))) by done.
  by rewrite (map_ext _ id), map_id by (by intros []).
Qed.

Lemma dense_ndw_item_pairs (j : Z) (n_dw : DenseMatrix) (item : Item) :
  (forall field, field ∈ item_field item ->
     length (field_token_id field) = length (field_token_count field)) ->
  fold_left (dense_ndw_field j) (item_field item) n_dw =
  dense_ndw_pairs j (item_pairs item) n_dw.
Proof.
  unfold dense_ndw_pairs, item_pairs. rewrite fold_left_flat_map.
  generalize (item_field item). intros fields. revert n_dw.
  induction fields as [|f fields IH]; intros n_dw Hlen; simpl; [done|].
  rewrite dense_ndw_field_pairs by (apply Hlen; left).
  apply IH. intros f' Hf'. apply Hlen. by right.
Qed.

Lemma dense_ndw_pairs_same_shape (j : Z) (pairs : list (Z * Z)) (n_dw : DenseMatrix) :
  same_shape n_dw (dense_ndw_pairs j pairs n_dw).
Proof.
  unfold dense_ndw_pairs.
  apply (fold_left_invariant (same_shape n_dw)); [apply same_shape_refl|].
  intros M p _ HM. eapply same_shape_trans; [exact HM | apply dense_set_same_shape].
Qed.

(** The accumulation of pairs into column [j] adds the counts of token
    [t] to the cell [(t, j)] and leaves the other columns alone. *)
Lemma dense_ndw_pairs_get (j : Z) (pairs : list (Z * Z)) (n_dw : DenseMatrix) (t d : Z) :
  dense_wf n_dw ->
  0 <= j < no_columns n_dw -> 0 <= t < no_rows n_dw -> 0 <= d < no_columns n_dw ->
  (forall p, p ∈ pairs -> 0 <= fst p < no_rows n_dw) ->
  dense_get (dense_ndw_pairs j pairs n_dw) t d =
  if decide (d = j)
  then fold_left (fun acc c => Float32.add acc (Float32.of_int c))
                 (occurrences t pairs) (dense_get n_dw t d)
  else dense_get n_dw t d.
Proof.
  unfold dense_ndw_pairs, occurrences.
  revert n_dw. induction pairs as [|[t' c'] pairs IH]; intros M Hwf Hj Ht Hd Hp; simpl.
  - by destruct (decide (d = j)).
  - assert (Ht' : 0 <= t' < no_rows M) by (apply (Hp (t', c')); left).
    pose proof (dense_set_same_shape M t' j
                  (Float32.add (dense_get M t' j) (Float32.of_int c'))) as Hshape.
    destruct Hshape as (Hr & Hc & Hs & Hl).
    rewrite IH; rewrite ?Hr, ?Hc; try done.
    + destruct (decide (d = j)) as [->|Hne].
      * rewrite filter_cons. simpl. destruct (decide (t' = t)) as [->|Hne'].
        -- simpl. by rewrite dense_get_set_eq.
        -- rewrite dense_get_set_ne; [done..|]. intros [=]. done.
      * rewrite dense_get_set_ne; [done..|]. intros [=]. congruence.
    + eapply same_shape_wf; [|exact Hwf]. apply dense_set_same_shape.
    + intros p Hin. apply Hp. by right.
Qed.

(** The loop over the items, started at any matrix, over any list of
    distinct item indices. *)
Lemma dense_ndw_items_get (batch : Batch) (js : list Z) (n_dw : DenseMatrix) (t d : Z) :
  NoDup js ->
  dense_wf n_dw ->
  (forall j, j ∈ js -> 0 <= j < no_columns n_dw) ->
  0 <= t < no_rows n_dw -> 0 <= d < no_columns n_dw ->
  (forall j p, j ∈ js -> p ∈ item_pairs (batch_item_at batch j) ->
     0 <= fst p < no_rows n_dw) ->
  dense_get
    (fold_left (fun n_dw j => dense_ndw_pairs j (item_pairs (batch_item_at batch j)) n_dw)
               js n_dw) t d =
  if decide (d ∈ js)
  then fold_left (fun acc c => Float32.add acc (Float32.of_int c))
                 (occurrences t (item_pairs (batch_item_at batch d))) (dense_get n_dw t d)
  else dense_get n_dw t d.
Proof.
  revert n_dw. induction js as [|j js IH]; intros M Hnd Hwf Hjs Ht Hd Hp; simpl.
  - destruct (decide (d ∈ [])) as [Hin|]; [|done]. by apply elem_of_nil in Hin.
  - apply NoDup_cons in Hnd as [Hj Hnd].
    pose proof (dense_ndw_pairs_same_shape j (item_pairs (batch_item_at batch j)) M)
      as (Hr & Hc & Hs & Hl).
    rewrite IH; rewrite ?Hr, ?Hc; try done.
    + rewrite dense_ndw_pairs_get; try done.
      * destruct (decide (d = j)) as [->|Hne].
        -- destruct (decide (j ∈ js)); [done|].
           destruct (decide (j ∈ j :: js)) as [|Hn]; [done|].
           exfalso. apply Hn. left.
        -- destruct (decide (d ∈ js)) as [Hin|Hnin].
           ++ destruct (decide (d ∈ j :: js)) as [|Hn]; [done|].
              exfalso. apply Hn. by right.
           ++ destruct (decide (d ∈ j :: js)) as [Hin|]; [|done].
              apply elem_of_cons in Hin as [|]; done.
      * apply Hjs. left.
      * intros p Hin. apply (Hp j); [left | done].
    + eapply same_shape_wf; [|exact Hwf]. apply dense_ndw_pairs_same_shape.
    + intros j' Hj'. apply Hjs. by right.
    + intros j' p Hj'. apply Hp. by right.
Qed.

Lemma NoDup_Zrange (n : Z) : NoDup (Zrange n).
Proof.
  unfold Zrange. apply (NoDup_fmap_2 Z.of_nat). apply NoDup_seq.
Qed.

Lemma batch_item_at_elem (batch : Batch) (j : Z) :
  0 <= j < rsize (batch_item batch) -> batch_item_at batch j ∈ batch_item batch.
Proof.
  unfold batch_item_at, rget, rsize. intros Hj.
  destruct (Z.ltb_spec j 0); [lia|].
  apply list_elem_of_In, nth_In. lia.
Qed.

Lemma batch_well_formed_token_ids (batch : Batch) :
  batch_well_formed batch = true ->
  forall item p, item ∈ batch_item batch -> p ∈ item_pairs item ->
    0 <= fst p < rsize (batch_token batch).
Proof.
  unfold batch_well_formed. intros Hwf item p Hitem Hp.
  apply andb_prop in Hwf as [_ Hitems].
  rewrite forallb_forall in Hitems.
  specialize (Hitems item (proj1 (list_elem_of_In _ _) Hitem)).
  rewrite forallb_forall in Hitems.
  unfold item_pairs in Hp. apply list_elem_of_In, in_flat_map in Hp as (field & Hfield & Hp).
  specialize (Hitems field Hfield).
  unfold field_well_formed in Hitems.
  apply andb_prop in Hitems as [_ Hids].
  rewrite forallb_forall in Hids.
  destruct p as [t c]. apply in_combine_l in Hp.
  specialize (Hids t Hp). simpl. lia.
Qed.

(** C5. [InitializeDenseNdw] returns a matrix with a row per batch token
    and a column per item whose cell [(token_id, item_index)] is the plain
    sum of [token_count] over the occurrences of the token in the fields
    of the item (accumulated in single precision, in order); no class
    weight enters it, so that there are a batch and a config with weighted
    classes for which the dense cells differ from the values of the sparse
    matrix at the same places. *)
Theorem build_dense_ndw_entries (batch : Batch) (t d : Z) :
  batch_well_formed batch = true ->
  0 <= t < rsize (batch_token batch) ->
  0 <= d < rsize (batch_item batch) ->
  no_rows (InitializeDenseNdw batch) = rsize (batch_token batch) /\
  no_columns (InitializeDenseNdw batch) = rsize (batch_item batch) /\
  dense_get (InitializeDenseNdw batch) t d =
    float_sum (occurrences t (item_pairs (batch_item_at batch d))) /\
  exists (batch' : Batch) (model_config : ModelConfig),
    batch_well_formed batch' = true /\
    length (mc_class_id model_config) = length (mc_class_weight model_config) /\
    map snd (csr_row (InitializeSparseNdw batch' model_config) 0) <>
    map (fun entry => dense_get (InitializeDenseNdw batch') (fst entry) 0)
        (csr_row (InitializeSparseNdw batch' model_config) 0).
Proof.
  intros Hwf Ht Hd.
  set (M0 := InitializeZeros
               (DenseMatrix_new (rsize (batch_token batch)) (rsize (batch_item batch)) true)).
  assert (Hshape0 : no_rows M0 = rsize (batch_token batch) /\
                    no_columns M0 = rsize (batch_item batch)) by done.
  destruct Hshape0 as [Hr0 Hc0].
  assert (Hwf0 : dense_wf M0).
  { eapply same_shape_wf; [apply InitializeZeros_same_shape|].
    apply DenseMatrix_new_wf; unfold rsize; lia. }
  assert (Hloop : InitializeDenseNdw batch =
                  fold_left (fun n_dw j =>
                               dense_ndw_pairs j (item_pairs (batch_item_at batch j)) n_dw)
                            (Zrange (rsize (batch_item batch))) M0).
  { unfold InitializeDenseNdw. fold M0. rewrite Hc0.
    assert (Hstep : forall js M,
              (forall j, j ∈ js -> 0 <= j < rsize (batch_item batch)) ->
              fold_left (fun n_dw item_index =>
                           fold_left (dense_ndw_field item_index)
                                     (item_field (batch_item_at batch item_index)) n_dw) js M =
              fold_left (fun n_dw j =>
                           dense_ndw_pairs j (item_pairs (batch_item_at batch j)) n_dw) js M).
    { induction js as [|j js IH]; intros M Hjs; simpl; [done|].
      rewrite dense_ndw_item_pairs.
      - apply IH. intros j' Hj'. apply Hjs. by right.
      - intros field Hfield.
        apply (batch_well_formed_fields batch Hwf (batch_item_at batch j)); [|done].
        apply batch_item_at_elem, Hjs. left. }
    apply Hstep. intros j Hj. by apply elem_of_Zrange. }
  split; [|split; [|split]].
  - rewrite Hloop, <- Hr0.
    apply (fold_left_invariant (fun M => no_rows M = no_rows M0)); [done|].
    intros M j _ HM. rewrite <- HM. apply dense_ndw_pairs_same_shape.
  - rewrite Hloop, <- Hc0.
    apply (fold_left_invariant (fun M => no_columns M = no_columns M0)); [done|].
    intros M j _ HM. rewrite <- HM. apply dense_ndw_pairs_same_shape.
  - rewrite Hloop, dense_ndw_items_get; rewrite ?Hr0, ?Hc0; try done.
    + destruct (decide (d ∈ Zrange (rsize (batch_item batch)))) as [|Hn].
      * unfold M0. by rewrite InitializeZeros_get.
      * exfalso. apply Hn. by apply elem_of_Zrange.
    + apply NoDup_Zrange.
    + intros j Hj. by apply elem_of_Zrange.
    + intros j p Hj Hp. apply (batch_well_formed_token_ids batch Hwf (batch_item_at batch j)).
      * apply batch_item_at_elem. by apply elem_of_Zrange.
      * done.
  - exists (pi_batch sample_input), sample_config.
    split; [reflexivity|]. split; [reflexivity|].
    vm_compute. discriminate.
Qed.

Lemma build_dense_ndw_entries_witness :
  no_rows (InitializeDenseNdw (pi_batch sample_input)) = 2 /\
  no_columns (InitializeDenseNdw (pi_batch sample_input)) = 2 /\
  dense_get (InitializeDenseNdw (pi_batch sample_input)) 1 0 =
    float_sum (occurrences 1 (item_pairs (batch_item_at (pi_batch sample_input) 0))) /\
  exists (batch' : Batch) (model_config : ModelConfig),
    batch_well_formed batch' = true /\
    length (mc_class_id model_config) = length (mc_class_weight model_config) /\
    map snd (csr_row (InitializeSparseNdw batch' model_config) 0) <>
    map (fun entry => dense_get (InitializeDenseNdw batch') (fst entry) 0)
        (csr_row (InitializeSparseNdw batch' model_config) 0).
Proof.
  apply (build_dense_ndw_entries (pi_batch sample_input) 1 0).
  - reflexivity.
  - unfold rsize. simpl. lia.
  - unfold rsize. simpl. lia.
Defined.

(** The sample batch: the dense cells of item 0 are the counts 2 and 1,
    the sparse values there are 4 and 0. *)
Example sample_dense_cells :
  map (fun t => dense_get (InitializeDenseNdw (pi_batch sample_input)) t 0) [0; 1] =
  [Float32.of_int 2; Float32.of_int 1].
Proof. vm_compute. reflexivity. Qed.

(** ** Rounding never makes a NaN *)

Lemma shr_1_nonneg (mrs : shr_record) : 0 <= shr_m mrs -> 0 <= shr_m (shr_1 mrs).
Proof.
  destruct mrs as [m r s]. simpl.
  destruct m as [|p|p]; [done| |lia].
  intros _. destruct p; simpl; lia.
Qed.

Lemma iter_pos_shr_1_nonneg (p : positive) (mrs : shr_record) :
  0 <= shr_m mrs -> 0 <= shr_m (SpecFloat.iter_pos shr_1 p mrs).
Proof.
  revert mrs. induction p as [p IH|p IH|]; intros mrs Hm; simpl.
  - apply IH, IH. by apply shr_1_nonneg.
  - by apply IH, IH.
  - by apply shr_1_nonneg.
Qed.

Lemma shr_fexp_nonneg (prec emax m e : Z) (l : location) :
  0 <= m -> 0 <= shr_m (fst (shr_fexp prec emax m e l)).
Proof.
  intros Hm. unfold shr_fexp, shr.
  assert (Hrec : 0 <= shr_m (shr_record_of_loc m l)).
  { destruct l as [|[| |]]; simpl; done. }
  destruct (fexp prec emax (Zdigits2 m + e) - e) as [|p|p]; simpl; try done.
  by apply iter_pos_shr_1_nonneg.
Qed.

Lemma round_nearest_even_nonneg (m : Z) (l : location) :
  0 <= m -> 0 <= round_nearest_even m l.
Proof.
  intros Hm. unfold round_nearest_even.
  destruct l as [|[| |]]; try done; [destruct (Z.even m)|]; lia.
Qed.

Lemma binary_round_aux_not_nan (prec emax : Z) (sx : bool) (mx ex : Z) (lx : location) :
  0 <= mx -> Float32.is_nan (binary_round_aux prec emax sx mx ex lx) = false.
Proof.
  intros Hm. unfold binary_round_aux.
  pose proof (shr_fexp_nonneg prec emax mx ex lx Hm) as H1.
  destruct (shr_fexp prec emax mx ex lx) as [mrs' e']. simpl in H1.
  pose proof (shr_fexp_nonneg prec emax
                (round_nearest_even (shr_m mrs') (loc_of_shr_record mrs')) e' loc_Exact
                (round_nearest_even_nonneg _ _ H1)) as H2.
  destruct (shr_fexp prec emax _ e' loc_Exact) as [mrs'' e'']. simpl in H2.
  destruct (shr_m mrs'') as [|p|p]; [done| |lia].
  by destruct (e'' <=? emax - prec).
Qed.

Lemma SFdiv_core_binary_nonneg (prec emax m1 e1 m2 e2 : Z) :
  0 <= m1 -> 0 < m2 ->
  0 <= fst (fst (SFdiv_core_binary prec emax m1 e1 m2 e2)).
Proof.
  intros Hm1 Hm2. unfold SFdiv_core_binary.
  set (s := e1 - e2 - Z.min (fexp prec emax (Zdigits2 m1 + e1 - (Zdigits2 m2 + e2))) (e1 - e2)).
  set (m' := match s with Z.pos _ => Z.shiftl m1 s | 0 => m1 | Z.neg _ => 0 end).
  assert (Hm' : 0 <= m').
  { unfold m'. destruct s; [done| |done]. by apply Z.shiftl_nonneg. }
  pose proof (Z.div_pos m' m2 Hm' Hm2) as Hq.
  unfold Z.div in Hq. destruct (Z.div_eucl m' m2) as [q r]. done.
Qed.

(** A finite value divided by a positive one, infinite or not, is not a
    NaN. *)
Lemma div_by_positive_not_nan (x sum : float) :
  Float32.is_finite x = true ->
  Float32.ltb Float32.zero sum = true ->
  Float32.is_nan (Float32.div x sum) = false.
Proof.
  unfold Float32.is_finite, Float32.ltb, Float32.zero, SFltb, SFcompare, Float32.div, SFdiv.
  intros Hx Hsum.
  destruct sum as [s|[|]| |[|] m2 e2]; try discriminate;
    destruct x as [sx|sx| |sx m1 e1]; try discriminate; try done.
  pose proof (SFdiv_core_binary_nonneg Float32.prec Float32.emax (Z.pos m1) e1 (Z.pos m2) e2)
    as Hq.
  destruct (SFdiv_core_binary Float32.prec Float32.emax (Z.pos m1) e1 (Z.pos m2) e2)
    as [[mz ez] lz].
  apply binary_round_aux_not_nan. apply Hq; lia.
Qed.

(** A finite cell of the clipped column comes out as a number, and so
    as one that is at least zero. *)
Lemma normalized_value_finite (sum x : float) :
  Float32.is_finite x = true ->
  Float32.is_nan (normalized_value sum x) = false.
Proof.
  intros Hx. unfold normalized_value.
  destruct (Float32.ltb Float32.zero sum) eqn:Hsum.
  - destruct (Float32.ltb (Float32.div x sum) Float32.lit_1e_16f); [done|].
    by apply div_by_positive_not_nan.
  - by destruct (Float32.ltb Float32.zero Float32.lit_1e_16f).
Qed.

(** ** Regularization and normalization of [Theta] *)

(** What the comparison with [1e-16f] leaves in a cell. *)
Lemma normalized_value_snapped (sum x : float) :
  Float32.ltb (normalized_value sum x) Float32.lit_1e_16f = true ->
  normalized_value sum x = Float32.zero.
Proof.
  unfold normalized_value.
  destruct (Float32.ltb (if Float32.ltb Float32.zero sum then Float32.div x sum
                         else Float32.zero) Float32.lit_1e_16f) eqn:Hlt; [done|].
  intros Hlt'. rewrite Hlt in Hlt'. discriminate.
Qed.

(** A value that is not below [1e-16f] is not below zero, and it is at
    least zero unless it is NaN. *)
Lemma not_below_literal (v : float) :
  Float32.ltb v Float32.lit_1e_16f = false ->
  Float32.ltb v Float32.zero = false /\
  (Float32.is_nan v = false -> Float32.leb Float32.zero v = true).
Proof.
  unfold Float32.ltb, Float32.leb, Float32.lit_1e_16f, Float32.zero, Float32.is_nan,
    SFltb, SFleb, SFcompare.
  destruct v as [s|s| |s m e].
  - done.
  - destruct s; [discriminate | done].
  - split; [done | discriminate].
  - destruct s; [discriminate | done].
Qed.

Lemma normalized_value_not_negative (sum x : float) :
  Float32.ltb (normalized_value sum x) Float32.zero = false /\
  (Float32.is_nan (normalized_value sum x) = false ->
   Float32.leb Float32.zero (normalized_value sum x) = true).
Proof.
  unfold normalized_value.
  destruct (Float32.ltb (if Float32.ltb Float32.zero sum then Float32.div x sum
                         else Float32.zero) Float32.lit_1e_16f) eqn:Hlt; [done|].
  by apply not_below_literal.
Qed.

Lemma normalized_value_no_mass (sum x : float) :
  Float32.ltb Float32.zero sum = false -> normalized_value sum x = Float32.zero.
Proof. unfold normalized_value. intros ->. done. Qed.

(** Writing a column: the cells of the column get the new values, the
    other columns keep theirs. *)
Lemma write_column_get (f : Z -> float) (c : Z) (ks : list Z) (M : DenseMatrix) (k c' : Z) :
  NoDup ks ->
  dense_wf M ->
  (forall k', k' ∈ ks -> 0 <= k' < no_rows M) ->
  0 <= c < no_columns M -> 0 <= k < no_rows M -> 0 <= c' < no_columns M ->
  same_shape M (fold_left (fun M k' => dense_set M k' c (f k')) ks M) /\
  dense_get (fold_left (fun M k' => dense_set M k' c (f k')) ks M) k c' =
  if decide (c' = c /\ k ∈ ks) then f k else dense_get M k c'.
Proof.
  revert M. induction ks as [|k0 ks IH]; intros M Hnd Hwf Hks Hc Hk Hc'; simpl.
  - split; [apply same_shape_refl|].
    destruct (decide (c' = c /\ k ∈ [])) as [[_ Hin]|]; [|done]. by apply elem_of_nil in Hin.
  - apply NoDup_cons in Hnd as [Hk0 Hnd].
    assert (Hk0' : 0 <= k0 < no_rows M) by (apply Hks; left).
    pose proof (dense_set_same_shape M k0 c (f k0)) as Hshape.
    pose proof Hshape as (Hr & Hcol & Hs & Hl).
    destruct (IH (dense_set M k0 c (f k0))) as [Hshape' Hget]; rewrite ?Hr, ?Hcol; try done.
    { by eapply same_shape_wf. }
    { intros k' Hk'. apply Hks. by right. }
    split; [by eapply same_shape_trans|].
    rewrite Hget.
    destruct (decide (c' = c /\ k ∈ ks)) as [[-> Hin]|Hn].
    + destruct (decide (c = c /\ k ∈ k0 :: ks)) as [|Hn']; [done|].
      exfalso. apply Hn'. split; [done | by right].
    + destruct (decide (c' = c /\ k ∈ k0 :: ks)) as [[-> Hin]|Hn'].
      * apply elem_of_cons in Hin as [->|Hin]; [|exfalso; by apply Hn].
        by rewrite dense_get_set_eq.
      * rewrite dense_get_set_ne; try done.
        intros [= -> ->]. apply Hn'. split; [done | left].
Qed.

(** The body of the loop over the items rewrites the column of its item
    from that column alone. *)
Lemma RegularizeAndNormalizeTheta_item_get (inner_iter : Z) (model_config : ModelConfig)
    (schema : InstanceSchema) (Theta : DenseMatrix) (c : Z) (item : Item) (k c' : Z) :
  dense_wf Theta ->
  no_rows Theta = mc_topics_count model_config ->
  0 <= c < no_columns Theta -> 0 <= k < no_rows Theta -> 0 <= c' < no_columns Theta ->
  same_shape Theta
    (RegularizeAndNormalizeTheta_item inner_iter model_config schema Theta c item) /\
  dense_get (RegularizeAndNormalizeTheta_item inner_iter model_config schema Theta c item)
            k c' =
  if decide (c' = c)
  then normalized_value
         (column_sum (mc_topics_count model_config)
            (regularized_column inner_iter model_config schema Theta c item))
         (rget (regularized_column inner_iter model_config schema Theta c item)
               k Float32.zero)
  else dense_get Theta k c'.
Proof.
  intros Hwf Hrows Hc Hk Hc'.
  unfold RegularizeAndNormalizeTheta_item.
  rewrite (fold_left_snoc_map (fun topic_index => dense_get Theta topic_index c)).
  simpl. fold (theta_column Theta (mc_topics_count model_config) c).
  fold (regularized_column inner_iter model_config schema Theta c item).
  set (col := regularized_column inner_iter model_config schema Theta c item).
  destruct (write_column_get
              (fun k' => normalized_value (column_sum (mc_topics_count model_config) col)
                                          (rget col k' Float32.zero))
              c (Zrange (mc_topics_count model_config)) Theta k c') as [Hshape Hget];
    try done.
  { apply NoDup_Zrange. }
  { intros k' Hk'. apply elem_of_Zrange in Hk'. lia. }
  split; [exact Hshape|].
  rewrite Hget.
  destruct (decide (c' = c)) as [->|Hne].
  - destruct (decide (c = c /\ k ∈ Zrange (mc_topics_count model_config))) as [|Hn]; [done|].
    exfalso. apply Hn. split; [done|]. apply elem_of_Zrange. lia.
  - destruct (decide (c' = c /\ k ∈ Zrange (mc_topics_count model_config))) as [[? _]|];
      done.
Qed.

Lemma rget_cons_succ {A : Type} (x : A) (l : list A) (i : Z) (d : A) :
  0 < i -> rget (x :: l) i d = rget l (i - 1) d.
Proof.
  unfold rget. intros Hi.
  destruct (Z.ltb_spec i 0); [lia|]. destruct (Z.ltb_spec (i - 1) 0); [lia|].
  replace (Z.to_nat i) with (S (Z.to_nat (i - 1))) by lia. done.
Qed.

Lemma theta_column_ext (Theta Theta' : DenseMatrix) (topic_size c : Z) :
  (forall k, 0 <= k < topic_size -> dense_get Theta' k c = dense_get Theta k c) ->
  theta_column Theta' topic_size c = theta_column Theta topic_size c.
Proof.
  intros Hget. unfold theta_column. apply map_ext_in. intros k Hk.
  apply Hget. by apply elem_of_Zrange, list_elem_of_In.
Qed.

(** The loop over the items, entered with the counter at [i0]: the
    column of every item it meets is rewritten from the column the
    matrix had on entry. *)
Lemma RegularizeAndNormalizeTheta_loop_get (inner_iter : Z) (model_config : ModelConfig)
    (schema : InstanceSchema) (items : list Item) (i0 : Z) (Theta : DenseMatrix) (k c : Z) :
  dense_wf Theta ->
  no_rows Theta = mc_topics_count model_config ->
  -1 <= i0 -> i0 + rsize items < no_columns Theta ->
  0 <= k < no_rows Theta -> 0 <= c < no_columns Theta ->
  same_shape Theta
    (snd (fold_left
            (fun (st : Z * DenseMatrix) item =>
               (fst st + 1,
                RegularizeAndNormalizeTheta_item inner_iter model_config schema
                  (snd st) (fst st + 1) item))
            items (i0, Theta))) /\
  dense_get
    (snd (fold_left
            (fun (st : Z * DenseMatrix) item =>
               (fst st + 1,
                RegularizeAndNormalizeTheta_item inner_iter model_config schema
                  (snd st) (fst st + 1) item))
            items (i0, Theta))) k c =
  if decide (i0 < c <= i0 + rsize items)
  then normalized_value
         (column_sum (mc_topics_count model_config)
            (regularized_column inner_iter model_config schema Theta c
               (rget items (c - i0 - 1) empty_Item)))
         (rget (regularized_column inner_iter model_config schema Theta c
                  (rget items (c - i0 - 1) empty_Item)) k Float32.zero)
  else dense_get Theta k c.
Proof.
  revert i0 Theta. induction items as [|x items IH]; intros i0 Theta Hwf Hrows Hi0 Hlen Hk Hc.
  - simpl. split; [apply same_shape_refl|].
    destruct (decide (i0 < c <= i0 + rsize [])) as [Hin|]; [|done].
    unfold rsize in Hin. simpl in Hin. lia.
  - simpl.
    assert (Hlen' : i0 + 1 + rsize items < no_columns Theta).
    { unfold rsize in *. simpl length in Hlen. lia. }
    assert (Hc0 : 0 <= i0 + 1 < no_columns Theta) by (unfold rsize in *; lia).
    set (Theta1 := RegularizeAndNormalizeTheta_item inner_iter model_config schema
                     Theta (i0 + 1) x).
    assert (Hstep : forall k' c', 0 <= k' < no_rows Theta -> 0 <= c' < no_columns Theta ->
              same_shape Theta Theta1 /\
              dense_get Theta1 k' c' =
              if decide (c' = i0 + 1)
              then normalized_value
                     (column_sum (mc_topics_count model_config)
                        (regularized_column inner_iter model_config schema Theta (i0 + 1) x))
                     (rget (regularized_column inner_iter model_config schema Theta (i0 + 1) x)
                           k' Float32.zero)
              else dense_get Theta k' c').
    { intros k' c' Hk' Hc'. by apply RegularizeAndNormalizeTheta_item_get. }
    destruct (Hstep k c Hk Hc) as [Hshape Hget1].
    pose proof Hshape as (Hr & Hcol & _ & _).
    destruct (IH (i0 + 1) Theta1) as [Hshape' Hget]; rewrite ?Hr, ?Hcol; try done.
    { by eapply same_shape_wf. }
    { lia. }
    split; [by eapply same_shape_trans|].
    rewrite Hget. clear Hget.
    assert (Hsize : rsize (x :: items) = rsize items + 1 /\ 0 <= rsize items).
    { unfold rsize. simpl length. lia. }
    destruct Hsize as [Hsize Hsize0].
    destruct (decide (i0 + 1 < c <= i0 + 1 + rsize items)) as [Hin|Hnin].
    + destruct (decide (i0 < c <= i0 + rsize (x :: items))) as [|Hn]; [|lia].
      rewrite rget_cons_succ by lia.
      replace (c - i0 - 1 - 1) with (c - (i0 + 1) - 1) by lia.
      unfold regularized_column.
      rewrite (theta_column_ext Theta Theta1); [done|].
      intros k' Hk'. destruct (Hstep k' c) as [_ Hg]; [lia | done |].
      rewrite Hg. destruct (decide (c = i0 + 1)); [lia | done].
    + rewrite Hget1.
      destruct (decide (c = i0 + 1)) as [->|Hne].
      * destruct (decide (i0 < i0 + 1 <= i0 + rsize (x :: items))) as [|Hn]; [|lia].
        replace (i0 + 1 - i0 - 1) with 0 by lia. done.
      * destruct (decide (i0 < c <= i0 + rsize (x :: items))) as [|]; [lia | done].
Qed.

Lemma below_zero_in_range (l : list float) (k : Z) :
  Float32.ltb (rget l k Float32.zero) Float32.zero = true -> 0 <= k < rsize l.
Proof.
  unfold rget, rsize. intros Hlt.
  destruct (Z.ltb_spec k 0); [discriminate Hlt|].
  split; [done|].
  destruct (Z_lt_ge_dec k (Z.of_nat (length l))) as [|Hge]; [done|].
  rewrite nth_overflow in Hlt by lia. discriminate Hlt.
Qed.

Lemma clip_fold_get (ks : list Z) (l : list float) (i : Z) :
  NoDup ks ->
  length (fold_left
            (fun theta_next k =>
               if Float32.ltb (rget theta_next k Float32.zero) Float32.zero
               then rset theta_next k Float32.zero
               else theta_next) ks l) = length l /\
  rget (fold_left
          (fun theta_next k =>
             if Float32.ltb (rget theta_next k Float32.zero) Float32.zero
             then rset theta_next k Float32.zero
             else theta_next) ks l) i Float32.zero =
  if decide (i ∈ ks) then clipped (rget l i Float32.zero) else rget l i Float32.zero.
Proof.
  revert l. induction ks as [|k0 ks IH]; intros l Hnd; simpl.
  - split; [done|]. destruct (decide (i ∈ [])) as [Hin|]; [|done]. by apply elem_of_nil in Hin.
  - apply NoDup_cons in Hnd as [Hk0 Hnd].
    destruct (IH (if Float32.ltb (rget l k0 Float32.zero) Float32.zero
                  then rset l k0 Float32.zero else l) Hnd) as [Hlen Hget].
    split.
    + rewrite Hlen. destruct (Float32.ltb _ _); [apply rset_length | done].
    + rewrite Hget. clear Hlen Hget.
      destruct (decide (i = k0)) as [->|Hne].
      * destruct (decide (k0 ∈ ks)); [done|].
        destruct (decide (k0 ∈ k0 :: ks)) as [|Hn]; [|exfalso; apply Hn; left].
        unfold clipped.
        destruct (Float32.ltb (rget l k0 Float32.zero) Float32.zero) eqn:Hlt; [|done].
        apply rget_rset_eq. by apply below_zero_in_range.
      * assert (Hsame : rget (if Float32.ltb (rget l k0 Float32.zero) Float32.zero
                              then rset l k0 Float32.zero else l) i Float32.zero =
                        rget l i Float32.zero).
        { destruct (Float32.ltb _ _); [|done]. apply rget_rset_ne. congruence. }
        rewrite Hsame.
        destruct (decide (i ∈ ks)) as [Hin|Hnin].
        -- destruct (decide (i ∈ k0 :: ks)) as [|Hn]; [done|]. exfalso. apply Hn. by right.
        -- destruct (decide (i ∈ k0 :: ks)) as [Hin|]; [|done].
           apply elem_of_cons in Hin as [|]; done.
Qed.

(** ** The rounding of binary32 *)

Lemma digits2_pos_bounds (p : positive) :
  2 ^ (Z.pos (digits2_pos p) - 1) <= Z.pos p < 2 ^ Z.pos (digits2_pos p).
Proof.
  induction p as [p IH|p IH|]; cbn [digits2_pos].
  - rewrite Pos2Z.inj_succ, (Pos2Z.inj_xI p).
    replace (Z.succ (Z.pos (digits2_pos p)) - 1) with (Z.succ (Z.pos (digits2_pos p) - 1)) by lia.
    rewrite !Z.pow_succ_r by lia.
    set (lo := 2 ^ (Z.pos (digits2_pos p) - 1)) in *.
    set (hi := 2 ^ Z.pos (digits2_pos p)) in *. clearbody lo hi. lia.
  - rewrite Pos2Z.inj_succ, (Pos2Z.inj_xO p).
    replace (Z.succ (Z.pos (digits2_pos p)) - 1) with (Z.succ (Z.pos (digits2_pos p) - 1)) by lia.
    rewrite !Z.pow_succ_r by lia.
    set (lo := 2 ^ (Z.pos (digits2_pos p) - 1)) in *.
    set (hi := 2 ^ Z.pos (digits2_pos p)) in *. clearbody lo hi. lia.
  - simpl. lia.
Qed.

Lemma Zdigits2_bounds (m : Z) :
  0 < m -> 0 < Zdigits2 m /\ 2 ^ (Zdigits2 m - 1) <= m < 2 ^ Zdigits2 m.
Proof.
  destruct m as [|p|p]; [lia | | lia]. intros _. simpl.
  split; [lia | apply digits2_pos_bounds].
Qed.

Lemma Zdigits2_nonneg (m : Z) : 0 <= Zdigits2 m.
Proof. destruct m; simpl; lia. Qed.

(** A number below [2^k] has at most [k] digits. *)
Lemma Zdigits2_le (m k : Z) : 0 <= m -> 0 <= k -> m < 2 ^ k -> Zdigits2 m <= k.
Proof.
  intros Hm Hk Hlt.
  destruct (Z.eq_dec m 0) as [->|Hne]; [simpl; lia|].
  destruct (Zdigits2_bounds m) as [Hd [Hlo _]]; [lia|].
  destruct (Z_le_gt_dec (Zdigits2 m) k) as [|Hgt]; [done|].
  assert (2 ^ k <= 2 ^ (Zdigits2 m - 1)) by (apply Z.pow_le_mono_r; lia).
  lia.
Qed.

(** A number that reaches [2^k] has more than [k] digits. *)
Lemma Zdigits2_gt (m k : Z) : 0 <= k -> 2 ^ k <= m -> k < Zdigits2 m.
Proof.
  intros Hk Hle.
  assert (0 < 2 ^ k) by (apply Z.pow_pos_nonneg; lia).
  destruct (Zdigits2_bounds m) as [Hd [_ Hhi]]; [lia|].
  destruct (Z_lt_ge_dec k (Zdigits2 m)) as [|Hge]; [done|].
  assert (2 ^ Zdigits2 m <= 2 ^ k) by (apply Z.pow_le_mono_r; lia).
  lia.
Qed.

Lemma shr_1_halves (m : Z) (r s : bool) :
  0 <= m ->
  shr_1 (Build_shr_record m r s) = Build_shr_record (m / 2) (Z.odd m) (r || s).
Proof.
  intros Hm. rewrite <- Z.div2_div.
  destruct m as [|[p|p|]|p]; done.
Qed.

Lemma shr_1_represents (mrs : shr_record) (N D : Z) :
  represents mrs N D -> represents (shr_1 mrs) N (D * 2).
Proof.
  destruct mrs as [m r s]. unfold represents. cbn [shr_m shr_r shr_s].
  intros (HD & HN & Hm & Hr & Hs).
  assert (Hm0 : 0 <= m) by (subst m; apply Z.div_pos; lia).
  rewrite shr_1_halves by done. cbn [shr_m shr_r shr_s].
  pose proof (Z.mod_pos_bound N D HD) as Hrem.
  pose proof (Z.div_mod N D ltac:(lia)) as Hdm.
  assert (Hmod : N mod (D * 2) = N mod D + D * (m mod 2)).
  { subst m. apply Z.rem_mul_r; lia. }
  assert (Hdiv : N / (D * 2) = m / 2).
  { subst m. by rewrite Z.div_div by lia. }
  rewrite Hmod, Hdiv.
  pose proof (Z.mod_pos_bound m 2 ltac:(lia)) as Hbit.
  rewrite Zodd_mod.
  split; [lia|]. split; [done|]. split; [done|].
  subst r s.
  destruct (Z.eqb_spec (m mod 2) 1) as [H1|H1].
  - rewrite H1. split.
    + symmetry. apply Z.leb_le. lia.
    + destruct (Z.leb_spec D (2 * (N mod D))); destruct (Z.eqb_spec (N mod D) 0);
        destruct (Z.eqb_spec (2 * (N mod D)) D);
        destruct (Z.eqb_spec (N mod D + D * 1) 0);
        destruct (Z.eqb_spec (2 * (N mod D + D * 1)) (D * 2)); simpl; try done; lia.
  - assert (H0 : m mod 2 = 0) by lia. rewrite H0. split.
    + symmetry. apply Z.leb_gt. lia.
    + destruct (Z.leb_spec D (2 * (N mod D))); destruct (Z.eqb_spec (N mod D) 0);
        destruct (Z.eqb_spec (2 * (N mod D)) D);
        destruct (Z.eqb_spec (N mod D + D * 0) 0);
        destruct (Z.eqb_spec (2 * (N mod D + D * 0)) (D * 2)); simpl; try done; lia.
Qed.

Lemma iter_pos_shr_1_represents (p : positive) (mrs : shr_record) (N D : Z) :
  represents mrs N D ->
  represents (SpecFloat.iter_pos shr_1 p mrs) N (D * 2 ^ Z.pos p).
Proof.
  revert mrs D. induction p as [p IH|p IH|]; intros mrs D Hrep; cbn [SpecFloat.iter_pos].
  - apply shr_1_represents, IH, IH in Hrep.
    replace (D * 2 ^ Z.pos p~1) with (D * 2 * 2 ^ Z.pos p * 2 ^ Z.pos p); [done|].
    rewrite (Pos2Z.inj_xI p).
    replace (2 * Z.pos p + 1) with (1 + Z.pos p + Z.pos p) by lia.
    rewrite !Z.pow_add_r by lia. rewrite Z.pow_1_r. ring.
  - apply IH, IH in Hrep.
    replace (D * 2 ^ Z.pos p~0) with (D * 2 ^ Z.pos p * 2 ^ Z.pos p); [done|].
    rewrite (Pos2Z.inj_xO p). replace (2 * Z.pos p) with (Z.pos p + Z.pos p) by lia.
    rewrite Z.pow_add_r by lia. ring.
  - apply shr_1_represents in Hrep. by rewrite Z.pow_1_r.
Qed.

Lemma shr_represents (mrs : shr_record) (N D e n : Z) :
  represents mrs N D -> 0 <= n ->
  snd (shr mrs e n) = e + n /\ represents (fst (shr mrs e n)) N (D * 2 ^ n).
Proof.
  intros Hrep Hn. destruct n as [|p|p]; [| |lia]; simpl.
  - rewrite Z.mul_1_r. split; [lia | done].
  - split; [done|]. by apply iter_pos_shr_1_represents.
Qed.

Lemma shr_record_of_loc_exact (m : Z) :
  0 <= m -> represents (shr_record_of_loc m loc_Exact) m 1.
Proof.
  intros Hm. unfold represents. simpl.
  rewrite Z.div_1_r, Z.mod_1_r. done.
Qed.

(** Rounding to nearest: the result is within half a unit. *)
Lemma round_nearest_even_represents (mrs : shr_record) (N D : Z) :
  represents mrs N D ->
  - D <= 2 * (round_nearest_even (shr_m mrs) (loc_of_shr_record mrs) * D - N) <= D /\
  N / D <= round_nearest_even (shr_m mrs) (loc_of_shr_record mrs) <= N / D + 1.
Proof.
  destruct mrs as [m r s]. unfold represents. cbn [shr_m shr_r shr_s].
  intros (HD & HN & Hm & Hr & Hs).
  pose proof (Z.mod_pos_bound N D HD) as Hrem.
  pose proof (Z.div_mod N D ltac:(lia)) as Hdm.
  rewrite <- Hm in *.
  set (rem := N mod D) in *. clearbody rem.
  assert (HN' : N = D * m + rem) by lia. clear Hdm.
  destruct (Z.leb_spec D (2 * rem)); destruct (Z.eqb_spec rem 0);
    destruct (Z.eqb_spec (2 * rem) D); subst r s; simpl;
    try destruct (Z.even m); nia.
Qed.

Lemma fexp32 (e : Z) : fexp 24 128 e = Z.max (e - 24) (-149).
Proof. reflexivity. Qed.

Lemma shr_nonpos (mrs : shr_record) (e n : Z) : n <= 0 -> shr mrs e n = (mrs, e).
Proof. destruct n; [done | lia | done]. Qed.

(** [binary_round_aux] on a quotient [N / D] at exponent [ex]: the
    mantissa kept is [N / D] rounded to the nearest at the exponent of
    the format, and the result is a zero, a number with at most 24 digits
    or, past the largest exponent, an infinity. *)
Lemma binary_round_aux_spec (sx : bool) (mx ex : Z) (lx : location) (N D : Z) :
  represents (shr_record_of_loc mx lx) N D ->
  ex <= fexp 24 128 (Zdigits2 mx + ex) ->
  exists m1,
    - (D * 2 ^ (fexp 24 128 (Zdigits2 mx + ex) - ex))
      <= 2 * (m1 * (D * 2 ^ (fexp 24 128 (Zdigits2 mx + ex) - ex)) - N)
      <= D * 2 ^ (fexp 24 128 (Zdigits2 mx + ex) - ex) /\
    ((m1 = 0 /\ binary_round_aux 24 128 sx mx ex lx = S754_zero sx) \/
     (exists m e,
        binary_round_aux 24 128 sx mx ex lx = S754_finite sx m e /\
        fexp 24 128 (Zdigits2 mx + ex) <= e <= fexp 24 128 (Zdigits2 mx + ex) + 1 /\
        e <= 104 /\
        Z.pos m * 2 ^ (e - fexp 24 128 (Zdigits2 mx + ex)) = m1 /\
        Z.pos m < 2 ^ 24) \/
     (binary_round_aux 24 128 sx mx ex lx = S754_infinity sx /\
      104 <= fexp 24 128 (Zdigits2 mx + ex) /\ 0 < m1)).
Proof.
  intros Hrep Hn.
  assert (Hmx : mx = N / D).
  { destruct Hrep as (_ & _ & Hm & _). by destruct lx as [|[| |]]. }
  assert (HD : 0 < D) by apply Hrep.
  assert (HN : 0 <= N) by apply Hrep.
  assert (Hmx0 : 0 <= mx) by (subst mx; apply Z.div_pos; lia).
  unfold binary_round_aux, shr_fexp.
  set (e1 := fexp 24 128 (Zdigits2 mx + ex)) in *.
  assert (He1 : e1 = Z.max (Zdigits2 mx + ex - 24) (-149)) by apply fexp32.
  set (n := e1 - ex) in *.
  assert (Hn0 : 0 <= n) by lia.
  destruct (shr_represents _ N D ex n Hrep Hn0) as [He' Hrep'].
  destruct (shr (shr_record_of_loc mx lx) ex n) as [mrs' e']. cbn [fst snd] in He', Hrep'.
  replace e' with e1 by lia. clear He' e'.
  destruct (round_nearest_even_represents mrs' N (D * 2 ^ n) Hrep') as [Herr Hbnd].
  set (m1 := round_nearest_even (shr_m mrs') (loc_of_shr_record mrs')) in *.
  clearbody m1. clear Hrep' mrs'.
  exists m1. split; [exact Herr|].
  assert (Hpow : 0 < 2 ^ n) by (apply Z.pow_pos_nonneg; lia).
  assert (Hm0 : N / (D * 2 ^ n) = mx / 2 ^ n).
  { subst mx. by rewrite Z.div_div by lia. }
  assert (Hm1 : 0 <= m1).
  { assert (0 <= N / (D * 2 ^ n)) by (apply Z.div_pos; nia). lia. }
  assert (Hdig : mx < 2 ^ Zdigits2 mx).
  { destruct (Z.eq_dec mx 0) as [->|]; [done|]. apply Zdigits2_bounds. lia. }
  pose proof (Zdigits2_nonneg mx) as Hd0.
  assert (Htop : m1 <= 2 ^ 24).
  { assert (mx / 2 ^ n < 2 ^ 24); [|lia].
    apply Z.div_lt_upper_bound; [done|].
    rewrite <- Z.pow_add_r by lia.
    assert (2 ^ Zdigits2 mx <= 2 ^ (n + 24)) by (apply Z.pow_le_mono_r; lia).
    lia. }
  change (2 ^ 24) with 16777216 in Htop.
  destruct (Z.eq_dec m1 0) as [->|Hne0].
  { left. split; [done|].
    rewrite shr_nonpos by (rewrite fexp32; simpl; lia). done. }
  right.
  destruct (Z.eq_dec m1 16777216) as [->|Hne].
  { change (Zdigits2 16777216) with 25.
    replace (fexp 24 128 (25 + e1) - e1) with 1 by (rewrite fexp32; lia).
    cbn [shr shr_record_of_loc SpecFloat.iter_pos shr_1 shr_m].
    destruct (Z.leb_spec (e1 + 1) (128 - 24)) as [Hle|Hgt].
    - left. exists 8388608%positive, (e1 + 1).
      split; [done|]. split; [lia|]. split; [lia|].
      replace (e1 + 1 - e1) with 1 by lia. done.
    - right. split; [done|]. lia. }
  assert (Hd1 : Zdigits2 m1 <= 24) by (apply Zdigits2_le; [lia | lia | change (2 ^ 24) with 16777216; lia]).
  rewrite shr_nonpos by (rewrite fexp32; lia).
  cbn [shr_record_of_loc shr_m].
  destruct m1 as [|p|p]; [done | | lia].
  destruct (Z.leb_spec e1 (128 - 24)) as [Hle|Hgt].
  - left. exists p, e1. split; [done|]. split; [lia|]. split; [lia|].
    rewrite Z.sub_diag. change (2 ^ 24) with 16777216. lia.
  - right. split; [done|]. lia.
Qed.

Lemma pos_iter_xO (mx d : positive) :
  Z.pos (Pos.iter xO mx d) = Z.pos mx * 2 ^ Z.pos d /\
  Z.pos (digits2_pos (Pos.iter xO mx d)) = Z.pos (digits2_pos mx) + Z.pos d.
Proof.
  induction d as [|d [IHv IHd]] using Pos.peano_ind.
  - simpl. split; lia.
  - rewrite Pos.iter_succ. cbn [digits2_pos].
    rewrite (Pos2Z.inj_xO (Pos.iter xO mx d)), !Pos2Z.inj_succ, IHv, IHd.
    rewrite Z.pow_succ_r by lia. split; lia.
Qed.

Lemma shl_align_spec (mx : positive) (ex ex' : Z) :
  snd (shl_align mx ex ex') = Z.min ex ex' /\
  Z.pos (fst (shl_align mx ex ex')) = Z.pos mx * 2 ^ (ex - Z.min ex ex') /\
  Z.pos (digits2_pos (fst (shl_align mx ex ex'))) + Z.min ex ex' =
    Z.pos (digits2_pos mx) + ex.
Proof.
  unfold shl_align. destruct (ex' - ex) as [|d|d] eqn:Hd; cbn [fst snd].
  - replace (Z.min ex ex') with ex by lia. rewrite Z.sub_diag. simpl. lia.
  - replace (Z.min ex ex') with ex by lia. rewrite Z.sub_diag. simpl. lia.
  - replace (Z.min ex ex') with ex' by lia.
    destruct (pos_iter_xO mx d) as [-> ->].
    replace (ex - ex') with (Z.pos d) by lia. lia.
Qed.

(** The rounding of a positive number [M * 2^e]: unless it overflows,
    the result is within [2^-24] of it, relatively, and exact below the
    normal range. *)
Lemma binary_round_pos_spec (M : positive) (e : Z) :
  -149 <= e ->
  binary_round 24 128 false M e = S754_infinity false \/
  exists m' e',
    binary_round 24 128 false M e = S754_finite false m' e' /\
    Z.pos m' < 2 ^ 24 /\ -149 <= e' /\
    2 ^ 24 * Z.abs (Z.pos m' * 2 ^ (e' + 149) - Z.pos M * 2 ^ (e + 149))
      <= Z.pos M * 2 ^ (e + 149).
Proof.
  intros He. unfold binary_round.
  destruct (shl_align_spec M e (fexp 24 128 (Z.pos (digits2_pos M) + e)))
    as (Hez & Hmz & Hdz).
  destruct (shl_align M e (fexp 24 128 (Z.pos (digits2_pos M) + e))) as [mz ez].
  cbn [fst snd] in Hez, Hmz, Hdz. rewrite <- Hez in Hmz, Hdz.
  pose proof (fexp32 (Z.pos (digits2_pos M) + e)) as Hf.
  assert (Hrep : represents (shr_record_of_loc (Z.pos mz) loc_Exact) (Z.pos mz) 1)
    by (apply shr_record_of_loc_exact; lia).
  assert (Hdigits : Zdigits2 (Z.pos mz) + ez = Z.pos (digits2_pos M) + e) by (simpl; lia).
  destruct (binary_round_aux_spec false (Z.pos mz) ez loc_Exact (Z.pos mz) 1 Hrep)
    as (m1 & Herr & Hres).
  { rewrite Hdigits. lia. }
  rewrite Hdigits in Herr, Hres.
  set (e1 := fexp 24 128 (Z.pos (digits2_pos M) + e)) in *.
  set (n := e1 - ez) in *.
  assert (Hn : 0 <= n) by lia.
  assert (Hez0 : -149 <= ez) by lia.
  rewrite !Z.mul_1_l in Herr.
  assert (Hpow : 0 < 2 ^ n) by (apply Z.pow_pos_nonneg; lia).
  (* the half unit is at most [2^-24] of the number, or nothing is lost *)
  assert (Hulp : 2 ^ n * 2 ^ 23 <= Z.pos mz \/ n = 0).
  { destruct (Z_le_gt_dec (-149) (Z.pos (digits2_pos M) + e - 24)) as [Hnormal|Hsub].
    - left. destruct (digits2_pos_bounds mz) as [Hlo _].
      replace (Z.pos (digits2_pos mz) - 1) with (n + 23) in Hlo by lia.
      rewrite Z.pow_add_r in Hlo by lia. done.
    - right. lia. }
  assert (Hclose : 2 ^ 24 * Z.abs (m1 * 2 ^ n - Z.pos mz) <= Z.pos mz).
  { change (2 ^ 24) with (2 * 2 ^ 23). destruct Hulp as [Hulp| ->].
    - set (Q := 2 ^ n) in *. clearbody Q. set (T := 2 ^ 23) in *.
      assert (0 < T) by done. clearbody T. nia.
    - simpl in *. lia. }
  set (P := 2 ^ (ez + 149)).
  assert (HP : 0 < P) by (apply Z.pow_pos_nonneg; lia).
  assert (HM : Z.pos M * 2 ^ (e + 149) = Z.pos mz * P).
  { rewrite Hmz. unfold P. replace (e + 149) with (e - ez + (ez + 149)) by lia.
    rewrite Z.pow_add_r by lia. ring. }
  destruct Hres as [[-> _]|[(m' & e' & Hr & He' & _ & Hm' & Hsmall)|[Hr _]]].
  - exfalso. rewrite Z.mul_0_l in Hclose. change (2 ^ 24) with 16777216 in Hclose. lia.
  - right. exists m', e'. split; [exact Hr|]. split; [done|]. split; [lia|].
    rewrite HM.
    assert (Hres : Z.pos m' * 2 ^ (e' + 149) = m1 * 2 ^ n * P).
    { rewrite <- Hm'. unfold P, n.
      replace (e' + 149) with (e' - e1 + ((e1 - ez) + (ez + 149))) by lia.
      rewrite (Z.pow_add_r 2 (e' - e1)) by lia.
      rewrite (Z.pow_add_r 2 (e1 - ez)) by lia. ring. }
    rewrite Hres.
    replace (m1 * 2 ^ n * P - Z.pos mz * P) with ((m1 * 2 ^ n - Z.pos mz) * P) by ring.
    rewrite Z.abs_mul, (Z.abs_eq P) by lia.
    rewrite Z.mul_assoc. apply Z.mul_le_mono_nonneg_r; [lia | done].
  - by left.
Qed.

(** The sum of two non-negative binary32 numbers: unless it overflows,
    it is within [2^-24] of the exact sum, relatively. *)
Lemma add_nonneg_error (a b : float) :
  nonneg_binary32 a -> nonneg_binary32 b ->
  Float32.add a b = S754_infinity false \/
  (nonneg_binary32 (Float32.add a b) /\
   2 ^ 24 * Z.abs (scaled (Float32.add a b) - (scaled a + scaled b))
     <= scaled a + scaled b).
Proof.
  unfold Float32.add, Float32.prec, Float32.emax.
  destruct a as [sa|sa| |[|] ma ea]; try done; destruct b as [sb|sb| |[|] mb eb]; try done;
    intros Ha Hb.
  - right. destruct sa, sb; done.
  - right. cbn [SFadd scaled]. split; [done|].
    replace (_ - _) with 0 by lia. simpl. lia.
  - right. cbn [SFadd scaled]. split; [done|].
    replace (_ - _) with 0 by lia. simpl. lia.
  - cbn [nonneg_binary32] in Ha, Hb. destruct Ha as [Hma Hea], Hb as [Hmb Heb].
    cbn [SFadd cond_Zopp].
    destruct (shl_align_spec ma ea (Z.min ea eb)) as (_ & Hza & _).
    destruct (shl_align_spec mb eb (Z.min ea eb)) as (_ & Hzb & _).
    replace (Z.min ea (Z.min ea eb)) with (Z.min ea eb) in Hza by lia.
    replace (Z.min eb (Z.min ea eb)) with (Z.min ea eb) in Hzb by lia.
    set (ez := Z.min ea eb) in *.
    set (ma' := fst (shl_align ma ea ez)) in *.
    set (mb' := fst (shl_align mb eb ez)) in *.
    clearbody ma' mb'.
    change (Z.pos ma' + Z.pos mb') with (Z.pos (ma' + mb')).
    cbn [binary_normalize].
    assert (Hsum : Z.pos (ma' + mb') * 2 ^ (ez + 149) =
                   scaled (S754_finite false ma ea) + scaled (S754_finite false mb eb)).
    { cbn [scaled]. rewrite Pos2Z.inj_add, Hza, Hzb.
      assert (Hez : ez <= ea /\ ez <= eb /\ -149 <= ez) by (unfold ez; lia).
      replace (ea + 149) with (ea - ez + (ez + 149)) by lia.
      replace (eb + 149) with (eb - ez + (ez + 149)) by lia.
      rewrite (Z.pow_add_r 2 (ea - ez) (ez + 149)) by lia.
      rewrite (Z.pow_add_r 2 (eb - ez) (ez + 149)) by lia. ring. }
    destruct (binary_round_pos_spec (ma' + mb') ez) as [Hinf|(m' & e' & Hr & Hm' & He' & Herr)];
      [lia | by left |].
    right. rewrite Hr. split; [done|].
    cbn [scaled] in *. rewrite Z.mul_1_l. rewrite <- Hsum. exact Herr.
Qed.

Lemma scaled_nonneg (x : float) : nonneg_binary32 x -> 0 <= scaled x.
Proof.
  destruct x as [s|s| |[|] m e]; try done. intros [_ He]. cbn [scaled].
  assert (0 < 2 ^ (e + 149)) by (apply Z.pow_pos_nonneg; lia). lia.
Qed.

Lemma scaled_sum_nonneg (xs : list float) :
  Forall nonneg_binary32 xs -> 0 <= scaled_sum xs.
Proof.
  induction 1 as [|x xs Hx _ IH]; cbn [scaled_sum fold_right]; [done|].
  apply scaled_nonneg in Hx. unfold scaled_sum in IH. lia.
Qed.

Lemma nonneg_binary32_finite (x : float) : nonneg_binary32 x -> Float32.is_finite x = true.
Proof. by destruct x as [s|s| |[|] m e]. Qed.

(** Once the running sum has overflowed it stays infinite. *)
Lemma fold_add_infinity (xs : list float) :
  Forall nonneg_binary32 xs ->
  fold_left Float32.add xs (S754_infinity false) = S754_infinity false.
Proof.
  induction 1 as [|x xs Hx _ IH]; cbn [fold_left]; [done|].
  replace (Float32.add (S754_infinity false) x) with (S754_infinity false); [done|].
  by destruct x as [s|s| |[|] m e].
Qed.

(** The running sum of [n] non-negative numbers in single precision:
    unless it overflows, it is within [9 n / 2^27] of the exact sum,
    relatively. *)
Lemma fold_add_error (xs : list float) (p : float) :
  Forall nonneg_binary32 xs -> nonneg_binary32 p ->
  Z.of_nat (length xs) <= 2 ^ 20 ->
  Float32.is_finite (fold_left Float32.add xs p) = true ->
  nonneg_binary32 (fold_left Float32.add xs p) /\
  2 ^ 27 * Z.abs (scaled (fold_left Float32.add xs p) - (scaled p + scaled_sum xs))
    <= 9 * Z.of_nat (length xs) * (scaled p + scaled_sum xs).
Proof.
  intros Hxs. revert p. induction Hxs as [|x xs Hx Hxs IH]; intros p Hp Hlen Hfin.
  - cbn [fold_left scaled_sum fold_right length]. split; [done|].
    replace (scaled p - (scaled p + 0)) with 0 by lia. simpl. lia.
  - cbn [fold_left] in *. cbn [length] in Hlen.
    destruct (add_nonneg_error p x Hp Hx) as [Hinf|[Hp' Herr1]].
    { rewrite Hinf, fold_add_infinity in Hfin by done. discriminate. }
    destruct (IH (Float32.add p x) Hp') as [Hres Herr2]; [lia | done |].
    split; [done|].
    cbn [scaled_sum fold_right length]. fold (scaled_sum xs).
    pose proof (scaled_nonneg p Hp) as Hp0.
    pose proof (scaled_nonneg x Hx) as Hx0.
    pose proof (scaled_sum_nonneg xs Hxs) as HR0.
    set (s := scaled (fold_left Float32.add xs (Float32.add p x))) in *.
    set (p1 := scaled (Float32.add p x)) in *.
    set (R := scaled_sum xs) in *.
    set (P := scaled p + scaled x) in *.
    replace (scaled p + (scaled x + R)) with (P + R) by (unfold P; lia).
    assert (HP0 : 0 <= P) by (unfold P; lia).
    clearbody s p1 R P.
    set (n := Z.of_nat (length xs)) in *.
    assert (Hn : 0 <= n) by (unfold n; lia).
    assert (Hn' : n + 1 <= 2 ^ 20) by (unfold n; lia).
    replace (Z.of_nat (S (length xs))) with (n + 1) by (unfold n; lia).
    clearbody n.
    change (2 ^ 20) with 1048576 in Hn'.
    change (2 ^ 24) with 16777216 in Herr1.
    change (2 ^ 27) with 134217728 in *.
    set (e1 := Z.abs (p1 - P)) in *.
    set (e2 := Z.abs (s - (p1 + R))) in *.
    assert (He1 : - e1 <= p1 - P <= e1) by (unfold e1; lia).
    assert (He2 : - e2 <= s - (p1 + R) <= e2) by (unfold e2; lia).
    assert (He10 : 0 <= e1) by (unfold e1; lia).
    clearbody e1 e2.
    assert (Habs : Z.abs (s - (P + R)) <= e1 + e2) by lia.
    assert (K1 : 16777216 * (n * e1) <= n * P) by nia.
    assert (K2 : n * p1 <= n * P + n * e1) by nia.
    assert (K3 : 0 <= n * R) by nia.
    assert (K4 : 0 <= n * P) by nia.
    nia.
Qed.

Lemma new_location_represents (D r q N : Z) :
  0 < D -> 0 <= r < D -> 0 <= q -> N = D * q + r ->
  represents (shr_record_of_loc q (new_location D r)) N D.
Proof.
  intros HD Hr Hq HN.
  assert (Hdiv : N / D = q) by (symmetry; apply (Z.div_unique_pos N D q r); lia).
  assert (Hmod : N mod D = r) by (symmetry; apply (Z.mod_unique_pos N D q r); lia).
  unfold represents. rewrite Hdiv, Hmod.
  split; [done|]. split; [nia|].
  unfold new_location, new_location_even, new_location_odd.
  assert (Hparity : Z.even D = true \/ D mod 2 = 1).
  { destruct (Z.even D) eqn:Heven; [by left | right].
    rewrite Zeven_mod in Heven. pose proof (Z.mod_pos_bound D 2 ltac:(lia)).
    destruct (Z.eqb_spec (D mod 2) 0); [discriminate | lia]. }
  pose proof (Z.div_mod D 2 ltac:(lia)) as Hhalf.
  destruct (Z.even D); destruct (Z.eqb_spec r 0) as [Hr0|Hr0];
    try destruct (Z.compare_spec (2 * r) D);
    try destruct (Z.compare_spec (2 * r + 1) D);
    cbn [shr_record_of_loc shr_m shr_r shr_s];
    (split; [done|]);
    destruct (Z.leb_spec D (2 * r)); destruct (Z.eqb_spec (2 * r) D);
    simpl; try done; try lia; destruct Hparity; try discriminate; exfalso; lia.
Qed.

Lemma SFdiv_core_binary_spec (mx ms : positive) (ex es : Z) :
  let e' := Z.min (fexp 24 128 (Z.pos (digits2_pos mx) + ex - (Z.pos (digits2_pos ms) + es)))
                  (ex - es) in
  exists q r,
    SFdiv_core_binary 24 128 (Z.pos mx) ex (Z.pos ms) es =
      (q, e', new_location (Z.pos ms) r) /\
    Z.pos mx * 2 ^ (ex - es - e') = Z.pos ms * q + r /\
    0 <= r < Z.pos ms /\ 0 <= q.
Proof.
  intros e'. unfold SFdiv_core_binary. cbn [Zdigits2]. fold e'.
  assert (Hsh : 0 <= ex - es - e') by (unfold e'; lia).
  set (sh := ex - es - e') in *.
  set (m' := match sh with
             | 0 => Z.pos mx
             | Z.pos _ => Z.shiftl (Z.pos mx) sh
             | Z.neg _ => 0
             end).
  assert (Hm' : m' = Z.pos mx * 2 ^ sh).
  { unfold m'. destruct sh as [|p|p] eqn:Hp; [simpl; lia | | lia].
    by rewrite Z.shiftl_mul_pow2 by lia. }
  assert (Hpow : 0 < 2 ^ sh) by (apply Z.pow_pos_nonneg; lia).
  pose proof (Z_div_mod m' (Z.pos ms) ltac:(lia)) as Hdm.
  destruct (Z.div_eucl m' (Z.pos ms)) as [q r]. destruct Hdm as [Heq Hr].
  exists q, r. split; [done|]. split; [lia|]. split; [lia|].
  destruct (Z_lt_ge_dec q 0) as [Hneg|]; [|lia].
  pose proof (Z.mul_le_mono_nonneg_l q (-1) (Z.pos ms) ltac:(lia) ltac:(lia)).
  assert (0 <= m') by lia. lia.
Qed.

(** The quotient of two positive binary32 numbers of ratio at most 2:
    it does not overflow, and it is within [2^-24] of the exact
    quotient, relatively, or, below the normal range, within half of
    [2^-149]. *)
Lemma div_pos_error (mx ms : positive) (ex es : Z) :
  Z.pos mx < 2 ^ 24 -> -149 <= ex -> Z.pos ms < 2 ^ 24 -> -149 <= es ->
  scaled (S754_finite false mx ex) <= 2 * scaled (S754_finite false ms es) ->
  let q := Float32.div (S754_finite false mx ex) (S754_finite false ms es) in
  (2 ^ 24 * Z.abs (scaled q * scaled (S754_finite false ms es)
                   - scaled (S754_finite false mx ex) * 2 ^ 149)
     <= scaled (S754_finite false mx ex) * 2 ^ 149 /\
   (q = S754_zero false \/
    exists m e, q = S754_finite false m e /\ Z.pos m < 2 ^ 24 /\ -149 <= e)) \/
  (2 * Z.abs (scaled q * scaled (S754_finite false ms es)
              - scaled (S754_finite false mx ex) * 2 ^ 149)
     <= scaled (S754_finite false ms es) /\
   (q = S754_zero false \/
    exists m e, q = S754_finite false m e /\ Z.pos m < 2 ^ 24 /\ -149 <= e <= -148)).
Proof.
  intros Hmx Hex Hms Hes Hratio q. unfold q, Float32.div, Float32.prec, Float32.emax.
  cbn [SFdiv xorb]. cbn [scaled] in *. rewrite !Z.mul_1_l in *.
  destruct (SFdiv_core_binary_spec mx ms ex es) as (q0 & r & Hcore & HN & Hr & Hq0).
  rewrite Hcore. clear Hcore.
  set (d1 := Z.pos (digits2_pos mx)) in *.
  set (d2 := Z.pos (digits2_pos ms)) in *.
  pose proof (digits2_pos_bounds mx) as [Hmx_lo Hmx_hi]. fold d1 in Hmx_lo, Hmx_hi.
  pose proof (digits2_pos_bounds ms) as [Hms_lo Hms_hi]. fold d2 in Hms_lo, Hms_hi.
  assert (Hd1 : 0 < d1) by (unfold d1; lia).
  assert (Hd2 : 0 < d2) by (unfold d2; lia).
  pose proof (fexp32 (d1 + ex - (d2 + es))) as Hfd.
  set (e' := Z.min (fexp 24 128 (d1 + ex - (d2 + es))) (ex - es)) in *.
  assert (He'1 : e' <= fexp 24 128 (d1 + ex - (d2 + es))) by (unfold e'; lia).
  assert (He'2 : e' <= ex - es) by (unfold e'; lia).
  assert (He'3 : -149 <= e' \/ e' = ex - es) by (unfold e'; lia).
  clearbody e'.
  set (sh := ex - es - e') in *.
  assert (Hsh : 0 <= sh) by (unfold sh; lia).
  set (N := Z.pos mx * 2 ^ sh) in *.
  assert (Hpsh : 0 < 2 ^ sh) by (apply Z.pow_pos_nonneg; lia).
  (* the ratio is at most 2 *)
  assert (Hdelta : d1 + ex - (d2 + es) <= 1).
  { assert (Hlt : 2 ^ (d1 - 1 + (ex + 149)) < 2 ^ (1 + d2 + (es + 149))).
    { rewrite (Z.pow_add_r 2 (d1 - 1)), (Z.pow_add_r 2 (1 + d2)), (Z.pow_add_r 2 1) by lia.
      rewrite Z.pow_1_r.
      assert (HE1 : 0 < 2 ^ (ex + 149)) by (apply Z.pow_pos_nonneg; lia).
      assert (HE2 : 0 < 2 ^ (es + 149)) by (apply Z.pow_pos_nonneg; lia).
      pose proof (Z.mul_le_mono_nonneg_r _ _ (2 ^ (ex + 149)) ltac:(lia) Hmx_lo).
      pose proof (proj1 (Z.mul_lt_mono_pos_r (2 ^ (es + 149)) _ _ HE2) Hms_hi).
      lia. }
    apply Z.pow_lt_mono_r_iff in Hlt; lia. }
  (* the digits of the integer quotient *)
  pose proof (Zdigits2_nonneg q0) as Hdq0.
  assert (HN_lo : 2 ^ (d1 - 1) * 2 ^ sh <= N)
    by (unfold N; apply Z.mul_le_mono_nonneg_r; lia).
  assert (HN_hi : N < 2 ^ d1 * 2 ^ sh)
    by (unfold N; apply Z.mul_lt_mono_pos_r; lia).
  assert (Hdq_lo : d1 + sh - d2 <= Zdigits2 q0).
  { destruct (Z_le_gt_dec (d1 + sh - d2) 0) as [|Hpos]; [lia|].
    assert (2 ^ (d1 + sh - d2 - 1) <= q0); [|apply Zdigits2_gt in H; lia].
    assert (Hsplit : 2 ^ (d1 - 1) * 2 ^ sh = 2 ^ (d1 + sh - d2 - 1) * 2 ^ d2).
    { rewrite <- !Z.pow_add_r by lia. f_equal. lia. }
    assert (Hk : 0 < 2 ^ (d1 + sh - d2 - 1)) by (apply Z.pow_pos_nonneg; lia).
    destruct (Z_le_gt_dec (2 ^ (d1 + sh - d2 - 1)) q0) as [|Hsmall]; [done|].
    pose proof (Z.mul_le_mono_nonneg_l (q0 + 1) (2 ^ (d1 + sh - d2 - 1)) (Z.pos ms)
                  ltac:(lia) ltac:(lia)).
    pose proof (proj1 (Z.mul_lt_mono_pos_l (2 ^ (d1 + sh - d2 - 1)) _ _ Hk) Hms_hi).
    lia. }
  assert (Hdq_hi : Zdigits2 q0 <= Z.max 0 (d1 + sh - d2 + 1)).
  { destruct (Z_le_gt_dec 0 (d1 + sh - d2 + 1)) as [Hk|Hk].
    - rewrite Z.max_r by lia. apply Zdigits2_le; [done | done |].
      assert (Hsplit : 2 ^ d1 * 2 ^ sh = 2 ^ (d1 + sh - d2 + 1) * 2 ^ (d2 - 1)).
      { rewrite <- !Z.pow_add_r by lia. f_equal. lia. }
      assert (Hk' : 0 < 2 ^ (d2 - 1)) by (apply Z.pow_pos_nonneg; lia).
      destruct (Z_lt_ge_dec q0 (2 ^ (d1 + sh - d2 + 1))) as [|Hbig]; [done|].
      pose proof (Z.mul_le_mono_nonneg_r _ _ (2 ^ (d2 - 1)) ltac:(lia) (Z.ge_le _ _ Hbig)).
      pose proof (Z.mul_le_mono_nonneg_r _ _ q0 Hq0 Hms_lo).
      lia.
    - rewrite Z.max_l by lia.
      assert (q0 = 0); [|subst q0; done].
      assert (Hle : 2 ^ d1 * 2 ^ sh <= 2 ^ (d2 - 1)).
      { rewrite <- Z.pow_add_r by lia. apply Z.pow_le_mono_r; lia. }
      destruct (Z.eq_dec q0 0) as [|Hq1]; [done|].
      pose proof (Z.mul_le_mono_nonneg_l 1 q0 (Z.pos ms) ltac:(lia) ltac:(lia)).
      lia. }
  assert (Hrep : represents (shr_record_of_loc q0 (new_location (Z.pos ms) r)) N (Z.pos ms)).
  { apply new_location_represents; try done; lia. }
  pose proof (fexp32 (Zdigits2 q0 + e')) as Hfq.
  destruct (binary_round_aux_spec false q0 e' (new_location (Z.pos ms) r) N (Z.pos ms) Hrep)
    as (m1 & Herr & Hres); [lia|].
  set (e1 := fexp 24 128 (Zdigits2 q0 + e')) in *.
  set (n := e1 - e') in *.
  assert (Hn : 0 <= n) by (unfold n; lia).
  assert (Hpn : 0 < 2 ^ n) by (apply Z.pow_pos_nonneg; lia).
  assert (He1 : -149 <= e1 <= -22) by lia.
  (* the common scale *)
  set (K := e' + es + 298).
  assert (HK : 0 <= K) by (unfold K; lia).
  set (P := 2 ^ K).
  assert (HP : 0 < P) by (apply Z.pow_pos_nonneg; lia).
  assert (Hx : Z.pos mx * 2 ^ (ex + 149) * 2 ^ 149 = N * P).
  { unfold N, P, K, sh. rewrite <- !Z.mul_assoc, <- !Z.pow_add_r by lia.
    f_equal. f_equal. lia. }
  (* the value of the result *)
  assert (Hq : scaled (binary_round_aux 24 128 false q0 e' (new_location (Z.pos ms) r))
               * (Z.pos ms * 2 ^ (es + 149)) = m1 * (Z.pos ms * 2 ^ n) * P /\
               (binary_round_aux 24 128 false q0 e' (new_location (Z.pos ms) r)
                  = S754_zero false \/
                exists m e,
                  binary_round_aux 24 128 false q0 e' (new_location (Z.pos ms) r)
                    = S754_finite false m e /\
                  Z.pos m < 2 ^ 24 /\ e1 <= e <= e1 + 1)).
  { destruct Hres as [[-> ->]|[(m & e & -> & He & _ & Hm & Hsmall)|[_ [Hbig _]]]]; [| |lia].
    - split; [simpl; lia | by left].
    - split; [|right; by exists m, e].
      cbn [scaled]. rewrite Z.mul_1_l, <- Hm.
      assert (Hexp : 2 ^ (e + 149) * 2 ^ (es + 149) = 2 ^ (e - e1) * 2 ^ n * P).
      { unfold P. rewrite <- !Z.pow_add_r by lia. f_equal. unfold K, n. lia. }
      replace (Z.pos m * 2 ^ (e + 149) * (Z.pos ms * 2 ^ (es + 149)))
        with (Z.pos m * Z.pos ms * (2 ^ (e + 149) * 2 ^ (es + 149))) by ring.
      rewrite Hexp. ring. }
  destruct Hq as [Hval Hshape]. rewrite Hval, Hx.
  replace (m1 * (Z.pos ms * 2 ^ n) * P - N * P)
    with ((m1 * (Z.pos ms * 2 ^ n) - N) * P) by ring.
  rewrite Z.abs_mul, (Z.abs_eq P) by lia.
  set (A := Z.abs (m1 * (Z.pos ms * 2 ^ n) - N)) in *.
  assert (HA : 2 * A <= Z.pos ms * 2 ^ n) by (unfold A; lia).
  assert (HA0 : 0 <= A) by (unfold A; lia).
  clearbody A.
  destruct (Z_le_gt_dec (-149) (Zdigits2 q0 + e' - 24)) as [Hnormal|Hsub].
  - left. split.
    + (* the half unit is at most [2^-24] of the quotient *)
      assert (Hn_eq : n = Zdigits2 q0 - 24) by (unfold n; lia).
      assert (Hq_pos : 0 < q0).
      { destruct (Z.eq_dec q0 0) as [->|]; [simpl in Hn_eq; lia | lia]. }
      destruct (Zdigits2_bounds q0 Hq_pos) as (_ & Hq_lo & _).
      replace (Zdigits2 q0 - 1) with (n + 23) in Hq_lo by lia.
      rewrite Z.pow_add_r in Hq_lo by lia.
      change (2 ^ 24) with (2 * 2 ^ 23). set (T := 2 ^ 23) in *.
      assert (HT : 0 < T) by done. clearbody T.
      assert (Hhalf : 2 * T * A <= N).
      { pose proof (Z.mul_le_mono_nonneg_l _ _ T ltac:(lia) HA).
        pose proof (Z.mul_le_mono_nonneg_l _ _ (Z.pos ms) ltac:(lia) Hq_lo).
        lia. }
      pose proof (Z.mul_le_mono_nonneg_r _ _ P ltac:(lia) Hhalf). lia.
    + destruct Hshape as [Hz|(m & e & Hr' & Hm & He)]; [by left|].
      right. exists m, e. split; [done|]. split; [done|]. lia.
  - right. split.
    + assert (Hscale : Z.pos ms * 2 ^ n * P = Z.pos ms * 2 ^ (es + 149)).
      { unfold P, K, n. rewrite <- Z.mul_assoc, <- Z.pow_add_r by lia.
        f_equal. f_equal. lia. }
      rewrite <- Hscale.
      pose proof (Z.mul_le_mono_nonneg_r _ _ P ltac:(lia) HA). lia.
    + destruct Hshape as [Hz|(m & e & Hr' & Hm & He)]; [by left|].
      right. exists m, e. split; [done|]. split; [done|]. lia.
Qed.

(** A binary32 number below [1e-16f] is below [2^-53]. *)
Lemma below_literal_scaled (q : float) :
  (q = S754_zero false \/
   exists m e, q = S754_finite false m e /\ Z.pos m < 2 ^ 24 /\ -149 <= e) ->
  Float32.ltb q Float32.lit_1e_16f = true -> scaled q < 2 ^ 96.
Proof.
  intros [->|(m & e & -> & Hm & He)]; [done|].
  unfold Float32.ltb, Float32.lit_1e_16f, SFltb, SFcompare. cbn [scaled].
  rewrite Z.mul_1_l. intros Hlt.
  assert (Hcases : e <= -78 \/ e = -77).
  { destruct (Z.compare_spec e (-77)); [lia | lia | discriminate]. }
  destruct Hcases as [Hlow| ->].
  - assert (2 ^ (e + 149) <= 2 ^ 71) by (apply Z.pow_le_mono_r; lia).
    assert (0 < 2 ^ (e + 149)) by (apply Z.pow_pos_nonneg; lia).
    change (2 ^ 96) with (2 ^ 24 * 2 ^ 71 * 2). nia.
  - change (2 ^ (-77 + 149)) with (2 ^ 72). change (2 ^ 96) with (2 ^ 24 * 2 ^ 72).
    assert (0 < 2 ^ 72) by done. nia.
Qed.

(** A number below the normal range is below [1e-16f]. *)
Lemma subnormal_below_literal (q : float) :
  (q = S754_zero false \/
   exists m e, q = S754_finite false m e /\ Z.pos m < 2 ^ 24 /\ -149 <= e <= -148) ->
  Float32.ltb q Float32.lit_1e_16f = true.
Proof.
  intros [->|(m & e & -> & _ & He)]; [done|].
  unfold Float32.ltb, Float32.lit_1e_16f, SFltb, SFcompare.
  destruct (Z.compare_spec e (-77)); [lia | done | lia].
Qed.

(** The value written for one topic: it is the exact quotient within
    [2^-24] of it, relatively, and [2^-52] absolutely. *)
Lemma normalized_value_error (sum x : float) :
  nonneg_binary32 x -> nonneg_binary32 sum ->
  Float32.ltb Float32.zero sum = true ->
  scaled x <= 2 * scaled sum ->
  nonneg_binary32 (normalized_value sum x) /\
  2 ^ 24 * Z.abs (scaled (normalized_value sum x) * scaled sum - scaled x * 2 ^ 149)
    <= scaled x * 2 ^ 149 + 2 ^ 121 * scaled sum.
Proof.
  intros Hx Hsum Hpos Hratio. unfold normalized_value. rewrite Hpos.
  destruct sum as [ss|ss| |[|] ms es]; try done.
  destruct Hsum as [Hms Hes].
  pose proof (scaled_nonneg (S754_finite false ms es) (conj Hms Hes)) as HS0.
  destruct x as [sx|sx| |[|] mx ex]; try done.
  - replace (Float32.ltb (Float32.div (S754_zero sx) (S754_finite false ms es))
                         Float32.lit_1e_16f) with true by (by destruct sx).
    split; [done|]. simpl. lia.
  - destruct Hx as [Hmx Hex].
    pose proof (scaled_nonneg (S754_finite false mx ex) (conj Hmx Hex)) as HX0.
    pose proof (div_pos_error mx ms ex es Hmx Hex Hms Hes Hratio) as Hdiv.
    cbv zeta in Hdiv.
    set (q := Float32.div (S754_finite false mx ex) (S754_finite false ms es)) in *.
    set (X := scaled (S754_finite false mx ex)) in *.
    set (S := scaled (S754_finite false ms es)) in *.
    clearbody X S.
    assert (HB : 0 < 2 ^ 149) by done.
    set (B := 2 ^ 149) in *. clearbody B.
    destruct Hdiv as [[Herr Hshape]|[Herr Hshape]].
    + destruct (Float32.ltb q Float32.lit_1e_16f) eqn:Hlt.
      * split; [done|].
        apply below_literal_scaled in Hlt; [|exact Hshape].
        assert (Hq0 : 0 <= scaled q).
        { destruct Hshape as [->|(m & e & -> & Hm & He)]; [done|].
          by apply scaled_nonneg. }
        clearbody q. cbn [scaled]. rewrite Z.mul_0_l.
        change (2 ^ 24) with 16777216 in *.
        change (2 ^ 96) with 79228162514264337593543950336 in Hlt.
        change (2 ^ 121) with 2658455991569831745807614120560689152.
        set (Sq := scaled q) in *. clearbody Sq.
        assert (HXB : 0 <= X * B) by nia.
        assert (Hprod : Sq * S <= 79228162514264337593543950336 * S) by nia.
        set (XB := X * B) in *. set (SqS := Sq * S) in *. clearbody XB SqS.
        lia.
      * split.
        { destruct Hshape as [Hz|(m & e & Hq & Hm & He)]; [by rewrite Hz|].
          rewrite Hq. done. }
        assert (0 <= 2 ^ 121 * S) by (change (2 ^ 121) with
          2658455991569831745807614120560689152; lia).
        lia.
    + rewrite (subnormal_below_literal q Hshape).
      split; [done|].
      assert (Hlt : scaled q < 2 ^ 96).
      { apply below_literal_scaled; [|by apply subnormal_below_literal].
        destruct Hshape as [Hz|(m & e & Hq & Hm & He)]; [by left|].
        right. exists m, e. split; [done|]. split; [done | lia]. }
      assert (Hq0 : 0 <= scaled q).
      { destruct Hshape as [->|(m & e & -> & Hm & He)]; [done|].
        apply scaled_nonneg. split; [done | lia]. }
      clearbody q. cbn [scaled]. rewrite Z.mul_0_l.
      change (2 ^ 24) with 16777216 in *.
      change (2 ^ 96) with 79228162514264337593543950336 in Hlt.
      change (2 ^ 121) with 2658455991569831745807614120560689152.
      set (Sq := scaled q) in *. clearbody Sq.
      assert (HXB : 0 <= X * B) by nia.
      assert (Hprod : Sq * S <= 79228162514264337593543950336 * S) by nia.
      set (XB := X * B) in *. set (SqS := Sq * S) in *. clearbody XB SqS.
      lia.
Qed.

(** The same for a whole column. *)
Lemma normalized_column_error (sum : float) (xs : list float) :
  Forall nonneg_binary32 xs -> nonneg_binary32 sum ->
  Float32.ltb Float32.zero sum = true ->
  Forall (fun x => scaled x <= 2 * scaled sum) xs ->
  Forall nonneg_binary32 (map (normalized_value sum) xs) /\
  2 ^ 24 * Z.abs (scaled_sum (map (normalized_value sum) xs) * scaled sum
                  - scaled_sum xs * 2 ^ 149)
    <= scaled_sum xs * 2 ^ 149 + Z.of_nat (length xs) * (2 ^ 121 * scaled sum).
Proof.
  intros Hxs Hsum Hpos Hratio.
  induction Hxs as [|x xs Hx Hxs IH]; cbn [map scaled_sum fold_right length].
  - split; [done|]. simpl. lia.
  - apply Forall_cons in Hratio as [Hr Hratio].
    destruct (IH Hratio) as [Hnn Herr].
    destruct (normalized_value_error sum x Hx Hsum Hpos Hr) as [Hnn1 Herr1].
    split; [by constructor|].
    fold (scaled_sum (map (normalized_value sum) xs)). fold (scaled_sum xs).
    set (V := scaled_sum (map (normalized_value sum) xs)) in *.
    set (X := scaled_sum xs) in *.
    set (v := scaled (normalized_value sum x)) in *.
    set (S := scaled sum) in *.
    set (B := 2 ^ 149) in *.
    set (C := 2 ^ 121 * S) in *.
    replace (Z.of_nat (Datatypes.S (length xs))) with (Z.of_nat (length xs) + 1) by lia.
    set (n := Z.of_nat (length xs)) in *.
    change (2 ^ 24) with 16777216 in *.
    clearbody V X v S B C n.
    replace ((v + V) * S - (scaled x + X) * B) with ((v * S - scaled x * B) + (V * S - X * B))
      by ring.
    set (a := v * S - scaled x * B) in *. set (b := V * S - X * B) in *.
    set (xB := scaled x * B) in *. set (XB := X * B) in *.
    replace ((scaled x + X) * B) with (xB + XB) by (unfold xB, XB; ring).
    replace ((n + 1) * C) with (n * C + C) by ring.
    set (nC := n * C) in *. clearbody a b xB XB nC. lia.
Qed.

Lemma scaled_le_sum (x : float) (xs : list float) :
  Forall nonneg_binary32 xs -> x ∈ xs -> scaled x <= scaled_sum xs.
Proof.
  induction 1 as [|y xs Hy Hxs IH]; intros Hin; [by apply elem_of_nil in Hin|].
  cbn [scaled_sum fold_right]. fold (scaled_sum xs).
  pose proof (scaled_nonneg y Hy). pose proof (scaled_sum_nonneg xs Hxs).
  apply elem_of_cons in Hin as [->|Hin]; [lia|]. specialize (IH Hin). lia.
Qed.

(** The column written back, in units of [2^-149]: for a column of
    [n] non-negative numbers whose single-precision sum is finite and
    positive, the normalized values add up to 1 within [n / 2^22]. *)
Lemma normalized_sum_scaled (xs : list float) :
  Forall nonneg_binary32 xs ->
  Z.of_nat (length xs) <= 2 ^ 20 ->
  Float32.is_finite (fold_left Float32.add xs Float32.zero) = true ->
  Float32.ltb Float32.zero (fold_left Float32.add xs Float32.zero) = true ->
  Forall nonneg_binary32
         (map (normalized_value (fold_left Float32.add xs Float32.zero)) xs) /\
  2 ^ 22 * Z.abs (scaled_sum
                    (map (normalized_value (fold_left Float32.add xs Float32.zero)) xs)
                  - 2 ^ 149)
    <= Z.of_nat (length xs) * 2 ^ 149.
Proof.
  intros Hxs Hlen Hfin Hpos.
  destruct (fold_add_error xs Float32.zero Hxs I Hlen Hfin) as [Hsum Herr].
  set (sum := fold_left Float32.add xs Float32.zero) in *.
  cbn [scaled Float32.zero] in Herr. rewrite Z.add_0_l in Herr.
  pose proof (scaled_sum_nonneg xs Hxs) as HX0.
  assert (HS : 0 < scaled sum).
  { destruct sum as [s|s| |[|] m e]; try done. cbn [scaled].
    destruct Hsum as [_ He].
    assert (0 < 2 ^ (e + 149)) by (apply Z.pow_pos_nonneg; lia). lia. }
  set (n := Z.of_nat (length xs)) in *.
  assert (Hn0 : 0 <= n) by (unfold n; lia).
  change (2 ^ 20) with 1048576 in Hlen.
  change (2 ^ 27) with 134217728 in Herr.
  assert (HnX : 0 <= n * scaled_sum xs) by (apply Z.mul_nonneg_nonneg; lia).
  assert (HnX' : n * scaled_sum xs <= 1048576 * scaled_sum xs)
    by (apply Z.mul_le_mono_nonneg_r; lia).
  assert (Hclose : 119 * scaled_sum xs <= 128 * scaled sum) by lia.
  assert (Hratio : Forall (fun x => scaled x <= 2 * scaled sum) xs).
  { apply Forall_forall. intros x Hx. pose proof (scaled_le_sum x xs Hxs Hx). lia. }
  destruct (normalized_column_error sum xs Hxs Hsum Hpos Hratio) as [Hnn Hdiv].
  split; [done|].
  fold n in Hdiv.
  set (V := scaled_sum (map (normalized_value sum) xs)) in *.
  set (X := scaled_sum xs) in *.
  set (S := scaled sum) in *.
  assert (Hn1 : 1 <= n).
  { destruct (Z.eq_dec n 0) as [Hz|]; [|lia]. exfalso.
    assert (X = 0); [|lia].
    unfold X. destruct xs; [done|]. unfold n in Hz. simpl in Hz. lia. }
  clearbody V X S n.
  change (2 ^ 22) with 4194304.
  change (2 ^ 24) with 16777216 in Hdiv.
  change (2 ^ 121) with 2658455991569831745807614120560689152 in Hdiv.
  change (2 ^ 149) with 713623846352979940529142984724747568191373312 in *.
  set (B := 713623846352979940529142984724747568191373312) in *.
  assert (HB : B = 713623846352979940529142984724747568191373312) by done.
  clearbody B.
  (* |V - B| S <= |V S - X B| + B |X - S| *)
  set (a := Z.abs (V * S - X * B)) in *.
  set (b := Z.abs (X - S)) in *.
  assert (Ha : - a <= V * S - X * B <= a) by (unfold a; lia).
  assert (Hb : - b <= X - S <= b) by (unfold b; lia).
  assert (Hb' : 134217728 * b <= 9 * (n * X)) by (unfold b; lia).
  assert (Ha0 : 0 <= a) by (unfold a; lia).
  assert (Hb0 : 0 <= b) by (unfold b; lia).
  clearbody a b.
  assert (Hgoal : 4194304 * (Z.abs (V - B) * S) <= n * B * S).
  2: { apply (Z.mul_le_mono_pos_r _ _ S); [done|]. lia. }
  assert (Htri : Z.abs (V - B) * S <= a + B * b).
  { assert (Z.abs (V - B) * S = Z.abs ((V - B) * S)) as ->
      by (rewrite Z.abs_mul, (Z.abs_eq S); lia).
    replace ((V - B) * S) with ((V * S - X * B) + B * (X - S)) by ring.
    pose proof (Z.mul_le_mono_nonneg_l _ _ B ltac:(lia) (proj1 Hb)).
    pose proof (Z.mul_le_mono_nonneg_l _ _ B ltac:(lia) (proj2 Hb)).
    lia. }
  pose proof (Z.mul_le_mono_nonneg_l _ _ B ltac:(lia) Hb') as HBb.
  pose proof (Z.mul_le_mono_nonneg_r _ _ B ltac:(lia) Hclose) as HXB.
  assert (HXB0 : 0 <= X * B) by (apply Z.mul_nonneg_nonneg; lia).
  assert (HSB0 : 0 <= S * B) by (apply Z.mul_nonneg_nonneg; lia).
  pose proof (Z.mul_le_mono_nonneg_l _ _ n ltac:(lia) HXB) as HnXB.
  pose proof (Z.mul_nonneg_nonneg (n - 1) (S * B) ltac:(lia) HSB0) as HSB.
  pose proof (Z.mul_nonneg_nonneg n S ltac:(lia) ltac:(lia)) as HnS.
  assert (HSB' : 2658455991569831745807614120560689152 * (n * S) * 268435456
                 = n * (S * B)) by (rewrite HB; ring).
  lia.
Qed.

(** A canonical finite number that is not below zero. *)
Lemma finite_binary32_nonneg (x : float) :
  finite_binary32 x = true -> Float32.ltb x Float32.zero = false ->
  nonneg_binary32 x.
Proof.
  unfold finite_binary32. intros Hx Hneg.
  apply andb_true_iff in Hx as [Hfin Hvalid].
  destruct x as [s|s| |s m e]; try done.
  destruct s; [done|]. cbn [nonneg_binary32].
  unfold valid_binary, bounded, canonical_mantissa, Float32.prec, Float32.emax in Hvalid.
  apply andb_true_iff in Hvalid as [Hcanon _].
  apply Z.eqb_eq in Hcanon. rewrite fexp32 in Hcanon.
  destruct (digits2_pos_bounds m) as [_ Hhi].
  assert (2 ^ Z.pos (digits2_pos m) <= 2 ^ 24) by (apply Z.pow_le_mono_r; lia).
  lia.
Qed.

Lemma to_Q_scaled (x : float) :
  nonneg_binary32 x ->
  (Float32.to_Q x * inject_Z (2 ^ 149) == inject_Z (scaled x))%Q.
Proof.
  destruct x as [s|s| |[|] m e]; try done.
  intros [_ He]. cbn [Float32.to_Q scaled]. rewrite Z.mul_1_l.
  destruct e as [|p|p].
  - by rewrite <- inject_Z_mult.
  - rewrite <- inject_Z_mult, <- Z.mul_assoc, <- Z.pow_add_r by lia. done.
  - unfold Qeq, Qmult, inject_Z. cbn [Qnum Qden].
    rewrite Pos.mul_1_r, Z.mul_1_r, Pos2Z.inj_pow.
    rewrite <- !Z.mul_assoc. f_equal.
    rewrite <- Z.pow_add_r by lia. f_equal. lia.
Qed.

Lemma exact_sum_scaled (xs : list float) :
  Forall nonneg_binary32 xs ->
  (exact_sum xs * inject_Z (2 ^ 149) == inject_Z (scaled_sum xs))%Q.
Proof.
  induction 1 as [|x xs Hx _ IH]; cbn [exact_sum scaled_sum map fold_right].
  - exact (Qmult_0_l _).
  - fold (exact_sum xs). fold (scaled_sum xs).
    rewrite Qmult_plus_distr_l, IH, (to_Q_scaled x Hx), inject_Z_plus. done.
Qed.

(** From units of [2^-149] to rationals. *)
Lemma sum_bound_to_Q (E : Q) (V T : Z) :
  (E * inject_Z (2 ^ 149) == inject_Z V)%Q ->
  2 ^ 22 * Z.abs (V - 2 ^ 149) <= T * 2 ^ 149 ->
  (Qabs (E - 1) <= T # 4194304)%Q.
Proof.
  intros HE Hbound.
  assert (Hdiff : (E - 1 == (V - 2 ^ 149) # (2 ^ 149)%positive)%Q).
  { apply (Qmult_inj_r _ _ (inject_Z (2 ^ 149))); [done|].
    unfold Qminus. rewrite Qmult_plus_distr_l, HE.
    unfold Qeq, Qmult, Qplus, Qopp, inject_Z. cbn [Qnum Qden].
    rewrite ?Pos2Z.inj_mul, ?Pos2Z.inj_pow. ring. }
  rewrite Hdiff. unfold Qabs, Qle. cbn [Qnum Qden].
  change (Z.pos (2 ^ 149)%positive) with (2 ^ 149).
  change (Z.pos 4194304) with (2 ^ 22). lia.
Qed.

(** The cells of a normalized column. *)
Lemma normalized_column_cells (inner_iter : Z) (batch : Batch)
    (model_config : ModelConfig) (schema : InstanceSchema) (Theta : DenseMatrix) (c : Z) :
  dense_wf Theta ->
  no_rows Theta = mc_topics_count model_config ->
  no_columns Theta = rsize (batch_item batch) ->
  0 <= c < rsize (batch_item batch) ->
  theta_column (RegularizeAndNormalizeTheta inner_iter batch model_config schema Theta)
               (mc_topics_count model_config) c =
  map (normalized_value
         (column_sum (mc_topics_count model_config)
            (regularized_column inner_iter model_config schema Theta c
               (batch_item_at batch c))))
      (map (fun k => rget (regularized_column inner_iter model_config schema Theta c
                             (batch_item_at batch c)) k Float32.zero)
           (Zrange (mc_topics_count model_config))).
Proof.
  intros Hwf Hrows Hcols Hc. unfold theta_column at 1. rewrite map_map.
  apply map_ext_in. intros k Hk. apply list_elem_of_In, elem_of_Zrange in Hk.
  unfold RegularizeAndNormalizeTheta.
  destruct (RegularizeAndNormalizeTheta_loop_get inner_iter model_config schema
              (batch_item batch) (-1) Theta k c) as [_ Hget]; try done; try lia.
  rewrite Hget.
  destruct (decide (-1 < c <= -1 + rsize (batch_item batch))) as [|Hn]; [|lia].
  replace (c - -1 - 1) with c by lia. done.
Qed.

Lemma clip_negative_not_negative (theta_next : list float) (k : Z) :
  Float32.ltb (rget (clip_negative theta_next) k Float32.zero) Float32.zero = false.
Proof.
  unfold clip_negative.
  destruct (clip_fold_get (Zrange (rsize theta_next)) theta_next k (NoDup_Zrange _))
    as [_ ->].
  destruct (decide (k ∈ Zrange (rsize theta_next))) as [Hin|Hout].
  - unfold clipped.
    by destruct (Float32.ltb (rget theta_next k Float32.zero) Float32.zero) eqn:Hlt.
  - destruct (Float32.ltb (rget theta_next k Float32.zero) Float32.zero) eqn:Hlt; [|done].
    apply below_zero_in_range in Hlt. exfalso. apply Hout. by apply elem_of_Zrange.
Qed.

(** A division by [+inf] gives a zero. *)
Lemma normalized_value_overflow (x : float) :
  Float32.is_finite x = true ->
  normalized_value (S754_infinity false) x = Float32.zero.
Proof. by destruct x as [[|]|s| |[|] m e]. Qed.

(** C1 (as amended). After the regularize-and-normalize step, in every
    item column of [Theta] every cell below [1e-16] is exactly 0 and no
    cell is negative (a cell is at least 0 unless it is NaN, and it is
    not NaN where the clipped, regularized column holds a finite value).
    The column is entirely 0 when the single-precision sum of the
    clipped, regularized column is not positive, and also when that sum
    overflows to [+inf] over finite cells.  Otherwise, for a column of
    finite binary32 values with a finite positive sum and at most [2^20]
    topics, the cells add up to 1 within [topics_count / 2^22]. *)
Theorem theta_column_after_normalization (inner_iter : Z) (batch : Batch)
    (model_config : ModelConfig) (schema : InstanceSchema) (Theta : DenseMatrix) (c : Z) :
  dense_wf Theta ->
  no_rows Theta = mc_topics_count model_config ->
  no_columns Theta = rsize (batch_item batch) ->
  0 <= c < rsize (batch_item batch) ->
  let topic_size := mc_topics_count model_config in
  let result :=
    theta_column (RegularizeAndNormalizeTheta inner_iter batch model_config schema Theta)
                 topic_size c in
  let column := regularized_column inner_iter model_config schema Theta c
                                   (batch_item_at batch c) in
  let sum := column_sum topic_size column in
  (forall k, 0 <= k < topic_size ->
     (Float32.ltb (rget result k Float32.zero) Float32.lit_1e_16f = true ->
      rget result k Float32.zero = Float32.zero) /\
     Float32.ltb (rget result k Float32.zero) Float32.zero = false /\
     (Float32.is_nan (rget result k Float32.zero) = false ->
      Float32.leb Float32.zero (rget result k Float32.zero) = true) /\
     (Float32.is_finite (rget column k Float32.zero) = true ->
      Float32.leb Float32.zero (rget result k Float32.zero) = true)) /\
  (Float32.ltb Float32.zero sum = false ->
   forall k, 0 <= k < topic_size -> rget result k Float32.zero = Float32.zero) /\
  (sum = S754_infinity false ->
   forall k, 0 <= k < topic_size ->
     Float32.is_finite (rget column k Float32.zero) = true ->
     rget result k Float32.zero = Float32.zero) /\
  ((forall k, 0 <= k < topic_size ->
      finite_binary32 (rget column k Float32.zero) = true) ->
   Float32.is_finite sum = true ->
   Float32.ltb Float32.zero sum = true ->
   topic_size <= 2 ^ 20 ->
   (Qabs (exact_sum result - 1) <= topic_size # 4194304)%Q).
Proof.
  intros Hwf Hrows Hcols Hc topic_size result column sum.
  pose proof (normalized_column_cells inner_iter batch model_config schema Theta c
                Hwf Hrows Hcols Hc) as Hcells.
  fold topic_size column in Hcells. fold sum in Hcells. fold result in Hcells.
  assert (Hcell : forall k, 0 <= k < topic_size ->
            rget result k Float32.zero = normalized_value sum (rget column k Float32.zero)).
  { intros k Hk. rewrite Hcells, map_map.
    by rewrite (rget_map_Zrange
                  (fun k => normalized_value sum (rget column k Float32.zero))). }
  split; [|split; [|split]].
  - intros k Hk. rewrite (Hcell k Hk). split; [apply normalized_value_snapped|].
    split; [apply normalized_value_not_negative|].
    split; [apply normalized_value_not_negative|].
    intros Hfinite. apply normalized_value_not_negative.
    by apply normalized_value_finite.
  - intros Hmass k Hk. rewrite (Hcell k Hk). by apply normalized_value_no_mass.
  - intros Hinf k Hk Hfinite. rewrite (Hcell k Hk), Hinf.
    by apply normalized_value_overflow.
  - intros Hvalid Hfinite Hpos Hsize.
    set (xs := map (fun k => rget column k Float32.zero) (Zrange topic_size)) in *.
    assert (Hsum : sum = fold_left Float32.add xs Float32.zero).
    { unfold sum, column_sum, xs.
      apply (fold_left_over_map Float32.add (fun k => rget column k Float32.zero)). }
    assert (Hsize0 : 0 < topic_size).
    { destruct (Z_lt_ge_dec 0 topic_size) as [|Hle]; [done|].
      unfold sum, column_sum in Hpos. rewrite Zrange_nonpos in Hpos by lia.
      discriminate Hpos. }
    assert (Hlen : Z.of_nat (length xs) = topic_size).
    { unfold xs. rewrite length_map, Zrange_length. lia. }
    assert (Hxs : Forall nonneg_binary32 xs).
    { apply Forall_forall. intros x Hx. unfold xs in Hx.
      apply list_elem_of_fmap in Hx as (k & -> & Hk). apply elem_of_Zrange in Hk.
      apply finite_binary32_nonneg; [by apply Hvalid|].
      apply clip_negative_not_negative. }
    rewrite Hsum in Hfinite, Hpos, Hcells.
    destruct (normalized_sum_scaled xs Hxs) as [Hnn Hbound]; [lia | done | done |].
    rewrite Hcells. rewrite Hlen in Hbound.
    apply (sum_bound_to_Q _ _ _ (exact_sum_scaled _ Hnn) Hbound).
Qed.

(** The column of 101 topics that holds 1 and a hundred times [2^-24]:
    its cells add up to 1 within [101 / 2^22]. *)
Lemma theta_column_after_normalization_witness :
  Float32.is_finite
    (column_sum 101 (regularized_column 0 config_101 (plain_schema config_101)
                       theta_101 0 (batch_item_at one_item_batch 0))) = true /\
  Float32.ltb Float32.zero
    (column_sum 101 (regularized_column 0 config_101 (plain_schema config_101)
                       theta_101 0 (batch_item_at one_item_batch 0))) = true /\
  Qle_bool
    (Qabs (exact_sum
             (theta_column (RegularizeAndNormalizeTheta 0 one_item_batch config_101
                              (plain_schema config_101) theta_101)
                           101 0) - 1))
    (101 # 4194304) = true.
Proof.
  split; [vm_compute; reflexivity|]. split; [vm_compute; reflexivity|].
  apply Qle_bool_iff.
  apply (theta_column_after_normalization 0 one_item_batch config_101
           (plain_schema config_101) theta_101 0).
  - unfold dense_wf. vm_compute. repeat split; discriminate.
  - reflexivity.
  - reflexivity.
  - vm_compute. split; [discriminate | reflexivity].
  - intros k Hk.
    assert (Hall : forallb
                     (fun k => finite_binary32
                                 (rget (regularized_column 0 config_101
                                          (plain_schema config_101) theta_101 0
                                          (batch_item_at one_item_batch 0))
                                       k Float32.zero))
                     (Zrange (mc_topics_count config_101)) = true)
      by (vm_compute; reflexivity).
    rewrite forallb_forall in Hall. apply Hall.
    apply list_elem_of_In, elem_of_Zrange. exact Hk.
  - vm_compute. reflexivity.
  - vm_compute. reflexivity.
  - vm_compute. discriminate.
Defined.

(** The sample [Theta]: the column [(3, 1)] becomes [(0.75, 0.25)], the
    column [(0, -2)] loses all its mass and becomes zero. *)
Example sample_theta_normalized :
  theta_column (RegularizeAndNormalizeTheta 0 (pi_batch sample_input) sample_config
                  (plain_schema sample_config) sample_theta) 2 0 =
    [S754_finite false 12582912 (-24); S754_finite false 8388608 (-25)] /\
  theta_column (RegularizeAndNormalizeTheta 0 (pi_batch sample_input) sample_config
                  (plain_schema sample_config) sample_theta) 2 1 =
    [Float32.zero; Float32.zero].
Proof. vm_compute. split; reflexivity. Qed.

(** C1, counterexample. With 101 topics and no regularizer, the column
    that holds 1 and a hundred times [2^-24] is left as it is: each
    addition of [2^-24] to the running sum 1 is a tie that rounds back to
    1, so the divisor is 1.  Its cells are positive and add up to
    [1 + 100 * 2^-24], more than [1e-6] away from 1, whether they are
    added exactly or in double precision. *)
Lemma theta_column_sum_counterexample :
  theta_column (RegularizeAndNormalizeTheta 0 one_item_batch config_101
                  (plain_schema config_101) theta_101) 101 0 =
    Float32.one :: replicate 100 two_pow_minus_24 /\
  spec_column_invariant
    (theta_column (RegularizeAndNormalizeTheta 0 one_item_batch config_101
                     (plain_schema config_101) theta_101) 101 0) = false /\
  Float64.ltb one_plus_1e_6
    (double_sum
       (theta_column (RegularizeAndNormalizeTheta 0 one_item_batch config_101
                        (plain_schema config_101) theta_101) 101 0)) = true.
Proof. vm_compute. repeat split; reflexivity. Qed.

(** The same with the default [Theta] of a model of 1000 topics: the
    normalized uniform column, added up in double precision, sums to more
    than [1.000001]. *)
Example uniform_theta_column_sum :
  Float64.ltb one_plus_1e_6
    (double_sum
       (theta_column (RegularizeAndNormalizeTheta 0 one_item_batch config_1000
                        (plain_schema config_1000) uniform_theta_1000) 1000 0)) = true.
Proof. vm_compute. reflexivity. Qed.

(** A column with an infinite cell comes out with a NaN. *)
Example theta_column_nan :
  theta_column (RegularizeAndNormalizeTheta 0 one_item_batch sample_config
                  (plain_schema sample_config)
                  (mkDense 2 1 false [S754_infinity false; Float32.one])) 2 0 =
  [Float32.nan; Float32.zero].
Proof. vm_compute. reflexivity. Qed.

(** Two cells of [2^127]: their sum overflows to [+inf], every quotient
    is a zero, and the column comes out entirely 0. *)
Example theta_column_overflow :
  column_sum 2 [S754_finite false 8388608 104; S754_finite false 8388608 104] =
    S754_infinity false /\
  theta_column (RegularizeAndNormalizeTheta 0 one_item_batch sample_config
                  (plain_schema sample_config)
                  (mkDense 2 1 false [S754_finite false 8388608 104;
                                      S754_finite false 8388608 104])) 2 0 =
  [Float32.zero; Float32.zero].
Proof. vm_compute. split; reflexivity. Qed.

(** ** Zero divisors in the EM update *)

(** [ApplyByElement<1>]: a zero divisor gives a zero cell. *)
Lemma safe_div_zero_divisor (first second : float) :
  Float32.eqb second Float32.zero = true -> safe_div first second = Float32.zero.
Proof. unfold safe_div. intros ->. by rewrite orb_true_r. Qed.

(** The sparse loop: a zero [p_dw] leaves [n_td] as it is. *)
Lemma sparse_ntd_entry_zero_divisor (blas : Blas) (sparse_ndw : CsrMatrix)
    (phi_matrix theta_matrix n_td : DenseMatrix) (d i : Z) :
  Float32.eqb
    (sdot blas (no_columns phi_matrix)
          (get_data phi_matrix)
          (dense_offset phi_matrix (rget (csr_col_ind sparse_ndw) i 0) 0) 1
          (get_data theta_matrix) (dense_offset theta_matrix 0 d) 1)
    Float32.zero = true ->
  sparse_ntd_entry blas sparse_ndw phi_matrix theta_matrix d n_td i = n_td.
Proof. unfold sparse_ntd_entry. intros ->. done. Qed.

(** The same for the accumulation of [n_wt]. *)
Lemma sparse_nwt_entry_zero_divisor (blas : Blas) (mask : option Mask)
    (sparse_nwd : CsrMatrix) (phi_matrix theta_matrix n_wt : DenseMatrix) (w i : Z) :
  Float32.eqb
    (sdot blas (no_columns phi_matrix)
          (get_data phi_matrix) (dense_offset phi_matrix w 0) 1
          (get_data theta_matrix)
          (dense_offset theta_matrix 0 (rget (csr_col_ind sparse_nwd) i 0)) 1)
    Float32.zero = true ->
  sparse_nwt_entry blas mask sparse_nwd phi_matrix theta_matrix w n_wt i = n_wt.
Proof.
  unfold sparse_nwt_entry. intros ->.
  by destruct (match mask with Some m => _ | None => false end).
Qed.

(** The inference loop of the transaction processor: a transaction whose
    [p_dx] passes [isZero] leaves [n_td] as it is. *)
Lemma ntd_transaction_zero_divisor (args : Transactions.ProcessBatchesArgs)
    (batch : Transactions.Batch) (p_wt : Transactions.PhiMatrix) (ids : list Z)
    (item : Transactions.Item) (d : Z) (theta_matrix n_td : Transactions.LocalThetaMatrix)
    (helper_vector : list double) (t_index : Z) :
  Transactions.isZero
    (snd (Transactions.transaction_helper item p_wt ids
            (fun k => Transactions.ltm_get theta_matrix k d)
            (rget (Transactions.item_transaction_start_index item) t_index 0)
            (rget (Transactions.item_transaction_start_index item) (t_index + 1) 0)
            helper_vector))
    Transactions.kTransactionsEps = true ->
  fst (Transactions.ntd_transaction args batch p_wt ids item d theta_matrix
         (n_td, helper_vector) t_index) = n_td.
Proof.
  unfold Transactions.ntd_transaction.
  destruct (Transactions.transaction_helper _ _ _ _ _ _ _) as [helper' p_dx_val].
  simpl. intros ->. done.
Qed.

(** Writing the cells of a vector one by one. *)
Lemma fold_rset_get {A : Type} (f : Z -> A) (ks : list Z) (l : list A) (k : Z) (d : A) :
  (forall k', k' ∈ ks -> 0 <= k' < rsize l) ->
  k ∈ ks ->
  rget (fold_left (fun l k' => rset l k' (f k')) ks l) k d = f k.
Proof.
  revert l. induction ks as [|k0 ks IH]; intros l Hks Hk; simpl.
  - by apply elem_of_nil in Hk.
  - assert (Hsize : rsize (rset l k0 (f k0)) = rsize l).
    { unfold rsize. by rewrite rset_length. }
    destruct (decide (k ∈ ks)) as [Hin|Hnin].
    + apply IH; [|done]. intros k' Hk'. rewrite Hsize. apply Hks. by right.
    + apply elem_of_cons in Hk as [->|Hk]; [|done].
      assert (Hkeep : forall l', rsize l' = rsize l ->
                rget (fold_left (fun l k' => rset l k' (f k')) ks l') k0 d = rget l' k0 d).
      { clear IH. revert Hnin. clear Hks Hsize. induction ks as [|k1 ks IH']; intros Hnin l' Hl';
          simpl; [done|].
        apply not_elem_of_cons in Hnin as [Hne Hnin].
        rewrite IH'; [|done|unfold rsize in *; by rewrite rset_length].
        by apply rget_rset_ne. }
      rewrite Hkeep by done. apply rget_rset_eq. apply Hks. left.
Qed.

(** A division by zero gives NaN or an infinity, never a number. *)
Lemma div_by_zero_not_finite (x divisor : double) :
  Float64.eqb divisor Float64.zero = true ->
  Float32.is_finite (Float32.of_double (Float64.div x divisor)) = false.
Proof.
  unfold Float64.eqb, Float64.zero, SFeqb, SFcompare, Float64.div, SFdiv.
  intros Hzero.
  destruct divisor as [s|s| |s m e]; try discriminate.
  - by destruct x.
  - by destruct s.
  - by destruct s.
Qed.

(** The loop that writes [n_wt] has no test of [p_dx_val]: whenever it is
    zero, no value of the vector it stores is a number. *)
Lemma nwt_values_zero_divisor (batch_weight tt_weight : float) (n_kdx : double)
    (helper_vector : list double) (p_dx_val : double) (topics k : Z) :
  Float64.eqb p_dx_val Float64.zero = true ->
  0 <= k < topics ->
  Float32.is_finite
    (rget (Transactions.nwt_values batch_weight tt_weight n_kdx helper_vector
                                   p_dx_val topics) k Float32.zero) = false.
Proof.
  intros Hzero Hk. unfold Transactions.nwt_values.
  rewrite (fold_rset_get
             (fun k => Float32.of_double
                         (Float64.div
                            (Float64.mul
                               (Float64.mul
                                  (Float64.mul (Float32.to_double tt_weight)
                                               (rget helper_vector k Float64.zero))
                                  n_kdx)
                               (Float32.to_double batch_weight))
                            p_dx_val))).
  - by apply div_by_zero_not_finite.
  - intros k' Hk'. apply elem_of_Zrange in Hk'.
    unfold rsize. rewrite length_replicate. lia.
  - by apply elem_of_Zrange.
Qed.

(** C2 (code bug). The loop that writes [n_wt] in
    [TransactionInferThetaAndUpdateNwtSparse] divides by [p_dx_val]
    without the [isZero] test the inference loop makes: on a transaction
    whose token has a zero row in [p_wt], [p_dx_val] is 0 and the vector
    stored through the writer holds NaN. *)
Theorem transaction_nwt_divides_by_zero :
  Transactions.TransactionInferThetaAndUpdateNwtSparse
    zero_phi_args zero_phi_batch Float32.one zero_phi idle_agents one_by_one_theta true =
  (Transactions.mkLocalTheta 1 1 [Float32.zero], [(0, 0)], [(0, [Float32.nan])]).
Proof. vm_compute. reflexivity. Qed.

(** ** The passes of the inner loops *)

Lemma document_pass_calls (args : Transactions.ProcessBatchesArgs)
    (batch : Transactions.Batch) (p_wt : Transactions.PhiMatrix)
    (theta_agents : Transactions.ThetaAgents) (ids : list Z) (d : Z)
    (st : Transactions.InferState) (inner_iter : Z) :
  Transactions.is_agent_calls
    (Transactions.document_pass args batch p_wt theta_agents ids d st inner_iter) =
  Transactions.is_agent_calls st ++ [(d, inner_iter)].
Proof.
  unfold Transactions.document_pass.
  destruct (fold_left (Transactions.ntd_transaction _ _ _ _ _ _ _) _ _) as [n_td helper].
  done.
Qed.

Lemma infer_document_calls (args : Transactions.ProcessBatchesArgs)
    (batch : Transactions.Batch) (p_wt : Transactions.PhiMatrix)
    (theta_agents : Transactions.ThetaAgents) (ids : list Z)
    (st : Transactions.InferState) (d : Z) :
  Transactions.is_agent_calls
    (Transactions.infer_document args batch p_wt theta_agents ids st d) =
  Transactions.is_agent_calls st ++
  map (fun inner_iter => (d, inner_iter))
      (Zrange (Transactions.num_document_passes args + 1)).
Proof.
  unfold Transactions.infer_document. rewrite Zrange_from_0.
  generalize (Zrange (Transactions.num_document_passes args + 1)). intros passes.
  revert st. induction passes as [|p passes IH]; intros st; simpl.
  - by rewrite app_nil_r.
  - rewrite IH, document_pass_calls, <- app_assoc. done.
Qed.

Lemma infer_theta_calls (args : Transactions.ProcessBatchesArgs)
    (batch : Transactions.Batch) (p_wt : Transactions.PhiMatrix)
    (theta_agents : Transactions.ThetaAgents)
    (theta_matrix : Transactions.LocalThetaMatrix) :
  Transactions.is_agent_calls
    (Transactions.infer_theta args batch p_wt theta_agents theta_matrix) =
  flat_map (fun d => map (fun inner_iter => (d, inner_iter))
                         (Zrange (Transactions.num_document_passes args + 1)))
           (Zrange (Transactions.num_items theta_matrix)).
Proof.
  unfold Transactions.infer_theta.
  generalize (Zrange (Transactions.num_items theta_matrix)). intros docs.
  assert (Hgen : forall st,
            Transactions.is_agent_calls
              (fold_left (Transactions.infer_document args batch p_wt theta_agents
                            (Transactions.local_to_global batch p_wt)) docs st) =
            Transactions.is_agent_calls st ++
            flat_map (fun d => map (fun inner_iter => (d, inner_iter))
                                   (Zrange (Transactions.num_document_passes args + 1)))
                     docs).
  { induction docs as [|d docs IH]; intros st; simpl.
    - by rewrite app_nil_r.
    - rewrite IH, infer_document_calls, <- app_assoc. done. }
  by rewrite Hgen.
Qed.

(** C9. The inference loop of the transaction processor makes exactly
    [num_document_passes + 1] passes over each document, numbered from 0
    to [num_document_passes]: the regularization agents are called once
    per pass, document after document.  The bag-of-words loops make
    [inner_iterations_count] inner iterations, so the transaction loop
    makes one pass more for an equal setting.  Within a pass a
    transaction whose [p_dx] passes [isZero] against [1e-100] leaves
    [n_td] as it is. *)
Theorem transaction_inner_loop_passes
    (args : Transactions.ProcessBatchesArgs) (batch : Transactions.Batch)
    (batch_weight : float) (p_wt : Transactions.PhiMatrix)
    (theta_agents : Transactions.ThetaAgents)
    (theta_matrix : Transactions.LocalThetaMatrix) (nwt_writer : bool)
    (model_config : ModelConfig) (bow_batch : Batch) (mask : option Mask)
    (schema : InstanceSchema) (blas : Blas) (sparse_ndw : CsrMatrix)
    (dense_ndw phi_matrix bow_theta : DenseMatrix) :
  0 <= Transactions.num_document_passes args ->
  snd (fst (Transactions.TransactionInferThetaAndUpdateNwtSparse
              args batch batch_weight p_wt theta_agents theta_matrix nwt_writer)) =
    flat_map (fun d => map (fun inner_iter => (d, inner_iter))
                           (Zrange (Transactions.num_document_passes args + 1)))
             (Zrange (Transactions.num_items theta_matrix)) /\
  length (Zrange (Transactions.num_document_passes args + 1)) =
    S (Z.to_nat (Transactions.num_document_passes args)) /\
  snd (CalculateNwtSparse model_config bow_batch mask schema sparse_ndw
                          phi_matrix bow_theta blas) =
    fold_left (sparse_inner_iteration model_config bow_batch schema sparse_ndw
                                      phi_matrix blas)
              (Zrange (mc_inner_iterations_count model_config)) bow_theta /\
  snd (CalculateNwtDense model_config bow_batch mask schema dense_ndw
                         phi_matrix bow_theta blas) =
    snd (fold_left (dense_inner_iteration model_config bow_batch schema dense_ndw
                                          phi_matrix blas)
                   (Zrange (mc_inner_iterations_count model_config))
                   (DenseMatrix_new (no_rows phi_matrix) (no_columns bow_theta) true,
                    bow_theta)) /\
  length (Zrange (mc_inner_iterations_count model_config)) =
    Z.to_nat (mc_inner_iterations_count model_config) /\
  forall (ids : list Z) (item : Transactions.Item) (d : Z)
         (theta n_td : Transactions.LocalThetaMatrix)
         (helper_vector : list double) (t_index : Z),
    Transactions.isZero
      (snd (Transactions.transaction_helper item p_wt ids
              (fun k => Transactions.ltm_get theta k d)
              (rget (Transactions.item_transaction_start_index item) t_index 0)
              (rget (Transactions.item_transaction_start_index item) (t_index + 1) 0)
              helper_vector))
      Transactions.kTransactionsEps = true ->
    fst (Transactions.ntd_transaction args batch p_wt ids item d theta
           (n_td, helper_vector) t_index) = n_td.
Proof.
  intros Hpasses. repeat split.
  - unfold Transactions.TransactionInferThetaAndUpdateNwtSparse.
    destruct (negb nwt_writer); simpl.
    + apply infer_theta_calls.
    + destruct (fold_left _ _ _) as [stored helper]. simpl. apply infer_theta_calls.
  - rewrite Zrange_length. lia.
  - unfold CalculateNwtDense.
    destruct (fold_left _ _ _) as [Zmat theta'].
    destruct mask as [m|]; simpl; [|done].
    by destruct (dense_masked m _ theta').
  - apply Zrange_length.
  - intros. by apply ntd_transaction_zero_divisor.
Qed.

Lemma transaction_inner_loop_passes_witness :
  snd (fst (Transactions.TransactionInferThetaAndUpdateNwtSparse
              two_passes_args zero_phi_batch Float32.one unit_phi idle_agents
              one_by_one_theta true)) = [(0, 0); (0, 1); (0, 2)].
Proof.
  destruct (transaction_inner_loop_passes
              two_passes_args zero_phi_batch Float32.one unit_phi idle_agents
              one_by_one_theta true
              sample_config (pi_batch sample_input) None (plain_schema sample_config)
              BuiltinBlas.builtin
              (InitializeSparseNdw (pi_batch sample_input) sample_config)
              (InitializeDenseNdw (pi_batch sample_input))
              (mkDense 2 2 true [Float32.one; Float32.one; Float32.one; Float32.one])
              sample_theta) as [Hcalls _].
  - simpl. lia.
  - exact Hcalls.
Defined.

(** ** The rows of a model increment *)

Lemma increment_row_length (topic_size : Z) (known : bool) :
  length (fst (increment_row topic_size known)) =
  if known then Z.to_nat topic_size else O.
Proof.
  unfold increment_row. destruct known; simpl; [|done].
  rewrite (fold_left_snoc_map (fun _ => Float32.zero)). simpl.
  by rewrite length_map, Zrange_length.
Qed.

Lemma increment_row_operation (topic_size : Z) (known : bool) :
  snd (increment_row topic_size known) =
  if known then IncrementValue else CreateIfNotExist.
Proof. unfold increment_row. by destruct known. Qed.

(** [InitializeModelIncrement] in closed form. *)
Lemma InitializeModelIncrement_unfold (part : ProcessorInput) (model_config : ModelConfig)
    (topic_model : TopicModel) :
  InitializeModelIncrement part model_config topic_model =
  let tokens :=
    map (batch_token_obj (pi_batch part)) (Zrange (rsize (batch_token (pi_batch part)))) in
  let rows :=
    map (fun token => increment_row (mc_topics_count model_config)
                                    (tm_has_token topic_model token)) tokens in
  mkModelIncrement (mc_name model_config) (mc_topics_count model_config)
                   (tm_topic_name topic_model) [pi_batch_uuid part]
                   (map token_keyword tokens) (map token_class_id tokens)
                   (map fst rows) (map snd rows) [] [] [].
Proof.
  unfold InitializeModelIncrement.
  generalize (Zrange (rsize (batch_token (pi_batch part)))). intros indices.
  assert (Hgen : forall mi,
    fold_left
      (fun mi token_index =>
         let token := batch_token_obj (pi_batch part) token_index in
         let row := increment_row (mc_topics_count model_config)
                                  (tm_has_token topic_model token) in
         mkModelIncrement (mi_model_name mi) (mi_topics_count mi)
           (mi_topic_name mi) (mi_batch_uuid mi)
           (mi_token mi ++ [token_keyword token])
           (mi_class_id mi ++ [token_class_id token])
           (mi_token_increment mi ++ [fst row])
           (mi_operation_type mi ++ [snd row])
           (mi_cache mi) (mi_score_name mi) (mi_score mi))
      indices mi =
    let tokens := map (batch_token_obj (pi_batch part)) indices in
    let rows :=
      map (fun token => increment_row (mc_topics_count model_config)
                                      (tm_has_token topic_model token)) tokens in
    mkModelIncrement (mi_model_name mi) (mi_topics_count mi)
      (mi_topic_name mi) (mi_batch_uuid mi)
      (mi_token mi ++ map token_keyword tokens)
      (mi_class_id mi ++ map token_class_id tokens)
      (mi_token_increment mi ++ map fst rows)
      (mi_operation_type mi ++ map snd rows)
      (mi_cache mi) (mi_score_name mi) (mi_score mi)).
  { induction indices as [|i indices IH]; intros mi; simpl.
    - destruct mi. simpl. by rewrite !app_nil_r.
    - rewrite IH. simpl. by rewrite <- !app_assoc. }
  rewrite Hgen. done.
Qed.

(** The increment [InitializeModelIncrement] builds has the rows the
    specification words. *)
Lemma InitializeModelIncrement_rows_ok (part : ProcessorInput) (model_config : ModelConfig)
    (topic_model : TopicModel) :
  0 <= mc_topics_count model_config ->
  increment_rows_ok part (mc_topics_count model_config) topic_model
    (InitializeModelIncrement part model_config topic_model).
Proof.
  intros Htopics. rewrite InitializeModelIncrement_unfold.
  unfold increment_rows_ok. simpl.
  repeat split.
  - unfold rsize. by rewrite !length_map, Zrange_length, Nat2Z.id.
  - unfold rsize. by rewrite !length_map, Zrange_length, Nat2Z.id.
  - intros token_index Hi.
    set (row := fun i => increment_row (mc_topics_count model_config)
                           (tm_has_token topic_model (batch_token_obj (pi_batch part) i))).
    assert (Hrow : rget (map fst (map (fun token =>
                      increment_row (mc_topics_count model_config)
                                    (tm_has_token topic_model token))
                      (map (batch_token_obj (pi_batch part))
                           (Zrange (rsize (batch_token (pi_batch part)))))))
                        token_index [] = fst (row token_index) /\
                   rget (map snd (map (fun token =>
                      increment_row (mc_topics_count model_config)
                                    (tm_has_token topic_model token))
                      (map (batch_token_obj (pi_batch part))
                           (Zrange (rsize (batch_token (pi_batch part)))))))
                        token_index CreateIfNotExist = snd (row token_index)).
    { rewrite !map_map. unfold rget. destruct (Z.ltb_spec token_index 0); [lia|].
      unfold rsize in *.
      split.
      - rewrite (nth_indep _ [] (fst (row 0)))
          by (rewrite length_map, Zrange_length; lia).
        rewrite (map_nth (fun i => fst (row i))), nth_Zrange by lia.
        by rewrite Z2Nat.id.
      - rewrite (nth_indep _ CreateIfNotExist (snd (row 0)))
          by (rewrite length_map, Zrange_length; lia).
        rewrite (map_nth (fun i => snd (row i))), nth_Zrange by lia.
        by rewrite Z2Nat.id. }
    destruct Hrow as [-> ->]. unfold row, token_row_ok.
    pose proof (increment_row_length (mc_topics_count model_config)
                  (tm_has_token topic_model (batch_token_obj (pi_batch part) token_index)))
      as Hlen.
    rewrite increment_row_operation.
    destruct (tm_has_token topic_model (batch_token_obj (pi_batch part) token_index)).
    + split; [done|]. unfold rsize. rewrite Hlen. lia.
    + split; [done|]. by apply nil_length_inv.
Qed.

Lemma same_skeleton_refl (mi : ModelIncrement) : same_skeleton mi mi.
Proof. by unfold same_skeleton. Qed.

Lemma same_skeleton_trans (mi1 mi2 mi3 : ModelIncrement) :
  same_skeleton mi1 mi2 -> same_skeleton mi2 mi3 -> same_skeleton mi1 mi3.
Proof.
  unfold same_skeleton. intros (?&?&?&?&?&?&?&?) (?&?&?&?&?&?&?&?).
  repeat split; congruence.
Qed.

Lemma rget_map_length (rows : list (list float)) (i : Z) :
  rget (map (@length float) rows) i O = length (rget rows i []).
Proof.
  unfold rget. destruct (i <? 0); [done|].
  exact (map_nth (@length float) rows [] (Z.to_nat i)).
Qed.

(** The rows stay well-formed along a skeleton. *)
Lemma increment_rows_ok_skeleton (part : ProcessorInput) (topics_count : Z)
    (topic_model : TopicModel) (mi mi' : ModelIncrement) :
  same_skeleton mi mi' ->
  increment_rows_ok part topics_count topic_model mi ->
  increment_rows_ok part topics_count topic_model mi'.
Proof.
  unfold same_skeleton, increment_rows_ok.
  intros (_&_&_&_&_&_&Hops&Hlens) (Hrows & Hopn & Hok).
  assert (Hlen : length (mi_token_increment mi') = length (mi_token_increment mi)).
  { by rewrite <- (length_map (@length float)), Hlens, length_map. }
  repeat split.
  - unfold rsize in *. by rewrite Hlen.
  - by rewrite Hops.
  - intros i Hi. specialize (Hok i Hi). rewrite Hops.
    assert (Hrow : length (rget (mi_token_increment mi') i []) =
                   length (rget (mi_token_increment mi) i [])).
    { by rewrite <- !rget_map_length, Hlens. }
    unfold token_row_ok in *.
    destruct (tm_has_token topic_model (batch_token_obj (pi_batch part) i)).
    + destruct Hok as [-> Hsize]. split; [done|]. unfold rsize in *. by rewrite Hrow.
    + destruct Hok as [-> Hnil]. split; [done|].
      apply nil_length_inv. by rewrite Hrow, Hnil.
Qed.

Lemma map_length_rset (rows : list (list float)) (j : Z) (row : list float) :
  length row = length (rget rows j []) ->
  map (@length float) (rset rows j row) = map (@length float) rows.
Proof.
  unfold rset, rget. intros Hlen. destruct (j <? 0); [done|].
  change (map (@length float)) with (fmap (M := list) (@length float)).
  rewrite list_fmap_insert.
  destruct (rows !! Z.to_nat j) as [old|] eqn:Hold.
  - apply list_insert_id. rewrite list_lookup_fmap, Hold. simpl.
    by rewrite Hlen, (nth_lookup_Some _ _ _ _ Hold).
  - apply list_insert_ge. rewrite length_fmap. by apply lookup_ge_None.
Qed.

Lemma copied_row_length (n_wt : DenseMatrix) (token_index : Z) (indices : list Z)
    (row : list float) :
  length (fold_left
            (fun row topic_index =>
               rset row topic_index (dense_get n_wt token_index topic_index))
            indices row) = length row.
Proof.
  apply (fold_left_invariant (fun r => length r = length row)); [done|].
  intros r k _ Hr. by rewrite rset_length.
Qed.

(** The copy of [n_wt] into the increment keeps its skeleton, whether it
    ends or throws. *)
Lemma copy_nwt_rows_skeleton (n_wt : DenseMatrix) (topic_size : Z)
    (token_indices : list Z) (mi : ModelIncrement) :
  same_skeleton mi (fst (copy_nwt_rows n_wt topic_size token_indices mi)).
Proof.
  revert mi. induction token_indices as [|i rest IH]; intros mi; simpl.
  - apply same_skeleton_refl.
  - destruct (rsize (rget (mi_token_increment mi) i []) =? 0); [apply IH|].
    destruct (negb (rsize (rget (mi_token_increment mi) i []) =? topic_size));
      [apply same_skeleton_refl|].
    destruct (rget (mi_operation_type mi) i CreateIfNotExist); [apply IH|].
    eapply same_skeleton_trans; [|apply IH].
    unfold same_skeleton. simpl. repeat split.
    apply map_length_rset, copied_row_length.
Qed.

(** A row whose length is neither zero nor [topic_size] makes the copy
    throw the internal error. *)
Lemma copy_nwt_rows_bad_length (n_wt : DenseMatrix) (topic_size : Z)
    (token_indices : list Z) (mi : ModelIncrement) (i : Z) :
  i ∈ token_indices ->
  rsize (rget (mi_token_increment mi) i []) <> 0 ->
  rsize (rget (mi_token_increment mi) i []) <> topic_size ->
  snd (copy_nwt_rows n_wt topic_size token_indices mi) =
  Some (InternalError "hat_n_wt_cur->value_size() != topic_size").
Proof.
  revert mi. induction token_indices as [|j rest IH]; intros mi Hin Hne0 Hne; simpl.
  - by apply elem_of_nil in Hin.
  - destruct (Z.eqb_spec (rsize (rget (mi_token_increment mi) j [])) 0) as [H0|H0].
    { apply IH; try done.
      apply elem_of_cons in Hin as [->|Hin]; [by rewrite H0 in Hne0 | done]. }
    destruct (Z.eqb_spec (rsize (rget (mi_token_increment mi) j [])) topic_size)
      as [Hts|Hts]; simpl; [|done].
    assert (Hij : i <> j) by (intros ->; by rewrite Hts in Hne).
    assert (Hrest : i ∈ rest).
    { apply elem_of_cons in Hin as [|]; [congruence | done]. }
    destruct (rget (mi_operation_type mi) j CreateIfNotExist).
    + by apply IH.
    + apply IH; simpl; try done; by rewrite rget_rset_ne.
Qed.

Lemma export_theta_cache_skeleton (env : Environment) (uuids : nat)
    (part : ProcessorInput) (model_name : string) (topic_size : Z)
    (theta_matrix : DenseMatrix) (mi : ModelIncrement) :
  same_skeleton mi
    (fst (export_theta_cache env uuids part model_name topic_size theta_matrix mi)).
Proof.
  unfold export_theta_cache.
  destruct (cfg_cache_theta _); [|apply same_skeleton_refl].
  destruct (theta_columns _ _ _) as [ids thetas].
  destruct (cfg_disk_cache_path _) as [path|]; [destruct (SaveMessage _ _ _ _)|];
    by unfold same_skeleton.
Qed.

Lemma attach_scores_skeleton (container : list (string * Score)) (mi : ModelIncrement) :
  same_skeleton mi
    (fold_left
       (fun mi '(score_name, score) =>
          mkModelIncrement
            (mi_model_name mi) (mi_topics_count mi) (mi_topic_name mi)
            (mi_batch_uuid mi) (mi_token mi) (mi_class_id mi)
            (mi_token_increment mi) (mi_operation_type mi) (mi_cache mi)
            (mi_score_name mi ++ [score_name]) (mi_score mi ++ [score]))
       container mi).
Proof.
  apply (fold_left_invariant (same_skeleton mi)); [apply same_skeleton_refl|].
  intros mi' [score_name score] _ Hmi'.
  eapply same_skeleton_trans; [exact Hmi'|]. by unfold same_skeleton.
Qed.

(** [InitializePhi] returns null only when the model knows no token of
    the batch. *)
Lemma InitializePhi_None (batch : Batch) (model_config : ModelConfig)
    (topic_model : TopicModel) :
  InitializePhi batch model_config topic_model = None ->
  forall token_index, 0 <= token_index < rsize (batch_token batch) ->
    tm_has_token topic_model (batch_token_obj batch token_index) = false.
Proof.
  unfold InitializePhi. intros Hnone i Hi.
  apply elem_of_Zrange in Hi. revert Hnone Hi.
  generalize (Zrange (rsize (batch_token batch))). intros indices.
  generalize (InitializeZeros
                (DenseMatrix_new (rsize (batch_token batch)) (tm_topic_size topic_model) true)).
  intros M0.
  assert (Hgen : forall flag M,
            fst (fold_left
                   (fun (st : bool * DenseMatrix) token_index =>
                      let token := batch_token_obj batch token_index in
                      if tm_has_token topic_model token then
                        (false,
                         fold_left
                           (fun phi topic_index =>
                              dense_set phi token_index topic_index
                                (phi_value (tm_topic_weight topic_model token topic_index)))
                           (Zrange (tm_topic_size topic_model)) (snd st))
                      else st)
                   indices (flag, M)) = true ->
            flag = true /\
            forall j, j ∈ indices -> tm_has_token topic_model (batch_token_obj batch j) = false).
  { induction indices as [|j indices IH]; intros flag M; simpl.
    - intros ->. split; [done|]. intros j Hj. by apply elem_of_nil in Hj.
    - destruct (tm_has_token topic_model (batch_token_obj batch j)) eqn:Hknown; simpl.
      + intros Hfold. by destruct (IH _ _ Hfold).
      + intros Hfold. destruct (IH _ _ Hfold) as [-> Hrest]. split; [done|].
        intros j' Hj'. apply elem_of_cons in Hj' as [->|Hj']; [done | by apply Hrest]. }
  destruct (fold_left _ indices (true, M0)) as [flag M] eqn:Hfold.
  destruct flag; [|discriminate].
  intros _ Hin. destruct (Hgen true M0) as [_ Hall]; [cbv zeta; by rewrite Hfold|].
  by apply Hall.
Qed.

(** Then the skeleton holds no counts. *)
Lemma InitializeModelIncrement_no_counts (part : ProcessorInput)
    (model_config : ModelConfig) (topic_model : TopicModel) :
  InitializePhi (pi_batch part) model_config topic_model = None ->
  no_counts (InitializeModelIncrement part model_config topic_model).
Proof.
  intros Hnone. pose proof (InitializePhi_None _ _ _ Hnone) as Hunknown.
  rewrite InitializeModelIncrement_unfold. unfold no_counts. simpl.
  rewrite !map_map.
  split; apply Forall_forall; intros x Hx; apply list_elem_of_In, in_map_iff in Hx
    as (i & <- & Hi); apply list_elem_of_In, elem_of_Zrange in Hi;
    rewrite (Hunknown i Hi); done.
Qed.

(** ** What the worker pushes *)

(** The three ways the lambda of [ThreadFunction] ends for a model: the
    model is disabled and nothing happens; a check fails before the
    increment exists and nothing is pushed; or one increment is pushed,
    with the skeleton [InitializeModelIncrement] gave it. *)
Lemma process_model_cases (env : Environment) (part : ProcessorInput)
    (locals : BatchLocals) (ws : WorkerState) (model_name : string) :
  exists locals' ws' outcome,
    process_model env part (locals, ws) model_name = (locals', ws', outcome) /\
    ((mc_enabled (schema_model_config (schema_get env) model_name) = false /\
      ws' = ws /\ outcome = Completed) \/
     (mc_enabled (schema_model_config (schema_get env) model_name) = true /\
      ws_pushed ws' = ws_pushed ws /\ outcome <> Completed) \/
     (mc_enabled (schema_model_config (schema_get env) model_name) = true /\
      exists topic_model mi,
        GetLatestTopicModel env model_name = Some topic_model /\
        tm_topic_size topic_model =
          mc_topics_count (schema_model_config (schema_get env) model_name) /\
        ws_pushed ws' = ws_pushed ws ++ [mi] /\
        same_skeleton
          (InitializeModelIncrement part
             (schema_model_config (schema_get env) model_name) topic_model) mi /\
        (InitializePhi (pi_batch part)
           (schema_model_config (schema_get env) model_name) topic_model = None ->
         mi = InitializeModelIncrement part
                (schema_model_config (schema_get env) model_name) topic_model /\
         outcome = Completed))).
Proof.
  unfold process_model.
  set (model_config := schema_model_config (schema_get env) model_name).
  destruct (mc_enabled model_config) eqn:Henabled; simpl.
  2: { do 3 eexists. split; [reflexivity|]. left. done. }
  destruct (rsize (mc_class_id model_config) =? rsize (mc_class_weight model_config));
    simpl.
  2: { do 3 eexists. split; [reflexivity|]. right. left. done. }
  destruct (GetLatestTopicModel env model_name) as [topic_model|] eqn:Hmodel.
  2: { do 3 eexists. split; [reflexivity|]. right. left. done. }
  destruct (Z.eqb_spec (tm_topic_size topic_model) (mc_topics_count model_config))
    as [Hsize|Hsize]; simpl.
  2: { do 3 eexists. split; [reflexivity|]. right. left. done. }
  destruct (InitializeTheta _ _ _ _ _) as [theta_matrix rnd].
  destruct (InitializePhi (pi_batch part) model_config topic_model) as [phi_matrix|]
    eqn:Hphi.
  2: { do 3 eexists. split; [reflexivity|]. right. right. split; [done|].
       exists topic_model, (InitializeModelIncrement part model_config topic_model).
       split; [done|]. split; [done|]. split; [done|].
       split; [apply same_skeleton_refl | done]. }
  match goal with
  | |- context [let '(n_wt, theta) := ?calc in _] => destruct calc as [n_wt theta']
  end.
  pose proof (copy_nwt_rows_skeleton n_wt (tm_topic_size topic_model)
                (Zrange (no_rows n_wt))
                (InitializeModelIncrement part model_config topic_model)) as Hcopy.
  destruct (copy_nwt_rows _ _ _ _) as [mi' [e|]]; simpl in Hcopy.
  { do 3 eexists. split; [reflexivity|]. right. right. split; [done|].
    exists topic_model, mi'.
    split; [done|]. split; [done|]. split; [done|]. split; [exact Hcopy|].
    intros Hnone. congruence. }
  pose proof (export_theta_cache_skeleton env (ws_uuids ws) part model_name
                (tm_topic_size topic_model) theta' mi') as Hexport.
  destruct (export_theta_cache _ _ _ _ _ _ _) as [mi'' uuids]; simpl in Hexport.
  do 3 eexists. split; [reflexivity|]. right. right. split; [done|].
  eexists topic_model, _.
  split; [done|]. split; [done|]. split; [reflexivity|]. split.
  - eapply same_skeleton_trans; [exact Hcopy|].
    eapply same_skeleton_trans; [exact Hexport|].
    apply attach_scores_skeleton.
  - intros Hnone. congruence.
Qed.

(** C7. Every increment the worker pushes for a model gives each token of
    the batch a row with operation [IncrementValue] and exactly
    [topics_count] values when the snapshot has the token, and with
    operation [CreateIfNotExist] and no value when it has not; and the
    copy of [n_wt] after the EM loop throws the internal error on any row
    whose length is neither zero nor [topic_size]. *)
Theorem increment_rows_by_token (env : Environment) (part : ProcessorInput)
    (locals : BatchLocals) (ws : WorkerState) (model_name : string)
    (topic_model : TopicModel) (mi : ModelIncrement) :
  GetLatestTopicModel env model_name = Some topic_model ->
  0 <= tm_topic_size topic_model ->
  ws_pushed (snd (fst (process_model env part (locals, ws) model_name))) =
    ws_pushed ws ++ [mi] ->
  increment_rows_ok part
    (mc_topics_count (schema_model_config (schema_get env) model_name)) topic_model mi /\
  forall (n_wt : DenseMatrix) (topic_size : Z) (any : ModelIncrement) (token_index : Z),
    0 <= token_index < no_rows n_wt ->
    rsize (rget (mi_token_increment any) token_index []) <> 0 ->
    rsize (rget (mi_token_increment any) token_index []) <> topic_size ->
    snd (copy_nwt_rows n_wt topic_size (Zrange (no_rows n_wt)) any) =
    Some (InternalError "hat_n_wt_cur->value_size() != topic_size").
Proof.
  intros Hmodel Htopics Hpushed. split.
  - destruct (process_model_cases env part locals ws model_name)
      as (locals' & ws' & outcome & Heq & Hcases).
    rewrite Heq in Hpushed. simpl in Hpushed.
    destruct Hcases as [(_ & -> & _) | [(_ & Hsame & _) | (_ & tm & mi0 & Hm & Hsz & Hp & Hsk & _)]].
    + apply (f_equal length) in Hpushed. rewrite length_app in Hpushed. simpl in Hpushed. lia.
    + rewrite Hsame in Hpushed.
      apply (f_equal length) in Hpushed. rewrite length_app in Hpushed. simpl in Hpushed. lia.
    + rewrite Hp in Hpushed. apply app_inj_tail in Hpushed as [_ <-].
      rewrite Hmodel in Hm. injection Hm as <-.
      eapply increment_rows_ok_skeleton; [exact Hsk|].
      apply InitializeModelIncrement_rows_ok. lia.
  - intros n_wt topic_size any token_index Hi Hne0 Hne.
    apply (copy_nwt_rows_bad_length n_wt topic_size _ any token_index); try done.
    by apply elem_of_Zrange.
Qed.

Lemma increment_rows_by_token_witness :
  increment_rows_ok sample_input 2 sample_topic_model sample_pushed /\
  forall (n_wt : DenseMatrix) (topic_size : Z) (any : ModelIncrement) (token_index : Z),
    0 <= token_index < no_rows n_wt ->
    rsize (rget (mi_token_increment any) token_index []) <> 0 ->
    rsize (rget (mi_token_increment any) token_index []) <> topic_size ->
    snd (copy_nwt_rows n_wt topic_size (Zrange (no_rows n_wt)) any) =
    Some (InternalError "hat_n_wt_cur->value_size() != topic_size").
Proof.
  apply (increment_rows_by_token sample_env sample_input (mkBatchLocals None None)
           fresh_worker "model" sample_topic_model sample_pushed).
  - reflexivity.
  - simpl. lia.
  - vm_compute. reflexivity.
Defined.

(** The sample increment: token [a] is known and gets two counts, token
    [b] is not and gets none. *)
Example sample_pushed_rows :
  mi_operation_type sample_pushed = [IncrementValue; CreateIfNotExist] /\
  map (@length float) (mi_token_increment sample_pushed) = [2%nat; 0%nat].
Proof. split; reflexivity. Qed.

(** The loop over the models: when it completes, it has pushed one
    increment for each enabled model it went through, in order. *)
Lemma for_each_model_pushes (env : Environment) (part : ProcessorInput)
    (model_names : list string) (locals : BatchLocals) (ws : WorkerState) :
  snd (for_each_model env part model_names (locals, ws)) = Completed ->
  exists pushed,
    ws_pushed (snd (fst (for_each_model env part model_names (locals, ws)))) =
      ws_pushed ws ++ pushed /\
    Forall2 (pushed_for env part)
      (filter (fun model_name =>
                 mc_enabled (schema_model_config (schema_get env) model_name) = true)
              model_names)
      pushed.
Proof.
  revert locals ws. induction model_names as [|model_name rest IH]; intros locals ws;
    cbn [for_each_model].
  - intros _. exists []. split; [by rewrite app_nil_r | constructor].
  - destruct (process_model_cases env part locals ws model_name)
      as (locals' & ws' & outcome & Heq & Hcases).
    rewrite Heq.
    destruct outcome; cbn [fst snd]; try discriminate.
    intros Hrest. destruct (IH locals' ws' Hrest) as (pushed & Hpushed & Hall).
    rewrite Hpushed.
    destruct Hcases as [(Hoff & -> & _) | [(_ & _ & Hne) | (Hon & tm & mi & Hm & _ & Hp & Hsk & Hempty)]].
    + exists pushed. split; [done|].
      rewrite filter_cons_False; [done|]. rewrite Hoff. discriminate.
    + done.
    + exists (mi :: pushed). split.
      * rewrite Hp, <- app_assoc. done.
      * rewrite filter_cons_True by done. constructor; [|done].
        exists tm. split; [done|]. split; [done|].
        intros Hnone. destruct (Hempty Hnone) as [-> _]. split; [done|].
        by apply InitializeModelIncrement_no_counts.
Qed.

(** C3 (as amended). For every batch the worker processes to completion,
    that is without a fatal error, exactly one [ModelIncrement] is pushed
    onto the merger queue for every enabled model of the schema, in the
    order of the schema; this includes the models whose [Phi] is empty for
    the batch, for which the increment is the skeleton
    [InitializeModelIncrement] built, without counts. *)
Theorem one_increment_per_enabled_model (env : Environment) (part : ProcessorInput)
    (ws : WorkerState) :
  snd (process_batch env part ws) = Completed ->
  exists pushed,
    ws_pushed (fst (process_batch env part ws)) = ws_pushed ws ++ pushed /\
    Forall2 (pushed_for env part) (enabled_models env) pushed.
Proof.
  unfold process_batch, enabled_models.
  destruct (negb (rsize (batch_class_id (pi_batch part)) =?
                  rsize (batch_token (pi_batch part)))); [discriminate|].
  pose proof (for_each_model_pushes env part (GetModelNames (schema_get env))
                (mkBatchLocals None None) ws) as Hloop.
  destruct (for_each_model env part (GetModelNames (schema_get env))
              (mkBatchLocals None None, ws)) as [[locals' ws'] outcome].
  simpl in *. exact Hloop.
Qed.

Lemma one_increment_per_enabled_model_witness :
  exists pushed,
    ws_pushed (fst (process_batch sample_env sample_input fresh_worker)) =
      ws_pushed fresh_worker ++ pushed /\
    Forall2 (pushed_for sample_env sample_input) (enabled_models sample_env) pushed.
Proof.
  apply (one_increment_per_enabled_model sample_env sample_input fresh_worker).
  vm_compute. reflexivity.
Defined.

(** C3, counterexample. The sample model is enabled, but its config
    counts two topics where the snapshot has three: the batch is pulled,
    the check of the topic counts throws before the increment exists,
    and nothing is pushed. *)
Lemma no_increment_on_fatal_error :
  process_batch mismatched_env sample_input fresh_worker =
    (fresh_worker,
     Thrown (InternalError
       "Topics count mismatch between model config and physical model representation")) /\
  enabled_models mismatched_env = ["model"]%string.
Proof. vm_compute. split; reflexivity. Qed.

(** A model that knows no token of the batch: [Phi] is empty and the
    skeleton is pushed all the same. *)
Example empty_phi_pushes_skeleton :
  process_batch (env_of sample_config (Some blank_topic_model)) sample_input fresh_worker =
  (mkWorkerState 0 0
     [InitializeModelIncrement sample_input sample_config blank_topic_model],
   Completed) /\
  mi_operation_type (InitializeModelIncrement sample_input sample_config blank_topic_model) =
    [CreateIfNotExist; CreateIfNotExist].
Proof. vm_compute. split; reflexivity. Qed.

(** ** The one-shot query *)



(** The three outcomes on the sample batch: the sample model, a name the
    merger does not know, and a snapshot of the wrong topic size. *)
Example find_theta_matrix_samples :
  FindThetaMatrix sample_env 0 (pi_batch sample_input) sample_args empty_ThetaMatrix =
    Returns
      (mkThetaMatrix "model" [1; 2]
         [[Float32.div Float32.one (Float32.of_int 2);
           Float32.div Float32.one (Float32.of_int 2)];
          [Float32.zero; Float32.zero]]
         ["t0"; "t1"]%string, O) /\
  FindThetaMatrix (env_of sample_config None) 0 (pi_batch sample_input) sample_args
                  empty_ThetaMatrix =
    Throws (ArgumentOutOfRangeException "Unable to find topic model" "model") /\
  FindThetaMatrix mismatched_env 0 (pi_batch sample_input) sample_args empty_ThetaMatrix =
    Throws (InternalError
      "Topics count mismatch between model config and physical model representation").
Proof. vm_compute. repeat split; reflexivity. Qed.

(* ================================================================== *)
(** * Part III: further properties of the code                         *)
(* ================================================================== *)

(** ** Walking the items of a batch *)

Lemma Zrange_from_cons (lo hi : Z) :
  lo < hi -> Zrange_from lo hi = lo :: Zrange_from (lo + 1) hi.
Proof.
  intros Hlt. unfold Zrange_from.
  replace (Z.to_nat (hi - lo)) with (S (Z.to_nat (hi - (lo + 1)))) by lia.
  simpl. f_equal; [lia|].
  rewrite <- seq_shift, map_map. apply map_ext. intros k. lia.
Qed.

Lemma Zrange_from_empty (lo hi : Z) : hi <= lo -> Zrange_from lo hi = [].
Proof.
  intros Hle. unfold Zrange_from. by replace (Z.to_nat (hi - lo)) with O by lia.
Qed.

(** The indices the loop of [Next] goes over without breaking. *)
Lemma Next_loop_skips (rounds : nat) (it : StreamIterator) (j : Z) :
  item_index_ it < j < item_index_ (Next_loop rounds it) ->
  Next_stops (cursor_at it j) = false.
Proof.
  revert it. induction rounds as [|rounds IH]; intros it; simpl.
  - destruct (Next_stops (advance it)); simpl; lia.
  - destruct (Next_stops (advance it)) eqn:Hstop; simpl; [lia|].
    intros Hj. destruct (decide (j = item_index_ it + 1)) as [->|Hne].
    + exact Hstop.
    + apply (IH (advance it)). simpl. lia.
Qed.

Lemma Next_loop_fields (rounds : nat) (it : StreamIterator) :
  stream_flags_ (Next_loop rounds it) = stream_flags_ it /\
  processor_input_ (Next_loop rounds it) = processor_input_ it.
Proof.
  revert it. induction rounds as [|rounds IH]; intros it; simpl;
    destruct (Next_stops (advance it)); try done.
  apply (IH (advance it)).
Qed.

(** X1. [Next] moves the cursor forward to the first index at which its loop
    breaks: the first item after the current one that the flags of the
    iterator include, or the end of the items; it steps over the items
    before it, and it returns what [Current] returns there.  An iterator
    without flags, as the constructor makes it, moves by one. *)
Theorem Next_first_included (it : StreamIterator) :
  let it' := fst (Next it) in
  it' = cursor_at it (item_index_ it') /\
  item_index_ it < item_index_ it' /\
  Next_stops it' = true /\
  (forall j, item_index_ it < j < item_index_ it' -> Next_stops (cursor_at it j) = false) /\
  snd (Next it) = Current it' /\
  (stream_flags_ it = None -> item_index_ it' = item_index_ it + 1).
Proof.
  intros it'. unfold it', Next. simpl.
  set (rounds := Z.to_nat (items_count_ it - item_index_ it)).
  split; [|split; [|split; [|split; [|split]]]].
  - unfold cursor_at. rewrite <- (Next_loop_items_count rounds it).
    destruct (Next_loop_fields rounds it) as [<- <-]. by destruct (Next_loop rounds it).
  - apply Next_loop_index.
  - apply Next_loop_stops. lia.
  - intros j. apply Next_loop_skips.
  - done.
  - intros Hflags. destruct rounds; simpl; unfold Next_stops; simpl; rewrite Hflags;
      by rewrite orb_true_r.
Qed.

(** The score loop from any cursor of an iterator without flags: it
    visits the items after the cursor, in order. *)
Lemma score_items_from (rounds : nat) (schema : InstanceSchema) (topic_model : TopicModel)
    (token_dict : list Token) (topic_size : Z) (theta_matrix : DenseMatrix)
    (it : StreamIterator) (container : list (string * Score)) :
  stream_flags_ it = None ->
  items_count_ it - item_index_ it <= Z.of_nat rounds ->
  score_items rounds schema topic_model token_dict topic_size theta_matrix it container =
  fold_left
    (fun container i =>
       append_scores schema topic_model token_dict topic_size theta_matrix
         (cursor_at it i) (batch_item_at (pi_batch (processor_input_ it)) i) container)
    (Zrange_from (item_index_ it + 1) (items_count_ it)) container.
Proof.
  revert it container. induction rounds as [|rounds IH]; intros it container Hflags Hfuel.
  - simpl. rewrite Zrange_from_empty by lia. done.
  - cbn [score_items].
    assert (Hnext : Next it = (advance it, Current (advance it))).
    { unfold Next. simpl.
      destruct (Z.to_nat (items_count_ it - item_index_ it)); simpl;
        unfold Next_stops; simpl; rewrite Hflags, orb_true_r; done. }
    rewrite Hnext. unfold Current. simpl.
    destruct (Z.geb_spec (item_index_ it + 1) (items_count_ it)) as [Hend|Hin].
    + rewrite Zrange_from_empty by lia. done.
    + rewrite Zrange_from_cons by lia. simpl.
      rewrite (IH (advance it)); simpl; [|done|lia].
      done.
Qed.

(** X2. The loop of [ThreadFunction] over the items of a batch,
    [while (iter.Next() != nullptr)] on a fresh iterator, visits every
    item of the batch once, in order, with the cursor at its index. *)
Theorem score_loop_visits_every_item (schema : InstanceSchema) (topic_model : TopicModel)
    (token_dict : list Token) (topic_size : Z) (theta_matrix : DenseMatrix)
    (part : ProcessorInput) (container : list (string * Score)) :
  score_items (S (length (batch_item (pi_batch part)))) schema topic_model token_dict
              topic_size theta_matrix (StreamIterator_new part) container =
  fold_left
    (fun container i =>
       append_scores schema topic_model token_dict topic_size theta_matrix
         (cursor_at (StreamIterator_new part) i) (batch_item_at (pi_batch part) i) container)
    (Zrange (rsize (batch_item (pi_batch part)))) container.
Proof.
  rewrite score_items_from.
  - simpl. by rewrite Zrange_from_0.
  - done.
  - simpl. unfold rsize. lia.
Qed.

(** X3. The two overloads of [InStream] and the mask the worker picks for a
    model agree on the items of the batch: at a valid cursor,
    [InStream(name)] is [InStream(index of name)], and for the stream
    name of a model it is whether the accumulation of [n_wt] keeps the
    item.  Past the last item [InStream(name)] is false, also where
    [InStream(-1)] is true. *)
Theorem InStream_by_name_and_by_index (it : StreamIterator) (stream_name : string)
    (model_config : ModelConfig) :
  (item_index_ it < items_count_ it ->
   InStream it stream_name =
     InStream_index it
       (repeated_field_index_of (pi_stream_name (processor_input_ it)) stream_name) /\
   InStream it (mc_stream_name model_config) =
     mask_keeps (model_stream_mask (processor_input_ it) model_config) (item_index_ it)) /\
  (items_count_ it <= item_index_ it ->
   InStream it stream_name = false /\ InStream_index it (-1) = true).
Proof.
  unfold InStream, InStream_index, model_stream_mask, mask_keeps. split.
  - intros Hin. destruct (Z.geb_spec (item_index_ it) (items_count_ it)); [lia|].
    split.
    + by destruct (_ =? -1).
    + by destruct (_ =? -1).
  - intros Hend. destruct (Z.geb_spec (item_index_ it) (items_count_ it)); [|lia]. done.
Qed.

(** ** Dense matrices *)

Lemma fold_rset_length {A : Type} (f : Z -> A) (ks : list Z) (l : list A) :
  length (fold_left (fun l k => rset l k (f k)) ks l) = length l.
Proof.
  apply (fold_left_invariant (fun l' => length l' = length l)); [done|].
  intros l' k _ Hl'. by rewrite rset_length.
Qed.

Lemma fold_rset_get_other {A : Type} (f : Z -> A) (ks : list Z) (l : list A) (k : Z) (d : A) :
  k ∉ ks -> rget (fold_left (fun l k' => rset l k' (f k')) ks l) k d = rget l k d.
Proof.
  revert l. induction ks as [|k0 ks IH]; intros l Hk; simpl; [done|].
  apply not_elem_of_cons in Hk as [Hne Hk].
  rewrite IH by done. by apply rget_rset_ne.
Qed.


(** X4. [operator()]: in either orientation a cell that is written reads
    back the value written, every other cell keeps its value and the
    shape of the matrix stays as it is. *)
Theorem dense_cell_write_then_read (M : DenseMatrix) (r c r' c' : Z) (v : float) :
  dense_wf M ->
  0 <= r < no_rows M -> 0 <= c < no_columns M ->
  0 <= r' < no_rows M -> 0 <= c' < no_columns M ->
  same_shape M (dense_set M r c v) /\
  dense_get (dense_set M r c v) r' c' =
    if (r =? r') && (c =? c') then v else dense_get M r' c'.
Proof.
  intros Hwf Hr Hc Hr' Hc'. split; [apply dense_set_same_shape|].
  destruct (Z.eqb_spec r r') as [->|Hne]; simpl.
  - destruct (Z.eqb_spec c c') as [->|Hne].
    + by apply dense_get_set_eq.
    + apply dense_get_set_ne; try done. intros [=]. done.
  - apply dense_get_set_ne; try done. intros [=]. done.
Qed.

Lemma dense_cell_write_then_read_witness :
  same_shape sample_column_major (dense_set sample_column_major 1 2 Float32.zero) /\
  dense_get (dense_set sample_column_major 1 2 Float32.zero) 0 2 =
    if (1 =? 0) && (2 =? 2) then Float32.zero else dense_get sample_column_major 0 2.
Proof.
  apply (dense_cell_write_then_read sample_column_major 1 2 0 2 Float32.zero).
  - unfold dense_wf, rsize. simpl. lia.
  - simpl. lia.
  - simpl. lia.
  - simpl. lia.
  - simpl. lia.
Defined.



(** ** Element-wise operations *)

Lemma ApplyByElement_0_same_shape (result first second : DenseMatrix) :
  same_shape result (ApplyByElement_0 result first second).
Proof.
  unfold same_shape, ApplyByElement_0. simpl.
  by rewrite (fold_rset_length
                (fun i => Float32.mul (rget (get_data first) i Float32.zero)
                                      (rget (get_data second) i Float32.zero))).
Qed.

Lemma ApplyByElement_1_same_shape (result first second : DenseMatrix) :
  same_shape result (ApplyByElement_1 result first second).
Proof.
  unfold same_shape, ApplyByElement_1. simpl.
  by rewrite (fold_rset_length
                (fun i => safe_div (rget (get_data first) i Float32.zero)
                                   (rget (get_data second) i Float32.zero))).
Qed.

(** X6. [ApplyByElement] works on the buffers, position by position; for
    three matrices of one shape and orientation that is cell by cell:
    operation 0 leaves the products of the cells in the result,
    operation 1 their guarded quotients, and the result keeps its shape.
    This holds, too, when the result is one of the operands, as in every
    call of the processor. *)
Theorem ApplyByElement_cells (result first second : DenseMatrix) (r c : Z) :
  dense_wf first ->
  same_shape first second ->
  same_shape first result ->
  0 <= r < no_rows first -> 0 <= c < no_columns first ->
  same_shape result (ApplyByElement_0 result first second) /\
  same_shape result (ApplyByElement_1 result first second) /\
  dense_get (ApplyByElement_0 result first second) r c =
    Float32.mul (dense_get first r c) (dense_get second r c) /\
  dense_get (ApplyByElement_1 result first second) r c =
    safe_div (dense_get first r c) (dense_get second r c).
Proof.
  intros Hwf Hsecond Hresult Hr Hc.
  split; [apply ApplyByElement_0_same_shape|].
  split; [apply ApplyByElement_1_same_shape|].
  pose proof (dense_offset_range first r c Hwf Hr Hc) as Hoff.
  pose proof Hwf as (_ & _ & Hsize).
  assert (Hlen : length (get_data result) = length (get_data first)) by apply Hresult.
  unfold dense_get.
  rewrite (same_shape_offset result (ApplyByElement_0 result first second))
    by apply ApplyByElement_0_same_shape.
  rewrite (same_shape_offset result (ApplyByElement_1 result first second))
    by apply ApplyByElement_1_same_shape.
  rewrite !(same_shape_offset first result) by done.
  rewrite !(same_shape_offset first second) by done.
  unfold ApplyByElement_0, ApplyByElement_1. simpl.
  split.
  - apply (fold_rset_get
             (fun i => Float32.mul (rget (get_data first) i Float32.zero)
                                   (rget (get_data second) i Float32.zero))).
    + intros k Hk. apply elem_of_Zrange in Hk. unfold rsize in *. lia.
    + apply elem_of_Zrange. lia.
  - apply (fold_rset_get
             (fun i => safe_div (rget (get_data first) i Float32.zero)
                                (rget (get_data second) i Float32.zero))).
    + intros k Hk. apply elem_of_Zrange in Hk. unfold rsize in *. lia.
    + apply elem_of_Zrange. lia.
Qed.

Lemma ApplyByElement_cells_witness :
  same_shape sample_column_major
    (ApplyByElement_0 sample_column_major sample_column_major sample_column_major) /\
  same_shape sample_column_major
    (ApplyByElement_1 sample_column_major sample_column_major sample_column_major) /\
  dense_get (ApplyByElement_0 sample_column_major sample_column_major sample_column_major)
            1 2 =
    Float32.mul (dense_get sample_column_major 1 2) (dense_get sample_column_major 1 2) /\
  dense_get (ApplyByElement_1 sample_column_major sample_column_major sample_column_major)
            1 2 =
    safe_div (dense_get sample_column_major 1 2) (dense_get sample_column_major 1 2).
Proof.
  apply (ApplyByElement_cells sample_column_major sample_column_major sample_column_major 1 2).
  - unfold dense_wf, rsize. simpl. lia.
  - apply same_shape_refl.
  - apply same_shape_refl.
  - simpl. lia.
  - simpl. lia.
Defined.

(** ** The initial [Theta] *)

Lemma fold_left_fst_only {A B S : Type} (g : A -> B -> A) (l : list B) (a : A) (s : S) :
  fold_left (fun (st : A * S) b => (g (fst st) b, snd st)) l (a, s) = (fold_left g l a, s).
Proof. revert a. induction l as [|b l IH]; intros a; simpl; [done | apply IH]. Qed.

Lemma fold_left_ext_in {A B : Type} (f g : A -> B -> A) (l : list B) (a : A) :
  (forall a b, b ∈ l -> f a b = g a b) -> fold_left f l a = fold_left g l a.
Proof.
  revert a. induction l as [|b l IH]; intros a Hext; simpl; [done|].
  rewrite (Hext a b) by left. apply IH. intros a' b' Hb'. apply Hext. by right.
Qed.

(** A column filled from the random source takes consecutive draws. *)
Lemma random_column_fold (G : nat -> float) (d : Z) (len a : nat) (M : DenseMatrix) (n : nat) :
  fold_left (fun (st : DenseMatrix * nat) k =>
               (dense_set (fst st) k d (G (snd st)), S (snd st)))
            (map Z.of_nat (seq a len)) (M, n) =
  (fold_left (fun M k => dense_set M k d (G (n + (Z.to_nat k - a))%nat))
             (map Z.of_nat (seq a len)) M,
   (n + len)%nat).
Proof.
  revert a M n. induction len as [|len IH]; intros a M n; simpl.
  - f_equal. lia.
  - rewrite IH. f_equal; [|lia].
    rewrite Nat2Z.id, Nat.sub_diag, Nat.add_0_r.
    apply fold_left_ext_in. intros M' k Hk.
    apply list_elem_of_fmap in Hk as (j & -> & Hj). apply elem_of_seq in Hj.
    rewrite Nat2Z.id. do 2 f_equal. lia.
Qed.

Lemma InitializeTheta_loop (G : nat -> float) (rnd : nat) (batch : Batch)
    (model_config : ModelConfig) (cache : option DataLoaderCacheEntry) :
  InitializeTheta G rnd batch model_config cache =
  fold_left (InitializeTheta_item G batch model_config cache)
    (Zrange (rsize (batch_item batch)))
    (InitializeZeros
       (DenseMatrix_new (mc_topics_count model_config) (rsize (batch_item batch))
                        (negb (mc_use_sparse_bow model_config))),
     rnd).
Proof.
  unfold InitializeTheta. by destruct (mc_use_sparse_bow model_config).
Qed.

(** The column one round of the loop writes, and the draws it makes. *)
Lemma InitializeTheta_item_column (G : nat -> float) (batch : Batch)
    (model_config : ModelConfig) (cache : option DataLoaderCacheEntry)
    (M : DenseMatrix) (n : nat) (d : Z) :
  InitializeTheta_item G batch model_config cache (M, n) d =
  (fold_left
     (fun M k =>
        dense_set M k d
          (if negb (cached_column_index batch model_config cache d =? -1) then
             rget (rget (ce_theta (default empty_CacheEntry cache))
                        (cached_column_index batch model_config cache d) [])
                  k Float32.zero
           else if mc_use_random_theta model_config then G (n + Z.to_nat k)%nat
           else Float32.div Float32.one (Float32.of_int (mc_topics_count model_config))))
     (Zrange (mc_topics_count model_config)) M,
   if negb (cached_column_index batch model_config cache d =? -1) then n
   else if mc_use_random_theta model_config
   then (n + Z.to_nat (mc_topics_count model_config))%nat
   else n).
Proof.
  unfold InitializeTheta_item.
  fold (cached_column_index batch model_config cache d).
  destruct (negb (cached_column_index batch model_config cache d =? -1)) eqn:Hidx.
  - assert (Hreuse : mc_reuse_theta model_config = true).
    { unfold cached_column_index in Hidx.
      destruct cache; [|done]. by destruct (mc_reuse_theta model_config). }
    rewrite Hreuse. simpl.
    apply (fold_left_fst_only
             (fun M k => dense_set M k d
                (rget (rget (ce_theta (default empty_CacheEntry cache))
                            (cached_column_index batch model_config cache d) [])
                      k Float32.zero))).
  - simpl. destruct (mc_use_random_theta model_config).
    + unfold Zrange. rewrite random_column_fold. f_equal.
      apply fold_left_ext_in. intros M' k Hk.
      apply list_elem_of_fmap in Hk as (j & -> & Hj).
      by rewrite Nat.sub_0_r.
    + apply (fold_left_fst_only
               (fun M k => dense_set M k d
                  (Float32.div Float32.one (Float32.of_int (mc_topics_count model_config))))).
Qed.

Lemma fresh_items_before_succ (batch : Batch) (model_config : ModelConfig)
    (cache : option DataLoaderCacheEntry) (m : nat) :
  fresh_items_before batch model_config cache (Z.of_nat (S m)) =
  (fresh_items_before batch model_config cache (Z.of_nat m) +
   if negb (cached_column_index batch model_config cache (Z.of_nat m) =? -1)%Z
   then 0 else 1)%nat.
Proof.
  unfold fresh_items_before.
  replace (Z.of_nat (S m)) with (Z.of_nat m + 1) by lia.
  rewrite Zrange_succ by lia. rewrite filter_app, length_app. f_equal.
  destruct (Z.eqb_spec (cached_column_index batch model_config cache (Z.of_nat m)) (-1))
    as [Heq|Hne]; simpl.
  - by rewrite filter_cons_True.
  - by rewrite filter_cons_False.
Qed.

(** The loop of [InitializeTheta] after its first [m] rounds. *)
Lemma InitializeTheta_rounds (G : nat -> float) (rnd : nat) (batch : Batch)
    (model_config : ModelConfig) (cache : option DataLoaderCacheEntry) (m : nat) :
  0 <= mc_topics_count model_config ->
  (m <= length (batch_item batch))%nat ->
  let Theta0 :=
    InitializeZeros
      (DenseMatrix_new (mc_topics_count model_config) (rsize (batch_item batch))
                       (negb (mc_use_sparse_bow model_config))) in
  let st := fold_left (InitializeTheta_item G batch model_config cache)
                      (Zrange (Z.of_nat m)) (Theta0, rnd) in
  same_shape Theta0 (fst st) /\
  snd st = (rnd + if mc_use_random_theta model_config
                  then fresh_items_before batch model_config cache (Z.of_nat m) *
                       Z.to_nat (mc_topics_count model_config)
                  else 0)%nat /\
  forall k d, 0 <= k < mc_topics_count model_config -> 0 <= d < rsize (batch_item batch) ->
    dense_get (fst st) k d =
    if d <? Z.of_nat m
    then initial_theta_cell G rnd batch model_config cache k d
    else Float32.zero.
Proof.
  intros Htopics Hm Theta0.
  assert (Hwf0 : dense_wf Theta0).
  { eapply same_shape_wf; [apply InitializeZeros_same_shape|].
    apply DenseMatrix_new_wf; [done | unfold rsize; lia]. }
  induction m as [|m IH].
  - simpl. split; [apply same_shape_refl|]. split.
    + unfold fresh_items_before. simpl. by destruct (mc_use_random_theta model_config).
    + intros k d Hk Hd. destruct (Z.ltb_spec d (Z.of_nat 0)); [lia|].
      unfold Theta0. apply InitializeZeros_get.
  - replace (Z.of_nat (S m)) with (Z.of_nat m + 1) by lia.
    rewrite Zrange_succ by lia. rewrite fold_left_app. simpl.
    destruct IH as (Hshape & Hcount & Hcells); [lia|].
    destruct (fold_left (InitializeTheta_item G batch model_config cache)
                        (Zrange (Z.of_nat m)) (Theta0, rnd)) as [M n].
    simpl in Hshape, Hcount, Hcells.
    rewrite InitializeTheta_item_column. cbn [fst snd].
    pose proof Hshape as (Hr & Hc & _ & _).
    assert (Hrows : no_rows M = mc_topics_count model_config) by (rewrite Hr; done).
    assert (Hcols : no_columns M = rsize (batch_item batch)) by (rewrite Hc; done).
    set (f := fun k : Z =>
           if negb (cached_column_index batch model_config cache (Z.of_nat m) =? -1) then
             rget (rget (ce_theta (default empty_CacheEntry cache))
                        (cached_column_index batch model_config cache (Z.of_nat m)) [])
                  k Float32.zero
           else if mc_use_random_theta model_config then G (n + Z.to_nat k)%nat
           else Float32.div Float32.one (Float32.of_int (mc_topics_count model_config))).
    assert (Hcol : forall k d,
              0 <= k < mc_topics_count model_config -> 0 <= d < rsize (batch_item batch) ->
              same_shape M (fold_left (fun M k' => dense_set M k' (Z.of_nat m) (f k'))
                                      (Zrange (mc_topics_count model_config)) M) /\
              dense_get (fold_left (fun M k' => dense_set M k' (Z.of_nat m) (f k'))
                                   (Zrange (mc_topics_count model_config)) M) k d =
              if decide (d = Z.of_nat m /\ k ∈ Zrange (mc_topics_count model_config))
              then f k else dense_get M k d).
    { intros k d Hk Hd. apply write_column_get.
      - apply NoDup_Zrange.
      - by eapply same_shape_wf.
      - intros k' Hk'. apply elem_of_Zrange in Hk'. lia.
      - unfold rsize in *. lia.
      - lia.
      - lia. }
    split; [|split].
    + destruct (Z_le_gt_dec (mc_topics_count model_config) 0) as [Hle|Hgt].
      * rewrite Zrange_nonpos by done. simpl. exact Hshape.
      * destruct (Hcol 0 (Z.of_nat m)) as [Hs _]; [lia | unfold rsize; lia|].
        unfold f in Hs. cbv beta in Hs. by eapply same_shape_trans.
    + replace (Z.of_nat m + 1) with (Z.of_nat (S m)) by lia.
      rewrite fresh_items_before_succ, Hcount.
      destruct (negb (cached_column_index batch model_config cache (Z.of_nat m) =? -1));
        destruct (mc_use_random_theta model_config); nia.
    + intros k d Hk Hd. destruct (Hcol k d Hk Hd) as [_ Hget].
      unfold f in Hget. cbv beta in Hget. rewrite Hget. clear Hget.
      destruct (decide (d = Z.of_nat m /\ k ∈ Zrange (mc_topics_count model_config)))
        as [[-> _]|Hn].
      * destruct (Z.ltb_spec (Z.of_nat m) (Z.of_nat m + 1)); [|lia].
        unfold initial_theta_cell.
        destruct (negb (cached_column_index batch model_config cache (Z.of_nat m) =? -1));
          [done|].
        destruct (mc_use_random_theta model_config); [|done].
        rewrite Hcount. done.
      * assert (Hne : d <> Z.of_nat m).
        { intros ->. apply Hn. split; [done|]. by apply elem_of_Zrange. }
        rewrite Hcells by done.
        destruct (Z.ltb_spec d (Z.of_nat m)), (Z.ltb_spec d (Z.of_nat m + 1)); try done; lia.
Qed.

(** [InitializeTheta] in closed form: its shape, its cells and the draws
    it makes. *)
Lemma InitializeTheta_cells (G : nat -> float) (rnd : nat) (batch : Batch)
    (model_config : ModelConfig) (cache : option DataLoaderCacheEntry) :
  0 <= mc_topics_count model_config ->
  same_shape
    (InitializeZeros
       (DenseMatrix_new (mc_topics_count model_config) (rsize (batch_item batch))
                        (negb (mc_use_sparse_bow model_config))))
    (fst (InitializeTheta G rnd batch model_config cache)) /\
  snd (InitializeTheta G rnd batch model_config cache) =
    (rnd + if mc_use_random_theta model_config
           then fresh_items_before batch model_config cache (rsize (batch_item batch)) *
                Z.to_nat (mc_topics_count model_config)
           else 0)%nat /\
  forall k d, 0 <= k < mc_topics_count model_config -> 0 <= d < rsize (batch_item batch) ->
    dense_get (fst (InitializeTheta G rnd batch model_config cache)) k d =
    initial_theta_cell G rnd batch model_config cache k d.
Proof.
  intros Htopics. rewrite InitializeTheta_loop.
  destruct (InitializeTheta_rounds G rnd batch model_config cache
              (length (batch_item batch)) Htopics (le_n _)) as (Hshape & Hcount & Hcells).
  fold (rsize (batch_item batch)) in Hshape, Hcount, Hcells.
  split; [exact Hshape|]. split; [exact Hcount|].
  intros k d Hk Hd. rewrite Hcells by done.
  destruct (Z.ltb_spec d (rsize (batch_item batch))); [done | lia].
Qed.

Lemma cached_column_index_none (batch : Batch) (model_config : ModelConfig)
    (cache : option DataLoaderCacheEntry) (d : Z) :
  match cache with
  | Some c => mc_reuse_theta model_config = true ->
              item_id (batch_item_at batch d) ∉ ce_item_id c
  | None => True
  end ->
  cached_column_index batch model_config cache d = -1.
Proof.
  unfold cached_column_index. destruct cache as [c|]; [|done].
  destruct (mc_reuse_theta model_config); [|done].
  intros Habsent. unfold repeated_field_index_of.
  apply repeated_field_index_of_from_absent. by apply Habsent.
Qed.

(** X7. The initial [Theta] has a row per topic and a column per item, by
    columns for the sparse path and by rows for the dense one.  With no
    random initialization, an item that gets no column from the cache
    (there is no cache entry, the config does not reuse theta, or the
    entry does not list the id of the item) starts uniform, at
    [1 / topics_count] in every topic, and no random draw is made. *)
Theorem InitializeTheta_default_column (G : nat -> float) (rnd : nat) (batch : Batch)
    (model_config : ModelConfig) (cache : option DataLoaderCacheEntry) (k d : Z) :
  mc_use_random_theta model_config = false ->
  match cache with
  | Some c => mc_reuse_theta model_config = true ->
              item_id (batch_item_at batch d) ∉ ce_item_id c
  | None => True
  end ->
  0 <= k < mc_topics_count model_config ->
  0 <= d < rsize (batch_item batch) ->
  no_rows (fst (InitializeTheta G rnd batch model_config cache)) =
    mc_topics_count model_config /\
  no_columns (fst (InitializeTheta G rnd batch model_config cache)) =
    rsize (batch_item batch) /\
  store_by_rows (fst (InitializeTheta G rnd batch model_config cache)) =
    negb (mc_use_sparse_bow model_config) /\
  dense_get (fst (InitializeTheta G rnd batch model_config cache)) k d =
    Float32.div Float32.one (Float32.of_int (mc_topics_count model_config)) /\
  snd (InitializeTheta G rnd batch model_config cache) = rnd.
Proof.
  intros Hrandom Hcache Hk Hd.
  destruct (InitializeTheta_cells G rnd batch model_config cache)
    as ((Hr & Hc & Hs & _) & Hcount & Hcells); [lia|].
  rewrite Hr, Hc, Hs, Hcount, Hcells by done.
  unfold initial_theta_cell.
  rewrite cached_column_index_none, Hrandom by done. simpl.
  repeat split. lia.
Qed.

Lemma InitializeTheta_default_column_witness :
  no_rows (fst (InitializeTheta counting_source 0 (pi_batch sample_input) reusing_config
                  (Some sample_cache_entry))) = 2 /\
  no_columns (fst (InitializeTheta counting_source 0 (pi_batch sample_input) reusing_config
                     (Some sample_cache_entry))) = 2 /\
  store_by_rows (fst (InitializeTheta counting_source 0 (pi_batch sample_input)
                        reusing_config (Some sample_cache_entry))) = false /\
  dense_get (fst (InitializeTheta counting_source 0 (pi_batch sample_input) reusing_config
                    (Some sample_cache_entry))) 1 0 =
    Float32.div Float32.one (Float32.of_int 2) /\
  snd (InitializeTheta counting_source 0 (pi_batch sample_input) reusing_config
         (Some sample_cache_entry)) = O.
Proof.
  apply (InitializeTheta_default_column counting_source 0 (pi_batch sample_input)
           reusing_config (Some sample_cache_entry) 1 0).
  - reflexivity.
  - intros _. vm_compute. intros Hin.
    apply elem_of_cons in Hin as [Heq|Hin]; [discriminate Heq|].
    apply list_elem_of_singleton in Hin. discriminate Hin.
  - simpl. lia.
  - unfold rsize. simpl. lia.
Defined.

Lemma fresh_items_before_no_cache (batch : Batch) (model_config : ModelConfig) (d : Z) :
  fresh_items_before batch model_config None d = Z.to_nat d.
Proof.
  unfold fresh_items_before. rewrite <- (Zrange_length d). f_equal.
  generalize (Zrange d). intros l.
  induction l as [|j l IH]; [done|]. rewrite filter_cons_True by done. by rewrite IH.
Qed.

(** X8. With random initialization and no cache, [InitializeTheta] takes one
    draw of the random source per cell, item after item and topic after
    topic: the cell of topic [k] of item [d] holds draw number
    [d * topics_count + k] counted from the draws made before, and
    [items * topics_count] draws are made in all. *)
Theorem InitializeTheta_random_draws (G : nat -> float) (rnd : nat) (batch : Batch)
    (model_config : ModelConfig) (k d : Z) :
  mc_use_random_theta model_config = true ->
  0 <= k < mc_topics_count model_config ->
  0 <= d < rsize (batch_item batch) ->
  dense_get (fst (InitializeTheta G rnd batch model_config None)) k d =
    G (rnd + Z.to_nat (d * mc_topics_count model_config + k))%nat /\
  snd (InitializeTheta G rnd batch model_config None) =
    (rnd + Z.to_nat (rsize (batch_item batch) * mc_topics_count model_config))%nat.
Proof.
  intros Hrandom Hk Hd.
  destruct (InitializeTheta_cells G rnd batch model_config None)
    as (_ & Hcount & Hcells); [lia|].
  rewrite Hcount, Hcells by done.
  unfold initial_theta_cell. simpl. rewrite Hrandom, !fresh_items_before_no_cache.
  split.
  - f_equal. nia.
  - unfold rsize in *. nia.
Qed.

Lemma InitializeTheta_random_draws_witness :
  dense_get (fst (InitializeTheta counting_source 5 (pi_batch sample_input) random_config
                    None)) 1 1 =
    counting_source (5 + Z.to_nat (1 * 2 + 1))%nat /\
  snd (InitializeTheta counting_source 5 (pi_batch sample_input) random_config None) =
    (5 + Z.to_nat (2 * 2))%nat.
Proof.
  apply (InitializeTheta_random_draws counting_source 5 (pi_batch sample_input)
           random_config 1 1).
  - reflexivity.
  - simpl. lia.
  - unfold rsize. simpl. lia.
Defined.



(** ** The columns a cache entry holds *)

Lemma fold_left_snoc_map2 {A B C : Type} (g : C -> A) (h : C -> B) (l : list C)
    (a : list A) (b : list B) :
  fold_left (fun (st : list A * list B) i => (fst st ++ [g i], snd st ++ [h i])) l (a, b) =
  (a ++ map g l, b ++ map h l).
Proof.
  revert a b. induction l as [|i l IH]; intros a b; simpl.
  - by rewrite !app_nil_r.
  - by rewrite IH, <- !app_assoc.
Qed.

(** The item ids and the columns a cache entry is filled with. *)
Lemma theta_columns_closed (batch : Batch) (topic_size : Z) (theta_matrix : DenseMatrix) :
  theta_columns batch topic_size theta_matrix =
  (map item_id (batch_item batch),
   map (theta_column theta_matrix topic_size) (Zrange (rsize (batch_item batch)))).
Proof.
  unfold theta_columns.
  rewrite (fold_left_ext_in _
             (fun (st : list Z * list (list float)) i =>
                (fst st ++ [item_id (batch_item_at batch i)],
                 snd st ++ [theta_column theta_matrix topic_size i]))).
  - rewrite fold_left_snoc_map2. simpl. f_equal.
    apply (map_Zrange_rget item_id (batch_item batch) empty_Item).
  - intros st i _. f_equal. f_equal. f_equal.
    apply (fold_left_snoc_map (fun k => dense_get theta_matrix k i)).
Qed.

Lemma repeated_field_index_of_from_NoDup {A : Type} `{EqDecision A}
    (pos : Z) (l : list A) (i : nat) (d : A) :
  NoDup l -> (i < length l)%nat ->
  repeated_field_index_of_from pos l (nth i l d) = pos + Z.of_nat i.
Proof.
  revert pos i. induction l as [|x l IH]; intros pos i Hnd Hi; simpl in *; [lia|].
  apply NoDup_cons in Hnd as [Hx Hnd].
  destruct i as [|i].
  - destruct (decide (x = x)); [lia | done].
  - destruct (decide (x = nth i l d)) as [->|Hne].
    + exfalso. apply Hx. apply list_elem_of_In, nth_In. lia.
    + rewrite IH by (done || lia). lia.
Qed.

(** ** The matrix [Phi] of a batch *)

(** Writing a row: the cells of the row get the new values, the other
    rows keep theirs. *)
Lemma write_row_get (f : Z -> float) (r : Z) (cs : list Z) (M : DenseMatrix) (r' c' : Z) :
  NoDup cs ->
  dense_wf M ->
  (forall c, c ∈ cs -> 0 <= c < no_columns M) ->
  0 <= r < no_rows M -> 0 <= r' < no_rows M -> 0 <= c' < no_columns M ->
  same_shape M (fold_left (fun M c => dense_set M r c (f c)) cs M) /\
  dense_get (fold_left (fun M c => dense_set M r c (f c)) cs M) r' c' =
  if decide (r' = r /\ c' ∈ cs) then f c' else dense_get M r' c'.
Proof.
  revert M. induction cs as [|c0 cs IH]; intros M Hnd Hwf Hcs Hr Hr' Hc'; simpl.
  - split; [apply same_shape_refl|].
    destruct (decide (r' = r /\ c' ∈ [])) as [[_ Hin]|]; [|done]. by apply elem_of_nil in Hin.
  - apply NoDup_cons in Hnd as [Hc0 Hnd].
    assert (Hc0' : 0 <= c0 < no_columns M) by (apply Hcs; left).
    pose proof (dense_set_same_shape M r c0 (f c0)) as Hshape.
    pose proof Hshape as (Hrow & Hcol & Hs & Hl).
    destruct (IH (dense_set M r c0 (f c0))) as [Hshape' Hget]; rewrite ?Hrow, ?Hcol; try done.
    { by eapply same_shape_wf. }
    { intros c Hc. apply Hcs. by right. }
    split; [by eapply same_shape_trans|].
    rewrite Hget.
    destruct (decide (r' = r /\ c' ∈ cs)) as [[-> Hin]|Hn].
    + destruct (decide (r = r /\ c' ∈ c0 :: cs)) as [|Hn']; [done|].
      exfalso. apply Hn'. split; [done | by right].
    + destruct (decide (r' = r /\ c' ∈ c0 :: cs)) as [[-> Hin]|Hn'].
      * apply elem_of_cons in Hin as [->|Hin]; [|exfalso; by apply Hn].
        by rewrite dense_get_set_eq.
      * rewrite dense_get_set_ne; try done.
        intros [= -> ->]. apply Hn'. split; [done | left].
Qed.

(** The loop of [InitializePhi] over the tokens, from any state. *)
Lemma InitializePhi_fold (batch : Batch) (topic_model : TopicModel) (js : list Z)
    (flag : bool) (M : DenseMatrix) :
  NoDup js ->
  dense_wf M ->
  no_columns M = tm_topic_size topic_model ->
  (forall j, j ∈ js -> 0 <= j < no_rows M) ->
  let st :=
    fold_left
      (fun (st : bool * DenseMatrix) token_index =>
         let token := batch_token_obj batch token_index in
         if tm_has_token topic_model token then
           (false,
            fold_left
              (fun phi topic_index =>
                 dense_set phi token_index topic_index
                   (phi_value (tm_topic_weight topic_model token topic_index)))
              (Zrange (tm_topic_size topic_model)) (snd st))
         else st)
      js (flag, M) in
  fst st = flag && forallb (fun j => negb (token_known batch topic_model j)) js /\
  same_shape M (snd st) /\
  forall w t, 0 <= w < no_rows M -> 0 <= t < no_columns M ->
    dense_get (snd st) w t =
    if decide (w ∈ js /\ token_known batch topic_model w = true)
    then phi_value (tm_topic_weight topic_model (batch_token_obj batch w) t)
    else dense_get M w t.
Proof.
  revert flag M. induction js as [|j js IH]; intros flag M Hnd Hwf Hcols Hjs; simpl.
  - split; [by rewrite andb_true_r|]. split; [apply same_shape_refl|].
    intros w t _ _.
    destruct (decide (w ∈ [] /\ token_known batch topic_model w = true)) as [[Hin _]|];
      [|done]. by apply elem_of_nil in Hin.
  - apply NoDup_cons in Hnd as [Hj Hnd]. cbv zeta in IH.
    assert (Hj' : 0 <= j < no_rows M) by (apply Hjs; left).
    fold (token_known batch topic_model j).
    destruct (token_known batch topic_model j) eqn:Hknown; simpl.
    + pose (f := fun t => phi_value (tm_topic_weight topic_model (batch_token_obj batch j) t)).
      assert (Hrow : forall w t, 0 <= w < no_rows M -> 0 <= t < no_columns M ->
                same_shape M (fold_left (fun M c => dense_set M j c (f c))
                                        (Zrange (tm_topic_size topic_model)) M) /\
                dense_get (fold_left (fun M c => dense_set M j c (f c))
                                     (Zrange (tm_topic_size topic_model)) M) w t =
                if decide (w = j /\ t ∈ Zrange (tm_topic_size topic_model))
                then f t else dense_get M w t).
      { intros w t Hw Ht. apply write_row_get; try done.
        - apply NoDup_Zrange.
        - intros c Hc. apply elem_of_Zrange in Hc. lia. }
      unfold f in Hrow. cbv beta in Hrow. clear f.
      set (M1 := fold_left
                   (fun phi topic_index =>
                      dense_set phi j topic_index
                        (phi_value (tm_topic_weight topic_model (batch_token_obj batch j)
                                                    topic_index)))
                   (Zrange (tm_topic_size topic_model)) M) in *.
      assert (Hshape : same_shape M M1).
      { destruct (Z_le_gt_dec (tm_topic_size topic_model) 0) as [Hle|Hgt].
        - unfold M1. rewrite Zrange_nonpos by done. apply same_shape_refl.
        - destruct (Hrow j 0) as [Hs _]; [done | lia | done]. }
      pose proof Hshape as (Hr & Hc & _ & _).
      destruct (IH false M1) as (Hflag & Hshape' & Hcells); rewrite ?Hr, ?Hc; try done.
      { by eapply same_shape_wf. }
      { intros j' Hj''. apply Hjs. by right. }
      split; [rewrite Hflag, andb_false_r; reflexivity|].
      split; [by eapply same_shape_trans|].
      intros w t Hw Ht. rewrite Hcells by (rewrite ?Hr, ?Hc; done).
      destruct (Hrow w t Hw Ht) as [_ Hget].
      destruct (decide (w ∈ js /\ token_known batch topic_model w = true)) as [[Hin Hk]|Hn].
      * destruct (decide (w ∈ j :: js /\ token_known batch topic_model w = true)) as [|Hn'];
          [done|]. exfalso. apply Hn'. split; [by right | done].
      * rewrite Hget.
        destruct (decide (w = j /\ t ∈ Zrange (tm_topic_size topic_model))) as [[-> _]|Hn'].
        -- destruct (decide (j ∈ j :: js /\ token_known batch topic_model j = true))
             as [|Hn'']; [done|]. exfalso. apply Hn''. split; [left | done].
        -- destruct (decide (w ∈ j :: js /\ token_known batch topic_model w = true))
             as [[Hin Hk]|]; [|done].
           apply elem_of_cons in Hin as [->|Hin].
           ++ exfalso. apply Hn'. split; [done|]. apply elem_of_Zrange. lia.
           ++ exfalso. by apply Hn.
    + destruct (IH flag M) as (Hflag & Hshape' & Hcells); try done.
      { intros j' Hj''. apply Hjs. by right. }
      split; [done|]. split; [done|].
      intros w t Hw Ht. rewrite Hcells by done.
      destruct (decide (w ∈ js /\ token_known batch topic_model w = true)) as [[Hin Hk]|Hn].
      * destruct (decide (w ∈ j :: js /\ token_known batch topic_model w = true)) as [|Hn'];
          [done|]. exfalso. apply Hn'. split; [by right | done].
      * destruct (decide (w ∈ j :: js /\ token_known batch topic_model w = true))
          as [[Hin Hk]|]; [|done].
        apply elem_of_cons in Hin as [->|Hin]; [congruence|]. exfalso. by apply Hn.
Qed.

(** [InitializePhi] in closed form. *)
Lemma InitializePhi_closed (batch : Batch) (model_config : ModelConfig)
    (topic_model : TopicModel) :
  0 <= tm_topic_size topic_model ->
  exists phi_matrix,
    InitializePhi batch model_config topic_model =
      (if forallb (fun j => negb (token_known batch topic_model j))
                  (Zrange (rsize (batch_token batch)))
       then None else Some phi_matrix) /\
    no_rows phi_matrix = rsize (batch_token batch) /\
    no_columns phi_matrix = tm_topic_size topic_model /\
    store_by_rows phi_matrix = true /\
    forall w t, 0 <= w < rsize (batch_token batch) -> 0 <= t < tm_topic_size topic_model ->
      dense_get phi_matrix w t =
      if token_known batch topic_model w
      then phi_value (tm_topic_weight topic_model (batch_token_obj batch w) t)
      else Float32.zero.
Proof.
  intros Htopics. unfold InitializePhi.
  set (M0 := InitializeZeros
               (DenseMatrix_new (rsize (batch_token batch)) (tm_topic_size topic_model) true)).
  assert (Hwf0 : dense_wf M0).
  { eapply same_shape_wf; [apply InitializeZeros_same_shape|].
    apply DenseMatrix_new_wf; [unfold rsize; lia | done]. }
  destruct (InitializePhi_fold batch topic_model (Zrange (rsize (batch_token batch))) true M0)
    as (Hflag & Hshape & Hcells); try done.
  { apply NoDup_Zrange. }
  { intros j Hj. by apply elem_of_Zrange in Hj. }
  destruct (fold_left _ (Zrange (rsize (batch_token batch))) (true, M0)) as [flag phi].
  simpl in Hflag, Hshape, Hcells. exists phi. rewrite Hflag.
  destruct Hshape as (Hr & Hc & Hs & _).
  split; [done|]. split; [done|]. split; [done|]. split; [done|].
  intros w t Hw Ht. rewrite Hcells by done.
  destruct (decide (w ∈ Zrange (rsize (batch_token batch)) /\
                    token_known batch topic_model w = true)) as [[_ ->]|Hn]; [done|].
  destruct (token_known batch topic_model w).
  - exfalso. apply Hn. split; [by apply elem_of_Zrange | done].
  - unfold M0. apply InitializeZeros_get.
Qed.

Lemma phi_value_snapped (value : float) :
  Float64.ltb (Float32.to_double (phi_value value)) Float64.lit_1e_16 = true ->
  phi_value value = Float32.zero.
Proof.
  unfold phi_value.
  destruct (Float64.ltb (Float32.to_double value) Float64.lit_1e_16) eqn:Hlt; [done|].
  intros Hlt'. rewrite Hlt in Hlt'. discriminate.
Qed.

(** X11. [InitializePhi] returns null exactly when the snapshot has none of
    the tokens of the batch, an empty batch included. *)
Theorem InitializePhi_null_exactly (batch : Batch) (model_config : ModelConfig)
    (topic_model : TopicModel) :
  InitializePhi batch model_config topic_model = None <->
  forall token_index, 0 <= token_index < rsize (batch_token batch) ->
    tm_has_token topic_model (batch_token_obj batch token_index) = false.
Proof.
  split; [apply InitializePhi_None|].
  intros Hunknown. unfold InitializePhi.
  assert (Hgen : forall js M,
            (forall j, j ∈ js ->
               tm_has_token topic_model (batch_token_obj batch j) = false) ->
            fold_left
              (fun (st : bool * DenseMatrix) token_index =>
                 let token := batch_token_obj batch token_index in
                 if tm_has_token topic_model token then
                   (false,
                    fold_left
                      (fun phi topic_index =>
                         dense_set phi token_index topic_index
                           (phi_value (tm_topic_weight topic_model token topic_index)))
                      (Zrange (tm_topic_size topic_model)) (snd st))
                 else st)
              js (true, M) = (true, M)).
  { induction js as [|j js IH]; intros M Hjs; simpl; [done|].
    rewrite (Hjs j) by left. apply IH. intros j' Hj'. apply Hjs. by right. }
  rewrite Hgen; [done|].
  intros j Hj. apply Hunknown. by apply elem_of_Zrange.
Qed.

(** X12. The matrix [InitializePhi] returns has a row per token of the batch
    and a column per topic of the snapshot; the row of a token the
    snapshot has holds its weights, the row of a token it has not is
    zero; and every cell below [1e-16], a negative weight included, is
    exactly zero. *)
Theorem InitializePhi_cells (batch : Batch) (model_config : ModelConfig)
    (topic_model : TopicModel) (phi_matrix : DenseMatrix) (w t : Z) :
  InitializePhi batch model_config topic_model = Some phi_matrix ->
  0 <= w < rsize (batch_token batch) ->
  0 <= t < tm_topic_size topic_model ->
  no_rows phi_matrix = rsize (batch_token batch) /\
  no_columns phi_matrix = tm_topic_size topic_model /\
  store_by_rows phi_matrix = true /\
  dense_get phi_matrix w t =
    (if tm_has_token topic_model (batch_token_obj batch w)
     then phi_value (tm_topic_weight topic_model (batch_token_obj batch w) t)
     else Float32.zero) /\
  (Float64.ltb (Float32.to_double (dense_get phi_matrix w t)) Float64.lit_1e_16 = true ->
   dense_get phi_matrix w t = Float32.zero).
Proof.
  intros Hsome Hw Ht.
  destruct (InitializePhi_closed batch model_config topic_model)
    as (phi & Heq & Hr & Hc & Hs & Hcells); [lia|].
  rewrite Hsome in Heq.
  destruct (forallb _ _); [discriminate|]. injection Heq as ->.
  split; [done|]. split; [done|]. split; [done|].
  rewrite Hcells by done. fold (token_known batch topic_model w).
  split; [done|].
  destruct (token_known batch topic_model w); [apply phi_value_snapped | done].
Qed.

Lemma InitializePhi_cells_witness :
  no_rows (default empty_DenseMatrix
             (InitializePhi (pi_batch sample_input) sample_config tiny_weights_model)) = 2 /\
  no_columns (default empty_DenseMatrix
                (InitializePhi (pi_batch sample_input) sample_config tiny_weights_model)) = 2 /\
  store_by_rows (default empty_DenseMatrix
                   (InitializePhi (pi_batch sample_input) sample_config tiny_weights_model)) =
    true /\
  dense_get (default empty_DenseMatrix
               (InitializePhi (pi_batch sample_input) sample_config tiny_weights_model)) 0 1 =
    (if tm_has_token tiny_weights_model (batch_token_obj (pi_batch sample_input) 0)
     then phi_value (tm_topic_weight tiny_weights_model
                       (batch_token_obj (pi_batch sample_input) 0) 1)
     else Float32.zero) /\
  (Float64.ltb
     (Float32.to_double
        (dense_get (default empty_DenseMatrix
                      (InitializePhi (pi_batch sample_input) sample_config
                                     tiny_weights_model)) 0 1))
     Float64.lit_1e_16 = true ->
   dense_get (default empty_DenseMatrix
                (InitializePhi (pi_batch sample_input) sample_config tiny_weights_model)) 0 1 =
   Float32.zero).
Proof.
  apply (InitializePhi_cells (pi_batch sample_input) sample_config tiny_weights_model
           (default empty_DenseMatrix
              (InitializePhi (pi_batch sample_input) sample_config tiny_weights_model))
           0 1).
  - vm_compute. reflexivity.
  - unfold rsize. simpl. lia.
  - simpl. lia.
Defined.

(** The sample snapshot: the weight [2^-77] and the weight [-3] of the
    token it has are both stored as zero. *)
Example tiny_weights_are_dropped :
  option_map get_data
    (InitializePhi (pi_batch sample_input) sample_config tiny_weights_model) =
  Some [Float32.zero; Float32.zero; Float32.zero; Float32.zero].
Proof. vm_compute. reflexivity. Qed.

(** ** Before the normalization of a column *)

(** X13. The clipping before the normalization keeps the length of the
    vector and replaces exactly its entries below zero by zero: an entry
    that is not below zero, a NaN included, stays as it is. *)
Theorem clip_negative_cells (theta_next : list float) (i : Z) :
  length (clip_negative theta_next) = length theta_next /\
  rget (clip_negative theta_next) i Float32.zero =
    clipped (rget theta_next i Float32.zero).
Proof.
  unfold clip_negative.
  destruct (clip_fold_get (Zrange (rsize theta_next)) theta_next i (NoDup_Zrange _))
    as [Hlen Hget].
  split; [exact Hlen|]. rewrite Hget.
  destruct (decide (i ∈ Zrange (rsize theta_next))) as [|Hout]; [done|].
  unfold clipped.
  destruct (Float32.ltb (rget theta_next i Float32.zero) Float32.zero) eqn:Hlt; [|done].
  exfalso. apply Hout. apply elem_of_Zrange. by apply below_zero_in_range.
Qed.

(** X14. A regularizer the config names and the schema does not have is
    skipped: when the schema has none of them, [Theta] is regularized
    and normalized as under a schema without regularizers. *)
Theorem unknown_regularizers_are_skipped (inner_iter : Z) (batch : Batch)
    (model_config : ModelConfig) (schema : InstanceSchema) (Theta : DenseMatrix) :
  Forall (fun reg_name => schema_regularizer schema reg_name = None)
         (mc_regularizer_name model_config) ->
  (forall item theta_next,
     apply_regularizers inner_iter item model_config schema theta_next = theta_next) /\
  RegularizeAndNormalizeTheta inner_iter batch model_config schema Theta =
  RegularizeAndNormalizeTheta inner_iter batch model_config (plain_schema model_config) Theta.
Proof.
  intros Hunknown.
  assert (Hid : forall schema' item theta_next,
            Forall (fun reg_name => schema_regularizer schema' reg_name = None)
                   (mc_regularizer_name model_config) ->
            apply_regularizers inner_iter item model_config schema' theta_next = theta_next).
  { intros schema' item theta_next Hnone. unfold apply_regularizers.
    apply (fold_left_invariant (fun l => l = theta_next)); [done|].
    intros l i Hi ->. apply elem_of_Zrange in Hi.
    rewrite Forall_forall in Hnone. rewrite Hnone; [done|].
    unfold rget, rsize in *. destruct (Z.ltb_spec i 0); [lia|].
    apply list_elem_of_In, nth_In. lia. }
  split; [intros item theta_next; by apply Hid|].
  unfold RegularizeAndNormalizeTheta. f_equal.
  apply fold_left_ext_in. intros st item _. f_equal.
  unfold RegularizeAndNormalizeTheta_item.
  rewrite !Hid; [done| |done].
  apply Forall_forall. done.
Qed.

Lemma unknown_regularizers_are_skipped_witness :
  (forall item theta_next,
     apply_regularizers 0 item named_regularizers_config
       (plain_schema named_regularizers_config) theta_next = theta_next) /\
  RegularizeAndNormalizeTheta 0 (pi_batch sample_input) named_regularizers_config
    (plain_schema named_regularizers_config) sample_theta =
  RegularizeAndNormalizeTheta 0 (pi_batch sample_input) named_regularizers_config
    (plain_schema named_regularizers_config) sample_theta.
Proof.
  apply (unknown_regularizers_are_skipped 0 (pi_batch sample_input)
           named_regularizers_config (plain_schema named_regularizers_config) sample_theta).
  repeat constructor.
Defined.

(** ** Shapes through the EM loop *)

Lemma RegularizeAndNormalizeTheta_item_same_shape (inner_iter : Z)
    (model_config : ModelConfig) (schema : InstanceSchema) (Theta : DenseMatrix)
    (item_index : Z) (item : Item) :
  same_shape Theta
    (RegularizeAndNormalizeTheta_item inner_iter model_config schema Theta item_index item).
Proof.
  unfold RegularizeAndNormalizeTheta_item.
  apply (fold_left_invariant (same_shape Theta)); [apply same_shape_refl|].
  intros M k _ HM. eapply same_shape_trans; [exact HM | apply dense_set_same_shape].
Qed.

Lemma RegularizeAndNormalizeTheta_same_shape (inner_iter : Z) (batch : Batch)
    (model_config : ModelConfig) (schema : InstanceSchema) (Theta : DenseMatrix) :
  same_shape Theta (RegularizeAndNormalizeTheta inner_iter batch model_config schema Theta).
Proof.
  unfold RegularizeAndNormalizeTheta.
  apply (fold_left_invariant (fun st : Z * DenseMatrix => same_shape Theta (snd st)));
    [apply same_shape_refl|].
  intros st item _ Hst. simpl.
  eapply same_shape_trans; [exact Hst | apply RegularizeAndNormalizeTheta_item_same_shape].
Qed.

Lemma sparse_inner_iteration_same_shape (model_config : ModelConfig) (batch : Batch)
    (schema : InstanceSchema) (sparse_ndw : CsrMatrix) (phi_matrix : DenseMatrix)
    (blas : Blas) (theta_matrix : DenseMatrix) (inner_iter : Z) :
  same_shape theta_matrix
    (sparse_inner_iteration model_config batch schema sparse_ndw phi_matrix blas
                            theta_matrix inner_iter).
Proof.
  unfold sparse_inner_iteration.
  eapply same_shape_trans; [|apply RegularizeAndNormalizeTheta_same_shape].
  apply ApplyByElement_0_same_shape.
Qed.

Lemma dense_inner_iteration_same_shape (model_config : ModelConfig) (batch : Batch)
    (schema : InstanceSchema) (dense_ndw phi_matrix : DenseMatrix) (blas : Blas)
    (Zmat theta_matrix : DenseMatrix) (inner_iter : Z) :
  same_shape theta_matrix
    (snd (dense_inner_iteration model_config batch schema dense_ndw phi_matrix blas
                                (Zmat, theta_matrix) inner_iter)).
Proof.
  unfold dense_inner_iteration. simpl.
  eapply same_shape_trans; [|apply RegularizeAndNormalizeTheta_same_shape].
  apply ApplyByElement_0_same_shape.
Qed.

Lemma sparse_nwt_entry_dims (blas : Blas) (mask : option Mask) (sparse_nwd : CsrMatrix)
    (phi_matrix theta_matrix n_wt : DenseMatrix) (w i : Z) :
  no_rows (sparse_nwt_entry blas mask sparse_nwd phi_matrix theta_matrix w n_wt i) =
    no_rows n_wt /\
  no_columns (sparse_nwt_entry blas mask sparse_nwd phi_matrix theta_matrix w n_wt i) =
    no_columns n_wt /\
  store_by_rows (sparse_nwt_entry blas mask sparse_nwd phi_matrix theta_matrix w n_wt i) =
    store_by_rows n_wt.
Proof.
  unfold sparse_nwt_entry.
  destruct (match mask with Some m => _ | None => false end); [done|].
  by destruct (Float32.eqb _ _).
Qed.

(** X15. The EM loops never reshape their matrices, whatever the BLAS binding
    and the regularizers do: [Theta] comes out of [CalculateNwtSparse]
    and of [CalculateNwtDense] with the shape, the orientation and the
    buffer size it went in with, [n_wt] has the rows and columns of
    [Phi], by rows; and with no inner iteration asked for, [Theta] comes
    out as it went in. *)
Theorem em_loop_keeps_shapes (model_config : ModelConfig) (batch : Batch)
    (mask : option Mask) (schema : InstanceSchema) (sparse_ndw : CsrMatrix)
    (dense_ndw phi_matrix theta_matrix : DenseMatrix) (blas : Blas) :
  let sparse := CalculateNwtSparse model_config batch mask schema sparse_ndw
                                   phi_matrix theta_matrix blas in
  let dense := CalculateNwtDense model_config batch mask schema dense_ndw
                                 phi_matrix theta_matrix blas in
  same_shape theta_matrix (snd sparse) /\
  same_shape theta_matrix (snd dense) /\
  (no_rows (fst sparse) = no_rows phi_matrix /\
   no_columns (fst sparse) = no_columns phi_matrix /\
   store_by_rows (fst sparse) = true) /\
  (no_rows (fst dense) = no_rows phi_matrix /\
   no_columns (fst dense) = no_columns phi_matrix /\
   store_by_rows (fst dense) = true) /\
  (mc_inner_iterations_count model_config <= 0 ->
   snd sparse = theta_matrix /\ snd dense = theta_matrix).
Proof.
  intros sparse dense.
  assert (Hsparse : same_shape theta_matrix (snd sparse)).
  { unfold sparse, CalculateNwtSparse. simpl.
    apply (fold_left_invariant (same_shape theta_matrix)); [apply same_shape_refl|].
    intros M it _ HM. eapply same_shape_trans; [exact HM|].
    apply sparse_inner_iteration_same_shape. }
  assert (Hloop : forall Zmat,
            same_shape theta_matrix
              (snd (fold_left
                      (dense_inner_iteration model_config batch schema dense_ndw
                                             phi_matrix blas)
                      (Zrange (mc_inner_iterations_count model_config))
                      (Zmat, theta_matrix)))).
  { intros Zmat.
    apply (fold_left_invariant
             (fun st : DenseMatrix * DenseMatrix => same_shape theta_matrix (snd st)));
      [apply same_shape_refl|].
    intros [Zm th] it _ HM. eapply same_shape_trans; [exact HM|].
    apply dense_inner_iteration_same_shape. }
  assert (Hdense : snd dense =
            snd (fold_left
                   (dense_inner_iteration model_config batch schema dense_ndw phi_matrix blas)
                   (Zrange (mc_inner_iterations_count model_config))
                   (DenseMatrix_new (no_rows phi_matrix) (no_columns theta_matrix) true,
                    theta_matrix))).
  { unfold dense, CalculateNwtDense.
    destruct (fold_left _ _ _) as [Zmat theta'].
    destruct mask as [m|]; [|done]. by destruct (dense_masked m _ theta'). }
  split; [exact Hsparse|]. split; [rewrite Hdense; apply Hloop|].
  split; [|split].
  - unfold sparse, CalculateNwtSparse. simpl.
    set (n_wt0 := InitializeZeros
                    (DenseMatrix_new (no_rows phi_matrix) (no_columns phi_matrix) true)).
    apply (fold_left_invariant
             (fun M => no_rows M = no_rows phi_matrix /\
                       no_columns M = no_columns phi_matrix /\
                       store_by_rows M = true)); [done|].
    intros M w _ HM.
    apply (fold_left_invariant
             (fun M => no_rows M = no_rows phi_matrix /\
                       no_columns M = no_columns phi_matrix /\
                       store_by_rows M = true)); [done|].
    intros M' i _ (Hr & Hc & Hs).
    destruct (sparse_nwt_entry_dims blas mask
                (Transpose blas sparse_ndw) phi_matrix
                (fold_left
                   (sparse_inner_iteration model_config batch schema sparse_ndw
                                           phi_matrix blas)
                   (Zrange (mc_inner_iterations_count model_config)) theta_matrix)
                M' w i) as (-> & -> & ->). done.
  - unfold dense, CalculateNwtDense.
    destruct (fold_left _ _ _) as [Zmat theta'].
    destruct mask as [m|]; [destruct (dense_masked m _ theta')|]; done.
  - intros Hnone. split.
    + unfold sparse, CalculateNwtSparse. simpl. by rewrite Zrange_nonpos.
    + rewrite Hdense. by rewrite Zrange_nonpos.
Qed.

(** ** Items the stream mask leaves out *)

Lemma mul_zero_finite (x : float) :
  Float32.is_finite x = true ->
  Float32.eqb (Float32.mul Float32.zero x) Float32.zero = true.
Proof. destruct x as [s|s| |s m e]; try discriminate; by destruct s. Qed.

(** X16. A stream mask that keeps no item leaves nothing to count: the
    [n_wt] of the sparse path is zero in every cell, for a [Phi] of
    finite values. *)
Theorem masked_out_batch_counts_nothing (model_config : ModelConfig) (batch : Batch)
    (mask : Mask) (schema : InstanceSchema) (sparse_ndw : CsrMatrix)
    (phi_matrix theta_matrix : DenseMatrix) (blas : Blas) (i : Z) :
  Forall (fun kept => kept = false) (mask_value mask) ->
  Forall (fun x => Float32.is_finite x = true) (get_data phi_matrix) ->
  Float32.eqb
    (rget (get_data (fst (CalculateNwtSparse model_config batch (Some mask) schema
                            sparse_ndw phi_matrix theta_matrix blas)))
          i Float32.zero)
    Float32.zero = true.
Proof.
  intros Hmask Hphi.
  assert (Hnone : forall d, mask_value_at mask d = false).
  { intros d. unfold mask_value_at, rget. destruct (d <? 0); [done|].
    destruct (nth_in_or_default (Z.to_nat d) (mask_value mask) false) as [Hin | ->]; [|done].
    rewrite Forall_forall in Hmask. by apply Hmask, list_elem_of_In. }
  assert (Hfinite : forall j, Float32.is_finite (rget (get_data phi_matrix) j Float32.zero) = true).
  { intros j. unfold rget. destruct (j <? 0); [done|].
    destruct (nth_in_or_default (Z.to_nat j) (get_data phi_matrix) Float32.zero) as [Hin | ->];
      [|done].
    rewrite Forall_forall in Hphi. by apply Hphi, list_elem_of_In. }
  unfold CalculateNwtSparse. simpl.
  set (n_wt0 := InitializeZeros
                  (DenseMatrix_new (no_rows phi_matrix) (no_columns phi_matrix) true)).
  set (theta' := fold_left _ (Zrange (mc_inner_iterations_count model_config)) theta_matrix).
  assert (Hloop : fold_left
            (fun n_wt w =>
               fold_left
                 (sparse_nwt_entry blas (Some mask) (Transpose blas sparse_ndw)
                                   phi_matrix theta' w)
                 (Zrange_from (rget (csr_row_ptr (Transpose blas sparse_ndw)) w 0)
                              (rget (csr_row_ptr (Transpose blas sparse_ndw)) (w + 1) 0))
                 n_wt)
            (Zrange (no_rows phi_matrix)) n_wt0 = n_wt0).
  { apply (fold_left_invariant (fun M => M = n_wt0)); [done|].
    intros M w _ ->.
    apply (fold_left_invariant (fun M => M = n_wt0)); [done|].
    intros M p _ ->. unfold sparse_nwt_entry. by rewrite Hnone. }
  rewrite Hloop. clear Hloop.
  assert (Hzero : forall j, rget (get_data n_wt0) j Float32.zero = Float32.zero).
  { intros j. unfold n_wt0, InitializeZeros. simpl. apply rget_replicate_zero. }
  assert (Hlen : length (get_data n_wt0) =
                 if (0 <? no_rows phi_matrix) && (0 <? no_columns phi_matrix)
                 then Z.to_nat (no_rows phi_matrix * no_columns phi_matrix) else O).
  { unfold n_wt0, InitializeZeros, DenseMatrix_new. simpl. rewrite length_replicate.
    destruct ((0 <? no_rows phi_matrix) && (0 <? no_columns phi_matrix));
      [apply length_replicate | done]. }
  assert (Hrows : no_rows n_wt0 = no_rows phi_matrix) by done.
  assert (Hcols : no_columns n_wt0 = no_columns phi_matrix) by done.
  clearbody n_wt0.
  unfold ApplyByElement_0. cbn [get_data]. rewrite Hrows, Hcols.
  destruct ((0 <? no_rows phi_matrix) && (0 <? no_columns phi_matrix)) eqn:Hdims.
  - apply andb_prop in Hdims as [Hr Hc]. apply Z.ltb_lt in Hr, Hc.
    destruct (decide (i ∈ Zrange (no_rows phi_matrix * no_columns phi_matrix)))
      as [Hin|Hout].
    + rewrite (fold_rset_get
                 (fun j => Float32.mul (rget (get_data n_wt0) j Float32.zero)
                                       (rget (get_data phi_matrix) j Float32.zero))).
      * rewrite Hzero. apply mul_zero_finite, Hfinite.
      * intros k Hk. apply elem_of_Zrange in Hk. unfold rsize. rewrite Hlen. nia.
      * done.
    + rewrite (fold_rset_get_other
                 (fun j => Float32.mul (rget (get_data n_wt0) j Float32.zero)
                                       (rget (get_data phi_matrix) j Float32.zero)))
        by done.
      by rewrite Hzero.
  - assert (Hnil : fold_left
              (fun data j =>
                 rset data j (Float32.mul (rget (get_data n_wt0) j Float32.zero)
                                          (rget (get_data phi_matrix) j Float32.zero)))
              (Zrange (no_rows phi_matrix * no_columns phi_matrix)) (get_data n_wt0) = []).
    { apply nil_length_inv.
      by rewrite (fold_rset_length
                    (fun j => Float32.mul (rget (get_data n_wt0) j Float32.zero)
                                          (rget (get_data phi_matrix) j Float32.zero))). }
    rewrite Hnil. unfold rget. destruct (i <? 0); [done|]. by destruct (Z.to_nat i).
Qed.

Lemma masked_out_batch_counts_nothing_witness :
  Float32.eqb
    (rget (get_data (fst (CalculateNwtSparse sample_config (pi_batch sample_input)
                            (Some mask_of_none) (plain_schema sample_config)
                            (InitializeSparseNdw (pi_batch sample_input) sample_config)
                            sample_phi sample_theta BuiltinBlas.builtin)))
          3 Float32.zero)
    Float32.zero = true.
Proof.
  apply (masked_out_batch_counts_nothing sample_config (pi_batch sample_input)
           mask_of_none (plain_schema sample_config)
           (InitializeSparseNdw (pi_batch sample_input) sample_config)
           sample_phi sample_theta BuiltinBlas.builtin 3).
  - repeat constructor.
  - repeat constructor.
Defined.

(** ** The structure of the sparse counts *)

Lemma spec_sparse_row_length (batch : Batch) (model_config : ModelConfig) (item : Item) :
  length (spec_sparse_row batch model_config item) = length (item_pairs item).
Proof. unfold spec_sparse_row. apply length_map. Qed.

Lemma flat_map_length_eq {A B C : Type} (g : A -> list B) (h : A -> list C) (l : list A) :
  (forall x, length (g x) = length (h x)) ->
  length (flat_map g l) = length (flat_map h l).
Proof.
  intros Hlen. induction l as [|x l IH]; simpl; [done|].
  by rewrite !length_app, Hlen, IH.
Qed.

(** X17. The matrix [InitializeSparseNdw] builds is a well-formed CSR matrix
    with a row per item, a column per batch token and one non-zero per
    [(token_id, token_count)] pair of the batch. *)
Theorem InitializeSparseNdw_csr_wf (batch : Batch) (model_config : ModelConfig) :
  batch_well_formed batch = true ->
  length (mc_class_id model_config) = length (mc_class_weight model_config) ->
  csr_wf (InitializeSparseNdw batch model_config) /\
  csr_nnz (InitializeSparseNdw batch model_config) =
    rsize (flat_map item_pairs (batch_item batch)).
Proof.
  intros Hwf Hcfg.
  pose proof (batch_well_formed_fields batch Hwf) as Hfields.
  pose proof (batch_well_formed_token_ids batch Hwf) as Hids.
  unfold InitializeSparseNdw. rewrite sparse_ndw_vectors_entries by done.
  set (E := spec_sparse_row batch model_config).
  unfold CsrMatrix_of, csr_wf. simpl.
  pose proof (row_starts_length batch model_config 0 (batch_item batch)) as Hstarts.
  assert (Hptr : forall d : nat, (d <= length (batch_item batch))%nat ->
            rget (row_starts batch model_config 0 (batch_item batch) ++
                    [rsize (flat_map E (batch_item batch))]) (Z.of_nat d) 0 =
            rsize (flat_map E (take d (batch_item batch)))).
  { intros d Hd.
    pose proof (row_starts_rget batch model_config (batch_item batch) 0 d Hd) as Hget.
    rewrite !Z.add_0_l in Hget. exact Hget. }
  assert (Hm : rsize (row_starts batch model_config 0 (batch_item batch) ++
                        [rsize (flat_map E (batch_item batch))]) - 1 =
               rsize (batch_item batch)).
  { unfold rsize. rewrite length_app, Hstarts. simpl. lia. }
  rewrite Hm.
  assert (Hnnz : rsize (map snd (flat_map E (batch_item batch))) =
                 rsize (flat_map E (batch_item batch))).
  { unfold rsize. by rewrite length_map. }
  rewrite Hnnz.
  split; [|unfold rsize; f_equal; apply flat_map_length_eq; intros item;
           apply spec_sparse_row_length].
  split; [unfold rsize; lia|].
  split; [unfold rsize in *; lia|].
  split; [apply (Hptr O); lia|].
  split.
  { pose proof (Hptr (length (batch_item batch)) (le_n _)) as Hlast.
    rewrite firstn_all in Hlast. exact Hlast. }
  split.
  { intros d Hd. unfold rsize in Hd.
    replace d with (Z.of_nat (Z.to_nat d)) by lia.
    replace (Z.of_nat (Z.to_nat d) + 1) with (Z.of_nat (S (Z.to_nat d))) by lia.
    rewrite !Hptr by lia.
    destruct (lookup_lt_is_Some_2 (batch_item batch) (Z.to_nat d)) as [item Hitem]; [lia|].
    rewrite (take_S_r _ _ _ Hitem), flat_map_app.
    unfold rsize. rewrite length_app. lia. }
  split; [done|].
  split; [unfold rsize; by rewrite !length_map|].
  intros p Hp. unfold rsize in Hp.
  assert (Hin : rget (map fst (flat_map E (batch_item batch))) p 0 ∈
                map fst (flat_map E (batch_item batch))).
  { unfold rget. destruct (Z.ltb_spec p 0); [lia|].
    apply list_elem_of_In, nth_In. rewrite length_map. lia. }
  apply list_elem_of_In, in_map_iff in Hin as (entry & Hfst & Hentry).
  apply in_flat_map in Hentry as (item & Hitem & Hentry).
  unfold E, spec_sparse_row in Hentry. apply in_map_iff in Hentry as (pair & <- & Hpair).
  rewrite <- Hfst. simpl.
  apply (Hids item pair); by apply list_elem_of_In.
Qed.

Lemma InitializeSparseNdw_csr_wf_witness :
  csr_wf (InitializeSparseNdw (pi_batch sample_input) sample_config) /\
  csr_nnz (InitializeSparseNdw (pi_batch sample_input) sample_config) =
    rsize (flat_map item_pairs (batch_item (pi_batch sample_input))).
Proof.
  apply (InitializeSparseNdw_csr_wf (pi_batch sample_input) sample_config).
  - reflexivity.
  - reflexivity.
Defined.

(** ** The counts copied into an increment *)

Lemma copy_nwt_rows_operations (n_wt : DenseMatrix) (topic_size : Z)
    (token_indices : list Z) (mi : ModelIncrement) :
  mi_operation_type (fst (copy_nwt_rows n_wt topic_size token_indices mi)) =
  mi_operation_type mi.
Proof. apply (copy_nwt_rows_skeleton n_wt topic_size token_indices mi). Qed.

Lemma copy_nwt_rows_row_count (n_wt : DenseMatrix) (topic_size : Z)
    (token_indices : list Z) (mi : ModelIncrement) :
  length (mi_token_increment (fst (copy_nwt_rows n_wt topic_size token_indices mi))) =
  length (mi_token_increment mi).
Proof.
  pose proof (copy_nwt_rows_skeleton n_wt topic_size token_indices mi)
    as (_&_&_&_&_&_&_&Hlens).
  by rewrite <- (length_map (@length float)), Hlens, length_map.
Qed.

(** A row the loop does not come to stays as it is. *)
Lemma copy_nwt_rows_other (n_wt : DenseMatrix) (topic_size : Z)
    (token_indices : list Z) (mi : ModelIncrement) (i : Z) :
  i ∉ token_indices ->
  rget (mi_token_increment (fst (copy_nwt_rows n_wt topic_size token_indices mi))) i [] =
  rget (mi_token_increment mi) i [].
Proof.
  revert mi. induction token_indices as [|j rest IH]; intros mi Hi; simpl; [done|].
  apply not_elem_of_cons in Hi as [Hne Hi].
  destruct (rsize (rget (mi_token_increment mi) j []) =? 0); [by apply IH|].
  destruct (negb (rsize (rget (mi_token_increment mi) j []) =? topic_size)); [done|].
  destruct (rget (mi_operation_type mi) j CreateIfNotExist); [by apply IH|].
  rewrite IH by done. simpl. apply rget_rset_ne. congruence.
Qed.

(** A row of operation [CreateIfNotExist] stays as it is. *)
Lemma copy_nwt_rows_create (n_wt : DenseMatrix) (topic_size : Z)
    (token_indices : list Z) (mi : ModelIncrement) (i : Z) :
  rget (mi_operation_type mi) i CreateIfNotExist = CreateIfNotExist ->
  rget (mi_token_increment (fst (copy_nwt_rows n_wt topic_size token_indices mi))) i [] =
  rget (mi_token_increment mi) i [].
Proof.
  revert mi. induction token_indices as [|j rest IH]; intros mi Hop; simpl; [done|].
  destruct (rsize (rget (mi_token_increment mi) j []) =? 0); [by apply IH|].
  destruct (negb (rsize (rget (mi_token_increment mi) j []) =? topic_size)); [done|].
  destruct (rget (mi_operation_type mi) j CreateIfNotExist) eqn:Hj; [by apply IH|].
  rewrite IH by done. simpl. apply rget_rset_ne. intros ->. congruence.
Qed.

Lemma copy_nwt_rows_values_gen (n_wt : DenseMatrix) (topic_size : Z)
    (token_indices : list Z) (mi : ModelIncrement) (i k : Z) :
  NoDup token_indices ->
  snd (copy_nwt_rows n_wt topic_size token_indices mi) = None ->
  i ∈ token_indices ->
  0 <= i < rsize (mi_token_increment mi) ->
  rget (mi_operation_type mi) i CreateIfNotExist = IncrementValue ->
  rsize (rget (mi_token_increment mi) i []) = topic_size ->
  0 <= k < topic_size ->
  rget (rget (mi_token_increment (fst (copy_nwt_rows n_wt topic_size token_indices mi)))
             i [])
       k Float32.zero =
  dense_get n_wt i k.
Proof.
  revert mi. induction token_indices as [|j rest IH];
    intros mi Hnd Hnone Hin Hi Hop Hlen Hk.
  - by apply elem_of_nil in Hin.
  - apply NoDup_cons in Hnd as [Hj Hnd]. simpl in *.
    destruct (Z.eqb_spec (rsize (rget (mi_token_increment mi) j [])) 0) as [H0|H0].
    { apply elem_of_cons in Hin as [->|Hin]; [lia|]. by apply IH. }
    destruct (Z.eqb_spec (rsize (rget (mi_token_increment mi) j [])) topic_size)
      as [Hts|Hts]; simpl in *; [|discriminate].
    destruct (rget (mi_operation_type mi) j CreateIfNotExist) eqn:Hopj.
    { apply elem_of_cons in Hin as [->|Hin]; [congruence|]. by apply IH. }
    apply elem_of_cons in Hin as [->|Hin].
    + rewrite copy_nwt_rows_other by done. simpl.
      rewrite rget_rset_eq by done.
      apply (fold_rset_get (fun topic_index => dense_get n_wt j topic_index)).
      * intros k' Hk'. apply elem_of_Zrange in Hk'. lia.
      * by apply elem_of_Zrange.
    + assert (Hij : i <> j) by (intros ->; done).
      apply IH; simpl; try done.
      * unfold rsize in *. by rewrite rset_length.
      * by rewrite rget_rset_ne.
Qed.

(** X18. The copy of [n_wt] into the increment, when it does not throw: the
    row of a token of operation [IncrementValue] comes out holding the
    row of the token in [n_wt], topic by topic, and a row of operation
    [CreateIfNotExist] stays as it is. *)
Theorem copy_nwt_rows_values (n_wt : DenseMatrix) (topic_size : Z) (mi : ModelIncrement)
    (i k : Z) :
  snd (copy_nwt_rows n_wt topic_size (Zrange (no_rows n_wt)) mi) = None ->
  0 <= i < no_rows n_wt ->
  0 <= i < rsize (mi_token_increment mi) ->
  0 <= k < topic_size ->
  let copied := fst (copy_nwt_rows n_wt topic_size (Zrange (no_rows n_wt)) mi) in
  (rget (mi_operation_type mi) i CreateIfNotExist = IncrementValue ->
   rsize (rget (mi_token_increment mi) i []) = topic_size ->
   rget (rget (mi_token_increment copied) i []) k Float32.zero = dense_get n_wt i k) /\
  (rget (mi_operation_type mi) i CreateIfNotExist = CreateIfNotExist ->
   rget (mi_token_increment copied) i [] = rget (mi_token_increment mi) i []).
Proof.
  intros Hnone Hi Hrows Hk copied. split.
  - intros Hop Hlen. apply copy_nwt_rows_values_gen; try done.
    + apply NoDup_Zrange.
    + by apply elem_of_Zrange.
  - intros Hop. by apply copy_nwt_rows_create.
Qed.

Lemma copy_nwt_rows_values_witness :
  let copied := fst (copy_nwt_rows sample_n_wt 2 (Zrange (no_rows sample_n_wt))
                                   sample_pushed) in
  (rget (mi_operation_type sample_pushed) 0 CreateIfNotExist = IncrementValue ->
   rsize (rget (mi_token_increment sample_pushed) 0 []) = 2 ->
   rget (rget (mi_token_increment copied) 0 []) 1 Float32.zero =
     dense_get sample_n_wt 0 1) /\
  (rget (mi_operation_type sample_pushed) 0 CreateIfNotExist = CreateIfNotExist ->
   rget (mi_token_increment copied) 0 [] = rget (mi_token_increment sample_pushed) 0 []).
Proof.
  apply (copy_nwt_rows_values sample_n_wt 2 sample_pushed 0 1).
  - vm_compute. reflexivity.
  - simpl. lia.
  - unfold rsize. simpl. lia.
  - lia.
Defined.

(** ** How the worker ends *)

(** The rows of a fresh increment have no value or [topics_count] of
    them. *)
Lemma InitializeModelIncrement_row_lengths (part : ProcessorInput)
    (model_config : ModelConfig) (topic_model : TopicModel) (i : Z) :
  rsize (rget (mi_token_increment (InitializeModelIncrement part model_config topic_model))
              i []) = 0 \/
  rsize (rget (mi_token_increment (InitializeModelIncrement part model_config topic_model))
              i []) = mc_topics_count model_config.
Proof.
  rewrite InitializeModelIncrement_unfold. simpl.
  unfold rget. destruct (i <? 0); [by left|].
  match goal with
  | |- context [nth ?n ?l []] => destruct (nth_in_or_default n l []) as [Hin | ->]
  end; [|by left].
  apply in_map_iff in Hin as (row & <- & Hrow).
  apply in_map_iff in Hrow as (token & <- & _).
  unfold rsize. rewrite increment_row_length.
  destruct (tm_has_token topic_model token); [|by left].
  destruct (Z_le_gt_dec 0 (mc_topics_count model_config)); [right | left]; lia.
Qed.

(** On rows of these lengths the copy of [n_wt] does not throw. *)
Lemma copy_nwt_rows_no_throw (n_wt : DenseMatrix) (topic_size : Z)
    (token_indices : list Z) (mi : ModelIncrement) :
  (forall i, rsize (rget (mi_token_increment mi) i []) = 0 \/
             rsize (rget (mi_token_increment mi) i []) = topic_size) ->
  snd (copy_nwt_rows n_wt topic_size token_indices mi) = None.
Proof.
  revert mi. induction token_indices as [|j rest IH]; intros mi Hrows; simpl; [done|].
  destruct (Z.eqb_spec (rsize (rget (mi_token_increment mi) j [])) 0) as [H0|H0];
    [by apply IH|].
  destruct (Z.eqb_spec (rsize (rget (mi_token_increment mi) j [])) topic_size)
    as [Hts|Hts]; simpl.
  2: { destruct (Hrows j); done. }
  destruct (rget (mi_operation_type mi) j CreateIfNotExist); [by apply IH|].
  apply IH. simpl. intros i.
  assert (Hsame : length (rget (rset (mi_token_increment mi) j
                     (fold_left
                        (fun row topic_index =>
                           rset row topic_index (dense_get n_wt j topic_index))
                        (Zrange topic_size) (rget (mi_token_increment mi) j []))) i []) =
                  length (rget (mi_token_increment mi) i [])).
  { rewrite <- !rget_map_length. f_equal. apply map_length_rset, copied_row_length. }
  unfold rsize. rewrite Hsame. apply Hrows.
Qed.

Lemma process_model_outcome (env : Environment) (part : ProcessorInput)
    (st : BatchLocals * WorkerState) (model_name : string) :
  worker_outcome (snd (process_model env part st model_name)) /\
  exists more,
    ws_pushed (snd (fst (process_model env part st model_name))) =
    ws_pushed (snd st) ++ more.
Proof.
  destruct st as [locals ws]. unfold process_model, worker_outcome.
  set (model_config := schema_model_config (schema_get env) model_name).
  destruct (mc_enabled model_config); simpl.
  2: { split; [by left|]. exists []. by rewrite app_nil_r. }
  destruct (rsize (mc_class_id model_config) =? rsize (mc_class_weight model_config));
    simpl.
  2: { split; [right; right; by left|]. exists []. by rewrite app_nil_r. }
  destruct (GetLatestTopicModel env model_name) as [topic_model|].
  2: { split; [by do 4 right|]. exists []. by rewrite app_nil_r. }
  destruct (Z.eqb_spec (tm_topic_size topic_model) (mc_topics_count model_config))
    as [Hsize|Hsize]; simpl.
  2: { split; [right; right; right; by left|]. exists []. by rewrite app_nil_r. }
  destruct (InitializeTheta _ _ _ _ _) as [theta_matrix rnd].
  destruct (InitializePhi (pi_batch part) model_config topic_model) as [phi_matrix|].
  2: { split; [by left|]. by eexists. }
  match goal with
  | |- context [let '(n_wt, theta) := ?calc in _] => destruct calc as [n_wt theta']
  end.
  pose proof (copy_nwt_rows_no_throw n_wt (tm_topic_size topic_model)
                (Zrange (no_rows n_wt))
                (InitializeModelIncrement part model_config topic_model)) as Hcopy.
  destruct (copy_nwt_rows _ _ _ _) as [mi' thrown]. simpl in Hcopy.
  rewrite Hcopy.
  2: { intros i. rewrite Hsize. apply InitializeModelIncrement_row_lengths. }
  destruct (export_theta_cache _ _ _ _ _ _ _) as [mi'' uuids].
  split; [by left|]. by eexists.
Qed.

Lemma for_each_model_outcome (env : Environment) (part : ProcessorInput)
    (model_names : list string) (st : BatchLocals * WorkerState) :
  worker_outcome (snd (for_each_model env part model_names st)) /\
  exists more,
    ws_pushed (snd (fst (for_each_model env part model_names st))) =
    ws_pushed (snd st) ++ more.
Proof.
  revert st. induction model_names as [|model_name rest IH]; intros st;
    cbn [for_each_model].
  - split; [by left|]. exists []. by rewrite app_nil_r.
  - destruct (process_model_outcome env part st model_name) as [Hout (more & Hmore)].
    destruct (process_model env part st model_name) as [[locals ws] outcome].
    cbn [fst snd] in *.
    destruct outcome; cbn [fst snd]; try (split; [done | by exists more]).
    destruct (IH (locals, ws)) as [Hout' (more' & Hmore')].
    split; [done|]. exists (more ++ more').
    rewrite Hmore'. cbn [snd]. by rewrite Hmore, app_assoc.
Qed.

Lemma process_batch_outcome (env : Environment) (part : ProcessorInput) (ws : WorkerState) :
  worker_outcome (snd (process_batch env part ws)) /\
  exists more, ws_pushed (fst (process_batch env part ws)) = ws_pushed ws ++ more.
Proof.
  unfold process_batch.
  destruct (negb (rsize (batch_class_id (pi_batch part)) =?
                  rsize (batch_token (pi_batch part)))).
  - split; [right; by left|]. exists []. by rewrite app_nil_r.
  - destruct (for_each_model_outcome env part (GetModelNames (schema_get env))
                (mkBatchLocals None None, ws)) as [Hout Hmore].
    destruct (for_each_model _ _ _ _) as [[locals ws'] outcome]. done.
Qed.

(** X19. The worker ends in one of five ways: it completes, one of its three
    checks of the batch and of the config throws, or the assertion on
    the topic model fails.  The check of the row lengths in the copy of
    [n_wt] never throws, since the rows were built with [topics_count]
    values or none; and whichever way the worker ends, the increments
    it had pushed are still there, in order, before the new ones. *)
Theorem worker_ends (env : Environment) (parts : list ProcessorInput) (ws : WorkerState) :
  worker_outcome (snd (ThreadFunction env parts ws)) /\
  snd (ThreadFunction env parts ws) <>
    Thrown (InternalError "hat_n_wt_cur->value_size() != topic_size") /\
  exists more, ws_pushed (fst (ThreadFunction env parts ws)) = ws_pushed ws ++ more.
Proof.
  assert (Hgen : worker_outcome (snd (ThreadFunction env parts ws)) /\
                 exists more,
                   ws_pushed (fst (ThreadFunction env parts ws)) = ws_pushed ws ++ more).
  { revert ws. induction parts as [|part rest IH]; intros ws; cbn [ThreadFunction].
    - split; [by left|]. exists []. by rewrite app_nil_r.
    - destruct (process_batch_outcome env part ws) as [Hout (more & Hmore)].
      destruct (process_batch env part ws) as [ws' outcome]. cbn [fst snd] in *.
      destruct outcome; cbn [fst snd]; try (split; [done | by exists more]).
      destruct (IH ws') as [Hout' (more' & Hmore')].
      split; [done|]. exists (more ++ more'). by rewrite Hmore', Hmore, app_assoc. }
  destruct Hgen as [Hout Hmore]. split; [done|]. split; [|done].
  unfold worker_outcome in Hout.
  destruct Hout as [-> | [-> | [-> | [-> | ->]]]]; discriminate.
Qed.

(** X20. A run of the worker that completes has pushed, batch after batch,
    one increment for every enabled model of the schema, in the order
    of the schema. *)
Theorem worker_pushes_per_batch (env : Environment) (parts : list ProcessorInput)
    (ws : WorkerState) :
  snd (ThreadFunction env parts ws) = Completed ->
  exists pushed : list (list ModelIncrement),
    ws_pushed (fst (ThreadFunction env parts ws)) = ws_pushed ws ++ concat pushed /\
    Forall2 (fun part increments =>
               Forall2 (pushed_for env part) (enabled_models env) increments)
            parts pushed.
Proof.
  assert (Hbatch : forall part ws,
            snd (process_batch env part ws) = Completed ->
            exists increments,
              ws_pushed (fst (process_batch env part ws)) = ws_pushed ws ++ increments /\
              Forall2 (pushed_for env part) (enabled_models env) increments).
  { intros part ws'. unfold process_batch, enabled_models.
    destruct (negb (rsize (batch_class_id (pi_batch part)) =?
                    rsize (batch_token (pi_batch part)))); [discriminate|].
    pose proof (for_each_model_pushes env part (GetModelNames (schema_get env))
                  (mkBatchLocals None None) ws') as Hloop.
    destruct (for_each_model env part (GetModelNames (schema_get env))
                (mkBatchLocals None None, ws')) as [[locals' ws''] outcome].
    simpl in *. exact Hloop. }
  revert ws. induction parts as [|part rest IH]; intros ws; cbn [ThreadFunction].
  - intros _. exists []. split; [by rewrite app_nil_r | constructor].
  - specialize (Hbatch part ws).
    destruct (process_batch env part ws) as [ws' outcome]. cbn [fst snd] in *.
    destruct outcome; cbn [fst snd]; try discriminate.
    intros Hrest.
    destruct (Hbatch eq_refl) as (increments & Hpushed & Hall).
    destruct (IH ws' Hrest) as (pushed & Hpushed' & Hall').
    exists (increments :: pushed). split.
    + rewrite Hpushed', Hpushed. simpl. by rewrite app_assoc.
    + by constructor.
Qed.

Lemma worker_pushes_per_batch_witness :
  exists pushed : list (list ModelIncrement),
    ws_pushed (fst (ThreadFunction sample_env [sample_input; sample_input] fresh_worker)) =
      ws_pushed fresh_worker ++ concat pushed /\
    Forall2 (fun part increments =>
               Forall2 (pushed_for sample_env part) (enabled_models sample_env) increments)
            [sample_input; sample_input] pushed.
Proof.
  apply (worker_pushes_per_batch sample_env [sample_input; sample_input] fresh_worker).
  vm_compute. reflexivity.
Defined.

(** ** The scores of an increment *)

Lemma ascii_compare_lt_trans (a b c : Ascii.ascii) :
  Ascii.compare a b = Lt -> Ascii.compare b c = Lt -> Ascii.compare a c = Lt.
Proof. unfold Ascii.compare. rewrite !N.compare_lt_iff. lia. Qed.

Lemma score_name_lt_trans (a b c : string) :
  score_name_lt a b -> score_name_lt b c -> score_name_lt a c.
Proof.
  unfold score_name_lt. revert b c.
  induction a as [|x a IH]; intros [|y b] [|z c]; simpl; try done.
  destruct (Ascii.compare x y) eqn:Hxy; try done.
  - apply Ascii.compare_eq_iff in Hxy as ->.
    destruct (Ascii.compare y z); try done. apply IH.
  - destruct (Ascii.compare y z) eqn:Hyz; try done.
    + apply Ascii.compare_eq_iff in Hyz as <-. by rewrite Hxy.
    + by rewrite (ascii_compare_lt_trans x y z).
Qed.

Lemma score_name_lt_irrefl (a : string) : ~ score_name_lt a a.
Proof.
  unfold score_name_lt. intros Hlt.
  pose proof (String.compare_antisym a a) as Hanti. rewrite Hlt in Hanti. discriminate.
Qed.

(** The names of a score container after an insertion. *)
Lemma score_container_insert_names (name : string) (score : Score)
    (container : list (string * Score)) (n : string) :
  n ∈ map fst (score_container_insert name score container) ->
  n = name \/ n ∈ map fst container.
Proof.
  induction container as [|[n0 s0] rest IH]; simpl.
  - intros Hin. apply list_elem_of_singleton in Hin. by left.
  - destruct (String.compare name n0); simpl.
    + by right.
    + intros Hin. apply elem_of_cons in Hin as [->|Hin]; [by left | by right].
    + intros Hin. apply elem_of_cons in Hin as [->|Hin]; [right; left|].
      destruct (IH Hin) as [->|Hrest]; [by left | right; by right].
Qed.

(** An insertion keeps the container sorted by name, and it adds the
    score exactly when the name is new. *)
Lemma score_container_insert_sorted (name : string) (score : Score)
    (container : list (string * Score)) :
  strictly_increasing (map fst container) ->
  strictly_increasing (map fst (score_container_insert name score container)) /\
  forall n s,
    (n, s) ∈ score_container_insert name score container <->
    (n, s) ∈ container \/ (n = name /\ s = score /\ name ∉ map fst container).
Proof.
  induction container as [|[n0 s0] rest IH]; simpl; intros Hsorted.
  - split; [by split|].
    intros n s. rewrite list_elem_of_singleton. split.
    + intros [= -> ->]. right. repeat split. apply not_elem_of_nil.
    + intros [Hin|(-> & -> & _)]; [by apply elem_of_nil in Hin | done].
  - destruct Hsorted as [Hall Hrest].
    destruct (IH Hrest) as [IHsorted IHmem].
    destruct (String.compare name n0) eqn:Hcmp; simpl.
    + apply String.compare_eq_iff in Hcmp as ->.
      split; [by split|].
      intros n s. split; [by left|].
      intros [Hin|(-> & -> & Hnew)]; [done|]. exfalso. apply Hnew. left.
    + split.
      * split; [|by split].
        constructor; [done|].
        eapply Forall_impl; [exact Hall|]. intros n Hn. simpl in Hn.
        by apply (score_name_lt_trans name n0 n).
      * intros n s. rewrite elem_of_cons. split.
        -- intros [[= -> ->]|Hin]; [|by left].
           right. repeat split. intros Hin. apply elem_of_cons in Hin as [->|Hin].
           ++ by apply (score_name_lt_irrefl n0).
           ++ rewrite Forall_forall in Hall.
              apply (score_name_lt_irrefl name).
              apply (score_name_lt_trans name n0 name); [done | by apply Hall].
        -- intros [Hin|(-> & -> & _)]; [by right | by left].
    + assert (Hgt : score_name_lt n0 name).
      { unfold score_name_lt. rewrite String.compare_antisym, Hcmp. done. }
      split.
      * split; [|done].
        apply Forall_forall. intros n Hn.
        apply score_container_insert_names in Hn as [->|Hn]; [done|].
        rewrite Forall_forall in Hall. by apply Hall.
      * intros n s. rewrite !elem_of_cons, IHmem. split.
        -- intros [Heq|[Hin|(-> & -> & Hnew)]]; [left; by left | left; by right|].
           right. repeat split. intros [->|Hin]; [|done].
           by apply (score_name_lt_irrefl n0).
        -- intros [[Heq|Hin]|(-> & -> & Hnew)]; [by left | right; by left|].
           right. right. repeat split. intros Hin. apply Hnew. by right.
Qed.

(** The loop of [create_scores] over a list of score names. *)
Lemma create_scores_fold (schema : InstanceSchema) (names seen : list string)
    (container : list (string * Score)) :
  strictly_increasing (map fst container) ->
  (forall n s, (n, s) ∈ container <->
     n ∈ seen /\ exists score_calc,
       schema_score_calculator schema n = Some score_calc /\
       is_cumulative score_calc = true /\ s = CreateScore score_calc) ->
  let result :=
    fold_left
      (fun container score_name =>
         match schema_score_calculator schema score_name with
         | None => container
         | Some score_calc =>
             if negb (is_cumulative score_calc) then container
             else score_container_insert score_name (CreateScore score_calc) container
         end)
      names container in
  strictly_increasing (map fst result) /\
  (forall n s, (n, s) ∈ result <->
     n ∈ seen ++ names /\ exists score_calc,
       schema_score_calculator schema n = Some score_calc /\
       is_cumulative score_calc = true /\ s = CreateScore score_calc).
Proof.
  revert seen container. induction names as [|name names IH];
    intros seen container Hsorted Hmem; simpl.
  - by rewrite app_nil_r.
  - replace (seen ++ name :: names) with ((seen ++ [name]) ++ names)
      by (by rewrite <- app_assoc).
    destruct (schema_score_calculator schema name) as [score_calc|] eqn:Hcalc.
    + destruct (is_cumulative score_calc) eqn:Hcum; simpl.
      * destruct (score_container_insert_sorted name (CreateScore score_calc) container Hsorted)
          as [Hsorted' Hmem'].
        apply IH; [done|].
        intros n s. rewrite Hmem', Hmem, elem_of_app, list_elem_of_singleton. split.
        -- intros [[Hin Hwanted]|(-> & -> & _)]; [split; [by left | done]|].
           split; [by right|]. by exists score_calc.
        -- intros [[Hin| ->] (calc & Hc & Hcu & ->)].
           ++ left. split; [done|]. by exists calc.
           ++ rewrite Hcalc in Hc. injection Hc as <-.
              destruct (decide (name ∈ map fst container)) as [Hold|Hnew].
              ** left. apply list_elem_of_fmap in Hold as ([n0 s0] & Hname & Hold).
                 simpl in Hname. subst n0.
                 apply Hmem in Hold as (Hseen & _).
                 split; [done|]. by exists score_calc.
              ** by right.
      * apply IH; [done|].
        intros n s. rewrite Hmem, elem_of_app, list_elem_of_singleton. split.
        -- intros [Hin Hwanted]. split; [by left | done].
        -- intros [[Hin| ->] (calc & Hc & Hcu & ->)]; [split; [done | by exists calc]|].
           rewrite Hcalc in Hc. injection Hc as <-. congruence.
    + apply IH; [done|].
      intros n s. rewrite Hmem, elem_of_app, list_elem_of_singleton. split.
      * intros [Hin Hwanted]. split; [by left | done].
      * intros [[Hin| ->] (calc & Hc & Hcu & ->)]; [split; [done | by exists calc]|].
        congruence.
Qed.

(** The names of the created scores come in strictly increasing order. *)
Lemma create_scores_increasing (schema : InstanceSchema) (model_config : ModelConfig) :
  strictly_increasing (map fst (create_scores schema model_config)).
Proof.
  unfold create_scores.
  rewrite (fold_left_Zrange_rget
             (fun container score_name =>
                match schema_score_calculator schema score_name with
                | None => container
                | Some score_calc =>
                    if negb (is_cumulative score_calc) then container
                    else score_container_insert score_name (CreateScore score_calc) container
                end)).
  apply (create_scores_fold schema (mc_score_name model_config) [] []); [done|].
  intros n s. split; [intros Hin; by apply elem_of_nil in Hin|].
  intros [Hin _]. by apply elem_of_nil in Hin.
Qed.

(** X21. The scores the worker creates for a model are kept by name, in the
    strictly increasing order of the names, so that no name comes twice
    although the config may list it twice; they are exactly the scores
    the config names for which the schema has a cumulative calculator,
    each as [CreateScore] of its calculator makes it. *)
Theorem create_scores_sorted (schema : InstanceSchema) (model_config : ModelConfig) :
  strictly_increasing (map fst (create_scores schema model_config)) /\
  forall score_name score,
    (score_name, score) ∈ create_scores schema model_config <->
    cumulative_score schema model_config score_name score.
Proof.
  unfold create_scores, cumulative_score.
  rewrite (fold_left_Zrange_rget
             (fun container score_name =>
                match schema_score_calculator schema score_name with
                | None => container
                | Some score_calc =>
                    if negb (is_cumulative score_calc) then container
                    else score_container_insert score_name (CreateScore score_calc) container
                end)).
  apply (create_scores_fold schema (mc_score_name model_config) [] []).
  - done.
  - intros n s. split; [intros Hin; by apply elem_of_nil in Hin|].
    intros [Hin _]. by apply elem_of_nil in Hin.
Qed.

Lemma copy_nwt_rows_scores (n_wt : DenseMatrix) (topic_size : Z)
    (token_indices : list Z) (mi : ModelIncrement) :
  mi_score_name (fst (copy_nwt_rows n_wt topic_size token_indices mi)) = mi_score_name mi /\
  mi_score (fst (copy_nwt_rows n_wt topic_size token_indices mi)) = mi_score mi.
Proof.
  revert mi. induction token_indices as [|j rest IH]; intros mi; simpl; [done|].
  destruct (rsize (rget (mi_token_increment mi) j []) =? 0); [apply IH|].
  destruct (negb (rsize (rget (mi_token_increment mi) j []) =? topic_size)); [done|].
  destruct (rget (mi_operation_type mi) j CreateIfNotExist); [apply IH|].
  destruct (IH (mkModelIncrement
                  (mi_model_name mi) (mi_topics_count mi) (mi_topic_name mi)
                  (mi_batch_uuid mi) (mi_token mi) (mi_class_id mi)
                  (rset (mi_token_increment mi) j
                     (fold_left
                        (fun row topic_index =>
                           rset row topic_index (dense_get n_wt j topic_index))
                        (Zrange topic_size) (rget (mi_token_increment mi) j [])))
                  (mi_operation_type mi) (mi_cache mi) (mi_score_name mi) (mi_score mi)))
    as [-> ->]. done.
Qed.

Lemma export_theta_cache_scores (env : Environment) (uuids : nat)
    (part : ProcessorInput) (model_name : string) (topic_size : Z)
    (theta_matrix : DenseMatrix) (mi : ModelIncrement) :
  mi_score_name (fst (export_theta_cache env uuids part model_name topic_size
                                         theta_matrix mi)) = mi_score_name mi /\
  mi_score (fst (export_theta_cache env uuids part model_name topic_size
                                    theta_matrix mi)) = mi_score mi.
Proof.
  unfold export_theta_cache.
  destruct (cfg_cache_theta _); [|done].
  destruct (theta_columns _ _ _) as [ids thetas].
  destruct (cfg_disk_cache_path _) as [path|]; [destruct (SaveMessage _ _ _ _)|]; done.
Qed.

Lemma attach_scores_names (container : list (string * Score)) (mi : ModelIncrement) :
  mi_score_name
    (fold_left
       (fun mi '(score_name, score) =>
          mkModelIncrement
            (mi_model_name mi) (mi_topics_count mi) (mi_topic_name mi)
            (mi_batch_uuid mi) (mi_token mi) (mi_class_id mi)
            (mi_token_increment mi) (mi_operation_type mi) (mi_cache mi)
            (mi_score_name mi ++ [score_name]) (mi_score mi ++ [score]))
       container mi) = mi_score_name mi ++ map fst container /\
  mi_score
    (fold_left
       (fun mi '(score_name, score) =>
          mkModelIncrement
            (mi_model_name mi) (mi_topics_count mi) (mi_topic_name mi)
            (mi_batch_uuid mi) (mi_token mi) (mi_class_id mi)
            (mi_token_increment mi) (mi_operation_type mi) (mi_cache mi)
            (mi_score_name mi ++ [score_name]) (mi_score mi ++ [score]))
       container mi) = mi_score mi ++ map snd container.
Proof.
  induction container as [|[n s] rest IH] using rev_ind.
  - simpl. by rewrite !app_nil_r.
  - rewrite !fold_left_app, !map_app. cbn [fold_left map fst snd mi_score_name mi_score].
    destruct IH as [IHn IHs].
    split; rewrite app_assoc; (f_equal; [exact IHn || exact IHs]).
Qed.

Lemma append_scores_names (schema : InstanceSchema) (topic_model : TopicModel)
    (token_dict : list Token) (topic_size : Z) (theta_matrix : DenseMatrix)
    (iter : StreamIterator) (item : Item) (container : list (string * Score)) :
  map fst (append_scores schema topic_model token_dict topic_size theta_matrix
                         iter item container) = map fst container.
Proof.
  unfold append_scores. rewrite map_map. apply map_ext. intros [n s].
  destruct (schema_score_calculator schema n) as [score_calc|]; [|done].
  by destruct (negb (InStream iter (sc_stream_name score_calc))).
Qed.

Lemma score_items_names (rounds : nat) (schema : InstanceSchema)
    (topic_model : TopicModel) (token_dict : list Token) (topic_size : Z)
    (theta_matrix : DenseMatrix) (iter : StreamIterator)
    (container : list (string * Score)) :
  map fst (score_items rounds schema topic_model token_dict topic_size theta_matrix
                       iter container) = map fst container.
Proof.
  revert iter container. induction rounds as [|rounds IH]; intros iter container;
    cbn [score_items]; [done|].
  destruct (Next iter) as [iter' [item|]]; [|done].
  by rewrite IH, append_scores_names.
Qed.

(** X22. The scores of an increment the worker pushes for a model: when
    [InitializePhi] returns null the increment lists no score, and
    otherwise it lists exactly the names of the cumulative scores of the
    config, in strictly increasing order whatever order the config names
    them in, with a value for each name. *)
Theorem pushed_scores_are_sorted (env : Environment) (part : ProcessorInput)
    (locals : BatchLocals) (ws : WorkerState) (model_name : string)
    (mi : ModelIncrement) :
  ws_pushed (snd (fst (process_model env part (locals, ws) model_name))) =
    ws_pushed ws ++ [mi] ->
  exists topic_model,
    GetLatestTopicModel env model_name = Some topic_model /\
    mi_score_name mi =
      match InitializePhi (pi_batch part)
                          (schema_model_config (schema_get env) model_name) topic_model with
      | None => []
      | Some _ =>
          map fst (create_scores (schema_get env)
                     (schema_model_config (schema_get env) model_name))
      end /\
    strictly_increasing (mi_score_name mi) /\
    length (mi_score mi) = length (mi_score_name mi).
Proof.
  assert (Hno : ws_pushed ws <> ws_pushed ws ++ [mi]).
  { intros Heq. apply (f_equal length) in Heq. rewrite length_app in Heq. simpl in Heq. lia. }
  unfold process_model.
  set (model_config := schema_model_config (schema_get env) model_name).
  destruct (mc_enabled model_config); cbn [negb fst snd]; [|done].
  destruct (rsize (mc_class_id model_config) =? rsize (mc_class_weight model_config));
    cbn [negb fst snd]; [|done].
  destruct (GetLatestTopicModel env model_name) as [topic_model|]; [|done].
  destruct (Z.eqb_spec (tm_topic_size topic_model) (mc_topics_count model_config))
    as [Hsize|Hsize]; cbn [negb fst snd]; [|done].
  destruct (InitializeTheta _ _ _ _ _) as [theta_matrix rnd].
  destruct (InitializePhi (pi_batch part) model_config topic_model) as [phi_matrix|]
    eqn:HPhi.
  2: { unfold push. cbn [fst snd ws_pushed].
       intros Heq. apply app_inj_tail in Heq as [_ <-].
       exists topic_model. split; [done|]. rewrite HPhi.
       rewrite InitializeModelIncrement_unfold. simpl. done. }
  match goal with
  | |- context [let '(n_wt, theta) := ?calc in _] => destruct calc as [n_wt theta']
  end.
  pose proof (copy_nwt_rows_scores n_wt (tm_topic_size topic_model) (Zrange (no_rows n_wt))
                (InitializeModelIncrement part model_config topic_model)) as [Hnames Hscores].
  pose proof (copy_nwt_rows_no_throw n_wt (tm_topic_size topic_model)
                (Zrange (no_rows n_wt))
                (InitializeModelIncrement part model_config topic_model)) as Hcopy.
  rewrite InitializeModelIncrement_unfold in Hnames at 2.
  rewrite InitializeModelIncrement_unfold in Hscores at 2.
  cbn [mi_score_name mi_score] in Hnames, Hscores.
  destruct (copy_nwt_rows _ _ _ _) as [mi' thrown]; cbn [fst snd] in Hnames, Hscores, Hcopy.
  rewrite Hcopy.
  2: { intros i. rewrite Hsize. apply InitializeModelIncrement_row_lengths. }
  pose proof (export_theta_cache_scores env (ws_uuids ws) part model_name
                (tm_topic_size topic_model) theta' mi') as [Hnames' Hscores'].
  destruct (export_theta_cache _ _ _ _ _ _ _) as [mi'' uuids].
  cbn [fst snd] in Hnames', Hscores'.
  unfold push. cbn [fst snd ws_pushed ws_rnd ws_uuids].
  intros Heq. apply app_inj_tail in Heq as [_ <-].
  exists topic_model. split; [done|]. rewrite HPhi.
  match goal with
  | |- context [fold_left _ ?c mi''] =>
      destruct (attach_scores_names c mi'') as [Hattach_names Hattach_scores];
      pose proof (score_items_names (S (length (batch_item (pi_batch part))))
                    (schema_get env) topic_model
                    (fold_left
                       (fun token_dict token_index =>
                          token_dict ++ [batch_token_obj (pi_batch part) token_index])
                       (Zrange (rsize (batch_token (pi_batch part)))) [])
                    (tm_topic_size topic_model) theta' (StreamIterator_new part)
                    (create_scores (schema_get env) model_config)) as Hkept
  end.
  rewrite Hattach_names, Hattach_scores, Hnames', Hscores', Hnames, Hscores.
  cbn [app]. rewrite Hkept.
  split; [done|].
  split; [apply create_scores_increasing|].
  rewrite <- Hkept. by rewrite !length_map.
Qed.

Lemma pushed_scores_are_sorted_witness :
  exists topic_model,
    GetLatestTopicModel scoring_env "model" = Some topic_model /\
    mi_score_name scored_increment =
      match InitializePhi (pi_batch sample_input)
                          (schema_model_config (schema_get scoring_env) "model")
                          topic_model with
      | None => []
      | Some _ =>
          map fst (create_scores (schema_get scoring_env)
                     (schema_model_config (schema_get scoring_env) "model"))
      end /\
    strictly_increasing (mi_score_name scored_increment) /\
    length (mi_score scored_increment) = length (mi_score_name scored_increment).
Proof.
  apply (pushed_scores_are_sorted scoring_env sample_input (mkBatchLocals None None)
           fresh_worker "model" scored_increment).
  vm_compute. reflexivity.
Defined.

(** The sample config names [perplexity], [items], [sparsity] and
    [items] again; the increment lists [items] and [perplexity], each
    having counted the one item of the batch that is in its stream. *)
Example scored_increment_scores :
  mi_score_name scored_increment = ["items"; "perplexity"]%string /\
  mi_score scored_increment = ["i"; "i"]%string.
Proof. split; reflexivity. Qed.

(** ** The theta cache across two passes *)

Lemma copy_nwt_rows_cache (n_wt : DenseMatrix) (topic_size : Z)
    (token_indices : list Z) (mi : ModelIncrement) :
  mi_cache (fst (copy_nwt_rows n_wt topic_size token_indices mi)) = mi_cache mi.
Proof.
  revert mi. induction token_indices as [|j rest IH]; intros mi; simpl; [done|].
  destruct (rsize (rget (mi_token_increment mi) j []) =? 0); [apply IH|].
  destruct (negb (rsize (rget (mi_token_increment mi) j []) =? topic_size)); [done|].
  destruct (rget (mi_operation_type mi) j CreateIfNotExist); [apply IH|].
  by rewrite IH.
Qed.

Lemma attach_scores_cache (container : list (string * Score)) (mi : ModelIncrement) :
  mi_cache
    (fold_left
       (fun mi '(score_name, score) =>
          mkModelIncrement
            (mi_model_name mi) (mi_topics_count mi) (mi_topic_name mi)
            (mi_batch_uuid mi) (mi_token mi) (mi_class_id mi)
            (mi_token_increment mi) (mi_operation_type mi) (mi_cache mi)
            (mi_score_name mi ++ [score_name]) (mi_score mi ++ [score]))
       container mi) = mi_cache mi.
Proof.
  induction container as [|[n s] rest IH] using rev_ind; [done|].
  rewrite fold_left_app. cbn [fold_left mi_cache]. exact IH.
Qed.

(** [FindCacheEntry] returns the first entry of the batch and the
    model. *)
Lemma FindCacheEntry_first (part : ProcessorInput) (model_config : ModelConfig)
    (before after : list DataLoaderCacheEntry) (c : DataLoaderCacheEntry) :
  pi_cached_theta part = before ++ c :: after ->
  Forall (fun c' => ~ cache_entry_for (pi_batch_uuid part) (mc_name model_config) c')
         before ->
  cache_entry_for (pi_batch_uuid part) (mc_name model_config) c ->
  FindCacheEntry part model_config = Some c.
Proof.
  unfold FindCacheEntry, cache_entry_for. intros -> Hbefore [Huuid Hname].
  induction Hbefore as [|c' before Hc' _ IH]; cbn [app find].
  - rewrite !bool_decide_eq_true_2 by done. done.
  - destruct (bool_decide (ce_batch_uuid c' = pi_batch_uuid part)) eqn:Hu;
      destruct (bool_decide (ce_model_name c' = mc_name model_config)) eqn:Hn;
      cbn [andb]; try exact IH.
    exfalso. apply Hc'. split; [exact (bool_decide_eq_true_1 _ Hu) | exact (bool_decide_eq_true_1 _ Hn)].
Qed.

(** The cache entry of the increment the worker pushes for a model with
    a non-empty [Phi]. *)
Lemma process_model_cache_entry (env : Environment) (part : ProcessorInput)
    (locals : BatchLocals) (ws : WorkerState) (model_name : string)
    (topic_model : TopicModel) (phi_matrix : DenseMatrix) (mi : ModelIncrement) :
  cfg_cache_theta (schema_config (schema_get env)) = true ->
  cfg_disk_cache_path (schema_config (schema_get env)) = None ->
  GetLatestTopicModel env model_name = Some topic_model ->
  InitializePhi (pi_batch part) (schema_model_config (schema_get env) model_name)
                topic_model = Some phi_matrix ->
  ws_pushed (snd (fst (process_model env part (locals, ws) model_name))) =
    ws_pushed ws ++ [mi] ->
  tm_topic_size topic_model =
    mc_topics_count (schema_model_config (schema_get env) model_name) /\
  mi_cache mi =
    [mkCacheEntry (pi_batch_uuid part) model_name (tm_topic_name topic_model)
       (map item_id (batch_item (pi_batch part)))
       (map (theta_column (pass_theta env part locals (ws_rnd ws) model_name phi_matrix)
                          (tm_topic_size topic_model))
            (Zrange (rsize (batch_item (pi_batch part)))))
       None].
Proof.
  intros Hcache Hdisk Htm HPhi.
  assert (Hno : ws_pushed ws <> ws_pushed ws ++ [mi]).
  { intros Heq. apply (f_equal length) in Heq. rewrite length_app in Heq. simpl in Heq. lia. }
  unfold pass_theta, process_model.
  set (model_config := schema_model_config (schema_get env) model_name) in *.
  destruct (mc_enabled model_config); cbn [negb fst snd]; [|done].
  destruct (rsize (mc_class_id model_config) =? rsize (mc_class_weight model_config));
    cbn [negb fst snd]; [|done].
  rewrite Htm.
  destruct (Z.eqb_spec (tm_topic_size topic_model) (mc_topics_count model_config))
    as [Hsize|Hsize]; cbn [negb fst snd]; [|done].
  destruct (InitializeTheta _ _ _ _ _) as [theta_matrix rnd]. cbn [fst].
  rewrite HPhi. unfold model_stream_mask.
  match goal with
  | |- context [let '(n_wt, theta) := ?calc in _] => destruct calc as [n_wt theta']
  end.
  cbn [snd].
  pose proof (copy_nwt_rows_no_throw n_wt (tm_topic_size topic_model)
                (Zrange (no_rows n_wt))
                (InitializeModelIncrement part model_config topic_model)) as Hcopy.
  pose proof (copy_nwt_rows_cache n_wt (tm_topic_size topic_model) (Zrange (no_rows n_wt))
                (InitializeModelIncrement part model_config topic_model)) as Hkept.
  pose proof (copy_nwt_rows_skeleton n_wt (tm_topic_size topic_model)
                (Zrange (no_rows n_wt))
                (InitializeModelIncrement part model_config topic_model))
    as (_ & _ & Htopics & _).
  rewrite InitializeModelIncrement_unfold in Hkept at 2.
  rewrite InitializeModelIncrement_unfold in Htopics at 2.
  cbn [mi_cache mi_topic_name] in Hkept, Htopics.
  destruct (copy_nwt_rows _ _ _ _) as [mi' thrown]. cbn [fst snd] in Hcopy, Hkept, Htopics.
  rewrite Hcopy.
  2: { intros i. rewrite Hsize. apply InitializeModelIncrement_row_lengths. }
  unfold export_theta_cache. rewrite Hcache, Hdisk, theta_columns_closed.
  unfold push. cbn [fst snd ws_pushed ws_rnd ws_uuids].
  intros Heq. apply app_inj_tail in Heq as [_ <-].
  split; [done|].
  rewrite attach_scores_cache. cbn [mi_cache]. by rewrite Hkept, Htopics.
Qed.

(** X10. A [Theta] exported to the in-memory theta cache comes back.
    When the schema caches theta without a disk path and lists the
    config under its own name, the increment [ThreadFunction] pushes for
    a model with a non-empty [Phi] carries one cache entry, stamped with
    the uuid of the batch and the name of the model.  On a later input
    for the same batch whose cache lists that entry after entries of
    other batches or models only, [FindCacheEntry] returns it, whatever
    comes after it; and with [reuse_theta] and distinct item ids the
    initial [Theta] of the later pass holds the cells the inner
    iterations of the first pass left. *)
Theorem theta_cache_round_trip (env : Environment) (part later : ProcessorInput)
    (locals : BatchLocals) (ws : WorkerState) (model_name : string)
    (topic_model : TopicModel) (phi_matrix : DenseMatrix) (mi : ModelIncrement)
    (before after : list DataLoaderCacheEntry) (G : nat -> float) (rnd : nat) (k d : Z) :
  cfg_cache_theta (schema_config (schema_get env)) = true ->
  cfg_disk_cache_path (schema_config (schema_get env)) = None ->
  mc_name (schema_model_config (schema_get env) model_name) = model_name ->
  mc_reuse_theta (schema_model_config (schema_get env) model_name) = true ->
  NoDup (map item_id (batch_item (pi_batch part))) ->
  GetLatestTopicModel env model_name = Some topic_model ->
  InitializePhi (pi_batch part) (schema_model_config (schema_get env) model_name)
                topic_model = Some phi_matrix ->
  ws_pushed (snd (fst (process_model env part (locals, ws) model_name))) =
    ws_pushed ws ++ [mi] ->
  pi_batch later = pi_batch part ->
  pi_batch_uuid later = pi_batch_uuid part ->
  pi_cached_theta later = before ++ mi_cache mi ++ after ->
  Forall (fun c' => ~ cache_entry_for (pi_batch_uuid part) model_name c') before ->
  0 <= k < mc_topics_count (schema_model_config (schema_get env) model_name) ->
  0 <= d < rsize (batch_item (pi_batch part)) ->
  exists c,
    mi_cache mi = [c] /\
    cache_entry_for (pi_batch_uuid part) model_name c /\
    FindCacheEntry later (schema_model_config (schema_get env) model_name) = Some c /\
    dense_get
      (fst (InitializeTheta G rnd (pi_batch later)
              (schema_model_config (schema_get env) model_name)
              (FindCacheEntry later (schema_model_config (schema_get env) model_name))))
      k d =
    dense_get (pass_theta env part locals (ws_rnd ws) model_name phi_matrix) k d.
Proof.
  intros Hcache Hdisk Hname Hreuse Hnd Htm HPhi Hpush Hbatch Huuid Hlater Hbefore Hk Hd.
  destruct (process_model_cache_entry env part locals ws model_name topic_model phi_matrix
              mi Hcache Hdisk Htm HPhi Hpush) as [Hsize Hentry].
  set (model_config := schema_model_config (schema_get env) model_name) in *.
  set (theta_matrix := pass_theta env part locals (ws_rnd ws) model_name phi_matrix) in *.
  set (c := mkCacheEntry (pi_batch_uuid part) model_name (tm_topic_name topic_model)
              (map item_id (batch_item (pi_batch part)))
              (map (theta_column theta_matrix (tm_topic_size topic_model))
                   (Zrange (rsize (batch_item (pi_batch part)))))
              None) in *.
  exists c. split; [done|]. split; [done|].
  assert (Hfound : FindCacheEntry later model_config = Some c).
  { apply (FindCacheEntry_first later model_config before after c).
    - by rewrite Hlater, Hentry.
    - by rewrite Huuid, Hname.
    - by rewrite Huuid, Hname. }
  split; [done|]. rewrite Hfound, Hbatch. clearbody theta_matrix.
  assert (Hid : item_id (batch_item_at (pi_batch part) d) =
                nth (Z.to_nat d) (map item_id (batch_item (pi_batch part))) 0).
  { unfold batch_item_at, rget. destruct (Z.ltb_spec d 0); [lia|].
    change 0 with (item_id empty_Item). by rewrite map_nth. }
  assert (Hidx : repeated_field_index_of (ce_item_id c)
                   (item_id (batch_item_at (pi_batch part) d)) = d).
  { unfold repeated_field_index_of. simpl. rewrite Hid.
    rewrite repeated_field_index_of_from_NoDup; [lia | done |].
    rewrite length_map. unfold rsize in Hd. lia. }
  destruct (InitializeTheta_cells G rnd (pi_batch part) model_config (Some c))
    as (_ & _ & Hcells); [lia|].
  rewrite Hcells by done.
  unfold initial_theta_cell, cached_column_index. rewrite Hreuse, Hidx.
  destruct (Z.eqb_spec d (-1)); [lia|]. simpl.
  rewrite rget_map_Zrange by done.
  unfold theta_column. rewrite rget_map_Zrange by lia. done.
Qed.

Lemma theta_cache_round_trip_witness :
  exists c,
    mi_cache cached_increment = [c] /\
    cache_entry_for (pi_batch_uuid sample_input) "model" c /\
    FindCacheEntry later_input (schema_model_config (schema_get caching_env) "model")
      = Some c /\
    dense_get
      (fst (InitializeTheta counting_source 0 (pi_batch later_input)
              (schema_model_config (schema_get caching_env) "model")
              (FindCacheEntry later_input
                 (schema_model_config (schema_get caching_env) "model"))))
      0 1 =
    dense_get (pass_theta caching_env sample_input (mkBatchLocals None None)
                 (ws_rnd fresh_worker) "model" cached_phi) 0 1.
Proof.
  apply (theta_cache_round_trip caching_env sample_input later_input
           (mkBatchLocals None None) fresh_worker "model" sample_topic_model cached_phi
           cached_increment
           [mkCacheEntry "other" "model" ["t0"; "t1"]%string [1; 2]
              [[Float32.one; Float32.zero]; [Float32.one; Float32.zero]] None;
            mkCacheEntry "uuid" "other" ["t0"; "t1"]%string [1; 2]
              [[Float32.one; Float32.zero]; [Float32.one; Float32.zero]] None]
           [sample_cache_entry] counting_source 0 0 1).
  - reflexivity.
  - reflexivity.
  - reflexivity.
  - reflexivity.
  - apply (bool_decide_unpack _). vm_compute. reflexivity.
  - reflexivity.
  - vm_compute. reflexivity.
  - vm_compute. reflexivity.
  - reflexivity.
  - reflexivity.
  - reflexivity.
  - repeat constructor; unfold cache_entry_for; simpl; intros [Hu Hn]; discriminate.
  - simpl. lia.
  - unfold rsize. simpl. lia.
Defined.

(** The later pass starts item 2 of the sample batch from the column the
    first pass left, not from the older entry of the cache;
    and under a schema that lists the config under another name than its
    own, the entry is stamped with that name and [FindCacheEntry], which
    compares with the name of the config, does not find it. *)
Example later_pass_theta :
  theta_column
    (fst (InitializeTheta counting_source 0 (pi_batch later_input) reusing_config
            (FindCacheEntry later_input reusing_config))) 2 1 =
  theta_column (pass_theta caching_env sample_input (mkBatchLocals None None) 0 "model"
                  cached_phi) 2 1 /\
  map ce_model_name
      (flat_map mi_cache
         (ws_pushed (snd (fst (process_model keyed_env sample_input
                                 (mkBatchLocals None None, fresh_worker) "key")))))
    = ["key"]%string /\
  FindCacheEntry
    (mkProcessorInput (pi_batch sample_input) "uuid" [] []
       (flat_map mi_cache
          (ws_pushed (snd (fst (process_model keyed_env sample_input
                                  (mkBatchLocals None None, fresh_worker) "key"))))))
    reusing_config = None.
Proof. vm_compute. repeat split; reflexivity. Qed.

(** ** The transaction processor *)

(** The loop of [local_to_global] after its first [m] rounds. *)
Lemma local_to_global_rounds (batch : Transactions.Batch) (p_wt : Transactions.PhiMatrix)
    (m : nat) :
  (m <= length (Transactions.batch_token batch))%nat ->
  let ids :=
    fold_left
      (fun ids local_id =>
         let global_id :=
           Transactions.token_index p_wt
             (rget (Transactions.batch_class_id batch) local_id EmptyString,
              rget (Transactions.batch_token batch) local_id EmptyString) in
         if global_id =? -1 then ids else rset ids local_id global_id)
      (Zrange (Z.of_nat m))
      (replicate (length (Transactions.batch_token batch)) (-1)) in
  length ids = length (Transactions.batch_token batch) /\
  forall i, 0 <= i < rsize (Transactions.batch_token batch) ->
    rget ids i 0 =
    if i <? Z.of_nat m
    then Transactions.token_index p_wt
           (rget (Transactions.batch_class_id batch) i EmptyString,
            rget (Transactions.batch_token batch) i EmptyString)
    else -1.
Proof.
  intros Hm. induction m as [|m IH]; cbv zeta.
  - simpl. split; [apply length_replicate|].
    intros i Hi. destruct (Z.ltb_spec i (Z.of_nat 0)); [lia|].
    unfold rget. destruct (Z.ltb_spec i 0); [lia|].
    apply nth_lookup_Some with (d := 0). apply lookup_replicate_2. unfold rsize in Hi. lia.
  - replace (Z.of_nat (S m)) with (Z.of_nat m + 1) by lia.
    rewrite Zrange_succ by lia. rewrite fold_left_app. cbn [fold_left]. cbv zeta.
    cbv zeta in IH. destruct IH as [Hlen Hget]; [lia|].
    set (ids := fold_left _ (Zrange (Z.of_nat m)) _) in *.
    set (g := Transactions.token_index p_wt
                (rget (Transactions.batch_class_id batch) (Z.of_nat m) EmptyString,
                 rget (Transactions.batch_token batch) (Z.of_nat m) EmptyString)).
    assert (Hg : Transactions.token_index p_wt
                   (rget (Transactions.batch_class_id batch) (Z.of_nat m) EmptyString,
                    rget (Transactions.batch_token batch) (Z.of_nat m) EmptyString) = g)
      by reflexivity.
    clearbody g ids.
    split.
    + destruct (Z.eqb_spec g (-1)); [done|]. by rewrite rset_length.
    + intros i Hi. destruct (decide (i = Z.of_nat m)) as [->|Hne].
      * destruct (Z.ltb_spec (Z.of_nat m) (Z.of_nat m + 1)); [|lia].
        rewrite Hg.
        destruct (Z.eqb_spec g (-1)) as [Heq|Hneq].
        -- rewrite Hget by done. destruct (Z.ltb_spec (Z.of_nat m) (Z.of_nat m)); [lia|].
           by rewrite Heq.
        -- apply rget_rset_eq. unfold rsize in *. lia.
      * assert (Hsame : rget (if g =? -1 then ids else rset ids (Z.of_nat m) g) i 0 =
                        rget ids i 0).
        { destruct (Z.eqb_spec g (-1)); [done|]. apply rget_rset_ne. congruence. }
        rewrite Hsame, Hget by done.
        destruct (Z.ltb_spec i (Z.of_nat m)), (Z.ltb_spec i (Z.of_nat m + 1)); try done; lia.
Qed.

(** X23. The table from the tokens of the batch to those of the model has an
    entry per batch token, which is what [token_index] of the model
    gives for it: its index there, or [-1] for a token the model does
    not have. *)
Theorem local_to_global_table (batch : Transactions.Batch) (p_wt : Transactions.PhiMatrix)
    (local_id : Z) :
  0 <= local_id < rsize (Transactions.batch_token batch) ->
  length (Transactions.local_to_global batch p_wt) =
    length (Transactions.batch_token batch) /\
  rget (Transactions.local_to_global batch p_wt) local_id 0 =
    Transactions.token_index p_wt
      (rget (Transactions.batch_class_id batch) local_id EmptyString,
       rget (Transactions.batch_token batch) local_id EmptyString).
Proof.
  intros Hi. unfold Transactions.local_to_global.
  destruct (local_to_global_rounds batch p_wt (length (Transactions.batch_token batch))
              (le_n _)) as [Hlen Hget].
  fold (rsize (Transactions.batch_token batch)) in Hlen, Hget.
  split; [exact Hlen|]. rewrite Hget by done.
  destruct (Z.ltb_spec local_id (rsize (Transactions.batch_token batch))); [done | lia].
Qed.

Lemma local_to_global_table_witness :
  length (Transactions.local_to_global two_documents half_known_phi) =
    length (Transactions.batch_token two_documents) /\
  rget (Transactions.local_to_global two_documents half_known_phi) 1 0 =
    Transactions.token_index half_known_phi
      (rget (Transactions.batch_class_id two_documents) 1 EmptyString,
       rget (Transactions.batch_token two_documents) 1 EmptyString).
Proof.
  apply (local_to_global_table two_documents half_known_phi 1).
  unfold rsize. simpl. lia.
Defined.

(** The weights of the transaction types, looked up. *)
Lemma tt_name_to_weight_lookup (args : Transactions.ProcessBatchesArgs) (c : string) :
  length (Transactions.args_transaction_typename args) =
  length (Transactions.args_transaction_weight args) ->
  Transactions.tt_name_to_weight args !! c =
  listed_weight (Transactions.args_transaction_typename args)
                (Transactions.args_transaction_weight args) c.
Proof.
  intros Hlen. unfold Transactions.tt_name_to_weight.
  rewrite (fold_left_over_map
             (fun m p => map_insert_new m (fst p) (snd p))
             (fun i => (rget (Transactions.args_transaction_typename args) i EmptyString,
                        rget (Transactions.args_transaction_weight args) i Float32.zero))).
  rewrite (map_Zrange_rget2 (fun a b => (a, b))) by done.
  rewrite (map_ext _ id), map_id by (by intros []).
  rewrite fold_insert_new_lookup, lookup_empty.
  f_equal.
  - clear c. revert Hlen. generalize (Transactions.args_transaction_weight args).
    induction (Transactions.args_transaction_typename args) as [|x l IH];
      intros [|y l'] Hlen; simpl in *; try done. f_equal. apply IH. lia.
  - clear c. revert Hlen. generalize (Transactions.args_transaction_weight args).
    induction (Transactions.args_transaction_typename args) as [|x l IH];
      intros [|y l'] Hlen; simpl in *; try done. f_equal. apply IH. lia.
Qed.

(** X24. The weight of a transaction is that of its type: 1 when the
    arguments list no type, the weight listed first for the type when
    they list it, and 0 when they list types but not this one. *)
Theorem transaction_type_weight (args : Transactions.ProcessBatchesArgs)
    (batch : Transactions.Batch) (item : Transactions.Item) (t_index : Z) :
  length (Transactions.args_transaction_typename args) =
  length (Transactions.args_transaction_weight args) ->
  Transactions.transaction_tt_weight args batch item t_index =
  listed_tt_weight args
    (rget (Transactions.batch_transaction_typename batch)
          (rget (Transactions.item_transaction_typename_id item) t_index 0) EmptyString).
Proof.
  intros Hlen. unfold Transactions.transaction_tt_weight, listed_tt_weight.
  rewrite tt_name_to_weight_lookup by done.
  unfold rsize. by destruct (Transactions.args_transaction_typename args).
Qed.

Lemma transaction_type_weight_witness :
  Transactions.transaction_tt_weight weighted_args two_documents
    (rget (Transactions.batch_item two_documents) 0 Transactions.empty_Item) 1 =
  listed_tt_weight weighted_args
    (rget (Transactions.batch_transaction_typename two_documents)
          (rget (Transactions.item_transaction_typename_id
                   (rget (Transactions.batch_item two_documents) 0 Transactions.empty_Item))
                1 0) EmptyString).
Proof.
  apply (transaction_type_weight weighted_args two_documents
           (rget (Transactions.batch_item two_documents) 0 Transactions.empty_Item) 1).
  reflexivity.
Defined.

(** The sample arguments: type [t] weighs 2, its first listing, and the
    type [v] they do not list weighs 0. *)
Example sample_transaction_weights :
  map (Transactions.transaction_tt_weight weighted_args two_documents
         (rget (Transactions.batch_item two_documents) 0 Transactions.empty_Item))
      [0; 1] =
  [Float32.of_int 2; Float32.zero].
Proof. vm_compute. reflexivity. Qed.

(** Writing a topic of document [d] leaves the other documents alone. *)
Lemma ltm_set_other (M : Transactions.LocalThetaMatrix) (k d k' d' : Z) (v : float) :
  0 <= k < Transactions.num_topics M -> 0 <= k' < Transactions.num_topics M ->
  d <> d' ->
  Transactions.ltm_get (Transactions.ltm_set M k d v) k' d' = Transactions.ltm_get M k' d'.
Proof.
  intros Hk Hk' Hd. unfold Transactions.ltm_get, Transactions.ltm_set. simpl.
  apply rget_rset_ne. nia.
Qed.

Lemma ltm_column_fold_other (f : Transactions.LocalThetaMatrix -> Z -> float) (d : Z)
    (ks : list Z) (M : Transactions.LocalThetaMatrix) (k' d' : Z) :
  (forall k, k ∈ ks -> 0 <= k < Transactions.num_topics M) ->
  0 <= k' < Transactions.num_topics M -> d <> d' ->
  Transactions.num_topics
    (fold_left (fun M k => Transactions.ltm_set M k d (f M k)) ks M) =
    Transactions.num_topics M /\
  Transactions.ltm_get
    (fold_left (fun M k => Transactions.ltm_set M k d (f M k)) ks M) k' d' =
    Transactions.ltm_get M k' d'.
Proof.
  revert M. induction ks as [|k ks IH]; intros M Hks Hk' Hd; simpl; [done|].
  destruct (IH (Transactions.ltm_set M k d (f M k))) as [Hn Hget]; try done.
  { intros k0 Hk0. simpl. apply Hks. by right. }
  rewrite Hn, Hget. split; [done|].
  apply ltm_set_other; try done. apply Hks. left.
Qed.

Lemma document_pass_other (args : Transactions.ProcessBatchesArgs)
    (batch : Transactions.Batch) (p_wt : Transactions.PhiMatrix)
    (theta_agents : Transactions.ThetaAgents) (ids : list Z) (d : Z)
    (st : Transactions.InferState) (inner_iter : Z) (k' d' : Z) :
  Transactions.num_topics (Transactions.is_theta st) = Transactions.topic_size p_wt ->
  0 <= k' < Transactions.topic_size p_wt -> d <> d' ->
  Transactions.num_topics
    (Transactions.is_theta
       (Transactions.document_pass args batch p_wt theta_agents ids d st inner_iter)) =
    Transactions.topic_size p_wt /\
  Transactions.ltm_get
    (Transactions.is_theta
       (Transactions.document_pass args batch p_wt theta_agents ids d st inner_iter))
    k' d' =
  Transactions.ltm_get (Transactions.is_theta st) k' d'.
Proof.
  intros Hn Hk' Hd. unfold Transactions.document_pass.
  destruct (fold_left (Transactions.ntd_transaction _ _ _ _ _ _ _) _ _) as [n_td helper].
  cbn [Transactions.is_theta].
  set (theta1 := fold_left (fun theta k => Transactions.ltm_set theta k d
                                             (Transactions.ltm_get n_td k d))
                           (Zrange (Transactions.topic_size p_wt))
                           (Transactions.is_theta st)).
  destruct (ltm_column_fold_other (fun _ k => Transactions.ltm_get n_td k d) d
              (Zrange (Transactions.topic_size p_wt)) (Transactions.is_theta st) k' d')
    as [Hn1 Hget1]; try done; try lia.
  { intros k Hk. apply elem_of_Zrange in Hk. lia. }
  fold theta1 in Hn1, Hget1.
  match goal with
  | |- context [fold_left (fun theta k => Transactions.ltm_set theta k d (rget ?col k _))
                          _ theta1] =>
      destruct (ltm_column_fold_other (fun _ k => rget col k Float32.zero) d
                  (Zrange (Transactions.topic_size p_wt)) theta1 k' d')
        as [Hn2 Hget2]; try done; try lia
  end.
  { intros k Hk. apply elem_of_Zrange in Hk. lia. }
  rewrite Hn2, Hget2, Hn1, Hget1. done.
Qed.

(** X25. The inference of a document is local to it: all the passes over
    document [d] leave the [Theta] columns of the other documents as
    they were. *)
Theorem document_inference_is_local (args : Transactions.ProcessBatchesArgs)
    (batch : Transactions.Batch) (p_wt : Transactions.PhiMatrix)
    (theta_agents : Transactions.ThetaAgents) (ids : list Z)
    (st : Transactions.InferState) (d k' d' : Z) :
  Transactions.num_topics (Transactions.is_theta st) = Transactions.topic_size p_wt ->
  0 <= k' < Transactions.topic_size p_wt ->
  d <> d' ->
  Transactions.ltm_get
    (Transactions.is_theta
       (Transactions.infer_document args batch p_wt theta_agents ids st d)) k' d' =
  Transactions.ltm_get (Transactions.is_theta st) k' d'.
Proof.
  intros Hn Hk' Hd. unfold Transactions.infer_document.
  generalize (Zrange_from 0 (Transactions.num_document_passes args + 1)). intros passes.
  revert st Hn. induction passes as [|p passes IH]; intros st Hn; simpl; [done|].
  destruct (document_pass_other args batch p_wt theta_agents ids d st p k' d')
    as [Hn' Hget]; try done.
  rewrite IH by done. exact Hget.
Qed.

Lemma document_inference_is_local_witness :
  Transactions.ltm_get
    (Transactions.is_theta
       (Transactions.infer_document weighted_args two_documents half_known_phi idle_agents
          (Transactions.local_to_global two_documents half_known_phi)
          (Transactions.mkInferState two_by_two_theta
             (Transactions.LocalThetaMatrix_new 2 2) [Float64.zero; Float64.zero] [])
          0)) 1 1 =
  Transactions.ltm_get two_by_two_theta 1 1.
Proof.
  apply (document_inference_is_local weighted_args two_documents half_known_phi idle_agents
           (Transactions.local_to_global two_documents half_known_phi)
           (Transactions.mkInferState two_by_two_theta
              (Transactions.LocalThetaMatrix_new 2 2) [Float64.zero; Float64.zero] [])
           0 1 1).
  - reflexivity.
  - simpl. lia.
  - discriminate.
Defined.

Lemma nwt_values_length (batch_weight tt_weight : float) (n_kdx : double)
    (helper_vector : list double) (p_dx_val : double) (topics : Z) :
  length (Transactions.nwt_values batch_weight tt_weight n_kdx helper_vector
                                  p_dx_val topics) = Z.to_nat topics.
Proof.
  unfold Transactions.nwt_values.
  rewrite (fold_rset_length
             (fun k => Float32.of_double
                         (Float64.div
                            (Float64.mul
                               (Float64.mul
                                  (Float64.mul (Float32.to_double tt_weight)
                                               (rget helper_vector k Float64.zero))
                                  n_kdx)
                               (Float32.to_double batch_weight))
                            p_dx_val))).
  apply length_replicate.
Qed.

(** What one transaction stores: a vector of [num_topics] values per
    token of the transaction. *)
Lemma nwt_transaction_stored (args : Transactions.ProcessBatchesArgs)
    (batch : Transactions.Batch) (batch_weight : float) (p_wt : Transactions.PhiMatrix)
    (ids : list Z) (item : Transactions.Item) (d : Z)
    (theta_matrix : Transactions.LocalThetaMatrix)
    (stored : list (Z * list float)) (helper_vector : list double) (t_index : Z) :
  exists added,
    fst (Transactions.nwt_transaction args batch batch_weight p_wt ids item d theta_matrix
           (stored, helper_vector) t_index) = stored ++ added /\
    length added =
      Z.to_nat (rget (Transactions.item_transaction_start_index item) (t_index + 1) 0 -
                rget (Transactions.item_transaction_start_index item) t_index 0) /\
    Forall (fun entry => length (snd entry) = Z.to_nat (Transactions.topic_size p_wt)) added.
Proof.
  unfold Transactions.nwt_transaction.
  destruct (Transactions.transaction_helper _ _ _ _ _ _ _) as [helper' p_dx_val].
  cbn [fst].
  exists (map (fun token_id =>
                 (rget ids (rget (Transactions.item_token_id item) token_id 0) 0,
                  Transactions.nwt_values batch_weight
                    (Transactions.transaction_tt_weight args batch item t_index)
                    (Float32.to_double
                       (rget (Transactions.item_token_weight item)
                             (rget (Transactions.item_transaction_start_index item) t_index 0)
                             Float32.zero))
                    helper' p_dx_val (Transactions.topic_size p_wt)))
              (Zrange_from
                 (rget (Transactions.item_transaction_start_index item) t_index 0)
                 (rget (Transactions.item_transaction_start_index item) (t_index + 1) 0))).
  split; [|split].
  - apply (fold_left_snoc_map
             (fun token_id =>
                (rget ids (rget (Transactions.item_token_id item) token_id 0) 0,
                 Transactions.nwt_values batch_weight
                   (Transactions.transaction_tt_weight args batch item t_index)
                   (Float32.to_double
                      (rget (Transactions.item_token_weight item)
                            (rget (Transactions.item_transaction_start_index item) t_index 0)
                            Float32.zero))
                   helper' p_dx_val (Transactions.topic_size p_wt)))).
  - by rewrite length_map, Zrange_from_length.
  - apply Forall_forall. intros entry Hentry.
    apply list_elem_of_fmap in Hentry as (token_id & -> & _). simpl.
    apply nwt_values_length.
Qed.

Lemma nwt_item_stored (args : Transactions.ProcessBatchesArgs)
    (batch : Transactions.Batch) (batch_weight : float) (p_wt : Transactions.PhiMatrix)
    (ids : list Z) (item : Transactions.Item) (d : Z)
    (theta_matrix : Transactions.LocalThetaMatrix) (ts : list Z)
    (acc : list (Z * list float) * list double) :
  exists added,
    fst (fold_left
           (Transactions.nwt_transaction args batch batch_weight p_wt ids item d theta_matrix)
           ts acc) = fst acc ++ added /\
    length added =
      list_sum
        (map (fun t_index =>
                Z.to_nat
                  (rget (Transactions.item_transaction_start_index item) (t_index + 1) 0 -
                   rget (Transactions.item_transaction_start_index item) t_index 0))
             ts) /\
    Forall (fun entry => length (snd entry) = Z.to_nat (Transactions.topic_size p_wt)) added.
Proof.
  revert acc. induction ts as [|t ts IH]; intros [stored helper]; cbn [fold_left].
  - exists []. simpl. by rewrite app_nil_r.
  - destruct (nwt_transaction_stored args batch batch_weight p_wt ids item d theta_matrix
                stored helper t) as (added & Hfst & Hlen & Hall).
    destruct (Transactions.nwt_transaction _ _ _ _ _ _ _ _ _ _) as [stored' helper'].
    cbn [fst] in Hfst. subst stored'.
    destruct (IH (stored ++ added, helper')) as (added' & Hfst' & Hlen' & Hall').
    exists (added ++ added'). cbn [fst] in Hfst'. cbn [fst].
    split; [by rewrite Hfst', app_assoc|]. split.
    + rewrite length_app, Hlen, Hlen'. done.
    + by apply Forall_app.
Qed.

(** X26. What [TransactionInferThetaAndUpdateNwtSparse] stores through the
    writer: one vector per token of every transaction of every
    document, each of [num_topics] values.  The writer has no part in
    the inference: without one, the same [Theta] is left and the same
    calls are made to the agents, and nothing is stored. *)
Theorem transaction_store_calls (args : Transactions.ProcessBatchesArgs)
    (batch : Transactions.Batch) (batch_weight : float) (p_wt : Transactions.PhiMatrix)
    (theta_agents : Transactions.ThetaAgents)
    (theta_matrix : Transactions.LocalThetaMatrix) :
  let with_writer :=
    Transactions.TransactionInferThetaAndUpdateNwtSparse
      args batch batch_weight p_wt theta_agents theta_matrix true in
  let without_writer :=
    Transactions.TransactionInferThetaAndUpdateNwtSparse
      args batch batch_weight p_wt theta_agents theta_matrix false in
  Forall (fun entry => length (snd entry) = Z.to_nat (Transactions.topic_size p_wt))
         (snd with_writer) /\
  length (snd with_writer) =
    list_sum
      (map (fun d => transaction_tokens
                       (rget (Transactions.batch_item batch) d Transactions.empty_Item))
           (Zrange (Transactions.num_items theta_matrix))) /\
  fst without_writer = fst with_writer /\
  snd without_writer = [].
Proof.
  intros with_writer without_writer.
  unfold with_writer, without_writer, Transactions.TransactionInferThetaAndUpdateNwtSparse.
  cbn [negb].
  set (st := Transactions.infer_theta args batch p_wt theta_agents theta_matrix).
  set (theta' := Transactions.is_theta st).
  assert (Hdocs : forall docs acc,
            exists added,
              fst (fold_left
                     (fun (acc : list (Z * list float) * list double) d =>
                        let item := rget (Transactions.batch_item batch) d
                                         Transactions.empty_Item in
                        fold_left
                          (Transactions.nwt_transaction args batch batch_weight p_wt
                             (Transactions.local_to_global batch p_wt) item d theta')
                          (Zrange (rsize (Transactions.item_transaction_start_index item) - 1))
                          acc)
                     docs acc) = fst acc ++ added /\
              length added =
                list_sum
                  (map (fun d => transaction_tokens
                                   (rget (Transactions.batch_item batch) d
                                         Transactions.empty_Item)) docs) /\
              Forall (fun entry =>
                        length (snd entry) = Z.to_nat (Transactions.topic_size p_wt)) added).
  { induction docs as [|d docs IH]; intros acc; cbn [fold_left].
    - exists []. simpl. by rewrite app_nil_r.
    - destruct (nwt_item_stored args batch batch_weight p_wt
                  (Transactions.local_to_global batch p_wt)
                  (rget (Transactions.batch_item batch) d Transactions.empty_Item) d theta'
                  (Zrange (rsize (Transactions.item_transaction_start_index
                                    (rget (Transactions.batch_item batch) d
                                          Transactions.empty_Item)) - 1))
                  acc) as (added & Hfst & Hlen & Hall).
      destruct (IH (fold_left
                      (Transactions.nwt_transaction args batch batch_weight p_wt
                         (Transactions.local_to_global batch p_wt)
                         (rget (Transactions.batch_item batch) d Transactions.empty_Item)
                         d theta')
                      (Zrange (rsize (Transactions.item_transaction_start_index
                                        (rget (Transactions.batch_item batch) d
                                              Transactions.empty_Item)) - 1))
                      acc)) as (added' & Hfst' & Hlen' & Hall').
      exists (added ++ added').
      split; [etransitivity; [exact Hfst'|]; by rewrite Hfst, app_assoc|]. split.
      + rewrite length_app, Hlen, Hlen'. done.
      + by apply Forall_app. }
  destruct (Hdocs (Zrange (Transactions.num_items theta_matrix))
                  ([], Transactions.is_helper st)) as (added & Hfst & Hlen & Hall).
  cbv zeta in Hfst.
  destruct (fold_left _ (Zrange (Transactions.num_items theta_matrix))
                      ([], Transactions.is_helper st)) as [stored helper].
  simpl in Hfst. subst stored. simpl. done.
Qed.

(** On the sample batch: three tokens in the transactions of the two
    documents, three vectors stored. *)
Example sample_store_calls :
  length (snd (Transactions.TransactionInferThetaAndUpdateNwtSparse
                 weighted_args two_documents Float32.one half_known_phi idle_agents
                 two_by_two_theta true)) = 3%nat.
Proof. vm_compute. reflexivity. Qed.

(** ** The columns the dense path keeps under a mask *)

Lemma dense_masked_count (mask : Mask) (indices : list Z) (count : Z) :
  fold_left (fun count i => if mask_value_at mask i then count + 1 else count)
            indices count =
  count + Z.of_nat (length (filter (fun i => mask_value_at mask i = true) indices)).
Proof.
  revert count. induction indices as [|i indices IH]; intros count; simpl; [lia|].
  rewrite IH. destruct (mask_value_at mask i) eqn:Hkeep.
  - rewrite filter_cons_True by done. simpl. lia.
  - rewrite filter_cons_False by (by rewrite Hkeep). lia.
Qed.

(** The loop of [dense_masked] treats its two matrices alike. *)
Lemma dense_masked_loop (mask : Mask) (Zmat theta_matrix : DenseMatrix)
    (indices : list Z) (masked_Z masked_Theta : DenseMatrix) (real_index : Z) :
  fold_left
    (fun (st : DenseMatrix * DenseMatrix * Z) i =>
       let '(masked_Z, masked_Theta, real_index) := st in
       if mask_value_at mask i then
         (fold_left
            (fun masked_Z j => dense_set masked_Z j real_index (dense_get Zmat j i))
            (Zrange (no_rows Zmat)) masked_Z,
          fold_left
            (fun masked_Theta j =>
               dense_set masked_Theta j real_index (dense_get theta_matrix j i))
            (Zrange (no_rows theta_matrix)) masked_Theta,
          real_index + 1)
       else st)
    indices (masked_Z, masked_Theta, real_index) =
  (fst (gather_columns mask Zmat indices (masked_Z, real_index)),
   fst (gather_columns mask theta_matrix indices (masked_Theta, real_index)),
   snd (gather_columns mask Zmat indices (masked_Z, real_index))).
Proof.
  unfold gather_columns.
  revert masked_Z masked_Theta real_index.
  induction indices as [|i indices IH]; intros masked_Z masked_Theta real_index;
    cbn [fold_left fst snd]; [done|].
  destruct (mask_value_at mask i); apply IH.
Qed.

(** The kept columns of a matrix, gathered. *)
Lemma gather_columns_get (mask : Mask) (source : DenseMatrix) (indices : list Z)
    (masked : DenseMatrix) (real_index : Z) (j r : Z) :
  dense_wf masked ->
  no_rows masked = no_rows source ->
  0 <= real_index ->
  real_index + Z.of_nat (length (filter (fun i => mask_value_at mask i = true) indices))
    <= no_columns masked ->
  0 <= j < no_rows source -> 0 <= r < no_columns masked ->
  same_shape masked (fst (gather_columns mask source indices (masked, real_index))) /\
  dense_get (fst (gather_columns mask source indices (masked, real_index))) j r =
  if decide (real_index <= r <
             real_index +
             Z.of_nat (length (filter (fun i => mask_value_at mask i = true) indices)))
  then dense_get source j
         (rget (filter (fun i => mask_value_at mask i = true) indices)
               (r - real_index) 0)
  else dense_get masked j r.
Proof.
  unfold gather_columns.
  revert masked real_index. induction indices as [|i indices IH];
    intros masked real_index Hwf Hrows Hreal Hroom Hj Hr; cbn [fold_left fst snd].
  - split; [apply same_shape_refl|]. simpl.
    destruct (decide (real_index <= r < real_index + Z.of_nat 0)); [lia | done].
  - destruct (mask_value_at mask i) eqn:Hkeep.
    + rewrite filter_cons_True in * by done. cbn [length] in *.
      set (masked1 := fold_left
                        (fun masked j => dense_set masked j real_index (dense_get source j i))
                        (Zrange (no_rows source)) masked).
      assert (Hcol : forall j' r', 0 <= j' < no_rows masked -> 0 <= r' < no_columns masked ->
                same_shape masked masked1 /\
                dense_get masked1 j' r' =
                if decide (r' = real_index /\ j' ∈ Zrange (no_rows source))
                then dense_get source j' i else dense_get masked j' r').
      { intros j' r' Hj' Hr'.
        apply (write_column_get (fun j => dense_get source j i)); try done.
        - apply NoDup_Zrange.
        - intros k Hk. apply elem_of_Zrange in Hk. lia.
        - lia. }
      destruct (Hcol j r) as [Hshape Hget1]; [lia | done|].
      pose proof Hshape as (Hr1 & Hc1 & _ & _).
      destruct (IH masked1 (real_index + 1)) as [Hshape' Hget];
        rewrite ?Hr1, ?Hc1; try done; try lia.
      { by eapply same_shape_wf. }
      split; [by eapply same_shape_trans|].
      rewrite Hget. clear Hget.
      destruct (decide (real_index + 1 <= r <
                        real_index + 1 +
                        Z.of_nat (length (filter (fun i0 => mask_value_at mask i0 = true)
                                                 indices)))) as [Hin|Hout].
      * destruct (decide (real_index <= r <
                          real_index +
                          Z.of_nat (S (length (filter (fun i0 => mask_value_at mask i0 = true)
                                                      indices))))) as [|Hn]; [|lia].
        rewrite rget_cons_succ by lia. do 2 f_equal. lia.
      * rewrite Hget1.
        destruct (decide (r = real_index /\ j ∈ Zrange (no_rows source))) as [[-> _]|Hn].
        -- destruct (decide (real_index <= real_index <
                             real_index +
                             Z.of_nat (S (length (filter
                                                    (fun i0 => mask_value_at mask i0 = true)
                                                    indices))))) as [|Hn]; [|lia].
           by rewrite Z.sub_diag.
        -- assert (Hne : r <> real_index).
           { intros ->. apply Hn. split; [done|]. by apply elem_of_Zrange. }
           destruct (decide (real_index <= r <
                             real_index +
                             Z.of_nat (S (length (filter
                                                    (fun i0 => mask_value_at mask i0 = true)
                                                    indices))))); [lia | done].
    + rewrite filter_cons_False in * by (by rewrite Hkeep).
      by apply IH.
Qed.

(** X27. Under a mask the dense path works on the columns of the items the
    mask keeps, and on those alone: the masked copies of [Z] and of
    [Theta] have one column per kept item, and their column [r] is the
    column of the [r]-th kept item, in the order of the items. *)
Theorem dense_masked_columns (mask : Mask) (Zmat theta_matrix : DenseMatrix) (j r : Z) :
  0 <= no_rows Zmat -> 0 <= no_rows theta_matrix ->
  0 <= r < rsize (kept_items mask) ->
  let masked := dense_masked mask Zmat theta_matrix in
  no_rows (fst masked) = no_rows Zmat /\
  no_columns (fst masked) = rsize (kept_items mask) /\
  no_rows (snd masked) = no_rows theta_matrix /\
  no_columns (snd masked) = rsize (kept_items mask) /\
  (0 <= j < no_rows Zmat ->
   dense_get (fst masked) j r = dense_get Zmat j (rget (kept_items mask) r 0)) /\
  (0 <= j < no_rows theta_matrix ->
   dense_get (snd masked) j r = dense_get theta_matrix j (rget (kept_items mask) r 0)).
Proof.
  intros HrowsZ HrowsT Hr masked. unfold masked, dense_masked.
  rewrite dense_masked_count. rewrite Z.add_0_l. fold (kept_items mask). fold (rsize (kept_items mask)).
  rewrite dense_masked_loop. cbn [fst snd].
  set (C := rsize (kept_items mask)) in *.
  assert (HwfZ : dense_wf (DenseMatrix_new (no_rows Zmat) C true)).
  { apply DenseMatrix_new_wf; lia. }
  assert (HwfT : dense_wf (DenseMatrix_new (no_rows theta_matrix) C true)).
  { apply DenseMatrix_new_wf; lia. }
  assert (Hgather : forall source, 0 <= no_rows source ->
            (no_rows (fst (gather_columns mask source (Zrange (rsize (mask_value mask)))
                             (DenseMatrix_new (no_rows source) C true, 0))) =
               no_rows source /\
             no_columns (fst (gather_columns mask source (Zrange (rsize (mask_value mask)))
                                (DenseMatrix_new (no_rows source) C true, 0))) = C) /\
            (0 <= j < no_rows source ->
             dense_get (fst (gather_columns mask source (Zrange (rsize (mask_value mask)))
                               (DenseMatrix_new (no_rows source) C true, 0))) j r =
             dense_get source j (rget (kept_items mask) r 0))).
  { intros source Hrows.
    assert (Hwf : dense_wf (DenseMatrix_new (no_rows source) C true)).
    { apply DenseMatrix_new_wf; lia. }
    split.
    - destruct (Z_le_gt_dec (no_rows source) 0) as [Hle|Hgt].
      + assert (Hsame : forall indices st,
                  gather_columns mask source indices st =
                  (fst st, snd (gather_columns mask source indices st))).
        { unfold gather_columns. rewrite Zrange_nonpos by done.
          induction indices as [|i indices IH]; intros [M n];
            cbn [fold_left fst snd]; [done|].
          destruct (mask_value_at mask i); apply IH. }
        rewrite Hsame. done.
      + destruct (gather_columns_get mask source (Zrange (rsize (mask_value mask)))
                    (DenseMatrix_new (no_rows source) C true) 0 0 r)
          as [(Hr1 & Hc1 & _ & _) _]; try done; try (simpl; lia).
    - intros Hj.
      destruct (gather_columns_get mask source (Zrange (rsize (mask_value mask)))
                  (DenseMatrix_new (no_rows source) C true) 0 j r)
        as [_ Hget]; try done; try (simpl; lia).
      rewrite Hget. clear Hget.
      change (filter (fun i => mask_value_at mask i = true)
                     (Zrange (rsize (mask_value mask)))) with (kept_items mask).
      change (Z.of_nat (length (kept_items mask))) with C.
      destruct (decide (0 <= r < 0 + C)); [|lia].
      by rewrite Z.sub_0_r. }
  destruct (Hgather Zmat HrowsZ) as [[HrZ HcZ] HgetZ].
  destruct (Hgather theta_matrix HrowsT) as [[HrT HcT] HgetT].
  done.
Qed.

Lemma dense_masked_columns_witness :
  let masked := dense_masked mask_of_two sample_row_major sample_column_major in
  no_rows (fst masked) = no_rows sample_row_major /\
  no_columns (fst masked) = rsize (kept_items mask_of_two) /\
  no_rows (snd masked) = no_rows sample_column_major /\
  no_columns (snd masked) = rsize (kept_items mask_of_two) /\
  (0 <= 1 < no_rows sample_row_major ->
   dense_get (fst masked) 1 1 =
     dense_get sample_row_major 1 (rget (kept_items mask_of_two) 1 0)) /\
  (0 <= 1 < no_rows sample_column_major ->
   dense_get (snd masked) 1 1 =
     dense_get sample_column_major 1 (rget (kept_items mask_of_two) 1 0)).
Proof.
  apply (dense_masked_columns mask_of_two sample_row_major sample_column_major 1 1).
  - simpl. lia.
  - simpl. lia.
  - vm_compute. split; [discriminate | reflexivity].
Defined.

(** The sample mask keeps items 0 and 2: the masked copy of the matrix
    [[1 2 3] [4 5 6]] is [[1 3] [4 6]]. *)
Example sample_masked_columns :
  kept_items mask_of_two = [0; 2] /\
  get_data (fst (dense_masked mask_of_two sample_row_major sample_column_major)) =
    map Float32.of_int [1; 3; 4; 6].
Proof. vm_compute. split; reflexivity. Qed.
